(* ===== verification/_CoqProject ===== *)
-Q . S2P
Prelude.v
State.v
Monad.v
Spinlock.v
Console.v
Kalloc.v
Str.v
Vm.v
VmProofs.v
VmUser.v
VmCopy.v
Umem.v
Sched.v
Interfere.v
Ipc.v
Container.v
Syscall.v
Sleeplock.v
Calm.v
Disk.v
Bio.v
BioProofs.v
Log.v
LogLayout.v
LogProofs.v
Inode.v
BlockProofs.v
InodeProofs.v
ConsoleDev.v
Fs.v
Mkfs.v
FileProofs.v
Pipe.v
File.v
WriteProofs.v
DirProofs.v
MkfsProofs.v
BootProofs.v
Exec.v
Proc.v
Sysproc.v
Sysfile.v
Trap.v
Example.v
ExampleFs.v
PropBase.v
PropVm.v
PropIpc.v
PropProc.v
PropFs.v
PropMkfs.v
Kbd.v
Mp.v
Devices.v
Bootmain.v
Ulib.v
Grep.v
GrepProofs.v
Umalloc.v
UmallocProofs.v
Sh.v
ShProofs.v
ShPrint.v
ShRun.v
PropUser.v
PropBoot.v
Programs.v
ProgramsProofs.v
Main.v
