(* ===== verification/Prelude.v ===== *)
(** * A verification of the container-enabled xv6 kernel

    The program (src/xv6) is xv6, a small Unix for i386, extended with message passing between
    processes, system-call tracing and containers.  This library models the kernel, its boot loader,
    the tool that makes its file-system image, the user library, the shell and the user programs as
    executable definitions, each named after the C function it translates, and proves what makes
    the parts correct; where the code does not do what it means to, a theorem says what it does.

    ** The model

    The whole kernel state is one record, [kstate] (State.v): spin locks and processors, physical
    memory, process table, console, message queues, containers, file-system tables, disk.  C
    integers are integers of Z kept in the range of their type by explicit wrap-around (u8, u32,
    s32 below); physical memory is a map of words, so that page tables and the list of free pages
    lie in it as they do in the machine.  A kernel function is a value of the monad
    [M A := env -> kstate -> outcome A] (Monad.v): it returns a value and a state, panics,
    waits, hangs, or shows behaviour that C leaves undefined (an index outside its array, a null
    pointer).  The environment is a list of state changes by other threads, processors and
    devices; a function consumes one where it gives up the processor (swtch, a spin on a held
    lock, a wait for the disk).  Between such points the others do not run, except in Interfere.v,
    which lets them run around every lock operation of sleep.  So interleavings are explicit and a function that waits is a
    total definition; loops that wait have as fuel the length of the environment, which each turn
    shortens, and other loops have a bound from their data: the number of turns is shown next to
    the definition, and the theorems show that it suffices.

    What runs outside the kernel has a state of its own.  The boot loader and the search for the
    multiprocessor tables run on any byte memory (the class [ByteMem] of Str.v); device registers
    are the record [devices]; mkfs works on the image as a list of blocks; the heap of a user
    program is a map of words; the shell's parser works on the array of the line; a user program
    is an interaction tree over the system calls (Programs.v), which the shell's runcmd writes out
    as the inductive type [prog], since it always ends.

    ** Files and code

    - Prelude, State, Monad: integers, lists, tactics and hints; the headers param.h, memlayout.h,
      mmu.h, proc.h, file.h, fs.h, buf.h as constants and records; the monad.
    - Spinlock (spinlock.c, mycpu and myproc of proc.c), Console (console.c output, uart.c),
      ConsoleDev (console.c input and device), Kalloc (kalloc.c), Str (string.c).
    - Vm (vm.c), with VmProofs (page tables), VmUser (address spaces), VmCopy (copyuvm) and Umem
      (kernel accesses to user memory).
    - Sched (scheduler, sleep, wakeup, kill, allocproc of proc.c), Interfere (sleep with the other
      processors at work between its lock operations), Proc (fork, exit, wait), Ipc (message queues), Container (containers), Syscall (syscall.c and the tracing of proc.c),
      Sysproc (sysproc.c), Sysfile (sysfile.c), Trap (trap.c), Exec (exec.c).
    - Sleeplock (sleeplock.c), Disk (ide.c and memide.c behind the class [BlockDriver]), Bio
      (bio.c), Log (log.c), Inode and Fs (fs.c), Pipe (pipe.c), File (file.c, pipealloc).
    - Calm: execution of file-system code in a process nobody contends with.  BioProofs,
      LogLayout, LogProofs, BlockProofs, InodeProofs, FileProofs, WriteProofs: the buffer cache,
      the log, the bitmap, inodes, the contents of files, filewrite.  The class [DriverOk] is what
      a disk driver promises to the cache; the memory disk is an instance, and all file-system
      theorems are proved against the class.
    - Mkfs (mkfs.c); DirProofs and MkfsProofs (the image that mkfs makes), BootProofs (a kernel that
      boots from it and looks a file up).
    - Bootmain (bootmain.c), Main (main.c), Mp (mp.c, mp.h), Devices (lapic.c, ioapic.c, picirq.c,
      uart.c), Kbd (kbd.c, kbd.h).
    - Ulib (ulib.c, printf.c), Umalloc (umalloc.c) with UmallocProofs, Grep (grep.c) with
      GrepProofs, Sh (sh.c) with ShProofs (totality and typing of the parser), ShPrint (parsing of
      printed commands) and ShRun (the processes and files of a command), Programs (cat.c, wc.c,
      echo.c, grep.c, ls.c, init.c and the other small programs) with ProgramsProofs.
    - Example and ExampleFs: concrete states on which the theorems are instantiated.
    - PropBase, PropVm, PropIpc, PropProc, PropFs, PropMkfs, PropBoot, PropUser: the properties.

    ** What the theorems show

    - Memory (PropBase, PropVm): pages handed out by kalloc are never handed out again before they
      are freed, whatever the kernel writes into its pages; setupkvm, allocuvm, deallocuvm, freevm
      and copyuvm implement address spaces as finite maps from pages to frames and keep address
      spaces disjoint.  On their error paths no page is lost: copyuvm frees all it took, allocuvm
      all but the page tables it added, which stay part of the address space until freevm.
    - Locks and processes (PropBase, PropProc): nesting of spin locks and the interrupt flag;
      sleep cannot lose a wakeup, whatever the other processors do between its lock operations as
      long as they change the condition waited for only under the lock of its caller and wake
      its sleepers then; the dispatcher runs the handler of the call's number, with the counters of
      the trace on or off; process identifiers stay unique; system-call arguments are
      checked exactly.
    - Messages and containers (PropIpc): queues are bounded FIFOs, containers an allocator of
      identifiers; and the defects of send, recv and join_container.
    - Files (PropFs): the cache is coherent with the disk; a commit is atomic under a crash after
      any number of block writes followed by recovery; filewrite puts the data in the file, on
      the disk, and touches nothing else, and a crash leaves a prefix of the data; writei and
      readi, iupdate and ilock, balloc and bfree are inverse to each other; and three operations
      that begin_op admits can overflow the log.
    - Images (PropMkfs): a kernel that boots from an image of mkfs finds every file under its name
      with its contents; and the hole that mkfs leaves in some root directories.
    - Boot (PropBoot, with lemmas in Main, Devices, Kbd): bootmain loads every segment and clears
      what follows it; mpinit finds the processors, or never ends on an unknown table entry; a
      started processor finds its stack, entry point and page directory below its code, on a page
      that is off the free list; interrupts are masked until they are routed; every typable
      character has its key.
    - Shell (PropUser): the parser returns or exits on every line, its commands are well formed and
      denote the line, and the processes of a line get exactly the files and pipes it asks for;
      the shell processes that wait for them hold no end of a pipe.
    - User memory (PropUser): malloc and free keep the blocks in use apart and unchanged.
    - User programs (PropUser, ProgramsProofs): grep's matcher decides the language of the pattern,
      grep prints the matching lines of a file with short lines and loses a piece of a line that
      comes in two reads; cat concatenates its files, wc counts however reads cut the text, rm stops
      at the first missing name, init never exits.

    Theorems about file-system operations hold of executions that no other thread contends with
    (the record [calm]): sleep locks are free or held by the process itself.  Theorems about
    locks, send and recv are about arbitrary environments, which step where these functions wait;
    the theorem about sleep is about environments that also step around its lock operations.

    ** Not modelled

    Assembly (bootasm.S, entry.S, entryother.S, swtch.S, trapasm.S, vectors.S, usys.S) appears only
    through what it does to the state.  Port reads of the devices are given values, and waiting
    loops on device registers are left out.  usertests.c and testblock.c only exercise the kernel.
    container_malloc of proc.c, signal.c and add.c do not compile or link and have no behaviour to
    model.  Concurrent executions of file-system operations are outside the theorems, though not
    outside the model. *)

From Stdlib Require Import ZArith Lia.
From stdpp Require Import base list gmap strings fin_maps.
Open Scope Z_scope.

(** ** Machine integers

    A C integer of width [w] is a [Z] in the range of its type; the conversions below are the
    wrap-around the i386 target performs. *)

Definition u8 (z : Z) : Z := z mod 2 ^ 8.
Definition u16 (z : Z) : Z := z mod 2 ^ 16.
Definition u32 (z : Z) : Z := z mod 2 ^ 32.
Definition s8 (z : Z) : Z := (z + 2 ^ 7) mod 2 ^ 8 - 2 ^ 7.
Definition s16 (z : Z) : Z := (z + 2 ^ 15) mod 2 ^ 16 - 2 ^ 15.
Definition s32 (z : Z) : Z := (z + 2 ^ 31) mod 2 ^ 32 - 2 ^ 31.

Definition is_u8 (z : Z) : Prop := 0 <= z < 2 ^ 8.
Definition is_u32 (z : Z) : Prop := 0 <= z < 2 ^ 32.
Definition is_s32 (z : Z) : Prop := - 2 ^ 31 <= z < 2 ^ 31.

(** The truth value of a C condition as an [int]. *)
Definition b2z (b : bool) : Z := if b then 1 else 0.

(** ** Scopes, hint databases and tactics *)

Declare Scope xv6_scope.
Delimit Scope xv6_scope with xv6.
Open Scope xv6_scope.

Create HintDb xv6.
Create Rewrite HintDb sync.

(** Splits every boolean comparison of the goal and the context into its arithmetic content. *)
Ltac bool_arith :=
  repeat match goal with
  | H : context [Z.eqb ?a ?b] |- _ => destruct (Z.eqb_spec a b); try (subst; discriminate)
  | H : context [Z.ltb ?a ?b] |- _ => destruct (Z.ltb_spec a b)
  | H : context [Z.leb ?a ?b] |- _ => destruct (Z.leb_spec a b)
  | |- context [Z.eqb ?a ?b] => destruct (Z.eqb_spec a b)
  | |- context [Z.ltb ?a ?b] => destruct (Z.ltb_spec a b)
  | |- context [Z.leb ?a ?b] => destruct (Z.leb_spec a b)
  end; simpl in *.

(** The same on the goal only, leaving the hypotheses as they are. *)
Ltac goal_bools :=
  repeat match goal with
  | |- context [Z.eqb ?a ?b] => destruct (Z.eqb_spec a b)
  | |- context [Z.ltb ?a ?b] => destruct (Z.ltb_spec a b)
  | |- context [Z.leb ?a ?b] => destruct (Z.leb_spec a b)
  end; cbn [andb orb negb].

(** Ranges of the conversions: unfolds them and decides by linear arithmetic with [mod]. *)
Ltac cint :=
  unfold is_u8, is_u32, is_s32, u8, u16, u32, s8, s16, s32, b2z in *;
  change (2 ^ 7) with 128 in *; change (2 ^ 8) with 256 in *;
  change (2 ^ 15) with 32768 in *; change (2 ^ 16) with 65536 in *;
  change (2 ^ 31) with 2147483648 in *; change (2 ^ 32) with 4294967296 in *;
  Z.div_mod_to_equations; lia.

Lemma u8_range z : is_u8 (u8 z).
Proof. cint. Qed.
Lemma u32_range z : is_u32 (u32 z).
Proof. cint. Qed.
Lemma s32_range z : is_s32 (s32 z).
Proof. cint. Qed.
Lemma u8_small z : is_u8 z -> u8 z = z.
Proof. intros. cint. Qed.
Lemma u32_small z : is_u32 z -> u32 z = z.
Proof. intros. cint. Qed.
Lemma s32_small z : is_s32 z -> s32 z = z.
Proof. intros. cint. Qed.
Lemma s32_u32 z : s32 (u32 z) = s32 z.
Proof. cint. Qed.
Lemma u32_s32 z : u32 (s32 z) = u32 z.
Proof. cint. Qed.
Lemma u32_add_l a b : u32 (u32 a + b) = u32 (a + b).
Proof. unfold u32. apply Zplus_mod_idemp_l. Qed.
Lemma u32_add_r a b : u32 (a + u32 b) = u32 (a + b).
Proof. unfold u32. apply Zplus_mod_idemp_r. Qed.
Lemma u32_sub_l a b : u32 (u32 a - b) = u32 (a - b).
Proof. unfold u32. apply Zminus_mod_idemp_l. Qed.
Lemma u32_sub_r a b : u32 (a - u32 b) = u32 (a - b).
Proof. unfold u32. apply Zminus_mod_idemp_r. Qed.

#[export] Hint Resolve u8_range u32_range s32_range : xv6.

(** ** Bit fields *)

Lemma land_shiftl_low a b n :
  0 <= n -> 0 <= b < 2 ^ n -> Z.land (Z.shiftl a n) b = 0.
Proof.
  intros Hn Hb. apply Z.bits_inj'. intros i Hi. rewrite Z.land_spec, Z.bits_0.
  destruct (Z.lt_ge_cases i n).
  - by rewrite Z.shiftl_spec_low.
  - rewrite <-(Z.mod_small b (2 ^ n)) by done.
    rewrite Z.mod_pow2_bits_high by lia. apply andb_false_r.
Qed.

Lemma lor_shiftl_add a b n :
  0 <= n -> 0 <= b < 2 ^ n -> Z.lor (Z.shiftl a n) b = a * 2 ^ n + b.
Proof.
  intros Hn Hb. pose proof (land_shiftl_low a b n Hn Hb) as H.
  rewrite <-Z.shiftl_mul_pow2 by done.
  by rewrite Z.add_nocarry_lxor, Z.lxor_lor.
Qed.

(** A 16-bit value is put together from its two bytes. *)
Lemma join_bytes z :
  0 <= z < 2 ^ 16 -> Z.lor (Z.shiftl (u8 (Z.shiftr z 8)) 8) (u8 z) = z.
Proof.
  intros Hz. rewrite lor_shiftl_add by (try apply u8_range; lia).
  rewrite Z.shiftr_div_pow2 by lia. change (2 ^ 8) with 256. cint.
Qed.

(** ** Record update

    [r <| f := v |>] and [r <| f ::= g |>] are the C assignments [r.f = v] and [r.f = g(r.f)].
    A record type provides its [Eta] expansion once; the setter of each field is computed. *)

Class Eta (R : Type) := eta : R -> R.
Class Setter {R T : Type} (proj : R -> T) := setter : (T -> T) -> R -> R.
Definition upd {R T : Type} (proj : R -> T) {st : Setter proj} : (T -> T) -> R -> R := st.

Ltac build_setter :=
  match goal with
  | |- @Setter ?R ?T ?proj =>
      let f := fresh "f" in
      let r := fresh "r" in
      intros f r;
      let e := constr:(@eta R _ r) in
      let e := eval lazy [eta] in e in
      let e := eval hnf in e in
      match eval pattern (proj r) in e with
      | ?g _ => let t := eval cbv beta in (g (f (proj r))) in exact t
      end
  end.
#[export] Hint Extern 1 (Setter _) => build_setter : typeclass_instances.

(** Reads through record updates: [f (r <| f ::= g |>)] is [g (f r)], another field is [r]'s. *)
Ltac fields :=
  repeat match goal with
  | |- context [?p (@upd ?R ?T ?q ?st ?f ?r)] =>
      is_const p;
      first [ change (p (@upd R T q st f r)) with (f (p r))
            | change (p (@upd R T q st f r)) with (p r) ];
      cbv beta
  end.

(** Replaces the right-hand side of an equation by its field-by-field expansion. *)
Ltac eta_rhs :=
  lazymatch goal with
  | |- _ = ?r =>
      let R := type of r in
      let e := eval lazy [eta] in (@eta R _ r) in
      let e := eval hnf in e in
      transitivity e; [|by destruct r]
  end.

Ltac eta_lhs := symmetry; eta_rhs; symmetry.

Notation "r <| p := v |>" := (upd p (fun _ => v) r)
  (at level 1, left associativity, p at level 11, v at level 200,
   format "r  <|  p  :=  v  |>") : xv6_scope.
Notation "r <| p ::= f |>" := (upd p f r)
  (at level 1, left associativity, p at level 11, f at level 200,
   format "r  <|  p  ::=  f  |>") : xv6_scope.

(** ** Array scans

    [findi P l] is the loop [for(i = 0; i < n; i++) if(P(l[i])) break;], the idiom by which the
    kernel searches every fixed-size table. *)

Fixpoint findi {A : Type} (P : A -> bool) (l : list A) : option nat :=
  match l with
  | [] => None
  | x :: l' => if P x then Some 0%nat else S <$> findi P l'
  end.

Section findi.
Context {A : Type} (P : A -> bool).

Lemma findi_Some (l : list A) i :
  findi P l = Some i <->
  (exists x, l !! i = Some x /\ P x = true) /\
  (forall j y, (j < i)%nat -> l !! j = Some y -> P y = false).
Proof.
  revert i. induction l as [|x l IH]; intros i; simpl.
  { split; [done|]. intros [(? & ? & _) _]. by rewrite lookup_nil in H. }
  destruct (P x) eqn:HP.
  - split.
    + intros [= <-]. split; [by exists x|]. intros; lia.
    + intros [_ Hlt]. destruct i as [|i]; [done|].
      specialize (Hlt 0%nat x ltac:(lia) eq_refl). congruence.
  - destruct i as [|i]; simpl.
    + split.
      * destruct (findi P l); discriminate.
      * intros [(y & [= <-] & Hy) _]. congruence.
    + transitivity (findi P l = Some i).
      { destruct (findi P l); simpl; split; congruence. }
      rewrite IH. split; intros [Hx Hlt]; split; auto.
      * intros [|j] y Hj; simpl; [by intros [= <-] | apply Hlt; lia].
      * intros j y Hj. apply (Hlt (S j)); lia.
Qed.

Lemma findi_None (l : list A) :
  findi P l = None <-> forall i x, l !! i = Some x -> P x = false.
Proof.
  induction l as [|x l IH]; simpl.
  { split; [intros _ i x; by rewrite lookup_nil | done]. }
  destruct (P x) eqn:HP.
  - split; [discriminate|]. intros H. specialize (H 0%nat x eq_refl). congruence.
  - transitivity (findi P l = None).
    { destruct (findi P l); simpl; split; congruence. }
    rewrite IH. split.
    + intros H [|i] y; simpl; [by intros [= <-] | apply H].
    + intros H i y. apply (H (S i)).
Qed.

Lemma findi_lt (l : list A) i : findi P l = Some i -> (i < length l)%nat.
Proof. intros [(x & Hx & _) _]%findi_Some. by apply lookup_lt_Some in Hx. Qed.

Lemma findi_is_Some (l : list A) i x :
  l !! i = Some x -> P x = true -> exists j, findi P l = Some j.
Proof.
  intros Hx HP. destruct (findi P l) as [j|] eqn:E; [by exists j|].
  rewrite findi_None in E. specialize (E _ _ Hx). congruence.
Qed.
End findi.

Lemma findi_fmap {A B} (P : B -> bool) (f : A -> B) l : findi P (f <$> l) = findi (fun x => P (f x)) l.
Proof. induction l as [|x l IH]; [done|]. cbn. rewrite IH. by destruct (P (f x)). Qed.

(** ** Arrays

    A C array is a list of its declared length.  [nthz d l i] reads it at a [Z] index; the
    operations that index out of range are given an explicit outcome by their callers. *)

Definition nthz {A : Type} (d : A) (l : list A) (i : Z) : A :=
  if i <? 0 then d else default d (l !! Z.to_nat i).

Definition in_range (i n : Z) : bool := (0 <=? i) && (i <? n).

Lemma in_range_spec i n : in_range i n = true <-> 0 <= i < n.
Proof. unfold in_range. bool_arith; split; try done; lia. Qed.

(** An element at a [Z] index, if there is one. *)
Definition lookupz {A : Type} (l : list A) (i : Z) : option A :=
  if i <? 0 then None else l !! Z.to_nat i.

Lemma lookupz_nat {A} (l : list A) (i : nat) : lookupz l (Z.of_nat i) = l !! i.
Proof. unfold lookupz. destruct (Z.ltb_spec (Z.of_nat i) 0); [lia|]. by rewrite Nat2Z.id. Qed.

Lemma lookupz_Some {A} (l : list A) i x :
  lookupz l i = Some x -> 0 <= i < Z.of_nat (length l) /\ l !! Z.to_nat i = Some x.
Proof.
  unfold lookupz. destruct (Z.ltb_spec i 0); [done|]. intros Hx.
  split; [apply lookup_lt_Some in Hx; lia|done].
Qed.

Lemma lookupz_is_Some {A} (l : list A) i :
  0 <= i < Z.of_nat (length l) -> is_Some (lookupz l i).
Proof.
  intros Hi. unfold lookupz. destruct (Z.ltb_spec i 0); [lia|]. apply lookup_lt_is_Some. lia.
Qed.

(** The indices [lo, lo+1, ..., hi-1] of a counting loop. *)
Definition range (lo hi : Z) : list Z := seqZ lo (hi - lo).

(** An update that leaves the element at its index unchanged changes nothing. *)
Lemma alter_fix {A} (f : A -> A) (l : list A) i :
  (forall x, l !! i = Some x -> f x = x) -> alter f i l = l.
Proof.
  intros H. apply list_eq. intros j. destruct (decide (i = j)) as [<-|Hne].
  - rewrite list_lookup_alter_eq. destruct (l !! i) eqn:E; simpl; [by rewrite H | done].
  - by rewrite list_lookup_alter_ne.
Qed.
