(* ===== verification/State.v ===== *)
(** * The kernel's data: constants, structures and the global state

    The records below are the C structures of the kernel, field by field; [kstate] gathers its
    global variables.  Pointers into a static array are indices ([option nat], [None] for the
    null pointer); pointers into memory handed out by [kalloc] are kernel virtual addresses.
    Debugging fields that no code reads back (lock names and saved program counters, paddings,
    [struct context], whose only use is inside swtch.S) have no counterpart. *)

From stdpp Require Import base list gmap strings fin_maps.
From S2P Require Import Prelude.
Open Scope Z_scope.

(** ** Constants: param.h, mmu.h, memlayout.h, fs.h, buf.h, stat.h, fcntl.h *)

Definition NPROC : Z := 64.
Definition KSTACKSIZE : Z := 4096.
Definition NCPU : Z := 8.
Definition NOFILE : Z := 16.
Definition NFILE : Z := 100.
Definition NINODE : Z := 50.
Definition NDEV : Z := 10.
Definition ROOTDEV : Z := 1.
Definition MAXARG : Z := 32.
Definition MAXOPBLOCKS : Z := 10.
Definition LOGSIZE : Z := MAXOPBLOCKS * 3.
Definition NBUF : Z := MAXOPBLOCKS * 3.
Definition FSSIZE : Z := 1000.
Definition MSGBUFFSIZE : Z := 200.
Definition MSGSIZE : Z := 8.
Definition NCONTAINER : Z := 2.
Definition NPROC_CONTAINER : Z := 2.
Definition MAX_PAGES : Z := 8.
Definition MAX_FILES : Z := 8.

Definition PGSIZE : Z := 4096.
Definition EXTMEM : Z := 0x100000.
Definition PHYSTOP : Z := 0xE000000.
Definition DEVSPACE : Z := 0xFE000000.
Definition KERNBASE : Z := 0x80000000.
Definition KERNLINK : Z := KERNBASE + EXTMEM.
Definition V2P (a : Z) : Z := u32 (a - KERNBASE).
Definition P2V (a : Z) : Z := u32 (a + KERNBASE).

Definition ROOTINO : Z := 1.
Definition BSIZE : Z := 512.
Definition NDIRECT : Z := 12.
Definition NINDIRECT : Z := BSIZE / 4.
Definition MAXFILE : Z := NDIRECT + NINDIRECT.
Definition DIRSIZ : Z := 14.
Definition PIPESIZE : Z := 512.
Definition INPUT_BUF : Z := 128.

(** ** Identities of locks and wait channels

    The kernel compares lock and channel addresses; every address it uses so is one of these. *)

Inductive sleepid := SL_buf (i : nat) | SL_inode (i : nat).

Inductive lockid :=
| L_ptable | L_msgq (i : nat) | L_tick | L_kmem | L_cons | L_bcache | L_icache | L_ftable
| L_log | L_ide | L_pipe (a : Z) | L_sleep (sl : sleepid).

Inductive chan :=
| Ch_proc (i : nat) | Ch_ticks | Ch_nread (a : Z) | Ch_nwrite (a : Z) | Ch_buf (i : nat)
| Ch_sleep (sl : sleepid) | Ch_log | Ch_input.

#[export] Instance sleepid_eq_dec : EqDecision sleepid.
Proof. solve_decision. Defined.
#[export] Instance lockid_eq_dec : EqDecision lockid.
Proof. solve_decision. Defined.
#[export] Instance chan_eq_dec : EqDecision chan.
Proof. solve_decision. Defined.

Definition sleepid_code (sl : sleepid) : nat + nat :=
  match sl with SL_buf i => inl i | SL_inode i => inr i end.
Definition sleepid_decode (c : nat + nat) : sleepid :=
  match c with inl i => SL_buf i | inr i => SL_inode i end.
#[export] Instance sleepid_countable : Countable sleepid.
Proof. by refine (inj_countable' sleepid_code sleepid_decode _); intros []. Defined.

Definition lockid_code (l : lockid) : nat * Z + sleepid :=
  match l with
  | L_ptable => inl (0%nat, 0) | L_tick => inl (1%nat, 0) | L_kmem => inl (2%nat, 0)
  | L_cons => inl (3%nat, 0) | L_bcache => inl (4%nat, 0) | L_icache => inl (5%nat, 0)
  | L_ftable => inl (6%nat, 0) | L_log => inl (7%nat, 0) | L_ide => inl (8%nat, 0)
  | L_msgq i => inl (9%nat, Z.of_nat i) | L_pipe a => inl (10%nat, a)
  | L_sleep sl => inr sl
  end.
Definition lockid_decode (c : nat * Z + sleepid) : lockid :=
  match c with
  | inl (0%nat, _) => L_ptable | inl (1%nat, _) => L_tick | inl (2%nat, _) => L_kmem
  | inl (3%nat, _) => L_cons | inl (4%nat, _) => L_bcache | inl (5%nat, _) => L_icache
  | inl (6%nat, _) => L_ftable | inl (7%nat, _) => L_log | inl (8%nat, _) => L_ide
  | inl (9%nat, i) => L_msgq (Z.to_nat i) | inl (_, a) => L_pipe a
  | inr sl => L_sleep sl
  end.
#[export] Instance lockid_countable : Countable lockid.
Proof.
  refine (inj_countable' lockid_code lockid_decode _).
  intros []; simpl; rewrite ?Nat2Z.id; done.
Defined.

(** ** x86.h: the trap frame, and mmu.h: segment descriptors and the task state *)

Record trapframe := mkTf {
  edi : Z; esi : Z; ebp : Z; oesp : Z; ebx : Z; edx : Z; ecx : Z; eax : Z;
  gs : Z; fs : Z; es : Z; ds : Z; trapno : Z;
  err : Z; eip : Z; cs : Z; eflags : Z; esp : Z; ss : Z }.
#[export] Instance eta_trapframe : Eta trapframe := fun t =>
  mkTf (edi t) (esi t) (ebp t) (oesp t) (ebx t) (edx t) (ecx t) (eax t)
       (gs t) (fs t) (es t) (ds t) (trapno t) (err t) (eip t) (cs t) (eflags t) (esp t) (ss t).
Definition zero_tf : trapframe := mkTf 0 0 0 0 0 0 0 0 0 0 0 0 0 0 0 0 0 0 0.

Record segdesc := mkSeg {
  lim_15_0 : Z; base_15_0 : Z; base_23_16 : Z; sd_type : Z; sd_s : Z; sd_dpl : Z; sd_p : Z;
  lim_19_16 : Z; sd_avl : Z; sd_rsv1 : Z; sd_db : Z; sd_g : Z; base_31_24 : Z }.
#[export] Instance eta_segdesc : Eta segdesc := fun d =>
  mkSeg (lim_15_0 d) (base_15_0 d) (base_23_16 d) (sd_type d) (sd_s d) (sd_dpl d) (sd_p d)
        (lim_19_16 d) (sd_avl d) (sd_rsv1 d) (sd_db d) (sd_g d) (base_31_24 d).

(** ** proc.h *)

Record cpu := mkCpu {
  apicid : Z;
  gdt : list segdesc;
  ts_esp0 : Z; ts_ss0 : Z; ts_iomb : Z;
  started : Z;
  ncli : Z;                       (* depth of pushcli nesting *)
  intena : bool;                  (* were interrupts enabled before pushcli? *)
  c_proc : option nat }.          (* the process running on this cpu or null *)
#[export] Instance eta_cpu : Eta cpu := fun c =>
  mkCpu (apicid c) (gdt c) (ts_esp0 c) (ts_ss0 c) (ts_iomb c) (started c) (ncli c) (intena c)
        (c_proc c).

Inductive procstate := UNUSED | EMBRYO | SLEEPING | RUNNABLE | RUNNING | ZOMBIE.
#[export] Instance procstate_eq_dec : EqDecision procstate.
Proof. solve_decision. Defined.

Record proc := mkProc {
  p_sz : Z;                       (* size of process memory (bytes) *)
  p_pgdir : Z;                    (* page table, kernel address, 0 when null *)
  p_kstack : Z;                   (* bottom of kernel stack, 0 when null *)
  p_state : procstate;
  p_pid : Z;
  p_parent : option nat;
  p_tf : trapframe;
  p_context : Z;                  (* swtch() here to run process; kernel address *)
  p_chan : option chan;           (* if not None, sleeping on chan *)
  p_killed : Z;
  p_ofile : list (option nat);    (* open files, indices into ftable *)
  p_cwd : option nat;             (* current directory, index into icache *)
  p_name : list Z;                (* char name[16] *)
  p_container_id : Z;
  p_cont : option nat }.          (* index into container_table *)
#[export] Instance eta_proc : Eta proc := fun p =>
  mkProc (p_sz p) (p_pgdir p) (p_kstack p) (p_state p) (p_pid p) (p_parent p) (p_tf p)
         (p_context p) (p_chan p) (p_killed p) (p_ofile p) (p_cwd p) (p_name p) (p_container_id p) (p_cont p).

(** A zeroed [struct proc], as every slot of the statically allocated table is at boot. *)
Definition zero_proc : proc :=
  mkProc 0 0 0 UNUSED 0 None zero_tf 0 None 0 (replicate (Z.to_nat NOFILE) None) None
         (replicate 16 0) 0 None.

Record container := mkContainer {
  ct_id : Z;
  ct_active : Z;
  ct_process_table : list proc;
  ct_process_active : list Z;
  ct_process_pointer : Z;
  ct_page_table : list Z;
  ct_page_active : list Z;
  ct_page_pointer : Z;
  ct_file_descripter : list Z;
  ct_file_active : list Z;
  ct_file_pointer : Z }.
#[export] Instance eta_container : Eta container := fun c =>
  mkContainer (ct_id c) (ct_active c) (ct_process_table c) (ct_process_active c)
              (ct_process_pointer c) (ct_page_table c) (ct_page_active c) (ct_page_pointer c)
              (ct_file_descripter c) (ct_file_active c) (ct_file_pointer c).

Definition zero_container : container :=
  mkContainer 0 0 (replicate (Z.to_nat NPROC_CONTAINER) zero_proc)
    (replicate (Z.to_nat NPROC_CONTAINER) 0) 0
    (replicate (Z.to_nat MAX_PAGES) 0) (replicate (Z.to_nat MAX_PAGES) 0) 0
    (replicate (Z.to_nat MAX_FILES) 0) (replicate (Z.to_nat MAX_FILES) 0) 0.

(** ** proc.c: message queues and the sibling map *)

Record queue := mkQueue {
  q_front : Z;
  q_rear : Z;
  q_size : Z;
  q_capacity : Z;
  q_array : list (list Z) }.      (* char array[MSGBUFFSIZE][8] *)
#[export] Instance eta_queue : Eta queue := fun q =>
  mkQueue (q_front q) (q_rear q) (q_size q) (q_capacity q) (q_array q).
Definition zero_queue : queue :=
  mkQueue 0 0 0 0 (replicate (Z.to_nat MSGBUFFSIZE) (replicate 8 0)).

Record map_store := mkMap { m_b : Z; m_s : Z }.
#[export] Instance eta_map_store : Eta map_store := fun m => mkMap (m_b m) (m_s m).

(** ** pipe.c, file.h, fs.h, buf.h, log.c *)

Record pipe := mkPipe {
  pi_data : list Z; pi_nread : Z; pi_nwrite : Z; pi_readopen : Z; pi_writeopen : Z }.
#[export] Instance eta_pipe : Eta pipe := fun p =>
  mkPipe (pi_data p) (pi_nread p) (pi_nwrite p) (pi_readopen p) (pi_writeopen p).

Inductive filetype := FD_NONE | FD_PIPE | FD_INODE.
#[export] Instance filetype_eq_dec : EqDecision filetype.
Proof. solve_decision. Defined.

Record file := mkFile {
  f_type : filetype; f_ref : Z; f_readable : Z; f_writable : Z;
  f_pipe : Z;                     (* kernel address of the pipe, 0 when null *)
  f_ip : option nat;              (* index into icache *)
  f_off : Z }.
#[export] Instance eta_file : Eta file := fun f =>
  mkFile (f_type f) (f_ref f) (f_readable f) (f_writable f) (f_pipe f) (f_ip f) (f_off f).
Definition zero_file : file := mkFile FD_NONE 0 0 0 0 None 0.

Record inode := mkInode {
  i_dev : Z; i_inum : Z; i_ref : Z; i_valid : Z;
  i_type : Z; i_major : Z; i_minor : Z; i_nlink : Z; i_size : Z; i_addrs : list Z }.
#[export] Instance eta_inode : Eta inode := fun i =>
  mkInode (i_dev i) (i_inum i) (i_ref i) (i_valid i) (i_type i) (i_major i) (i_minor i)
          (i_nlink i) (i_size i) (i_addrs i).
Definition zero_inode : inode :=
  mkInode 0 0 0 0 0 0 0 0 0 (replicate (Z.to_nat (NDIRECT + 1)) 0).

Record superblock := mkSb {
  sb_size : Z; sb_nblocks : Z; sb_ninodes : Z; sb_nlog : Z; sb_logstart : Z;
  sb_inodestart : Z; sb_bmapstart : Z }.
#[export] Instance eta_superblock : Eta superblock := fun b =>
  mkSb (sb_size b) (sb_nblocks b) (sb_ninodes b) (sb_nlog b) (sb_logstart b)
       (sb_inodestart b) (sb_bmapstart b).

Record buf := mkBuf {
  b_flags : Z; b_dev : Z; b_blockno : Z; b_refcnt : Z;
  b_prev : nat; b_next : nat;     (* LRU list; index NBUF is bcache.head *)
  b_data : list Z }.
#[export] Instance eta_buf : Eta buf := fun b =>
  mkBuf (b_flags b) (b_dev b) (b_blockno b) (b_refcnt b) (b_prev b) (b_next b) (b_data b).
Definition zero_buf : buf := mkBuf 0 0 0 0 0 0 (replicate (Z.to_nat BSIZE) 0).

Record logst := mkLog {
  lg_start : Z; lg_size : Z; lg_outstanding : Z; lg_committing : Z; lg_dev : Z;
  lh_n : Z; lh_block : list Z }.
#[export] Instance eta_logst : Eta logst := fun l =>
  mkLog (lg_start l) (lg_size l) (lg_outstanding l) (lg_committing l) (lg_dev l) (lh_n l)
        (lh_block l).

(** ** console.c *)

Record console := mkConsole {
  cons_locking : Z;
  panicked : Z;
  uart_on : Z;                    (* is there a uart? *)
  uart : list Z;                  (* bytes sent to the serial port, oldest first *)
  crt : list Z;                   (* CGA text memory, 25*80 cells *)
  crt_pos : Z;                    (* cursor position held by the CRT controller *)
  in_buf : list Z; in_r : Z; in_w : Z; in_e : Z }.
#[export] Instance eta_console : Eta console := fun c =>
  mkConsole (cons_locking c) (panicked c) (uart_on c) (uart c) (crt c) (crt_pos c) (in_buf c) (in_r c)
            (in_w c) (in_e c).

(** ** Groups of global variables *)

(** Interrupt and lock state: [held l = i] is [l.locked = 1] and [l.cpu = &cpus[i]]; a lock
    that is absent is free.  [slocks sl = pid] is a held sleep lock and the process it
    belongs to.  [IF] is the interrupt flag of eflags, [lapicid] the register that tells
    which processor runs. *)
Record ksync := mkSync {
  cpus : list cpu; ncpu : Z; lapic_id : Z; IF : bool;
  held : gmap lockid nat; slocks : gmap sleepid Z }.
#[export] Instance eta_ksync : Eta ksync := fun s =>
  mkSync (cpus s) (ncpu s) (lapic_id s) (IF s) (held s) (slocks s).

Record ptable := mkPtable {
  procs : list proc; initproc : option nat; nextpid : Z; first : Z }.
#[export] Instance eta_ptable : Eta ptable := fun t =>
  mkPtable (procs t) (initproc t) (nextpid t) (first t).

Record ipcst := mkIpc {
  msg_queue : list queue; sib_map : list map_store; map_len : Z; mean_buffer : list Z }.
#[export] Instance eta_ipcst : Eta ipcst := fun i =>
  mkIpc (msg_queue i) (sib_map i) (map_len i) (mean_buffer i).

Record containers := mkContainers {
  container_table : list container; c_active : list Z; c_pointer : Z }.
#[export] Instance eta_containers : Eta containers := fun c =>
  mkContainers (container_table c) (c_active c) (c_pointer c).

Record tracest := mkTrace { trace : Z; counter : list Z }.
#[export] Instance eta_tracest : Eta tracest := fun t => mkTrace (trace t) (counter t).

(** Physical memory as 32-bit words, keyed by physical address / 4; an absent word is 0.
    [freelist] and [kpgdir] are kernel virtual addresses, [cr3] a physical one. *)
Record vmst := mkVm {
  mem : gmap Z Z; use_lock : Z; freelist : Z; kpgdir : Z; cr3 : Z }.
#[export] Instance eta_vmst : Eta vmst := fun v =>
  mkVm (mem v) (use_lock v) (freelist v) (kpgdir v) (cr3 v).

(** [image] holds the blocks of the disks at power on, keyed by drive (0 or 1) and block
    number; an absent block is all zeroes.  [writes] lists the block writes the disks have done
    since, oldest first: power loss keeps a prefix of it.  [idequeue] lists the queued buffers,
    [disksize] is memide.c's. *)
Record diskst := mkDisk {
  image : gmap (Z * Z) (list Z); writes : list (Z * Z * list Z);
  idequeue : list nat; havedisk1 : Z; disksize : Z }.
#[export] Instance eta_diskst : Eta diskst := fun d =>
  mkDisk (image d) (writes d) (idequeue d) (havedisk1 d) (disksize d).

(** The contents of the disks after the writes. *)
Definition apply_writes (ws : list (Z * Z * list Z)) (m : gmap (Z * Z) (list Z)) : gmap (Z * Z) (list Z) :=
  foldl (fun m w => <[w.1 := w.2]> m) m ws.
Definition disk (d : diskst) : gmap (Z * Z) (list Z) := apply_writes (writes d) (image d).

Inductive device := Console.
#[export] Instance device_eq_dec : EqDecision device.
Proof. solve_decision. Defined.

Record fsst := mkFs {
  bufs : list buf;                (* NBUF buffers and bcache.head *)
  logs : logst; sb : superblock; icache : list inode; ftable : list file;
  devsw : list (option device); pipes : gmap Z pipe }.
#[export] Instance eta_fsst : Eta fsst := fun f =>
  mkFs (bufs f) (logs f) (sb f) (icache f) (ftable f) (devsw f) (pipes f).

(** Addresses the linker resolves: kernel.ld's [end] and [data], cpus[], trapret and forkret;
    and the initcode image. *)
Record linkmap := mkLink {
  l_end : Z; l_data : Z; l_cpus : Z; l_trapret : Z; l_forkret : Z; l_initcode : list Z }.

Record kstate := mkK {
  sync : ksync;
  pt : ptable;
  ipc : ipcst;
  ctn : containers;
  trc : tracest;
  ticks : Z;
  vm : vmst;
  con : console;
  dsk : diskst;
  fst_ : fsst;
  link : linkmap }.
#[export] Instance eta_kstate : Eta kstate := fun k =>
  mkK (sync k) (pt k) (ipc k) (ctn k) (trc k) (ticks k) (vm k) (con k) (dsk k) (fst_ k) (link k).

(** ** The state at power on

    The globals as the loader leaves them: zeroed, but for nextpid and forkret's [first]; one
    processor, found by mpinit; [img] is the disk. *)

Definition zero_seg : segdesc := mkSeg 0 0 0 0 0 0 0 0 0 0 0 0 0.
Definition zero_cpu : cpu := mkCpu 0 (replicate 6 zero_seg) 0 0 0 0 0 false None.

Definition loaded (lk : linkmap) (img : gmap (Z * Z) (list Z)) : kstate :=
  mkK (mkSync (replicate (Z.to_nat NCPU) zero_cpu) 1 0 false ∅ ∅)
      (mkPtable (replicate (Z.to_nat NPROC) zero_proc) None 1 1)
      (mkIpc (replicate (Z.to_nat NPROC) zero_queue) (replicate (Z.to_nat NPROC) (mkMap 0 0)) 0
             (replicate 8 0))
      (mkContainers (replicate (Z.to_nat NCONTAINER) zero_container)
                    (replicate (Z.to_nat NCONTAINER) 0) 0)
      (mkTrace 0 (replicate 33 0))
      0
      (mkVm ∅ 0 0 0 0)
      (mkConsole 0 0 0 [] (replicate 2000 0) 0 (replicate (Z.to_nat INPUT_BUF) 0) 0 0 0)
      (mkDisk img [] [] 0 0)
      (mkFs (replicate (S (Z.to_nat NBUF)) zero_buf)
            (mkLog 0 0 0 0 0 0 (replicate (Z.to_nat LOGSIZE) 0))
            (mkSb 0 0 0 0 0 0 0)
            (replicate (Z.to_nat NINODE) zero_inode)
            (replicate (Z.to_nat NFILE) zero_file)
            (replicate (Z.to_nat NDEV) None) ∅)
      lk.
