(* ===== verification/Monad.v ===== *)
(** * The kernel monad

    A kernel function is a computation [M A].  It runs on the global state and on an
    environment: the successive effects of the other processors and kernel threads, one
    [kstate -> kstate] for each time this thread waits (spins on a lock held elsewhere, or
    switches to the scheduler and is later switched back to).  The file Interfere lets the
    environment run around lock operations as well.  A run ends in
    - [Ret a e s]: the function returns [a], the waits left are [e];
    - [Panic msg s]: the kernel calls panic(msg);
    - [Blocked s]: the thread waits and the environment has no further step;
    - [Hang s]: the processor loops for ever with interrupts off;
    - [Undef msg s]: the C code reads or writes outside an object: undefined behaviour;
    - [NoFuel]: a loop used up its iteration bound. *)

From stdpp Require Import base list gmap strings fin_maps.
From S2P Require Import Prelude State.
Open Scope Z_scope.

Definition env := list (kstate -> kstate).

Inductive outcome (A : Type) : Type :=
| Ret (a : A) (e : env) (s : kstate)
| Panic (msg : string) (s : kstate)
| Blocked (s : kstate)
| Hang (s : kstate)
| Undef (msg : string) (s : kstate)
| NoFuel.
Arguments Ret {A} _ _ _.
Arguments Panic {A} _ _.
Arguments Blocked {A} _.
Arguments Hang {A} _.
Arguments Undef {A} _ _.
Arguments NoFuel {A}.

Definition M (A : Type) : Type := env -> kstate -> outcome A.

Definition ret {A} (a : A) : M A := fun e s => Ret a e s.
Definition bind {A B} (m : M A) (f : A -> M B) : M B := fun e s =>
  match m e s with
  | Ret a e' s' => f a e' s'
  | Panic msg s' => Panic msg s'
  | Blocked s' => Blocked s'
  | Hang s' => Hang s'
  | Undef msg s' => Undef msg s'
  | NoFuel => NoFuel
  end.

Notation "x ← m ; k" := (bind m (fun x => k))
  (at level 20, m at level 100, k at level 200) : xv6_scope.
Notation "m ;; k" := (bind m (fun _ => k)) (at level 100, k at level 200) : xv6_scope.

(** ** Primitive computations *)

Definition gets {A} (f : kstate -> A) : M A := fun e s => Ret (f s) e s.
Definition modify (f : kstate -> kstate) : M unit := fun e s => Ret tt e (f s).
Definition panic {A} (msg : string) : M A := fun _ s => Panic msg s.
Definition undef {A} (msg : string) : M A := fun _ s => Undef msg s.
Definition hang {A} : M A := fun _ s => Hang s.
Definition nofuel {A} : M A := fun _ _ => NoFuel.

(** The thread gives up the processor and runs again after one step of the environment. *)
Definition switch : M unit := fun e s =>
  match e with [] => Blocked s | f :: e' => Ret tt e' (f s) end.

Definition when (b : bool) (m : M unit) : M unit := if b then m else ret tt.

(** [l[i]]; an index outside the array is undefined behaviour. *)
Definition index {A} (what : string) (l : list A) (i : Z) : M A :=
  match lookupz l i with Some x => ret x | None => undef what end.

(** ** Loops *)

(** [for(x in l) body(x);] *)
Fixpoint for_each {B} (l : list B) (body : B -> M unit) : M unit :=
  match l with
  | [] => ret tt
  | x :: l' => body x ;; for_each l' body
  end.

(** [for(x in l) body(x);] where the body may return a result from the enclosing function. *)
Fixpoint for_until {B R} (l : list B) (body : B -> M (option R)) : M (option R) :=
  match l with
  | [] => ret None
  | x :: l' => r ← body x ; match r with Some v => ret (Some v) | None => for_until l' body end
  end.

(** ** Equations and total-correctness assertions *)

Lemma bind_Ret {A B} (m : M A) (f : A -> M B) e s a e' s' :
  m e s = Ret a e' s' -> (bind m f) e s = f a e' s'.
Proof. intros H. unfold bind. by rewrite H. Qed.

Lemma bind_Panic {A B} (m : M A) (f : A -> M B) e s msg s' :
  m e s = Panic msg s' -> (bind m f) e s = Panic msg s'.
Proof. intros H. unfold bind. by rewrite H. Qed.

Lemma bind_Blocked {A B} (m : M A) (f : A -> M B) e s s' :
  m e s = Blocked s' -> (bind m f) e s = Blocked s'.
Proof. intros H. unfold bind. by rewrite H. Qed.

Lemma bind_Undef {A B} (m : M A) (f : A -> M B) e s msg s' :
  m e s = Undef msg s' -> (bind m f) e s = Undef msg s'.
Proof. intros H. unfold bind. by rewrite H. Qed.

Lemma bind_bind {A B C} (m : M A) (f : A -> M B) (g : B -> M C) e s :
  (bind (bind m f) g) e s = (bind m (fun a => bind (f a) g)) e s.
Proof. unfold bind. by destruct (m e s). Qed.

(** [wp m e s Q]: [m] run from [s] returns, and its result satisfies [Q]. *)
Definition wp {A} (m : M A) (e : env) (s : kstate) (Q : A -> env -> kstate -> Prop) : Prop :=
  match m e s with Ret a e' s' => Q a e' s' | _ => False end.

Lemma wp_ret {A} (a : A) e s (Q : A -> env -> kstate -> Prop) : Q a e s -> wp (ret a) e s Q.
Proof. done. Qed.

Lemma wp_bind {A B} (m : M A) (f : A -> M B) e s (Q : B -> env -> kstate -> Prop) :
  wp m e s (fun a e' s' => wp (f a) e' s' Q) -> wp (bind m f) e s Q.
Proof. unfold wp, bind. by destruct (m e s). Qed.

Lemma wp_mono {A} (m : M A) e s (P Q : A -> env -> kstate -> Prop) :
  wp m e s P -> (forall a e' s', P a e' s' -> Q a e' s') -> wp m e s Q.
Proof. unfold wp. destruct (m e s); naive_solver. Qed.

Lemma wp_Ret {A} (m : M A) e s a e' s' (Q : A -> env -> kstate -> Prop) :
  m e s = Ret a e' s' -> Q a e' s' -> wp m e s Q.
Proof. unfold wp. by intros ->. Qed.

Lemma wp_elim {A} (m : M A) e s (Q : A -> env -> kstate -> Prop) :
  wp m e s Q -> exists a e' s', m e s = Ret a e' s' /\ Q a e' s'.
Proof. unfold wp. destruct (m e s); naive_solver. Qed.

Lemma for_each_ext {B} (l : list B) (f g : B -> M unit) e s :
  (forall x e s, f x e s = g x e s) -> for_each l f e s = for_each l g e s.
Proof.
  intros H. revert e s. induction l as [|x l IH]; intros e s; [done|]. simpl.
  unfold bind. rewrite H. by destruct (g x e s).
Qed.

(** A loop that keeps an invariant indexed by the iterations done. *)
Lemma wp_for_each {B} (body : B -> M unit) (I : list B -> env -> kstate -> Prop) l e s
    (Q : unit -> env -> kstate -> Prop) :
  I [] e s ->
  (forall pre x post e s, l = pre ++ x :: post -> I pre e s ->
     wp (body x) e s (fun _ e' s' => I (pre ++ [x]) e' s')) ->
  (forall e' s', I l e' s' -> Q tt e' s') ->
  wp (for_each l body) e s Q.
Proof.
  intros HI Hbody HQ.
  enough (forall done_ todo e s, l = done_ ++ todo -> I done_ e s ->
            wp (for_each todo body) e s Q) as H by by apply (H []).
  clear e s HI. intros done_ todo. revert done_.
  induction todo as [|x todo IH]; intros done_ e s Hl HI; simpl.
  { apply HQ. by rewrite Hl, app_nil_r. }
  apply wp_bind. eapply wp_mono; [by eapply Hbody|].
  intros [] e' s' HI'. apply (IH (done_ ++ [x])); [by rewrite <-app_assoc | done].
Qed.

(** One step of symbolic execution: [run H] uses [H : m e s = Ret a e' s'] (or a lemma that
    concludes so) on the computation at the head of a bind. *)
Tactic Notation "run" uconstr(H) :=
  first [ erewrite bind_Ret by (eapply H; eauto with xv6)
        | erewrite bind_Panic by (eapply H; eauto with xv6)
        | erewrite H by eauto with xv6 ].

(** Primitive steps reduce by computation. *)
Ltac prim :=
  repeat first
    [ erewrite bind_Ret by reflexivity
    | rewrite bind_bind ]; cbv beta iota; fields.

(** Equality of two values built by record updates, field by field. *)
Ltac head_of t := lazymatch t with ?f _ => head_of f | _ => t end.
Ltac state_eq :=
  unfold upd; cbn;
  repeat match goal with
  | |- ?l = _ => let h := head_of l in is_constructor h; f_equal
  end; try done.
