(* ===== verification/Spinlock.v ===== *)
(** * Processors and spin locks: spinlock.c, and mycpu/cpuid/myproc of proc.c

    Definitions follow the C functions.  [lock_sync l] and [settle] describe what acquiring a
    free lock and releasing it again do to the interrupt and lock state; with them the effect
    of a critical section on the rest of the kernel is exactly the effect of its body. *)

From stdpp Require Import base list gmap strings fin_maps.
From S2P Require Import Prelude State Monad.
Open Scope Z_scope.

(** ** proc.c: mycpu, cpuid, myproc *)

Definition cur_cpu (sy : ksync) : option nat :=
  findi (fun c => apicid c =? lapic_id sy) (take (Z.to_nat (ncpu sy)) (cpus sy)).

Definition mycpu : M nat :=
  sy ← gets sync ;
  if IF sy then panic "mycpu called with interrupts enabled"
  else match cur_cpu sy with
       | Some i => ret i
       | None => panic "unknown apicid"
       end.

Definition cpuid : M Z := i ← mycpu ; ret (Z.of_nat i).

(** Reads and writes of a field of the current [struct cpu]. *)
Definition get_cpu (i : nat) : M cpu :=
  cs ← gets (fun s => cpus (sync s)) ;
  match cs !! i with Some c => ret c | None => undef "cpus[i]" end.
Definition set_cpu (i : nat) (f : cpu -> cpu) : M unit :=
  modify (fun s => s <| sync ::= fun sy => sy <| cpus ::= alter f i |> |>).
Definition set_IF (b : bool) : M unit :=
  modify (fun s => s <| sync ::= fun sy => sy <| IF := b |> |>).

Definition cli : M unit := set_IF false.
Definition sti : M unit := set_IF true.

(** ** spinlock.c *)

Definition pushcli : M unit :=
  fl ← gets (fun s => IF (sync s)) ;
  cli ;;
  i ← mycpu ;
  c ← get_cpu i ;
  when (ncli c =? 0) (set_cpu i (fun c => c <| intena := fl |>)) ;;
  set_cpu i (fun c => c <| ncli ::= Z.succ |>).

Definition popcli : M unit :=
  fl ← gets (fun s => IF (sync s)) ;
  if fl then panic "popcli - interruptible" else
  i ← mycpu ;
  set_cpu i (fun c => c <| ncli ::= Z.pred |>) ;;
  c ← get_cpu i ;
  if ncli c <? 0 then panic "popcli" else
  when ((ncli c =? 0) && intena c) sti.

Definition myproc : M (option nat) :=
  pushcli ;;
  i ← mycpu ;
  c ← get_cpu i ;
  popcli ;;
  ret (c_proc c).

(** Reading and writing an entry of ptable.proc; [NPROC] and up are outside the array. *)
Definition getp (i : nat) : M proc :=
  ps ← gets (fun s => procs (pt s)) ;
  match ps !! i with Some p => ret p | None => undef "ptable.proc[i]" end.
Definition setp (i : nat) (f : proc -> proc) : M unit :=
  ps ← gets (fun s => procs (pt s)) ;
  match ps !! i with
  | Some _ => modify (fun s => s <| pt ::= fun t => t <| procs ::= alter f i |> |>)
  | None => undef "ptable.proc[i]"
  end.

Definition holding (l : lockid) : M bool :=
  pushcli ;;
  i ← mycpu ;
  h ← gets (fun s => held (sync s)) ;
  popcli ;;
  ret (bool_decide (h !! l = Some i)).

(** initlock: locked = 0, cpu = 0. *)
Definition initlock (l : lockid) : M unit :=
  modify (fun s => s <| sync ::= fun sy => sy <| held ::= delete l |> |>).

(** [while(xchg(&lk->locked, 1) != 0);]: each failed exchange lets the others take a step. *)
Fixpoint spin (l : lockid) (e : env) (s : kstate) : outcome unit :=
  match held (sync s) !! l with
  | None => Ret tt e s
  | Some _ => match e with [] => Blocked s | f :: e' => spin l e' (f s) end
  end.

Definition acquire (l : lockid) : M unit :=
  pushcli ;;
  h ← holding l ;
  if h then panic "acquire" else
  spin l ;;
  i ← mycpu ;
  modify (fun s => s <| sync ::= fun sy => sy <| held ::= <[l := i]> |> |>).

Definition release (l : lockid) : M unit :=
  h ← holding l ;
  if negb h then panic "release" else
  modify (fun s => s <| sync ::= fun sy => sy <| held ::= delete l |> |>) ;;
  popcli.

(** ** The effect of the operations on the interrupt and lock state *)

Definition me (sy : ksync) : nat := default 0%nat (cur_cpu sy).
Definition my (sy : ksync) : cpu :=
  default (mkCpu 0 [] 0 0 0 0 0 false None) (cpus sy !! me sy).

Definition upd_me (f : cpu -> cpu) (sy : ksync) : ksync := sy <| cpus ::= alter f (me sy) |>.

(** The effect of pushcli. *)
Definition push (sy : ksync) : ksync :=
  (upd_me (fun c => c <| intena ::= fun b => if ncli c =? 0 then IF sy else b |>
                      <| ncli ::= Z.succ |>) sy) <| IF := false |>.

(** What remains of a matched pushcli/popcli: the saved interrupt flag. *)
Definition settle (sy : ksync) : ksync :=
  upd_me (fun c => c <| intena ::= fun b => if ncli c =? 0 then IF sy else b |>) sy.

Definition lock_sync (l : lockid) (sy : ksync) : ksync :=
  (push sy) <| held ::= <[l := me sy]> |>.

(** The interrupt state is consistent: the running processor is known, and interrupts are off
    whenever it is inside a pushcli section. *)
Definition sync_ok (sy : ksync) : Prop :=
  exists i c, cur_cpu sy = Some i /\ cpus sy !! i = Some c /\
    0 <= ncli c /\ (0 < ncli c -> IF sy = false).

Definition free (l : lockid) (sy : ksync) : Prop := held sy !! l = None.

(** ** Lemmas *)

Lemma cur_cpu_alter f sy i :
  (forall c, apicid (f c) = apicid c) ->
  cur_cpu (sy <| cpus ::= alter f i |>) = cur_cpu sy.
Proof.
  intros Hf. unfold cur_cpu; cbn.
  set (n := Z.to_nat (ncpu sy)). set (P := fun c => apicid c =? lapic_id sy).
  assert (forall l k, findi P (take k (alter f i l)) = findi P (take k l)) as H; [|apply H].
  clear n. revert i. induction i as [|i IH]; intros [|c l] [|k]; try done; simpl.
  - replace (P (f c)) with (P c); [done|]. unfold P. by rewrite Hf.
  - change (@list_alter cpu f i l) with (alter f i l). by rewrite IH.
Qed.

Lemma me_upd f sy : (forall c, apicid (f c) = apicid c) -> me (upd_me f sy) = me sy.
Proof. intros. unfold me, upd_me. by rewrite cur_cpu_alter. Qed.

Lemma sync_ok_inv sy :
  sync_ok sy ->
  cur_cpu sy = Some (me sy) /\ cpus sy !! me sy = Some (my sy) /\
  0 <= ncli (my sy) /\ (0 < ncli (my sy) -> IF sy = false).
Proof. intros (i & c & Hi & Hc & Hn). unfold my, me. rewrite Hi; simpl. by rewrite Hc. Qed.

Lemma lookup_alter_me f sy :
  sync_ok sy -> alter f (me sy) (cpus sy) !! me sy = Some (f (my sy)).
Proof. intros (_ & Hc & _)%sync_ok_inv. rewrite list_lookup_alter_eq, Hc. done. Qed.

(** The effect of popcli. *)
Definition pop (sy : ksync) : ksync :=
  (upd_me (fun c => c <| ncli ::= Z.pred |>) sy)
    <| IF := (ncli (my sy) =? 1) && intena (my sy) |>.

Lemma my_upd f sy :
  sync_ok sy -> (forall c, apicid (f c) = apicid c) -> my (upd_me f sy) = f (my sy).
Proof.
  intros Hok Hf. unfold my at 1. rewrite me_upd by done. cbn.
  by rewrite lookup_alter_me.
Qed.

Lemma me_push sy : me (push sy) = me sy.
Proof. apply (me_upd (fun c => c <| intena ::= _ |> <| ncli ::= Z.succ |>)). done. Qed.

Lemma my_push sy :
  sync_ok sy ->
  my (push sy) = (my sy) <| intena := if ncli (my sy) =? 0 then IF sy else intena (my sy) |>
                       <| ncli := Z.succ (ncli (my sy)) |>.
Proof.
  intros Hok.
  refine (my_upd (fun c => c <| intena ::= fun b => if ncli c =? 0 then IF sy else b |>
                             <| ncli ::= Z.succ |>) sy Hok _). done.
Qed.

Lemma sync_ok_upd f sy (b : bool) :
  sync_ok sy -> (forall c, apicid (f c) = apicid c) ->
  0 <= ncli (f (my sy)) -> (0 < ncli (f (my sy)) -> b = false) ->
  sync_ok ((upd_me f sy) <| IF := b |>).
Proof.
  intros Hok Hf Hn Hb. exists (me sy), (f (my sy)).
  pose proof (sync_ok_inv _ Hok) as (Hc & _).
  split; [|split; [by apply lookup_alter_me | done]].
  transitivity (cur_cpu sy); [|done]. exact (cur_cpu_alter f sy (me sy) Hf).
Qed.

Lemma sync_ok_push sy : sync_ok sy -> sync_ok (push sy).
Proof.
  intros Hok. pose proof (sync_ok_inv _ Hok) as (_ & _ & Hn & _).
  apply sync_ok_upd; cbn; try done; lia.
Qed.

Lemma sync_ok_pop sy : sync_ok sy -> 0 < ncli (my sy) -> sync_ok (pop sy).
Proof.
  intros Hok Hn. apply sync_ok_upd; cbn; try done; [lia|]. intros. bool_arith; [lia | done].
Qed.

Lemma sync_ok_settle sy : sync_ok sy -> sync_ok (settle sy).
Proof.
  intros Hok. pose proof (sync_ok_inv _ Hok) as (_ & _ & Hn & HI).
  change (settle sy) with
    ((upd_me (fun c => c <| intena ::= fun b => if ncli c =? 0 then IF sy else b |>) sy)
       <| IF := IF sy |>).
  by apply sync_ok_upd.
Qed.

Lemma mycpu_run e s :
  sync_ok (sync s) -> IF (sync s) = false -> mycpu e s = Ret (me (sync s)) e s.
Proof.
  intros Hok HI. pose proof (sync_ok_inv _ Hok) as (Hc & _).
  unfold mycpu. prim. by rewrite HI, Hc.
Qed.

Lemma get_cpu_run e s :
  sync_ok (sync s) -> get_cpu (me (sync s)) e s = Ret (my (sync s)) e s.
Proof.
  intros Hok. pose proof (sync_ok_inv _ Hok) as (_ & Hc & _).
  unfold get_cpu. prim. by rewrite Hc.
Qed.

Lemma pushcli_run e s :
  sync_ok (sync s) -> pushcli e s = Ret tt e (s <| sync ::= push |>).
Proof.
  intros Hok. pose proof (sync_ok_inv _ Hok) as (Hc & Hl & Hn & HI).
  unfold pushcli. prim.
  set (s1 := s <| sync ::= fun sy => sy <| IF := false |> |>).
  assert (sync_ok (sync s1)) as Hok1.
  { exists (me (sync s)), (my (sync s)). repeat split; done. }
  assert (me (sync s1) = me (sync s)) as Hme by done.
  assert (my (sync s1) = my (sync s)) as Hmy by done.
  erewrite bind_Ret by (by apply mycpu_run).
  erewrite bind_Ret by (by apply get_cpu_run).
  rewrite Hmy. destruct (Z.eqb_spec (ncli (my (sync s))) 0) as [H0|H0]; simpl; prim.
  all: unfold set_cpu, modify, push, upd_me, s1; state_eq.
  - rewrite list_alter_alter_eq. apply list_alter_ext; [|done].
    intros c Hc'. rewrite Hl in Hc'. simplify_eq. cbn. by rewrite H0.
  - apply list_alter_ext; [|done]. intros c Hc'. rewrite Hl in Hc'. simplify_eq. cbn.
    by rewrite (proj2 (Z.eqb_neq _ _) H0).
Qed.

Lemma popcli_run e s :
  sync_ok (sync s) -> 0 < ncli (my (sync s)) -> popcli e s = Ret tt e (s <| sync ::= pop |>).
Proof.
  intros Hok Hp. pose proof (sync_ok_inv _ Hok) as (_ & _ & _ & HI).
  unfold popcli. prim. rewrite (HI Hp).
  erewrite bind_Ret by (by apply mycpu_run; auto). prim.
  set (s1 := s <| sync ::= upd_me (fun c => c <| ncli ::= Z.pred |>) |>).
  assert (my (sync s1) = (my (sync s)) <| ncli ::= Z.pred |>) as Hmy.
  { refine (my_upd (fun c => c <| ncli ::= Z.pred |>) _ Hok _). done. }
  assert (me (sync s1) = me (sync s)) as Hme.
  { refine (me_upd (fun c => c <| ncli ::= Z.pred |>) _ _). done. }
  assert (sync_ok (sync s1)) as Hok1.
  { refine (sync_ok_upd (fun c => c <| ncli ::= Z.pred |>) _ (IF (sync s)) Hok _ _ _);
      cbn; [done | lia | auto]. }
  match goal with |- _ e ?x = _ => change x with s1 end. rewrite <-Hme.
  erewrite bind_Ret by (exact (get_cpu_run e s1 Hok1)).
  rewrite Hmy; cbn.
  destruct (Z.ltb_spec (Z.pred (ncli (my (sync s)))) 0); [lia|].
  replace (Z.pred (ncli (my (sync s))) =? 0) with (ncli (my (sync s)) =? 1)
    by (bool_arith; done || lia).
  unfold pop, when, upd_me.
  destruct (_ && _) eqn:Hb; unfold ret, sti, set_IF, modify, s1, upd_me; state_eq.
  by rewrite Hb, (HI Hp).
Qed.

(** ** Critical sections *)

Lemma pop_push sy : sync_ok sy -> pop (push sy) = settle sy.
Proof.
  intros Hok. pose proof (sync_ok_inv _ Hok) as (_ & Hl & Hn & HI).
  unfold pop. rewrite my_push by done. unfold upd_me. rewrite me_push.
  unfold push, settle, upd_me. state_eq.
  - rewrite list_alter_alter_eq. apply list_alter_ext; [|done].
    intros c _. state_eq. cbn. lia.
  - bool_arith; try lia; auto. symmetry. apply HI. lia.
Qed.

Lemma settle_id sy : sync_ok sy -> 0 < ncli (my sy) -> settle sy = sy.
Proof.
  intros Hok Hp. pose proof (sync_ok_inv _ Hok) as (_ & Hl & _).
  eta_rhs. unfold settle, upd_me. state_eq. apply alter_fix.
  intros c Hc. rewrite Hl in Hc. injection Hc as <-.
  eta_rhs. state_eq.
  destruct (Z.eqb_spec (ncli (my sy)) 0); [lia | done].
Qed.

Lemma my_lock l sy : my (lock_sync l sy) = my (push sy).
Proof. done. Qed.

Lemma me_lock l sy : me (lock_sync l sy) = me sy.
Proof. apply me_push. Qed.

Lemma ncli_lock l sy : sync_ok sy -> 0 < ncli (my (lock_sync l sy)).
Proof.
  intros Hok. pose proof (sync_ok_inv _ Hok) as (_ & _ & Hn & _).
  rewrite my_lock, my_push by done. cbn. lia.
Qed.

Lemma IF_lock l sy : IF (lock_sync l sy) = false.
Proof. done. Qed.

Lemma sync_ok_lock l sy : sync_ok sy -> sync_ok (lock_sync l sy).
Proof. intros (i & c & H)%sync_ok_push. by exists i, c. Qed.

Lemma settle_lock l sy : sync_ok sy -> settle (lock_sync l sy) = lock_sync l sy.
Proof. intros. apply settle_id; [by apply sync_ok_lock | by apply ncli_lock]. Qed.

Lemma me_settle sy : me (settle sy) = me sy.
Proof. by apply (me_upd (fun c => c <| intena ::= _ |>)). Qed.

Lemma settle_settle sy : settle (settle sy) = settle sy.
Proof.
  unfold settle at 1, upd_me. rewrite me_settle.
  unfold settle, upd_me. state_eq. rewrite list_alter_alter_eq.
  apply list_alter_ext; [|done]. intros c _. state_eq. cbn. by destruct (ncli c =? 0).
Qed.

#[export] Hint Resolve sync_ok_push sync_ok_settle sync_ok_lock ncli_lock : xv6.

Lemma push_push sy : sync_ok sy -> pop (push (push sy)) = push sy.
Proof.
  intros Hok. rewrite pop_push by auto with xv6. apply settle_id; [auto with xv6|].
  rewrite my_push by done. pose proof (sync_ok_inv _ Hok) as (_ & _ & Hn & _). cbn. lia.
Qed.

(** Holding a lock does not interact with the interrupt state. *)
Lemma pop_held f sy : pop (sy <| held ::= f |>) = (pop sy) <| held ::= f |>.
Proof. done. Qed.
Lemma push_held f sy : push (sy <| held ::= f |>) = (push sy) <| held ::= f |>.
Proof. done. Qed.
Lemma sync_ok_held f sy : sync_ok (sy <| held ::= f |>) <-> sync_ok sy.
Proof. done. Qed.

Lemma holding_run l e s :
  sync_ok (sync s) ->
  holding l e s =
    Ret (bool_decide (held (sync s) !! l = Some (me (sync s)))) e (s <| sync ::= settle |>).
Proof.
  intros Hok. pose proof (sync_ok_inv _ Hok) as (_ & _ & Hn & _).
  unfold holding. erewrite bind_Ret by (by apply pushcli_run).
  erewrite bind_Ret by (apply mycpu_run; cbn; auto with xv6). prim.
  erewrite bind_Ret.
  2:{ apply popcli_run; cbn; [auto with xv6|]. rewrite my_push by done. cbn. lia. }
  unfold ret. f_equal.
  - cbn. by rewrite me_push.
  - state_eq. by apply pop_push.
Qed.

Lemma spin_free l e s : free l (sync s) -> spin l e s = Ret tt e s.
Proof. intros H. destruct e; simpl; by rewrite H. Qed.

(** Acquiring a free lock: nothing waits, and only the interrupt and lock state changes. *)
Lemma acquire_run l e s :
  sync_ok (sync s) -> free l (sync s) ->
  acquire l e s = Ret tt e (s <| sync ::= lock_sync l |>).
Proof.
  intros Hok Hfree. unfold acquire. erewrite bind_Ret by (by apply pushcli_run).
  erewrite bind_Ret by (apply holding_run; cbn; auto with xv6).
  cbn. rewrite bool_decide_eq_false_2 by (rewrite Hfree; done).
  pose proof (push_push _ Hok) as Hpp. rewrite pop_push in Hpp by auto with xv6.
  match goal with |- _ _ ?x = _ => replace x with (s <| sync ::= push |>) end.
  2:{ by (state_eq; rewrite Hpp). }
  erewrite bind_Ret by (apply spin_free; exact Hfree).
  erewrite bind_Ret by (apply mycpu_run; cbn; auto with xv6).
  unfold modify, lock_sync. cbn. by rewrite me_push.
Qed.

(** Acquiring a lock this processor already holds. *)
Lemma acquire_held l e s :
  sync_ok (sync s) -> held (sync s) !! l = Some (me (sync s)) ->
  acquire l e s = Panic "acquire" (s <| sync ::= push |>).
Proof.
  intros Hok Hh. unfold acquire. erewrite bind_Ret by (by apply pushcli_run).
  erewrite bind_Ret by (apply holding_run; cbn; auto with xv6).
  cbn. rewrite me_push, bool_decide_eq_true_2 by done.
  pose proof (push_push _ Hok) as Hpp. rewrite pop_push in Hpp by auto with xv6.
  unfold panic. by (state_eq; rewrite Hpp).
Qed.

(** Acquiring a lock another processor holds: the environment takes steps until it is free. *)
Lemma acquire_spins l f e s s1 sy1 :
  sync_ok (sync s) -> held (sync s) !! l <> Some (me (sync s)) -> held (sync s) !! l <> None ->
  f (s <| sync ::= push |>) = s1 -> sync s1 = push sy1 -> sync_ok sy1 -> free l sy1 ->
  acquire l (f :: e) s = Ret tt e (s1 <| sync := lock_sync l sy1 |>).
Proof.
  intros Hok Hme Hheld Hf Hs1 Hok1 Hfree1. unfold acquire. erewrite bind_Ret by (by apply pushcli_run).
  erewrite bind_Ret by (apply holding_run; cbn; auto with xv6).
  cbn. rewrite me_push, bool_decide_eq_false_2 by done.
  pose proof (push_push _ Hok) as Hpp. rewrite pop_push in Hpp by auto with xv6.
  match goal with |- _ _ ?x = _ => replace x with (s <| sync ::= push |>) end.
  2:{ by (state_eq; rewrite Hpp). }
  erewrite bind_Ret.
  2:{ cbn. destruct (held (sync s) !! l); [|by destruct Hheld]. rewrite Hf. apply spin_free. by rewrite Hs1. }
  erewrite bind_Ret by (apply mycpu_run; rewrite Hs1; cbn; auto with xv6).
  unfold modify, lock_sync. rewrite Hs1, me_push. unfold upd; cbn. by rewrite Hs1.
Qed.

(** Releasing the lock taken last or earlier: [lock_sync l] is undone. *)
Lemma release_run l e s sy :
  sync s = lock_sync l sy -> sync_ok sy -> free l sy ->
  release l e s = Ret tt e (s <| sync := settle sy |>).
Proof.
  intros Hs Hok Hfree. unfold release.
  erewrite bind_Ret by (apply holding_run; rewrite Hs; auto with xv6).
  rewrite Hs, bool_decide_eq_true_2 by (rewrite me_lock; apply lookup_insert_eq).
  simpl. prim.
  match goal with |- _ _ ?x = _ => replace x with (s <| sync := push sy |>) end.
  2:{ assert ((settle (sync s)) <| held ::= delete l |> = push sy) as <-; [|done].
      rewrite Hs, settle_lock by done. unfold lock_sync. eta_rhs. state_eq.
      by apply delete_insert_id. }
  rewrite popcli_run; cbn; [|auto with xv6|].
  - f_equal. state_eq. by apply pop_push.
  - rewrite my_push by done. pose proof (sync_ok_inv _ Hok) as (_ & _ & Hn & _). cbn. lia.
Qed.

(** Releasing a lock this processor does not hold. *)
Lemma release_not_held l e s :
  sync_ok (sync s) -> held (sync s) !! l <> Some (me (sync s)) ->
  release l e s = Panic "release" (s <| sync ::= settle |>).
Proof.
  intros Hok Hh. unfold release. erewrite bind_Ret by (by apply holding_run).
  by rewrite bool_decide_eq_false_2.
Qed.

Lemma push_settle sy : push (settle sy) = push sy.
Proof.
  unfold push at 1, upd_me. rewrite me_settle. unfold push, settle, upd_me. state_eq.
  rewrite list_alter_alter_eq. apply list_alter_ext; [|done].
  intros c _. state_eq. cbn. by destruct (ncli c =? 0).
Qed.

Lemma lock_settle l sy : lock_sync l (settle sy) = lock_sync l sy.
Proof. unfold lock_sync. by rewrite push_settle, me_settle. Qed.

Lemma lock_comm l1 l2 sy :
  l1 <> l2 -> lock_sync l1 (lock_sync l2 sy) = lock_sync l2 (lock_sync l1 sy).
Proof.
  intros Hne. unfold lock_sync. rewrite !push_held.
  change (me ((push sy) <| held ::= <[l2:=me sy]> |>)) with (me (push sy)).
  change (me ((push sy) <| held ::= <[l1:=me sy]> |>)) with (me (push sy)).
  rewrite me_push. state_eq. by apply insert_insert_ne.
Qed.

Lemma free_lock l l' sy : l <> l' -> free l sy -> free l (lock_sync l' sy).
Proof. intros Hne Hf. unfold free, lock_sync. cbn. by rewrite lookup_insert_ne. Qed.

Lemma free_settle l sy : free l (settle sy) <-> free l sy.
Proof. done. Qed.

Lemma myproc_run e s :
  sync_ok (sync s) -> myproc e s = Ret (c_proc (my (sync s))) e (s <| sync ::= settle |>).
Proof.
  intros Hok. pose proof (sync_ok_inv _ Hok) as (_ & _ & Hn & _).
  unfold myproc. erewrite bind_Ret by (by apply pushcli_run).
  erewrite bind_Ret by (apply mycpu_run; cbn; auto with xv6).
  erewrite bind_Ret by (apply get_cpu_run; cbn; auto with xv6).
  erewrite bind_Ret.
  2:{ apply popcli_run; cbn; [auto with xv6|]. rewrite my_push by done. cbn. lia. }
  unfold ret. cbn. rewrite my_push by done. state_eq. by apply pop_push.
Qed.

#[export] Hint Resolve free_lock : xv6.
#[export] Hint Rewrite settle_settle lock_settle push_settle me_lock me_settle : sync.

(** What balanced locking leaves behind: at most the saved interrupt flag changed. *)
Definition settled (sy sy' : ksync) : Prop := sy' = sy \/ sy' = settle sy.

Lemma settled_refl sy : settled sy sy.
Proof. by left. Qed.
Lemma settled_settle sy : settled sy (settle sy).
Proof. by right. Qed.
Lemma settled_trans sy1 sy2 sy3 : settled sy1 sy2 -> settled sy2 sy3 -> settled sy1 sy3.
Proof. unfold settled. intros [->| ->] [->| ->]; rewrite ?settle_settle; auto. Qed.
Lemma settled_ok sy sy' : settled sy sy' -> sync_ok sy -> sync_ok sy'.
Proof. intros [->| ->]; auto with xv6. Qed.
Lemma settled_free l sy sy' : settled sy sy' -> free l sy -> free l sy'.
Proof. by intros [->| ->]. Qed.
Lemma settled_lock l sy sy' : settled sy sy' -> lock_sync l sy' = lock_sync l sy.
Proof. intros [->| ->]; by rewrite ?lock_settle. Qed.
Lemma settled_me sy sy' : settled sy sy' -> me sy' = me sy.
Proof. intros [->| ->]; by rewrite ?me_settle. Qed.
Lemma settled_held sy sy' : settled sy sy' -> held sy' = held sy.
Proof. by intros [->| ->]. Qed.
Lemma settled_cproc sy sy' :
  sync_ok sy -> settled sy sy' -> c_proc (my sy') = c_proc (my sy).
Proof.
  intros Hok [->| ->]; [done|]. unfold settle. by rewrite my_upd.
Qed.

#[export] Hint Resolve settled_refl settled_settle settled_ok settled_free : xv6.

(** ** Matched acquisitions *)

Definition acquire_all (ls : list lockid) : M unit := for_each ls acquire.
Definition release_all (ls : list lockid) : M unit := for_each ls release.

Definition lock_all (ls : list lockid) (sy : ksync) : ksync :=
  foldl (fun sy l => lock_sync l sy) sy ls.

Lemma lock_all_front l ls sy :
  l ∉ ls -> lock_all ls (lock_sync l sy) = lock_sync l (lock_all ls sy).
Proof.
  revert sy. induction ls as [|l' ls IH]; intros sy Hl; [done|]. simpl.
  apply not_elem_of_cons in Hl as [Hne Hl].
  rewrite (lock_comm l' l) by congruence. by apply IH.
Qed.

Lemma sync_ok_lock_all ls sy : sync_ok sy -> sync_ok (lock_all ls sy).
Proof. revert sy. induction ls; simpl; auto with xv6. Qed.

Lemma free_lock_all l ls sy : l ∉ ls -> free l sy -> free l (lock_all ls sy).
Proof.
  revert sy. induction ls as [|l' ls IH]; intros sy Hl Hf; [done|]. simpl.
  apply not_elem_of_cons in Hl as [Hne Hl]. auto with xv6.
Qed.

Lemma acquire_all_run ls e s :
  sync_ok (sync s) -> NoDup ls -> (forall l, l ∈ ls -> free l (sync s)) ->
  acquire_all ls e s = Ret tt e (s <| sync ::= lock_all ls |>).
Proof.
  revert s. induction ls as [|l ls IH]; intros s Hok Hnd Hfree; simpl.
  { unfold ret. f_equal. by destruct s. }
  unfold acquire_all; simpl. apply NoDup_cons in Hnd as [Hl Hnd].
  erewrite bind_Ret by (apply acquire_run; auto; apply Hfree; left).
  change (for_each ls acquire) with (acquire_all ls).
  rewrite IH; cbn; auto with xv6.
  intros l' Hl'. apply free_lock; [set_solver | apply Hfree; by right].
Qed.

Lemma release_all_run ls ls' e s sy :
  sync_ok sy -> NoDup ls -> (forall l, l ∈ ls -> free l sy) -> ls' ≡ₚ ls -> ls <> [] ->
  sync s = lock_all ls sy ->
  release_all ls' e s = Ret tt e (s <| sync := settle sy |>).
Proof.
  intros Hok Hnd Hfree Hp Hne Hs. revert ls Hnd Hfree Hp Hne s Hs.
  induction ls' as [|l ls' IH]; intros ls Hnd Hfree Hp Hne s Hs.
  { by apply Permutation_nil_l in Hp. }
  assert (exists ls1 ls2, ls = ls1 ++ l :: ls2) as (ls1 & ls2 & ->).
  { apply list_elem_of_split. rewrite <-Hp. left. }
  assert (NoDup (l :: ls1 ++ ls2)) as Hnd'.
  { by rewrite Permutation_middle. }
  apply NoDup_cons in Hnd' as [Hl Hnd'].
  assert (sync s = lock_sync l (lock_all (ls1 ++ ls2) sy)) as Hs'.
  { rewrite Hs. unfold lock_all. rewrite !foldl_app. simpl.
    apply lock_all_front. set_solver. }
  unfold release_all; simpl. erewrite bind_Ret.
  2:{ apply release_run; [exact Hs' | by apply sync_ok_lock_all |].
      apply free_lock_all; [done | apply Hfree; set_solver]. }
  rewrite <-Permutation_middle in Hp. apply Permutation_cons_inv in Hp.
  change (for_each ls' release) with (release_all ls').
  destruct (decide (ls1 ++ ls2 = [])) as [Hnil|Hnil].
  - rewrite Hnil in *. apply Permutation_nil_r in Hp as ->. by simpl.
  - assert (settle (lock_all (ls1 ++ ls2) sy) = lock_all (ls1 ++ ls2) sy) as ->.
    { destruct (ls1 ++ ls2) as [|l0 ls0] using rev_ind; [done|].
      unfold lock_all. rewrite foldl_app. simpl. apply settle_lock.
      by apply sync_ok_lock_all. }
    rewrite (IH (ls1 ++ ls2)); [done| done | | done | done | done].
    intros l' Hl'. apply Hfree. set_solver.
Qed.

Lemma IF_lock_all ls sy : ls <> [] -> IF (lock_all ls sy) = false.
Proof.
  destruct ls as [|l ls]; [done|]. intros _. simpl.
  assert (forall sy, IF sy = false -> IF (lock_all ls sy) = false) as H; [|by apply H].
  induction ls as [|l' ls IH]; simpl; [done|]. intros sy' _. by apply IH.
Qed.

Lemma held_lock_all l ls sy :
  NoDup ls -> l ∈ ls -> held (lock_all ls sy) !! l = Some (me sy).
Proof.
  intros Hnd Hl. apply list_elem_of_split in Hl as (l1 & l2 & ->).
  unfold lock_all. rewrite foldl_app. simpl.
  assert (l ∉ l2) as Hn. { apply NoDup_app in Hnd as (_ & _ & [H _]%NoDup_cons). done. }
  change (foldl (fun sy l => lock_sync l sy) sy l1) with (lock_all l1 sy).
  change (foldl (fun sy l => lock_sync l sy) ?x l2) with (lock_all l2 x).
  rewrite lock_all_front by done.
  unfold lock_sync at 1. cbn. rewrite lookup_insert_eq. f_equal.
  assert (forall ls sy, me (lock_all ls sy) = me sy) as Hme.
  { clear. intros ls. induction ls as [|x ls IH]; intros sy; simpl; [done|]. by rewrite IH, me_lock. }
  by rewrite !Hme.
Qed.

(** A lock held elsewhere that no one releases is never acquired. *)
Lemma spin_blocks l e s :
  held (sync s) !! l <> None ->
  (forall f st, f ∈ e -> held (sync st) !! l <> None -> held (sync (f st)) !! l <> None) ->
  exists s', spin l e s = Blocked s'.
Proof.
  revert s. induction e as [|f e IH]; intros s Hh Hkeep; simpl.
  - destruct (held (sync s) !! l); [by eexists|done].
  - destruct (held (sync s) !! l) eqn:E; [|done]. apply IH.
    + apply Hkeep; [left|]. by rewrite E.
    + intros g st Hg. apply Hkeep. by right.
Qed.

Lemma acquire_blocks l e s :
  sync_ok (sync s) -> held (sync s) !! l <> Some (me (sync s)) -> held (sync s) !! l <> None ->
  (forall f st, f ∈ e -> held (sync st) !! l <> None -> held (sync (f st)) !! l <> None) ->
  exists s', acquire l e s = Blocked s'.
Proof.
  intros Hok Hme Hheld Hkeep. unfold acquire. erewrite bind_Ret by (by apply pushcli_run).
  erewrite bind_Ret by (apply holding_run; cbn; auto with xv6).
  cbn. rewrite me_push, bool_decide_eq_false_2 by done.
  destruct (spin_blocks l e (s <| sync ::= push |> <| sync ::= settle |>)) as [s' Hs']; [done|done|].
  exists s'. by apply bind_Blocked.
Qed.
