(* ===== verification/Console.v ===== *)
(** * Console output and input: console.c, uart.c

    The screen is the CGA text memory and the cursor position held by the CRT controller; the
    serial port is the list of bytes sent to it.  [cprintf] interprets its format string
    character by character; [render] is the text it produces. *)

From stdpp Require Import base list gmap strings fin_maps.
From S2P Require Import Prelude State Monad Spinlock.
Open Scope Z_scope.

Definition set_con (f : console -> console) : M unit := modify (fun s => s <| con ::= f |>).

(** A C string literal as its characters, without the terminating NUL. *)
Fixpoint str (s : string) : list Z :=
  match s with
  | EmptyString => []
  | String a s' => Z.of_nat (Ascii.nat_of_ascii a) :: str s'
  end.

(** ** Output of one character *)

Definition BACKSPACE : Z := 0x100.

(** uartputc: the wait for the transmitter is bounded, the byte is then written. *)
Definition uartputc (c : Z) : M unit :=
  on ← gets (fun s => uart_on (con s)) ;
  if on =? 0 then ret tt
  else set_con (fun k => k <| uart ::= fun u => u ++ [u8 c] |>).

(** [crt[i] = v] on the 25x80 text page. *)
Definition crt_store (i v : Z) : M unit :=
  k ← gets con ;
  if in_range i (25 * 80) then set_con (fun k => k <| crt ::= <[Z.to_nat i := u16 v]> |>)
  else undef "crt[pos]".

(** memmove(crt, crt+80, sizeof(crt[0])*23*80); memset(crt+pos, 0, sizeof(crt[0])*(24*80-pos)) *)
Definition scroll (pos : Z) (cells : list Z) : list Z :=
  let moved := take 1840 (drop 80 cells) ++ drop 1840 cells in
  take (Z.to_nat pos) moved ++ replicate (Z.to_nat (24 * 80 - pos)) 0 ++ drop 1920 moved.

Definition cgaputc (c : Z) : M unit :=
  pos ← gets (fun s => crt_pos (con s)) ;
  pos ← (if c =? 10 then ret (pos + (80 - pos mod 80))
         else if c =? BACKSPACE then ret (if 0 <? pos then pos - 1 else pos)
         else crt_store pos (Z.lor (Z.land c 0xff) 0x0700) ;; ret (pos + 1)) ;
  if (pos <? 0) || (25 * 80 <? pos) then panic "pos under/overflow" else
  pos ← (if 24 <=? pos / 80
         then set_con (fun k => k <| crt ::= scroll (pos - 80) |>) ;; ret (pos - 80)
         else ret pos) ;
  set_con (fun k => k <| crt_pos := Z.lor (Z.shiftl (u8 (Z.shiftr pos 8)) 8) (u8 pos) |>) ;;
  crt_store pos (Z.lor 32 0x0700).

Definition consputc (c : Z) : M unit :=
  p ← gets (fun s => panicked (con s)) ;
  if negb (p =? 0) then cli ;; hang else
  (if c =? BACKSPACE then uartputc 8 ;; uartputc 32 ;; uartputc 8 else uartputc c) ;;
  cgaputc c.

(** ** Formatted output *)

Definition digits : list Z := str "0123456789abcdef".

(** [do { buf[i++] = digits[x % base]; } while((x /= base) != 0);]: the digits, least
    significant first. *)
Fixpoint digit_loop (fuel : nat) (x base : Z) : option (list Z) :=
  match fuel with
  | O => None
  | S fuel =>
      let d := nthz 0 digits (x mod base) in
      if x / base =? 0 then Some [d] else (d ::.) <$> digit_loop fuel (x / base) base
  end.

(** The local array is [char buf[16]]: sixteen characters fit, sign included. *)
Definition printint (xx base sign : Z) : M unit :=
  let neg := negb (sign =? 0) && (s32 xx <? 0) in
  let x := if neg then u32 (- s32 xx) else u32 xx in
  match digit_loop 16 x base with
  | None => undef "buf[i]"
  | Some ds =>
      let b := if neg then ds ++ [45] else ds in
      if 16 <? Z.of_nat (length b) then undef "buf[i]" else
      for_each (reverse b) consputc
  end.

(** A variadic argument: a word, or a pointer to a NUL-terminated string. *)
Inductive arg := AInt (z : Z) | AStr (s : list Z).

(** The loop over [fmt]; [fmt] holds no NUL, its end is the terminator. *)
Fixpoint cprintf_loop (fmt : list Z) (argp : list arg) : M unit :=
  match fmt with
  | [] => ret tt
  | c :: rest =>
      if negb (c =? 37) then consputc c ;; cprintf_loop rest argp else
      match rest with
      | [] => ret tt
      | c :: fmt' =>
          if c =? 100 then                                    (* 'd' *)
            match argp with
            | AInt z :: argp' => printint z 10 1 ;; cprintf_loop fmt' argp'
            | _ => undef "va_arg"
            end
          else if (c =? 120) || (c =? 112) then               (* 'x', 'p' *)
            match argp with
            | AInt z :: argp' => printint z 16 0 ;; cprintf_loop fmt' argp'
            | _ => undef "va_arg"
            end
          else if c =? 115 then                               (* 's' *)
            match argp with
            | AStr s :: argp' => for_each s consputc ;; cprintf_loop fmt' argp'
            | AInt z :: argp' =>
                if z =? 0 then for_each (str "(null)") consputc ;; cprintf_loop fmt' argp'
                else undef "va_arg"
            | _ => undef "va_arg"
            end
          else if c =? 37 then consputc 37 ;; cprintf_loop fmt' argp
          else consputc 37 ;; consputc c ;; cprintf_loop fmt' argp
      end
  end.

Definition cprintf (fmt : string) (argp : list arg) : M unit :=
  locking ← gets (fun s => cons_locking (con s)) ;
  when (negb (locking =? 0)) (acquire L_cons) ;;
  cprintf_loop (str fmt) argp ;;
  when (negb (locking =? 0)) (release L_cons).

(** ** What the output operations do *)

(** The cells and the cursor after one character, when the cursor is on the page: first the
    character is placed and the cursor moves, then the page scrolls if the cursor left it. *)
Definition cga_advance (c : Z) (k : console) : console :=
  if c =? 10 then k <| crt_pos ::= fun p => p + (80 - p mod 80) |>
  else if c =? BACKSPACE then k <| crt_pos ::= fun p => if 0 <? p then p - 1 else p |>
  else k <| crt ::= <[Z.to_nat (crt_pos k) := u16 (Z.lor (Z.land c 0xff) 0x0700)]> |>
         <| crt_pos ::= Z.succ |>.

Definition cga_scroll (k : console) : console :=
  let k' := if 24 <=? crt_pos k / 80
            then k <| crt ::= scroll (crt_pos k - 80) |> <| crt_pos ::= fun p => p - 80 |>
            else k in
  k' <| crt ::= <[Z.to_nat (crt_pos k') := u16 (Z.lor 32 0x0700)]> |>.

Definition cga (c : Z) (k : console) : console := cga_scroll (cga_advance c k).

Definition sent (c : Z) (k : console) : console :=
  let out := if c =? BACKSPACE then [8; 32; 8] else [u8 c] in
  if uart_on k =? 0 then k else k <| uart ::= fun u => u ++ out |>.

Definition putc (c : Z) (k : console) : console := cga c (sent c k).
Definition puts (cs : list Z) (k : console) : console := foldl (fun k c => putc c k) k cs.

(** The machine has not panicked and the cursor is on one of the first 24 lines. *)
Definition con_ok (k : console) : Prop :=
  panicked k = 0 /\ 0 <= crt_pos k < 24 * 80 /\ length (crt k) = 2000%nat.

Lemma length_scroll p cells :
  length cells = 2000%nat -> 0 <= p <= 1920 -> length (scroll p cells) = 2000%nat.
Proof.
  intros Hl Hp. unfold scroll.
  rewrite !length_app, length_take, length_replicate, length_drop, !length_app, !length_take,
    !length_drop, Hl. lia.
Qed.

Lemma crt_store_run i v e s :
  0 <= i < 25 * 80 ->
  crt_store i v e s = Ret tt e (s <| con ::= fun k => k <| crt ::= <[Z.to_nat i := u16 v]> |> |>).
Proof. intros Hi. unfold crt_store. prim. by rewrite (proj2 (in_range_spec i _) Hi). Qed.

Lemma cga_scroll_run pos e s :
  0 <= pos <= 1920 ->
  (if (pos <? 0) || (25 * 80 <? pos) then panic "pos under/overflow" else
   pos ← (if 24 <=? pos / 80
          then set_con (fun k => k <| crt ::= scroll (pos - 80) |>) ;; ret (pos - 80)
          else ret pos) ;
   set_con (fun k => k <| crt_pos := Z.lor (Z.shiftl (u8 (Z.shiftr pos 8)) 8) (u8 pos) |>) ;;
   crt_store pos (Z.lor 32 0x0700)) e s
  = Ret tt e (s <| con ::= fun k => cga_scroll (k <| crt_pos := pos |>) |>).
Proof.
  intros Hpos. unfold cga_scroll.
  destruct (Z.ltb_spec pos 0); [lia|]. destruct (Z.ltb_spec (25 * 80) pos); [lia|]. cbn [orb].
  destruct (24 <=? pos / 80) eqn:H24; prim.
  - apply Z.leb_le in H24. assert (pos = 1920) as -> by (Z.div_mod_to_equations; lia).
    rewrite crt_store_run by lia. rewrite join_bytes by lia. state_eq.
  - apply Z.leb_gt in H24. assert (pos < 1920) by (Z.div_mod_to_equations; lia).
    rewrite crt_store_run by lia. rewrite join_bytes by lia.
    unfold upd; cbn. by rewrite (proj2 (Z.leb_gt 24 (pos / 80)) H24).
Qed.

Lemma cga_advance_ok c k :
  con_ok k ->
  0 <= crt_pos (cga_advance c k) <= 1920 /\ length (crt (cga_advance c k)) = 2000%nat /\
  panicked (cga_advance c k) = 0.
Proof.
  intros (Hpan & Hpos & Hlen). unfold cga_advance.
  destruct (c =? 10); [|destruct (c =? BACKSPACE)]; cbn; rewrite ?length_insert.
  - repeat split; try done; Z.div_mod_to_equations; lia.
  - destruct (Z.ltb_spec 0 (crt_pos k)); repeat split; try done; lia.
  - repeat split; try done; lia.
Qed.

Lemma cga_ok c k : con_ok k -> con_ok (cga c k).
Proof.
  intros (Hpos & Hlen & Hpan)%(cga_advance_ok c). unfold cga, cga_scroll.
  set (k1 := cga_advance c k) in *.
  destruct (24 <=? crt_pos k1 / 80) eqn:H24; unfold con_ok; cbn; rewrite length_insert.
  - apply Z.leb_le in H24. split; [done|]. split; [Z.div_mod_to_equations; lia|].
    apply length_scroll; [done | Z.div_mod_to_equations; lia].
  - apply Z.leb_gt in H24. split; [done|]. split; [Z.div_mod_to_equations; lia | done].
Qed.

Lemma cgaputc_run c e s :
  con_ok (con s) -> cgaputc c e s = Ret tt e (s <| con ::= cga c |>).
Proof.
  intros Hok. pose proof (cga_advance_ok c _ Hok) as (Hpos' & _ & _).
  destruct Hok as (_ & Hpos & _). unfold cgaputc. prim. unfold cga_advance in Hpos'.
  destruct (c =? 10) eqn:H10; [|destruct (c =? BACKSPACE) eqn:HB]; prim.
  - rewrite cga_scroll_run by done. unfold cga, cga_advance. by rewrite H10.
  - rewrite cga_scroll_run by done. unfold cga, cga_advance. by rewrite H10, HB.
  - erewrite bind_Ret by (apply crt_store_run; lia). prim.
    rewrite cga_scroll_run by done. unfold cga, cga_advance. by rewrite H10, HB.
Qed.

Lemma sent_ok c k : con_ok k -> con_ok (sent c k).
Proof. intros H. unfold sent. by destruct (uart_on k =? 0). Qed.

Lemma uartputc_run c e s :
  uartputc c e s =
  Ret tt e (s <| con ::= fun k => if uart_on k =? 0 then k
                                  else k <| uart ::= fun u => u ++ [u8 c] |> |>).
Proof.
  unfold uartputc. prim. destruct (uart_on (con s) =? 0) eqn:E; unfold ret, set_con, modify;
    f_equal; [eta_lhs|]; state_eq; by rewrite E.
Qed.

(** A character goes to the serial port and to the screen; the cursor stays on the page. *)
Lemma consputc_run c e s :
  con_ok (con s) -> consputc c e s = Ret tt e (s <| con ::= putc c |>).
Proof.
  intros Hok. assert (panicked (con s) = 0) as Hp by apply Hok.
  unfold consputc. prim. rewrite Hp. cbn [negb Z.eqb].
  assert ((if c =? BACKSPACE then uartputc 8 ;; uartputc 32 ;; uartputc 8 else uartputc c) e s
          = Ret tt e (s <| con ::= sent c |>)) as Hs.
  { unfold sent. destruct (c =? BACKSPACE); rewrite ?uartputc_run; [|done].
    erewrite bind_Ret by apply uartputc_run. erewrite bind_Ret by apply uartputc_run.
    rewrite uartputc_run. state_eq. destruct (uart_on (con s) =? 0) eqn:E; cbn.
    - by rewrite !E.
    - rewrite !E. cbn. rewrite !E. state_eq. by rewrite <-!app_assoc. }
  rewrite (bind_Ret _ _ _ _ _ _ _ Hs). rewrite cgaputc_run; [done|].
  cbn. by apply sent_ok.
Qed.

Lemma putc_ok c k : con_ok k -> con_ok (putc c k).
Proof. intros. by apply cga_ok, sent_ok. Qed.

Lemma puts_ok cs k : con_ok k -> con_ok (puts cs k).
Proof. revert k. induction cs; simpl; auto using putc_ok. Qed.

Lemma consputs_run cs e s :
  con_ok (con s) -> for_each cs consputc e s = Ret tt e (s <| con ::= puts cs |>).
Proof.
  revert s. induction cs as [|c cs IH]; intros s Hok; simpl.
  { unfold ret. f_equal. eta_lhs. state_eq. }
  erewrite bind_Ret by (by apply consputc_run).
  rewrite IH by (by apply putc_ok). done.
Qed.

(** ** Numbers *)

(** The value of a digit character, and of a numeral with its least significant digit first. *)
Definition digit_val (d : Z) : Z := if d <? 58 then d - 48 else d - 87.
Definition numeral (base : Z) (ds : list Z) : Z :=
  foldr (fun d acc => digit_val d + base * acc) 0 ds.

Lemma digit_val_digits d : 0 <= d < 16 -> digit_val (nthz 0 digits d) = d.
Proof.
  intros Hd. assert (d ∈ seqZ 0 16) as Hin by (rewrite elem_of_seqZ; lia).
  clear Hd. revert d Hin. apply Forall_forall.
  repeat (apply Forall_cons_2; [reflexivity|]). by apply Forall_nil_2.
Qed.

Lemma digit_loop_spec n fuel x base :
  2 <= base <= 16 -> 0 <= x < base ^ Z.of_nat n -> (0 < n <= fuel)%nat ->
  exists ds, digit_loop fuel x base = Some ds /\ numeral base ds = x /\ (length ds <= n)%nat.
Proof.
  intros Hb. revert fuel x. induction n as [|n IH]; intros fuel x Hx Hn; [lia|].
  destruct fuel as [|fuel]; [lia|]. cbn [digit_loop].
  assert (digit_val (nthz 0 digits (x mod base)) = x mod base) as Hd.
  { apply digit_val_digits. pose proof (Z.mod_pos_bound x base). lia. }
  destruct (Z.eqb_spec (x / base) 0) as [H0|H0].
  { eexists. split; [done|]. split; [|simpl; lia].
    simpl. rewrite Hd. pose proof (Z.div_mod x base). lia. }
  assert (x < base * base ^ Z.of_nat n) as Hx'.
  { rewrite <-Z.pow_succ_r by lia. rewrite <-Nat2Z.inj_succ. lia. }
  destruct n as [|n].
  { exfalso. apply H0. apply Z.div_small. rewrite Z.mul_1_r in Hx'. lia. }
  destruct (IH fuel (x / base)) as (ds & Hds & Hv & Hlen).
  - split; [apply Z.div_pos; lia|]. apply Z.div_lt_upper_bound; lia.
  - lia.
  - rewrite Hds. eexists. split; [done|]. split; [|simpl; lia].
    cbn [numeral foldr]. fold (numeral base ds). rewrite Hd, Hv.
    pose proof (Z.div_mod x base). lia.
Qed.

Definition int_text (xx base sign : Z) : list Z :=
  let neg := negb (sign =? 0) && (s32 xx <? 0) in
  let x := if neg then u32 (- s32 xx) else u32 xx in
  (if neg then [45] else []) ++ reverse (default [] (digit_loop 16 x base)).

Lemma printint_run xx base sign e s :
  10 <= base <= 16 -> con_ok (con s) ->
  printint xx base sign e s = Ret tt e (s <| con ::= puts (int_text xx base sign) |>).
Proof.
  intros Hb Hok. unfold printint, int_text.
  set (neg := negb (sign =? 0) && (s32 xx <? 0)).
  set (x := if neg then u32 (- s32 xx) else u32 xx).
  assert (is_u32 x) as Hx by (unfold x; destruct neg; apply u32_range).
  destruct (digit_loop_spec 10 16 x base) as (ds & Hds & _ & Hlen); [lia| |lia|].
  { split; [apply Hx|]. apply Z.lt_le_trans with (10 ^ Z.of_nat 10); [unfold is_u32 in Hx; lia|].
    apply Z.pow_le_mono_l. lia. }
  rewrite Hds. cbn [default from_option id].
  destruct (Z.ltb_spec 16 (Z.of_nat (length (if neg then ds ++ [45] else ds)))) as [H|_].
  { exfalso. destruct neg; rewrite ?length_app in H; simpl in H; lia. }
  rewrite consputs_run by done. destruct neg; [by rewrite reverse_app | done].
Qed.

(** ** The text of a formatted message *)

Fixpoint render (fmt : list Z) (argp : list arg) : option (list Z) :=
  match fmt with
  | [] => Some []
  | c :: rest =>
      if negb (c =? 37) then (c ::.) <$> render rest argp else
      match rest with
      | [] => Some []
      | c :: fmt' =>
          if c =? 100 then
            match argp with
            | AInt z :: argp' => (int_text z 10 1 ++.) <$> render fmt' argp'
            | _ => None
            end
          else if (c =? 120) || (c =? 112) then
            match argp with
            | AInt z :: argp' => (int_text z 16 0 ++.) <$> render fmt' argp'
            | _ => None
            end
          else if c =? 115 then
            match argp with
            | AStr s :: argp' => (s ++.) <$> render fmt' argp'
            | AInt z :: argp' =>
                if z =? 0 then (str "(null)" ++.) <$> render fmt' argp' else None
            | _ => None
            end
          else if c =? 37 then (37 ::.) <$> render fmt' argp
          else ([37; c] ++.) <$> render fmt' argp
      end
  end.

Lemma puts_app cs cs' k : puts (cs ++ cs') k = puts cs' (puts cs k).
Proof. unfold puts. by rewrite foldl_app. Qed.

Lemma puts_nil_run e s : ret tt e s = Ret tt e (s <| con ::= puts [] |>).
Proof. unfold ret. f_equal. eta_lhs. state_eq. Qed.

Lemma consputc_piece c e s :
  con_ok (con s) -> consputc c e s = Ret tt e (s <| con ::= puts [c] |>).
Proof. apply consputc_run. Qed.

(** One piece of output followed by the rest of the message. *)
Lemma piece_run (m k : M unit) piece text e s :
  con_ok (con s) ->
  (con_ok (con s) -> m e s = Ret tt e (s <| con ::= puts piece |>)) ->
  (forall s, con_ok (con s) -> k e s = Ret tt e (s <| con ::= puts text |>)) ->
  (m ;; k) e s = Ret tt e (s <| con ::= puts (piece ++ text) |>).
Proof.
  intros Hok Hm Hk. rewrite (bind_Ret _ _ _ _ _ _ _ (Hm Hok)).
  rewrite Hk by (by apply puts_ok). state_eq. by rewrite puts_app.
Qed.

Lemma cprintf_loop_run fmt argp text e s :
  render fmt argp = Some text -> con_ok (con s) ->
  cprintf_loop fmt argp e s = Ret tt e (s <| con ::= puts text |>).
Proof.
  remember (length fmt) as n eqn:Hn. assert (length fmt <= n)%nat as Hle by lia. clear Hn.
  revert fmt argp text s Hle.
  induction n as [|n IH]; intros [|c fmt] argp text s Hle Hr Hok; simpl in Hle; try lia.
  1,2: injection Hr as <-; apply puts_nil_run.
  assert (forall fmt argp text s, (length fmt <= n)%nat -> render fmt argp = Some text ->
            con_ok (con s) ->
            cprintf_loop fmt argp e s = Ret tt e (s <| con ::= puts text |>)) as IH' by auto.
  clear IH. cbn [cprintf_loop render] in *. destruct (c =? 37) eqn:Hc; cbn [negb] in *.
  - destruct fmt as [|c' fmt]; [injection Hr as <-; apply puts_nil_run|]. simpl in Hle.
    repeat case_match; simplify_eq; apply fmap_Some in Hr as (text' & Hr & ->);
      try (apply piece_run; auto using consputs_run, printint_run with lia; fail).
    + apply (piece_run _ _ [37] text'); auto using consputc_piece with lia.
    + apply (piece_run _ _ [37] ([c'] ++ text')); auto using consputc_piece with lia.
      intros s' Hok'. apply piece_run; auto using consputc_piece with lia.
  - apply fmap_Some in Hr as (text' & Hr & ->).
    apply (piece_run _ _ [c] text'); auto using consputc_piece with lia.
Qed.

(** A message whose arguments match its format is printed; apart from the console only the
    saved interrupt flag changes. *)
Lemma cprintf_run fmt argp text e s :
  render (str fmt) argp = Some text -> con_ok (con s) ->
  sync_ok (sync s) -> free L_cons (sync s) ->
  exists sy, settled (sync s) sy /\
    cprintf fmt argp e s = Ret tt e (s <| con ::= puts text |> <| sync := sy |>).
Proof.
  intros Hr Hok Hsy Hf. unfold cprintf. prim. unfold when.
  destruct (negb (cons_locking (con s) =? 0)) eqn:Hl.
  - exists (settle (sync s)). split; [by right|].
    erewrite bind_Ret by (by apply acquire_run).
    erewrite bind_Ret by (by apply cprintf_loop_run).
    by rewrite (release_run _ _ _ (sync s)).
  - exists (sync s). split; [by left|]. prim.
    erewrite bind_Ret by (by apply cprintf_loop_run). unfold ret. state_eq.
Qed.

(** [talk s s']: from [s] to [s'] only console output and the saved interrupt flag change. *)
Definition talk (s s' : kstate) : Prop :=
  exists k sy, s' = s <| con := k |> <| sync := sy |> /\ con_ok k /\ settled (sync s) sy.

Lemma talk_refl s : con_ok (con s) -> talk s s.
Proof.
  intros H. exists (con s), (sync s). split; [eta_lhs; state_eq | auto with xv6].
Qed.

Lemma talk_trans s1 s2 s3 : talk s1 s2 -> talk s2 s3 -> talk s1 s3.
Proof.
  intros (k1 & sy1 & -> & H1 & Hs1) (k2 & sy2 & -> & H2 & Hs2).
  exists k2, sy2. split; [done|]. split; [done|]. by eapply settled_trans.
Qed.

Lemma talk_cprintf fmt argp text e s :
  render (str fmt) argp = Some text -> con_ok (con s) -> sync_ok (sync s) ->
  free L_cons (sync s) -> exists s', cprintf fmt argp e s = Ret tt e s' /\ talk s s'.
Proof.
  intros Hr Hok Hsy Hf. destruct (cprintf_run fmt argp text e s) as (sy & Hsy' & Hrun); auto.
  eexists. split; [exact Hrun|]. exists (puts text (con s)), sy.
  split; [done|]. split; [by apply puts_ok | done].
Qed.

Lemma talk_ok s s' :
  talk s s' -> sync_ok (sync s) ->
  con_ok (con s') /\ sync_ok (sync s') /\ (forall l, free l (sync s) -> free l (sync s')).
Proof. intros (k & sy & -> & Hk & Hsy) Hok. cbn. eauto with xv6. Qed.

(** The console can be written and its lock taken. *)
Definition can_print (s : kstate) : Prop :=
  con_ok (con s) /\ sync_ok (sync s) /\ free L_cons (sync s).

Lemma can_print_talk s s' : talk s s' -> can_print s -> can_print s'.
Proof. intros Ht (Hc & Hok & Hf). destruct (talk_ok _ _ Ht Hok) as (? & ? & Hfr). split; auto. Qed.

(** [says P m]: in a state satisfying [P], [m] only writes to the console, and returns. *)
Definition says (P : kstate -> Prop) (m : M unit) : Prop :=
  forall e s, P s -> can_print s -> exists s', m e s = Ret tt e s' /\ talk s s'.

Lemma says_cprintf P fmt argp text : render (str fmt) argp = Some text -> says P (cprintf fmt argp).
Proof. intros Hr e s _ (Hc & Hok & Hf). by eapply talk_cprintf. Qed.

Section says.
Context (P : kstate -> Prop) (HP : forall s s', talk s s' -> P s -> P s').

Lemma says_ret : says P (ret tt).
Proof. intros e s _ (Hc & _). exists s. split; [done|by apply talk_refl]. Qed.

Lemma says_seq m k : says P m -> says P k -> says P (m ;; k).
Proof.
  intros Hm Hk e s Hs Hp. destruct (Hm e s Hs Hp) as (s1 & Hr1 & Ht1).
  destruct (Hk e s1) as (s2 & Hr2 & Ht2); [by eapply HP|by eapply can_print_talk|].
  exists s2. erewrite bind_Ret by exact Hr1. split; [done|]. by eapply talk_trans.
Qed.

Lemma says_for_each {B} (l : list B) body :
  (forall x, x ∈ l -> says P (body x)) -> says P (for_each l body).
Proof.
  induction l as [|x l IH]; intros H; simpl; [apply says_ret|].
  apply says_seq; [apply H; left|]. apply IH. intros; apply H. by right.
Qed.

Lemma says_read {A} (m : M A) k (v : A) :
  (forall e s, P s -> m e s = Ret v e s) -> says P (k v) -> says P (x ← m ; k x).
Proof. intros Hm Hk e s Hs Hp. erewrite bind_Ret by (by apply Hm). by apply Hk. Qed.
End says.

(** The decimal text of a signed number gives its value back. *)
Lemma int_text_decimal xx :
  is_s32 xx ->
  exists ds, int_text xx 10 1 = (if xx <? 0 then [45] else []) ++ reverse ds /\
    numeral 10 ds = Z.abs xx.
Proof.
  intros Hx. unfold int_text. rewrite s32_small by done. cbn [Z.eqb negb andb].
  set (x := if xx <? 0 then u32 (- xx) else u32 xx).
  assert (x = Z.abs xx) as Ex.
  { unfold x, is_s32 in *. destruct (Z.ltb_spec xx 0); rewrite u32_small; unfold is_u32; lia. }
  destruct (digit_loop_spec 10 16 x 10) as (ds & Hds & Hv & _); [lia| |lia|].
  { rewrite Ex. unfold is_s32 in Hx. split; [lia|]. change (10 ^ Z.of_nat 10) with 10000000000. lia. }
  exists ds. rewrite Hds. split; [done|]. by rewrite Hv.
Qed.
