(* ===== verification/Kalloc.v ===== *)
(** * The physical page allocator: kalloc.c

    The free list is threaded through the free pages themselves: the first word of a free page
    is the address of the next one.  [flist] relates memory to the list of free pages, and the
    allocator refines a stack of pages. *)

From stdpp Require Import base list gmap strings fin_maps.
From S2P Require Import Prelude State Monad Spinlock.
Open Scope Z_scope.

(** ** Words of physical memory *)

Definition set_vm (f : vmst -> vmst) : M unit := modify (fun s => s <| vm ::= f |>).

(** The 32-bit word at the (word-aligned) physical address [pa]. *)
Definition word_at (m : gmap Z Z) (pa : Z) : Z := default 0 (m !! (pa / 4)).

(** A load and a store through a kernel virtual address, which maps to [V2P va]. *)
Definition kload (va : Z) : M Z := gets (fun s => word_at (mem (vm s)) (V2P va)).
Definition kstore (va w : Z) : M unit :=
  set_vm (fun v => v <| mem ::= <[V2P va / 4 := u32 w]> |>).

(** [n] words from word index [base] on set to [w]. *)
Fixpoint fill (n : nat) (base w : Z) (m : gmap Z Z) : gmap Z Z :=
  match n with
  | O => m
  | S n => <[base + Z.of_nat n := w]> (fill n base w m)
  end.

#[global] Arguments fill : simpl never.

(** memset(v, c, PGSIZE) on a page: stosl of the byte repeated four times. *)
Definition memset_page (va c : Z) : M unit :=
  let b := Z.land c 0xff in
  let w := Z.lor (Z.lor (Z.lor (Z.shiftl b 24) (Z.shiftl b 16)) (Z.shiftl b 8)) b in
  set_vm (fun v => v <| mem ::= fill 1024 (V2P va / 4) w |>).

(** ** kalloc.c *)

Definition PGROUNDUP (sz : Z) : Z := Z.land (u32 (sz + PGSIZE - 1)) (Z.lnot (PGSIZE - 1)).
Definition PGROUNDDOWN (a : Z) : Z := Z.land a (Z.lnot (PGSIZE - 1)).

Definition kfree (v : Z) : M unit :=
  en ← gets (fun s => l_end (link s)) ;
  if negb (v mod PGSIZE =? 0) || (v <? en) || (PHYSTOP <=? V2P v) then panic "kfree" else
  memset_page v 1 ;;
  ul ← gets (fun s => use_lock (vm s)) ;
  when (negb (ul =? 0)) (acquire L_kmem) ;;
  fl ← gets (fun s => freelist (vm s)) ;
  kstore v fl ;;
  set_vm (fun w => w <| freelist := v |>) ;;
  ul ← gets (fun s => use_lock (vm s)) ;
  when (negb (ul =? 0)) (release L_kmem).

Definition kalloc : M Z :=
  ul ← gets (fun s => use_lock (vm s)) ;
  when (negb (ul =? 0)) (acquire L_kmem) ;;
  r ← gets (fun s => freelist (vm s)) ;
  when (negb (r =? 0)) (nx ← kload r ; set_vm (fun w => w <| freelist := nx |>)) ;;
  ul ← gets (fun s => use_lock (vm s)) ;
  when (negb (ul =? 0)) (release L_kmem) ;;
  ret r.

(** [for(; p + PGSIZE <= vend; p += PGSIZE) kfree(p);] *)
Fixpoint freerange_loop (fuel : nat) (p vend : Z) : M unit :=
  match fuel with
  | O => nofuel
  | S fuel =>
      if u32 (p + PGSIZE) <=? vend
      then kfree p ;; freerange_loop fuel (u32 (p + PGSIZE)) vend
      else ret tt
  end.

(** One iteration per page of the range, and the last test. *)
Definition freerange (vstart vend : Z) : M unit :=
  let p := PGROUNDUP vstart in
  freerange_loop (S (Z.to_nat ((vend - p) / PGSIZE))) p vend.

Definition kinit1 (vstart vend : Z) : M unit :=
  initlock L_kmem ;;
  set_vm (fun w => w <| use_lock := 0 |>) ;;
  freerange vstart vend.

Definition kinit2 (vstart vend : Z) : M unit :=
  freerange vstart vend ;;
  set_vm (fun w => w <| use_lock := 1 |>).

(** ** The free list as a list of pages *)

(** The pages the allocator may own: aligned, above the kernel image, below PHYSTOP. *)
Definition is_page (en v : Z) : Prop := v mod PGSIZE = 0 /\ en <= v < KERNBASE + PHYSTOP.

Inductive flist (m : gmap Z Z) : Z -> list Z -> Prop :=
| flist_nil : flist m 0 []
| flist_cons v l : v <> 0 -> flist m (word_at m (V2P v)) l -> flist m v (v :: l).

Definition kmem_inv (s : kstate) (pages : list Z) : Prop :=
  KERNBASE <= l_end (link s) /\
  flist (mem (vm s)) (freelist (vm s)) pages /\ NoDup pages /\
  Forall (is_page (l_end (link s))) pages.

(** The allocator can take its lock, if it uses one yet. *)
Definition kmem_ready (s : kstate) : Prop :=
  use_lock (vm s) = 0 \/ (sync_ok (sync s) /\ free L_kmem (sync s)).

Definition kmem_sync (s : kstate) : ksync :=
  if use_lock (vm s) =? 0 then sync s else settle (sync s).

(** The word address [a] lies in the page at kernel address [v]. *)
Definition in_page (v a : Z) : Prop := V2P v <= a < V2P v + PGSIZE.

Lemma V2P_page en v : KERNBASE <= en -> is_page en v -> V2P v = v - KERNBASE.
Proof. unfold is_page, V2P, KERNBASE, PHYSTOP, PGSIZE. intros. cint. Qed.

Lemma lookup_fill n base w (m : gmap Z Z) k :
  fill n base w m !! k = if in_range (k - base) (Z.of_nat n) then Some w else m !! k.
Proof.
  induction n as [|n IH].
  { unfold in_range. bool_arith; done || lia. }
  change (fill (S n) base w m) with (<[base + Z.of_nat n := w]> (fill n base w m)).
  destruct (decide (base + Z.of_nat n = k)) as [<-|Hne].
  - rewrite lookup_insert_eq. unfold in_range. bool_arith; done || lia.
  - rewrite lookup_insert_ne, IH by done. unfold in_range. bool_arith; done || lia.
Qed.

Lemma fill_outside v w m a :
  V2P v mod PGSIZE = 0 -> ~ in_page v a -> word_at (fill 1024 (V2P v / 4) w m) a = word_at m a.
Proof.
  intros Hv Ha. unfold word_at. rewrite lookup_fill.
  destruct (in_range _ _) eqn:E; [|done]. exfalso. apply Ha.
  apply in_range_spec in E. unfold in_page, PGSIZE in *. Z.div_mod_to_equations; lia.
Qed.

Lemma store_outside v w m a :
  V2P v mod PGSIZE = 0 -> ~ in_page v a -> word_at (<[V2P v / 4 := w]> m) a = word_at m a.
Proof.
  intros Hv Ha. unfold word_at. rewrite lookup_insert_ne; [done|].
  intros E. apply Ha. unfold in_page, PGSIZE in *. Z.div_mod_to_equations; lia.
Qed.

Lemma pages_apart en v v' :
  KERNBASE <= en -> is_page en v -> is_page en v' -> v <> v' -> ~ in_page v (V2P v').
Proof.
  intros Hen Hv Hv' Hne. unfold in_page. rewrite !(V2P_page en) by done.
  unfold is_page, PGSIZE, KERNBASE in *. Z.div_mod_to_equations; lia.
Qed.

Lemma V2P_aligned en v : KERNBASE <= en -> is_page en v -> V2P v mod PGSIZE = 0.
Proof.
  intros Hen Hv. rewrite (V2P_page en) by done. unfold is_page, PGSIZE, KERNBASE in *.
  Z.div_mod_to_equations; lia.
Qed.

(** The list is unaffected by writes outside its pages. *)
Lemma flist_frame m m' r l :
  flist m r l -> (forall v, v ∈ l -> word_at m' (V2P v) = word_at m (V2P v)) -> flist m' r l.
Proof.
  induction 1 as [|v l Hv _ IH]; intros Heq; constructor; [done|].
  rewrite Heq by left. apply IH. intros. apply Heq. by right.
Qed.

Lemma flist_inj m r l1 l2 : flist m r l1 -> flist m r l2 -> l1 = l2.
Proof.
  intros H. revert l2. induction H as [|v l Hv _ IH]; intros l2 H2; inversion H2; try done.
  f_equal. auto.
Qed.

(** The memory after kfree(v). *)
Definition freed (v : Z) (w : vmst) : vmst :=
  w <| mem := <[V2P v / 4 := u32 (freelist w)]> (fill 1024 (V2P v / 4) 0x01010101 (mem w)) |>
    <| freelist := v |>.

Lemma kfree_run v e s :
  is_page (l_end (link s)) v -> KERNBASE <= l_end (link s) -> kmem_ready s ->
  kfree v e s = Ret tt e (s <| vm ::= freed v |> <| sync := kmem_sync s |>).
Proof.
  intros Hv Hen Hready. pose proof (V2P_page _ _ Hen Hv) as HV.
  unfold kfree. prim.
  replace (negb _ || _ || _) with false.
  2:{ symmetry. rewrite HV. unfold is_page, PGSIZE, KERNBASE in *. bool_arith; done || lia. }
  prim. unfold kmem_sync.
  destruct (use_lock (vm s) =? 0) eqn:Hul; cbn [negb when]; prim.
  { rewrite Hul. cbn. unfold ret. state_eq. }
  destruct Hready as [H|[Hok Hf]]; [by rewrite H in Hul|].
  erewrite bind_Ret by (by apply acquire_run). prim. rewrite Hul. cbn [negb when].
  by rewrite (release_run _ _ _ (sync s)).
Qed.

Lemma kalloc_run e s :
  kmem_ready s ->
  kalloc e s =
    Ret (freelist (vm s)) e
      (s <| vm ::= fun w => if freelist w =? 0 then w
                            else w <| freelist := word_at (mem w) (V2P (freelist w)) |> |>
         <| sync := kmem_sync s |>).
Proof.
  intros Hready. unfold kalloc, kmem_sync. prim.
  destruct (use_lock (vm s) =? 0) eqn:Hul; cbn [negb when]; prim.
  { destruct (freelist (vm s) =? 0) eqn:Hfl; cbn [negb when]; prim; rewrite Hul; cbn [negb when];
      prim; unfold ret, upd; cbn; rewrite Hfl; by destruct s. }
  destruct Hready as [H|[Hok Hf]]; [by rewrite H in Hul|].
  erewrite bind_Ret by (by apply acquire_run). prim. cbn.
  destruct (freelist (vm s) =? 0) eqn:Hfl; cbn [negb when]; prim; rewrite Hul; cbn [negb when];
    (erewrite bind_Ret by (by apply (release_run _ _ _ (sync s)))); unfold ret, upd; cbn;
    rewrite Hfl; by destruct s.
Qed.

(** ** The allocator refines a stack of pages *)

(** Only memory words, the free list and the saved interrupt flag differ. *)
Definition kmem_frame (s s' : kstate) : Prop :=
  exists m fl sy, s' = s <| vm ::= fun w => w <| mem := m |> <| freelist := fl |> |>
                         <| sync := sy |> /\ settled (sync s) sy.

Lemma kmem_sync_settled s : settled (sync s) (kmem_sync s).
Proof. unfold kmem_sync. destruct (_ =? _); auto with xv6. Qed.

Lemma kmem_frame_trans s1 s2 s3 : kmem_frame s1 s2 -> kmem_frame s2 s3 -> kmem_frame s1 s3.
Proof.
  intros (m1 & f1 & sy1 & -> & H1) (m2 & f2 & sy2 & -> & H2).
  exists m2, f2, sy2. split; [done | by eapply settled_trans].
Qed.

Lemma kmem_frame_refl s : kmem_frame s s.
Proof.
  exists (mem (vm s)), (freelist (vm s)), (sync s). split; [|auto with xv6].
  eta_lhs. state_eq. eta_lhs. state_eq.
Qed.

Lemma kmem_frame_ready s s' : kmem_frame s s' -> kmem_ready s -> kmem_ready s'.
Proof.
  intros (m & fl & sy & -> & Hsy) [H|[Hok Hf]]; [by left | right]. cbn. eauto with xv6.
Qed.

Lemma flist_small m r l en :
  KERNBASE <= en -> flist m r l -> Forall (is_page en) l -> u32 r = r.
Proof.
  intros Hen [|v l' Hv _] Hp; [done|]. apply Forall_cons in Hp as [Hp _].
  unfold is_page, KERNBASE, PHYSTOP, PGSIZE in *. cint.
Qed.

Lemma kfree_spec v e s pages :
  kmem_inv s pages -> is_page (l_end (link s)) v -> v ∉ pages -> kmem_ready s ->
  exists s', kfree v e s = Ret tt e s' /\ kmem_frame s s' /\ kmem_inv s' (v :: pages) /\
    (forall a, ~ in_page v a -> word_at (mem (vm s')) a = word_at (mem (vm s)) a).
Proof.
  intros (Hen & Hfl & Hnd & Hpg) Hv Hnew Hready.
  eexists. split; [by apply kfree_run|].
  assert (forall a, ~ in_page v a ->
            word_at (mem (freed v (vm s))) a = word_at (mem (vm s)) a) as Hout.
  { intros a Ha. cbn. rewrite store_outside, fill_outside; eauto using V2P_aligned. }
  split; [|split; [|exact Hout]].
  { eexists _, _, _. split; [reflexivity | apply kmem_sync_settled]. }
  split; [done|]. split; [|split; [by constructor | by constructor]]. cbn.
  constructor; [unfold is_page, KERNBASE in *; lia|].
  unfold word_at at 1. rewrite lookup_insert_eq. cbn in Hout |- *.
  rewrite (flist_small _ _ _ _ Hen Hfl Hpg) in Hout |- *.
  apply (flist_frame _ _ _ _ Hfl). intros v' Hv'. apply Hout.
  rewrite Forall_forall in Hpg. eapply pages_apart; eauto. intros ->. done.
Qed.

Lemma kalloc_spec e s pages :
  kmem_inv s pages -> kmem_ready s ->
  exists s', kalloc e s = Ret (default 0 (head pages)) e s' /\ kmem_frame s s' /\
    kmem_inv s' (tail pages) /\ mem (vm s') = mem (vm s).
Proof.
  intros (Hen & Hfl & Hnd & Hpg) Hready.
  rewrite kalloc_run by done. eexists. split; [f_equal|].
  { by inversion Hfl. }
  destruct (Z.eqb_spec (freelist (vm s)) 0) as [Hr|Hr].
  - assert (pages = []) as -> by (inversion Hfl; congruence).
    split; [|split].
    + exists (mem (vm s)), (freelist (vm s)), (kmem_sync s).
      split; [|apply kmem_sync_settled]. unfold upd; cbn. rewrite Hr. cbn. rewrite <-Hr.
      by destruct (vm s).
    + split; [done|]. unfold upd; cbn. by rewrite (proj2 (Z.eqb_eq _ _) Hr).
    + unfold upd; cbn. by rewrite Hr.
  - inversion Hfl as [|v l Hv Hl]; subst; [congruence|].
    apply NoDup_cons in Hnd as [Hni Hnd]. apply Forall_cons in Hpg as [Hp Hpg].
    apply Z.eqb_neq in Hr. split; [|split].
    + exists (mem (vm s)), (word_at (mem (vm s)) (V2P (freelist (vm s)))), (kmem_sync s).
      split; [|apply kmem_sync_settled]. unfold upd; cbn. by rewrite Hr.
    + split; [done|]. unfold upd; cbn. by rewrite Hr.
    + unfold upd; cbn. by rewrite Hr.
Qed.

(** ** freerange *)

(** The [n] pages from [p] on. *)
Definition kpages (p n : Z) : list Z := (fun i => p + i * PGSIZE) <$> seqZ 0 n.

Lemma elem_of_kpages p n v : v ∈ kpages p n <-> exists i, v = p + i * PGSIZE /\ 0 <= i < n.
Proof.
  unfold kpages. rewrite list_elem_of_fmap. setoid_rewrite elem_of_seqZ.
  split; intros (i & ? & ?); exists i; lia.
Qed.

Lemma kpages_succ p n : 0 <= n -> kpages p (Z.succ n) = p :: kpages (p + PGSIZE) n.
Proof.
  intros Hn. unfold kpages. rewrite seqZ_cons by lia. simpl. f_equal; [lia|].
  replace (Z.pred (Z.succ n)) with n by lia.
  rewrite <-(fmap_add_seqZ 1 0). rewrite <-list_fmap_compose. simpl.
  apply list_fmap_ext. intros i x _. simpl. lia.
Qed.

Lemma NoDup_kpages p n : NoDup (kpages p n).
Proof.
  unfold kpages. apply NoDup_fmap_2; [|apply NoDup_seqZ].
  intros i j Hij. unfold PGSIZE in Hij. lia.
Qed.

Lemma freerange_loop_spec (n : nat) p vend e s pages :
  kmem_inv s pages -> kmem_ready s ->
  p mod PGSIZE = 0 -> l_end (link s) <= p <= KERNBASE + PHYSTOP ->
  vend <= KERNBASE + PHYSTOP ->
  Z.of_nat n = Z.max 0 ((vend - p) / PGSIZE) ->
  (forall v, v ∈ kpages p (Z.of_nat n) -> v ∉ pages) ->
  exists s', freerange_loop (S n) p vend e s = Ret tt e s' /\ kmem_frame s s' /\
    kmem_inv s' (reverse (kpages p (Z.of_nat n)) ++ pages).
Proof.
  revert p s pages. induction n as [|n IH]; intros p s pages Hinv Hready Hal Hp Hend Hn Hnew.
  - exists s. split; [|split; [apply kmem_frame_refl | done]].
    cbn [freerange_loop]. destruct (Z.leb_spec (u32 (p + PGSIZE)) vend) as [H|H]; [|done].
    exfalso. destruct Hinv as (Hen & _). unfold KERNBASE, PHYSTOP, PGSIZE in *.
    cint.
  - assert (is_page (l_end (link s)) p) as Hpage.
    { split; [done|]. unfold PGSIZE, PHYSTOP, KERNBASE in *. Z.div_mod_to_equations; lia. }
    assert (u32 (p + PGSIZE) = p + PGSIZE) as Hu.
    { destruct Hinv as (Hen & _). unfold is_page, KERNBASE, PHYSTOP, PGSIZE in *. cint. }
    rewrite Nat2Z.inj_succ, kpages_succ in Hnew |- * by lia.
    remember (S n) as m. cbn [freerange_loop]. subst m. rewrite Hu.
    destruct (Z.leb_spec (p + PGSIZE) vend) as [H|H].
    2:{ exfalso. unfold PGSIZE in *. Z.div_mod_to_equations; lia. }
    destruct (kfree_spec p e s pages) as (s1 & Hrun & Hfr & Hinv1 & _); auto.
    { apply Hnew. left. }
    erewrite bind_Ret by exact Hrun.
    assert (link s1 = link s) as Hlink by (by destruct Hfr as (? & ? & ? & -> & _)).
    destruct (IH (p + PGSIZE) s1 (p :: pages)) as (s2 & Hrun2 & Hfr2 & Hinv2).
    + done.
    + by eapply kmem_frame_ready.
    + unfold PGSIZE in *. Z.div_mod_to_equations; lia.
    + rewrite Hlink. unfold PGSIZE in *. lia.
    + done.
    + unfold PGSIZE in *. Z.div_mod_to_equations; lia.
    + intros v Hv. apply not_elem_of_cons. split; [|apply Hnew; by right].
      apply elem_of_kpages in Hv as (i & -> & Hi). unfold PGSIZE. lia.
    + exists s2. split; [exact Hrun2|]. split; [by eapply kmem_frame_trans|].
      by rewrite reverse_cons, <-app_assoc.
Qed.

Lemma land_lnot_ones a n : 0 <= n -> Z.land a (Z.lnot (2 ^ n - 1)) = 2 ^ n * (a / 2 ^ n).
Proof.
  intros Hn. rewrite Z.sub_1_r, <-Z.ones_equiv, <-Z.ldiff_land, Z.ldiff_ones_r by done.
  rewrite Z.shiftr_div_pow2, Z.shiftl_mul_pow2 by done. lia.
Qed.

Lemma PGROUNDDOWN_eq a : PGROUNDDOWN a = PGSIZE * (a / PGSIZE).
Proof. unfold PGROUNDDOWN, PGSIZE. change 4096 with (2 ^ 12). by apply land_lnot_ones. Qed.

Lemma PGROUNDUP_eq sz :
  0 <= sz -> sz + PGSIZE <= 2 ^ 32 -> PGROUNDUP sz = PGSIZE * ((sz + PGSIZE - 1) / PGSIZE).
Proof.
  intros H0 Hs. unfold PGROUNDUP, PGSIZE in *. rewrite u32_small by cint.
  change 4096 with (2 ^ 12) at 2 3 4. rewrite land_lnot_ones by lia. done.
Qed.

(** freerange on an empty free list: exactly the whole pages of the range become free. *)
Lemma freerange_spec vstart vend e s :
  kmem_inv s [] -> kmem_ready s ->
  l_end (link s) <= vstart -> vstart <= vend <= KERNBASE + PHYSTOP -> vend mod PGSIZE = 0 ->
  let p := PGROUNDUP vstart in
  exists s', freerange vstart vend e s = Ret tt e s' /\ kmem_frame s s' /\
    kmem_inv s' (reverse (kpages p ((vend - p) / PGSIZE))).
Proof.
  intros Hinv Hready Hst Hend Hal p. unfold freerange. fold p.
  assert (p = PGSIZE * ((vstart + PGSIZE - 1) / PGSIZE)) as Hp.
  { apply PGROUNDUP_eq; destruct Hinv as (Hen & _); unfold KERNBASE, PHYSTOP, PGSIZE in *; lia. }
  assert (vstart <= p <= vend /\ p mod PGSIZE = 0) as [Hpr Hpa].
  { rewrite Hp. unfold PGSIZE in *. Z.div_mod_to_equations; lia. }
  assert (0 <= (vend - p) / PGSIZE) by (apply Z.div_pos; unfold PGSIZE; lia).
  destruct (freerange_loop_spec (Z.to_nat ((vend - p) / PGSIZE)) p vend e s [])
    as (s' & Hrun & Hfr & Hinv'); auto; try lia.
  { set_solver. }
  exists s'. split; [done|]. split; [done|]. by rewrite Z2Nat.id, app_nil_r in Hinv' by lia.
Qed.

(** ** Clients of the allocator

    A client allocates pages, writes anywhere inside the pages it was given, and frees pages it
    was given; [used] is the set of pages currently handed out. *)

Inductive kstep : kstate * gset Z -> kstate * gset Z -> Prop :=
| kstep_alloc e s s' used r :
    kalloc e s = Ret r e s' -> r <> 0 -> kstep (s, used) (s', {[r]} ∪ used)
| kstep_alloc_fail e s s' used :
    kalloc e s = Ret 0 e s' -> kstep (s, used) (s', used)
| kstep_free e s s' used v :
    v ∈ used -> kfree v e s = Ret tt e s' -> kstep (s, used) (s', used ∖ {[v]})
| kstep_write s used v a w :
    v ∈ used -> in_page v a ->
    kstep (s, used) (s <| vm ::= fun m => m <| mem ::= <[a / 4 := w]> |> |>, used).

(** Free and used pages partition [P]. *)
Definition kmem_part (P : gset Z) (st : kstate * gset Z) : Prop :=
  exists pages, kmem_inv st.1 pages /\ kmem_ready st.1 /\
    list_to_set pages ## st.2 /\ list_to_set pages ∪ st.2 = P /\
    (forall v, v ∈ P -> is_page (l_end (link st.1)) v).

Lemma kmem_frame_link s s' : kmem_frame s s' -> link s' = link s.
Proof. by intros (? & ? & ? & -> & _). Qed.

Lemma kmem_part_step P st st' : kmem_part P st -> kstep st st' -> kmem_part P st'.
Proof.
  intros (pages & Hinv & Hready & Hdisj & Huni & HP) Hstep.
  destruct Hstep as [e s s' used r Hr Hne|e s s' used Hr|e s s' used v Hv Hr|s used v a w Hv Ha];
    cbn [fst snd] in *.
  - destruct (kalloc_spec e s pages) as (s1 & Hrun & Hfr & Hinv1 & _); [done..|].
    rewrite Hrun in Hr. simplify_eq. destruct pages as [|v pages]; [done|]. cbn [tail head default list_to_set] in *.
    unfold id in *.
    assert (v ∉ pages) as Hni.
    { destruct Hinv as (_ & _ & Hnd & _). by apply NoDup_cons in Hnd as [? _]. }
    exists pages. cbn. rewrite (kmem_frame_link _ _ Hfr).
    split; [done|]. split; [by eapply kmem_frame_ready|]. split; [|split; [|done]].
    + rewrite <-(elem_of_list_to_set (C := gset Z)) in Hni. set_solver.
    + set_solver.
  - destruct (kalloc_spec e s pages) as (s1 & Hrun & Hfr & Hinv1 & _); [done..|].
    rewrite Hrun in Hr. injection Hr as H0 <-. destruct pages as [|v pages].
    + exists []. cbn. rewrite (kmem_frame_link _ _ Hfr).
      split; [done|]. split; [by eapply kmem_frame_ready | done].
    + exfalso. cbn in H0. subst v. destruct (HP 0) as [_ ?]; [set_solver|].
      destruct Hinv as (Hen & _). unfold KERNBASE in *. lia.
  - assert (v ∉ pages) as Hni.
    { rewrite <-(elem_of_list_to_set (C := gset Z)). set_solver. }
    destruct (kfree_spec v e s pages) as (s1 & Hrun & Hfr & Hinv1 & _); auto.
    { apply HP. set_solver. }
    rewrite Hrun in Hr. simplify_eq. exists (v :: pages). cbn. rewrite (kmem_frame_link _ _ Hfr).
    split; [done|]. split; [by eapply kmem_frame_ready|]. split; [set_solver|]. split; [|done].
    apply set_eq. intros x. destruct (decide (x = v)); set_solver.
  - exists pages. cbn. split; [|done]. destruct Hinv as (Hen & Hfl & Hnd & Hpg).
    split; [done|]. split; [|done]. cbn. apply (flist_frame _ _ _ _ Hfl).
    intros v' Hv'. unfold word_at. rewrite lookup_insert_ne; [done|]. intros Heq.
    assert (v <> v') as Hne.
    { intros <-. assert (v ∈ (list_to_set pages : gset Z)) by by apply elem_of_list_to_set.
      set_solver. }
    assert (is_page (l_end (link s)) v) as Hpv by (apply HP; set_solver).
    rewrite Forall_forall in Hpg. specialize (Hpg _ Hv').
    apply (pages_apart _ _ _ Hen Hpv Hpg Hne). unfold in_page in *.
    rewrite !(V2P_page _ _ Hen) in * by done. unfold is_page, PGSIZE, KERNBASE in *.
    Z.div_mod_to_equations; lia.
Qed.

(** The pages freerange visits are the whole pages of the range. *)
Lemma kpages_range vstart vend v :
  0 <= vstart < 2 ^ 32 - PGSIZE -> vstart <= vend <= KERNBASE + PHYSTOP -> vend mod PGSIZE = 0 ->
  (exists i, v = PGROUNDUP vstart + i * PGSIZE /\ 0 <= i < (vend - PGROUNDUP vstart) / PGSIZE) <->
  v mod PGSIZE = 0 /\ vstart <= v < vend.
Proof.
  intros Hs He Hal. rewrite PGROUNDUP_eq by (unfold PGSIZE in *; lia).
  unfold PGSIZE in *. split.
  - intros (i & -> & Hi). split; Z.div_mod_to_equations; lia.
  - intros [Hm Hv]. exists ((v - 4096 * ((vstart + 4096 - 1) / 4096)) / 4096).
    Z.div_mod_to_equations; lia.
Qed.
