(* ===== verification/Str.v ===== *)
(** * Memory and string routines: string.c

    The routines run on any byte-addressed memory [ByteMem].  Physical memory, seen through the
    kernel's direct map, is one. *)

From stdpp Require Import base list gmap strings fin_maps.
From S2P Require Import Prelude State Monad Kalloc.
Open Scope Z_scope.

(** ** Byte-addressed memory *)

Definition is_addr (a : Z) : Prop := 0 <= a < 2 ^ 32.

Class ByteMem (T : Type) := {
  ldb : T -> Z -> Z;
  stb : T -> Z -> Z -> T;
  ldb_range : forall t a, 0 <= ldb t a < 256;
  ldb_stb_eq : forall t a b, is_addr a -> ldb (stb t a b) a = u8 b;
  ldb_stb_ne : forall t a a' b, is_addr a -> is_addr a' -> a <> a' -> ldb (stb t a b) a' = ldb t a'
}.

Section string.
  Context {T : Type} `{!ByteMem T}.
  Implicit Types (t : T) (dst src s p q c : Z).

(** rep stosb and rep stosl. *)
Fixpoint stosb t dst c (cnt : nat) : T :=
  match cnt with O => t | S cnt => stosb (stb t dst c) (u32 (dst + 1)) c cnt end.

Definition stw t a w : T :=
  stb (stb (stb (stb t a w) (u32 (a + 1)) (Z.shiftr w 8))
         (u32 (a + 2)) (Z.shiftr w 16)) (u32 (a + 3)) (Z.shiftr w 24).

Fixpoint stosl t dst w (cnt : nat) : T :=
  match cnt with O => t | S cnt => stosl (stw t dst w) (u32 (dst + 4)) w cnt end.

Definition memset t dst c n : T :=
  if (dst mod 4 =? 0) && (n mod 4 =? 0) then
    let c := Z.land c 0xFF in
    stosl t dst (Z.lor (Z.lor (Z.lor (Z.shiftl c 24) (Z.shiftl c 16)) (Z.shiftl c 8)) c)
      (Z.to_nat (n / 4))
  else stosb t dst c (Z.to_nat n).

Fixpoint memcmp_loop t s1 s2 (n : nat) : Z :=
  match n with
  | O => 0
  | S n => if ldb t s1 =? ldb t s2 then memcmp_loop t (u32 (s1 + 1)) (u32 (s2 + 1)) n
           else ldb t s1 - ldb t s2
  end.

Definition memcmp t v1 v2 n : Z := memcmp_loop t v1 v2 (Z.to_nat n).

(** [while(n-- > 0) *--d = *--s] and [while(n-- > 0) *d++ = *s++]. *)
Fixpoint move_down t d s (n : nat) : T :=
  match n with
  | O => t
  | S n => let d := u32 (d - 1) in let s := u32 (s - 1) in
           move_down (stb t d (ldb t s)) d s n
  end.

Fixpoint move_up t d s (n : nat) : T :=
  match n with
  | O => t
  | S n => move_up (stb t d (ldb t s)) (u32 (d + 1)) (u32 (s + 1)) n
  end.

Definition memmove t dst src n : T :=
  if (src <? dst) && (dst <? u32 (src + n))
  then move_down t (u32 (dst + n)) (u32 (src + n)) (Z.to_nat n)
  else move_up t dst src (Z.to_nat n).

Definition memcpy t dst src n : T := memmove t dst src n.

Fixpoint strncmp_loop t p q (n : nat) : Z :=
  match n with
  | O => 0
  | S n' => if negb (ldb t p =? 0) && (ldb t p =? ldb t q)
            then strncmp_loop t (u32 (p + 1)) (u32 (q + 1)) n'
            else ldb t p - ldb t q
  end.

Definition strncmp t p q n : Z := strncmp_loop t p q (Z.to_nat n).

(** The two loops of strncpy: copy through the NUL, then pad. *)
Fixpoint strncpy_loop t s src (n : nat) : T :=
  match n with
  | O => t
  | S n => let c := ldb t src in
           let t := stb t s c in
           if c =? 0 then stosb t (u32 (s + 1)) 0 n
           else strncpy_loop t (u32 (s + 1)) (u32 (src + 1)) n
  end.

Definition strncpy t s src n : T := strncpy_loop t s src (Z.to_nat n).

Fixpoint safestrcpy_loop t s src (n : nat) : T :=
  match n with
  | O => stb t s 0
  | S n => let c := ldb t src in
           let t := stb t s c in
           if c =? 0 then stb t (u32 (s + 1)) 0
           else safestrcpy_loop t (u32 (s + 1)) (u32 (src + 1)) n
  end.

Definition safestrcpy t s src n : T :=
  if n <=? 0 then t else safestrcpy_loop t s src (Z.to_nat (n - 1)).

(** The loop of strlen, bounded by [fuel] bytes. *)
Fixpoint strlen (fuel : nat) t s n : option Z :=
  match fuel with
  | O => None
  | S fuel => if ldb t (u32 (s + n)) =? 0 then Some n else strlen fuel t s (n + 1)
  end.

End string.

(** ** Bytes of physical memory *)

Definition get_byte (w i : Z) : Z := Z.land (Z.shiftr w (8 * i)) 0xff.
Definition put_byte (w i b : Z) : Z :=
  Z.lor (Z.ldiff w (Z.shiftl 0xff (8 * i))) (Z.shiftl (u8 b) (8 * i)).

Definition byte_at (m : gmap Z Z) (pa : Z) : Z := get_byte (word_at m pa) (pa mod 4).
Definition set_byte (m : gmap Z Z) (pa b : Z) : gmap Z Z :=
  <[pa / 4 := put_byte (word_at m pa) (pa mod 4) b]> m.

Lemma testbit_ff k : Z.testbit 0xff k = (0 <=? k) && (k <? 8).
Proof.
  change 0xff with (Z.ones 8). destruct (Z.leb_spec 0 k); simpl.
  - rewrite Z.testbit_ones by lia. by destruct (Z.leb_spec 0 k); [|lia].
  - by rewrite Z.testbit_neg_r by lia.
Qed.

Lemma testbit_u8 b k : Z.testbit (u8 b) k = (0 <=? k) && (k <? 8) && Z.testbit b k.
Proof.
  unfold u8. change 256 with (2 ^ 8). destruct (Z.leb_spec 0 k); simpl.
  - destruct (Z.ltb_spec k 8); simpl.
    + by rewrite Z.mod_pow2_bits_low by lia.
    + by rewrite Z.mod_pow2_bits_high by lia.
  - by rewrite Z.testbit_neg_r by lia.
Qed.

Lemma get_byte_range w i : 0 <= get_byte w i < 256.
Proof.
  unfold get_byte. change 0xff with (Z.ones 8).
  rewrite Z.land_ones by lia. apply Z.mod_pos_bound. lia.
Qed.

Lemma get_put_byte w i j b :
  0 <= i -> 0 <= j -> get_byte (put_byte w i b) j = if i =? j then u8 b else get_byte w j.
Proof.
  intros Hi Hj. unfold get_byte, put_byte. apply Z.bits_inj'; intros k Hk.
  rewrite Z.land_spec, Z.shiftr_spec, Z.lor_spec, Z.ldiff_spec, !Z.shiftl_spec by lia.
  rewrite testbit_u8, !testbit_ff.
  destruct (Z.eqb_spec i j) as [->|Hne].
  - replace (k + 8 * j - 8 * j) with k by lia. rewrite testbit_u8.
    destruct (0 <=? k), (k <? 8), (Z.testbit w (k + 8 * j)), (Z.testbit b k); done.
  - rewrite Z.land_spec, Z.shiftr_spec, testbit_ff by lia.
    destruct (Z.ltb_spec k 8); [|by rewrite !andb_false_r].
    destruct (Z.leb_spec 0 (k + 8 * j - 8 * i)), (Z.ltb_spec (k + 8 * j - 8 * i) 8); simpl;
      rewrite ?andb_true_r, ?orb_false_r; lia || done.
Qed.

Lemma V2P_inj a b : is_addr a -> is_addr b -> V2P a = V2P b -> a = b.
Proof. unfold is_addr, V2P, KERNBASE. intros. cint. Qed.

#[export] Program Instance kernel_mem : ByteMem (gmap Z Z) := {
  ldb m a := byte_at m (V2P a);
  stb m a b := set_byte m (V2P a) b
}.
Next Obligation. intros. apply get_byte_range. Qed.
Next Obligation.
  intros m a b Ha. unfold byte_at, set_byte, word_at at 1. rewrite lookup_insert_eq. simpl.
  rewrite get_put_byte by (apply Z.mod_pos_bound; lia). by rewrite Z.eqb_refl.
Qed.
Next Obligation.
  intros m a a' b Ha Ha' Hne. unfold byte_at, set_byte, word_at at 1.
  destruct (decide (V2P a / 4 = V2P a' / 4)) as [E|E].
  - rewrite E, lookup_insert_eq. simpl. rewrite get_put_byte by (apply Z.mod_pos_bound; lia).
    unfold word_at. rewrite E.
    destruct (Z.eqb_spec (V2P a mod 4) (V2P a' mod 4)) as [E'|]; [|done].
    destruct Hne. apply V2P_inj; [done..|].
    rewrite (Z.div_mod (V2P a) 4), (Z.div_mod (V2P a') 4) by lia. lia.
  - by rewrite lookup_insert_ne.
Qed.

(** ** What the routines compute *)

Section string_laws.
  #[local] Coercion Z.of_nat : nat >-> Z.
  Context {T : Type} `{!ByteMem T}.
  Implicit Types (t : T) (dst src s p q c a : Z).

(** [a] is one of the [n] bytes from [b] on, none of which wraps around. *)
Definition within b n a : bool := (b <=? a) && (a <? b + n).
Definition block b n : Prop := 0 <= b /\ 0 <= n /\ b + n <= 2 ^ 32.

Lemma ldb_stb t a b a' :
  is_addr a -> is_addr a' -> ldb (stb t a b) a' = if a =? a' then u8 b else ldb t a'.
Proof.
  intros. destruct (Z.eqb_spec a a') as [->|].
  - by apply ldb_stb_eq.
  - by apply ldb_stb_ne.
Qed.

Lemma u8_ldb t a : u8 (ldb t a) = ldb t a.
Proof. apply u8_small, ldb_range. Qed.

Lemma u32_succ a : u32 (u32 a + 1) = u32 (a + 1).
Proof. apply u32_add_l. Qed.

Lemma stosb_spec (n : nat) t dst c a :
  block dst n -> is_addr a ->
  ldb (stosb t (u32 dst) c n) a = if within dst n a then u8 c else ldb t a.
Proof.
  revert t dst. induction n as [|n IH]; intros t dst Hb Ha; cbn [stosb];
    unfold within, block, is_addr in *.
  { by bool_arith; try lia. }
  rewrite u32_succ, IH, (u32_small dst), ldb_stb by (unfold is_u32, is_addr; lia).
  bool_arith; done || lia.
Qed.

Lemma stw_bytes t dst w a :
  block dst 4 -> is_addr a ->
  ldb (stw t dst w) a = if within dst 4 a then get_byte w (a - dst) else ldb t a.
Proof.
  unfold stw, within, block, is_addr. intros Hb Ha.
  rewrite !u32_small by (unfold is_u32; lia).
  rewrite !ldb_stb by (unfold is_addr; lia).
  assert (forall k, u8 (Z.shiftr w k) = Z.land (Z.shiftr w k) 0xff) as Hb8.
  { intros k. change 0xff with (Z.ones 8). by rewrite Z.land_ones by lia. }
  rewrite !Hb8. assert (u8 w = Z.land (Z.shiftr w (8 * 0)) 255) as ->.
  { by rewrite <-Hb8, Z.shiftr_0_r. }
  unfold get_byte. bool_arith; try lia; subst; try done.
  all: do 3 f_equal; lia.
Qed.

Lemma stosl_spec (n : nat) t dst w c a :
  (forall i, 0 <= i < 4 -> get_byte w i = c) ->
  block dst (4 * n) -> is_addr a ->
  ldb (stosl t (u32 dst) w n) a = if within dst (4 * n) a then c else ldb t a.
Proof.
  intros Hw. revert t dst. induction n as [|n IH]; intros t dst Hb Ha; cbn [stosl];
    unfold block, is_addr in *.
  { unfold within. by bool_arith; try lia. }
  rewrite u32_add_l, IH, (u32_small dst), stw_bytes by (unfold is_u32, is_addr, block; lia).
  unfold within. bool_arith; try lia; try done. apply Hw. lia.
Qed.

Lemma replicated_bytes c i :
  0 <= i < 4 ->
  get_byte (Z.lor (Z.lor (Z.lor (Z.shiftl (Z.land c 0xff) 24) (Z.shiftl (Z.land c 0xff) 16))
                     (Z.shiftl (Z.land c 0xff) 8)) (Z.land c 0xff)) i = u8 c.
Proof.
  intros Hi. unfold get_byte. apply Z.bits_inj'; intros k Hk.
  rewrite Z.land_spec, Z.shiftr_spec, !Z.lor_spec, !Z.shiftl_spec, !Z.land_spec by lia.
  rewrite testbit_u8, !testbit_ff.
  destruct (Z.ltb_spec k 8) as [Hk8|]; [|by rewrite !andb_false_r].
  assert (i = 0 \/ i = 1 \/ i = 2 \/ i = 3) as [ -> | [ -> | [ -> | -> ] ] ] by lia;
    repeat match goal with
    | |- context [k + ?x - ?y] => ring_simplify (k + x - y)
    end; simpl.
  all: repeat match goal with
    | |- context [Z.leb ?x ?y] => destruct (Z.leb_spec x y); try lia
    | |- context [Z.ltb ?x ?y] => destruct (Z.ltb_spec x y); try lia
    end; simpl; rewrite ?andb_true_r, ?andb_false_r, ?orb_false_r; try done.
  all: rewrite ?orb_false_l; f_equal; lia.
Qed.

Lemma memset_bytes t dst c n a :
  block dst n -> is_addr a ->
  ldb (memset t dst c n) a = if within dst n a then u8 c else ldb t a.
Proof.
  intros Hb Ha. unfold memset, block in *.
  destruct (decide (n = 0)) as [->|].
  { unfold within. destruct (dst mod 4 =? 0); simpl; by bool_arith; try lia. }
  assert (u32 dst = dst) as Hdst by (apply u32_small; unfold is_u32; lia).
  destruct ((dst mod 4 =? 0) && (n mod 4 =? 0)) eqn:E.
  - apply andb_prop in E as [_ E]. apply Z.eqb_eq in E.
    assert (4 * Z.to_nat (n / 4) = n) as Hn.
    { rewrite Z2Nat.id by (apply Z.div_pos; lia). pose proof (Z.div_mod n 4). lia. }
    rewrite <-Hdst at 1. rewrite (stosl_spec _ _ _ _ (u8 c)); rewrite ?Hn; try done.
    intros i Hi. by apply replicated_bytes.
  - rewrite <-Hdst at 1. rewrite stosb_spec; rewrite ?Z2Nat.id by lia; done.
Qed.

Lemma move_up_spec (n : nat) t d s a :
  block d n -> block s n -> d <= s \/ s + n <= d -> is_addr a ->
  ldb (move_up t (u32 d) (u32 s) n) a = if within d n a then ldb t (a - d + s) else ldb t a.
Proof.
  revert t d s. induction n as [|n IH]; intros t d s Hd Hs Hds Ha; cbn [move_up];
    unfold within, block, is_addr in *.
  { by bool_arith; try lia. }
  rewrite !u32_succ, IH by (unfold is_addr; lia). unfold within.
  rewrite !(u32_small d), !(u32_small s) by (unfold is_u32; lia).
  bool_arith; try lia; rewrite ldb_stb, u8_ldb by (unfold is_addr; lia);
    bool_arith; try lia; subst; f_equal; lia.
Qed.

Lemma move_down_spec (n : nat) t d s a :
  block (d - n) n -> block (s - n) n -> s <= d -> is_addr a ->
  ldb (move_down t (u32 d) (u32 s) n) a =
  if within (d - n) n a then ldb t (a - d + s) else ldb t a.
Proof.
  revert t d s. induction n as [|n IH]; intros t d s Hd Hs Hds Ha; cbn [move_down];
    unfold within, block, is_addr in *.
  { by bool_arith; try lia. }
  rewrite !u32_sub_l, IH by (unfold is_addr; lia). unfold within.
  rewrite !(u32_small (d - 1)), !(u32_small (s - 1)) by (unfold is_u32; lia).
  bool_arith; try lia; rewrite ldb_stb, u8_ldb by (unfold is_addr; lia);
    bool_arith; try lia; subst; f_equal; lia.
Qed.

Lemma memmove_bytes t dst src n a :
  block dst n -> block src n -> src + n < 2 ^ 32 -> is_addr a ->
  ldb (memmove t dst src n) a = if within dst n a then ldb t (a - dst + src) else ldb t a.
Proof.
  intros Hd Hs Hw Ha. unfold memmove, block in *.
  rewrite (u32_small (src + n)) by (unfold is_u32; lia).
  destruct ((src <? dst) && (dst <? src + n)) eqn:E.
  - rewrite <-(u32_small (src + n)), move_down_spec
      by (rewrite ?Z2Nat.id; unfold block, is_u32; lia || done).
    rewrite Z2Nat.id by lia. replace (dst + n - n) with dst by lia.
    destruct (within dst n a); [f_equal; lia|done].
  - destruct (decide (n = 0)) as [->|].
    { unfold within. by bool_arith; try lia. }
    rewrite <-(u32_small dst), <-(u32_small src) at 1 by (unfold is_u32; lia).
    rewrite move_up_spec by (rewrite ?Z2Nat.id; unfold block; bool_arith; lia || done).
    by rewrite Z2Nat.id by lia.
Qed.

(** The C string at [a], cut after [n] bytes. *)
Fixpoint cstr t a (n : nat) : list Z :=
  match n with
  | O => []
  | S n => if ldb t a =? 0 then [] else ldb t a :: cstr t (u32 (a + 1)) n
  end.

Lemma cstr_length t a n : (length (cstr t a n) <= n)%nat.
Proof. revert a. induction n; intros a; simpl; [lia|]. case_match; simpl; [lia|]. by apply le_n_S. Qed.

Lemma cstr_ext t t' a (n : nat) :
  block a n -> (forall i, a <= i < a + n -> ldb t i = ldb t' i) ->
  cstr t (u32 a) n = cstr t' (u32 a) n.
Proof.
  revert a. induction n as [|n IH]; intros a Hb Heq; [done|]; simpl. unfold block in *.
  rewrite !u32_succ, IH by (intros; try apply Heq; lia).
  by rewrite (u32_small a), Heq by (unfold is_u32; lia).
Qed.

Lemma strncmp_cstr t p q (n : nat) :
  strncmp t p q n = 0 <-> cstr t p n = cstr t q n.
Proof.
  unfold strncmp. rewrite Nat2Z.id. revert p q.
  induction n as [|n IH]; intros p q; [done|]; simpl.
  destruct (Z.eqb_spec (ldb t p) (ldb t q)) as [<-|Hne].
  - destruct (ldb t p =? 0); simpl; [by split; [|lia]|].
    rewrite IH. split; [by intros ->|by intros [=]].
  - rewrite andb_false_r. split; [lia|].
    destruct (Z.eqb_spec (ldb t p) 0), (Z.eqb_spec (ldb t q) 0); intros [=]; lia.
Qed.

Lemma strncpy_loop_spec (n : nat) t s src a :
  block s n -> block src n -> s + n <= src \/ src + n <= s -> is_addr a ->
  ldb (strncpy_loop t (u32 s) (u32 src) n) a =
  if within s n a
  then if a - s <? length (cstr t (u32 src) n) then ldb t (a - s + src) else 0
  else ldb t a.
Proof.
  revert t s src. induction n as [|n IH]; intros t s src Hs Hsrc Hd Ha;
    cbn [strncpy_loop cstr]; unfold within, block, is_addr in *.
  { by bool_arith; try lia. }
  rewrite !u32_succ. destruct (Z.eqb_spec (ldb t (u32 src)) 0) as [E|E].
  - rewrite stosb_spec, (u32_small s), ldb_stb by (unfold block, is_addr, is_u32; lia).
    unfold within. rewrite E. bool_arith; done || lia.
  - rewrite IH by (unfold is_addr; lia).
    rewrite (cstr_ext _ t) by (intros; rewrite ?(u32_small s), ?ldb_stb
      by (unfold is_u32, is_addr; lia); unfold block; bool_arith; lia || done).
    cbn [length]. rewrite (u32_small s), (u32_small src) by (unfold is_u32; lia).
    bool_arith; try lia; rewrite ?ldb_stb, ?u8_ldb by (unfold is_addr; lia);
      bool_arith; try lia; subst; try done; f_equal; lia.
Qed.

(** The first [n] bytes of the string are copied and a NUL follows them; one more byte may be
    cleared, within the [n + 1] bytes of the destination. *)
Lemma safestrcpy_loop_spec (n : nat) t s src a :
  block s (n + 1) -> block src n -> s + n < src \/ src + n <= s -> is_addr a ->
  let k := length (cstr t (u32 src) n) in
  let v := ldb (safestrcpy_loop t (u32 s) (u32 src) n) a in
  (s <= a < s + k -> v = ldb t (a - s + src)) /\
  (a = s + k -> v = 0) /\
  (within s (n + 1) a = false -> v = ldb t a).
Proof.
  revert t s src. induction n as [|n IH]; intros t s src Hs Hsrc Hd Ha;
    cbn [safestrcpy_loop cstr]; unfold within, block, is_addr in *.
  { simpl. rewrite (u32_small s), ldb_stb by (unfold is_u32, is_addr; lia).
    bool_arith; repeat split; intros; done || lia. }
  rewrite !u32_succ. destruct (Z.eqb_spec (ldb t (u32 src)) 0) as [E|E]; cbn zeta.
  - rewrite (u32_small s), (u32_small (s + 1)), !ldb_stb, E by (unfold is_addr, is_u32; lia).
    simpl. bool_arith; repeat split; intros; done || lia.
  - destruct (IH (stb t (u32 s) (ldb t (u32 src))) (s + 1) (src + 1)) as (H1 & H2 & H3); try lia.
    rewrite (cstr_ext _ t) in H1, H2 by (intros; rewrite ?(u32_small s), ?ldb_stb
      by (unfold is_u32, is_addr; lia); unfold block; bool_arith; lia || done).
    cbn [length]. rewrite (u32_small s), (u32_small src) in * by (unfold is_u32; lia).
    assert (forall b, 0 <= b < 2 ^ 32 -> ldb (stb t s (ldb t src)) b =
                      if s =? b then ldb t src else ldb t b) as Hst.
    { intros b Hb. by rewrite ldb_stb, u8_ldb by (unfold is_addr; lia). }
    pose proof (cstr_length t (u32 (src + 1)) n). repeat split.
    + intros Ha'. destruct (decide (a = s)) as [->|].
      * rewrite H3, Hst, Z.eqb_refl by (bool_arith; lia). f_equal. lia.
      * rewrite H1, Hst by lia. case_match; [|f_equal]; lia.
    + intros ->. apply H2. lia.
    + intros Ha'. rewrite H3, Hst by (bool_arith; lia). case_match; [bool_arith; lia|done].
Qed.

Lemma cstr_copied t t' s src (n : nat) :
  block s (n + 1) -> block src n ->
  let k := length (cstr t (u32 src) n) in
  (forall i, 0 <= i < k -> ldb t' (s + i) = ldb t (src + i)) -> ldb t' (s + k) = 0 ->
  cstr t' (u32 s) (n + 1) = cstr t (u32 src) n.
Proof.
  revert s src. induction n as [|n IH]; intros s src Hs Hsrc k Hcopy Hend; subst k;
    cbn [cstr Nat.add length] in *; unfold block in *.
  { rewrite Z.add_0_r in Hend. by rewrite (u32_small s), Hend by (unfold is_u32; lia). }
  rewrite !u32_succ in *. rewrite (u32_small s) in * by (unfold is_u32; lia).
  rewrite (u32_small src) in * by (unfold is_u32; lia).
  destruct (Z.eqb_spec (ldb t src) 0) as [E|E]; cbn [length] in *.
  - rewrite Z.add_0_r in Hend. by rewrite Hend.
  - pose proof (Hcopy 0) as H0. rewrite !Z.add_0_r in H0. rewrite H0 by lia.
    destruct (Z.eqb_spec (ldb t src) 0); [done|]. f_equal.
    apply IH; try lia.
    + intros i Hi. rewrite <-!Z.add_assoc. apply Hcopy. lia.
    + rewrite <-Z.add_assoc. rewrite <-Hend. f_equal. lia.
Qed.

Lemma safestrcpy_cstr t s src n :
  0 < n -> block s n -> is_addr src -> block src (n - 1) -> s + n <= src \/ src + n <= s + 1 ->
  cstr (safestrcpy t s src n) s (Z.to_nat n) = cstr t src (Z.to_nat (n - 1)) /\
  forall a, is_addr a -> within s n a = false -> ldb (safestrcpy t s src n) a = ldb t a.
Proof.
  intros Hn Hs Hsrc0 Hsrc Hd. unfold safestrcpy. destruct (Z.leb_spec n 0); [lia|].
  unfold block, is_addr in Hsrc0, Hs, Hsrc.
  rewrite <-(u32_small s), <-(u32_small src) by (unfold is_u32; lia).
  assert (forall a, is_addr a -> _) as Hspec
    by exact (fun a => safestrcpy_loop_spec (Z.to_nat (n - 1)) t s src a
                ltac:(unfold block; lia) ltac:(unfold block; lia) ltac:(lia)).
  cbn zeta in Hspec. pose proof (cstr_length t (u32 src) (Z.to_nat (n - 1))). split.
  - replace (Z.to_nat n) with (Z.to_nat (n - 1) + 1)%nat by lia.
    apply cstr_copied; try (unfold block; lia).
    + intros i Hi. destruct (Hspec (s + i)) as (H1 & _); [unfold is_addr; lia|].
      rewrite H1 by lia. f_equal. lia.
    + apply Hspec; unfold is_addr; lia.
  - intros a Ha Hout. apply Hspec; [done|]. rewrite <-Hout.
    rewrite (u32_small s) by (unfold is_u32; lia). f_equal. lia.
Qed.

Lemma strlen_cstr t s (k : nat) :
  (length (cstr t (u32 s) k) < k)%nat ->
  strlen k t s 0 = Some (Z.of_nat (length (cstr t (u32 s) k))).
Proof.
  enough (forall n, (length (cstr t (u32 (s + n)) k) < k)%nat ->
            strlen k t s n = Some (n + Z.of_nat (length (cstr t (u32 (s + n)) k)))) as H.
  { intros Hk. specialize (H 0). rewrite Z.add_0_r in H. by rewrite H. }
  induction k as [|k IH]; intros n Hk; [lia|]. simpl in *.
  destruct (ldb t (u32 (s + n)) =? 0); simpl in *; [f_equal; lia|].
  rewrite u32_succ in *. rewrite <-Z.add_assoc in *.
  rewrite IH by lia. f_equal. lia.
Qed.
End string_laws.
