(* ===== verification/Vm.v ===== *)
(** * Virtual memory: vm.c, and the page-table part of mmu.h

    Page directories and page tables are pages of physical memory; a page-table entry is a word
    of it.  [xlate] is the walk the hardware performs on an access. *)

From stdpp Require Import base list gmap strings fin_maps.
From S2P Require Import Prelude State Monad Spinlock Console Kalloc Str.
Open Scope Z_scope.

(** ** mmu.h *)

Definition PTXSHIFT : Z := 12.
Definition PDXSHIFT : Z := 22.
Definition NPDENTRIES : Z := 1024.
Definition PDX (va : Z) : Z := Z.land (Z.shiftr va PDXSHIFT) 0x3FF.
Definition PTX (va : Z) : Z := Z.land (Z.shiftr va PTXSHIFT) 0x3FF.
Definition PGADDR (d t o : Z) : Z :=
  u32 (Z.lor (Z.lor (Z.shiftl d PDXSHIFT) (Z.shiftl t PTXSHIFT)) o).

Definition PTE_P : Z := 0x001.
Definition PTE_W : Z := 0x002.
Definition PTE_U : Z := 0x004.
Definition PTE_ADDR (pte : Z) : Z := Z.land pte (Z.lnot 0xFFF).
Definition PTE_FLAGS (pte : Z) : Z := Z.land pte 0xFFF.

(** A C test of a flag. *)
Definition has (w flag : Z) : bool := negb (Z.land w flag =? 0).

(** ** Page tables *)

(** Address of the entry for [va], 0 when there is none. *)
Definition walkpgdir (pgdir va alloc : Z) : M Z :=
  let pde := u32 (pgdir + 4 * PDX va) in
  d ← kload pde ;
  if has d PTE_P then ret (u32 (P2V (PTE_ADDR d) + 4 * PTX va)) else
  if alloc =? 0 then ret 0 else
  pgtab ← kalloc ;
  if pgtab =? 0 then ret 0 else
  memset_page pgtab 0 ;;
  kstore pde (Z.lor (Z.lor (Z.lor (V2P pgtab) PTE_P) PTE_W) PTE_U) ;;
  ret (u32 (pgtab + 4 * PTX va)).

(** The loop of mappages: [a] up to and including [last]. *)
Fixpoint mappages_loop (fuel : nat) (pgdir a last pa perm : Z) : M Z :=
  match fuel with
  | O => nofuel
  | S fuel =>
      pte ← walkpgdir pgdir a 1 ;
      if pte =? 0 then ret (-1) else
      w ← kload pte ;
      if has w PTE_P then panic "remap" else
      kstore pte (Z.lor (Z.lor pa perm) PTE_P) ;;
      if a =? last then ret 0
      else mappages_loop fuel pgdir (u32 (a + PGSIZE)) last (u32 (pa + PGSIZE)) perm
  end.

Definition mappages (pgdir va size pa perm : Z) : M Z :=
  let a := PGROUNDDOWN va in
  let last := PGROUNDDOWN (u32 (va + size - 1)) in
  mappages_loop (S (Z.to_nat (u32 (last - a) / PGSIZE))) pgdir a last pa perm.

(** The address the deallocation loop goes on from after [a] when the whole page table is
    absent, and otherwise. *)
Fixpoint deallocuvm_loop (fuel : nat) (pgdir a oldsz : Z) : M unit :=
  match fuel with
  | O => nofuel
  | S fuel =>
      if a <? oldsz then
        pte ← walkpgdir pgdir a 0 ;
        a ← (if pte =? 0 then ret (u32 (PGADDR (PDX a + 1) 0 0 - PGSIZE))
             else w ← kload pte ;
                  if has w PTE_P then
                    let pa := PTE_ADDR w in
                    if pa =? 0 then panic "kfree" else
                    kfree (P2V pa) ;;
                    kstore pte 0 ;;
                    ret a
                  else ret a) ;
        deallocuvm_loop fuel pgdir (u32 (a + PGSIZE)) oldsz
      else ret tt
  end.

Definition deallocuvm (pgdir oldsz newsz : Z) : M Z :=
  if oldsz <=? newsz then ret oldsz else
  let a := PGROUNDUP newsz in
  deallocuvm_loop (S (Z.to_nat (oldsz / PGSIZE + 1))) pgdir a oldsz ;;
  ret newsz.

Definition freevm (pgdir : Z) : M unit :=
  if pgdir =? 0 then panic "freevm: no pgdir" else
  deallocuvm pgdir KERNBASE 0 ;;
  for_each (range 0 NPDENTRIES) (fun i =>
    d ← kload (u32 (pgdir + 4 * i)) ;
    when (has d PTE_P) (kfree (P2V (PTE_ADDR d)))) ;;
  kfree pgdir.

(** [struct kmap kmap[]]: virt, phys_start, phys_end, perm. *)
Definition kmap (lk : linkmap) : list (Z * Z * Z * Z) :=
  [ (KERNBASE, 0, EXTMEM, PTE_W);
    (KERNLINK, V2P KERNLINK, V2P (l_data lk), 0);
    (l_data lk, V2P (l_data lk), PHYSTOP, PTE_W);
    (DEVSPACE, DEVSPACE, 0, PTE_W) ].

Definition setupkvm : M Z :=
  pgdir ← kalloc ;
  if pgdir =? 0 then ret 0 else
  memset_page pgdir 0 ;;
  if DEVSPACE <? P2V PHYSTOP then panic "PHYSTOP too high" else
  lk ← gets link ;
  r ← for_until (kmap lk) (fun '(virt, pstart, pend, perm) =>
        r ← mappages pgdir virt (u32 (pend - pstart)) pstart perm ;
        if r <? 0 then freevm pgdir ;; ret (Some 0) else ret None) ;
  match r with Some v => ret v | None => ret pgdir end.

Definition switchkvm : M unit := set_vm (fun w => w <| cr3 := V2P (kpgdir w) |>).

Definition kvmalloc : M unit :=
  p ← setupkvm ;
  set_vm (fun w => w <| kpgdir := p |>) ;;
  switchkvm.

(** ** Segment descriptors *)

Definition SEG_KCODE : Z := 1.
Definition SEG_KDATA : Z := 2.
Definition SEG_UCODE : Z := 3.
Definition SEG_UDATA : Z := 4.
Definition SEG_TSS : Z := 5.
Definition DPL_USER : Z := 3.
Definition FL_IF : Z := 0x200.
Definition STA_X : Z := 8.
Definition STA_W : Z := 2.
Definition STA_R : Z := 2.
Definition STS_T32A : Z := 9.

Definition SEG (type base lim dpl : Z) : segdesc :=
  mkSeg (Z.land (Z.shiftr lim 12) 0xffff) (Z.land base 0xffff)
    (Z.land (Z.shiftr base 16) 0xff) type 1 dpl 1 (Z.shiftr lim 28) 0 0 1 1 (Z.shiftr base 24).
Definition SEG16 (type base lim dpl : Z) : segdesc :=
  mkSeg (Z.land lim 0xffff) (Z.land base 0xffff)
    (Z.land (Z.shiftr base 16) 0xff) type 1 dpl 1 (Z.shiftr lim 16) 0 0 1 0 (Z.shiftr base 24).

Definition seginit : M unit :=
  i ← mycpu ;
  set_cpu i (fun c => c <| gdt ::= fun g =>
    <[Z.to_nat SEG_UDATA := SEG STA_W 0 0xffffffff DPL_USER]>
    (<[Z.to_nat SEG_UCODE := SEG (Z.lor STA_X STA_R) 0 0xffffffff DPL_USER]>
    (<[Z.to_nat SEG_KDATA := SEG STA_W 0 0xffffffff 0]>
    (<[Z.to_nat SEG_KCODE := SEG (Z.lor STA_X STA_R) 0 0xffffffff 0]> g))) |>).

(** ** Access through the current page table *)

(** The hardware walk from page directory [dir] (a physical address): the physical address of
    [va] and the writability the two entries grant. *)
Definition xlate (m : gmap Z Z) (dir va : Z) : option (Z * bool) :=
  let d := word_at m (dir + 4 * PDX va) in
  if has d PTE_P then
    let t := word_at m (PTE_ADDR d + 4 * PTX va) in
    if has t PTE_P
    then Some (PTE_ADDR t + Z.land va 0xFFF, has d PTE_W && has t PTE_W)
    else None
  else None.

(** A kernel access to a user address.  A fault in kernel mode ends in panic("trap"). *)
Definition uload8 (va : Z) : M Z :=
  v ← gets vm ;
  match xlate (mem v) (cr3 v) va with
  | Some (pa, _) => ret (byte_at (mem v) pa)
  | None => panic "trap"
  end.

Definition ustore8 (va b : Z) : M unit :=
  v ← gets vm ;
  match xlate (mem v) (cr3 v) va with
  | Some (pa, true) => set_vm (fun w => w <| mem := set_byte (mem w) pa b |>)
  | _ => panic "trap"
  end.

(** The word at [va], byte by byte as the four bytes may lie in two pages. *)
Definition uload32 (va : Z) : M Z :=
  b0 ← uload8 va ;
  b1 ← uload8 (u32 (va + 1)) ;
  b2 ← uload8 (u32 (va + 2)) ;
  b3 ← uload8 (u32 (va + 3)) ;
  ret (Z.lor (Z.lor (Z.lor b0 (Z.shiftl b1 8)) (Z.shiftl b2 16)) (Z.shiftl b3 24)).

Definition ustore32 (va w : Z) : M unit :=
  ustore8 va w ;;
  ustore8 (u32 (va + 1)) (Z.shiftr w 8) ;;
  ustore8 (u32 (va + 2)) (Z.shiftr w 16) ;;
  ustore8 (u32 (va + 3)) (Z.shiftr w 24).

(** memmove between kernel addresses, and from a buffer of the kernel stack. *)
Definition kmemmove (dst src n : Z) : M unit := set_vm (fun w => w <| mem ::= fun m => memmove m dst src n |>).

Fixpoint put_bytes (m : gmap Z Z) (dst : Z) (bs : list Z) : gmap Z Z :=
  match bs with
  | [] => m
  | b :: bs => put_bytes (stb m dst b) (u32 (dst + 1)) bs
  end.

(** ** Address spaces *)

(** sizeof(struct cpu), the offset of its [ts] and sizeof(struct taskstate). *)
Definition cpu_size : Z := 176.
Definition ts_offset : Z := 8.
Definition ts_size : Z := 104.

Definition switchuvm (p : option nat) : M unit :=
  match p with
  | None => panic "switchuvm: no process"
  | Some pi =>
      pr ← getp pi ;
      if p_kstack pr =? 0 then panic "switchuvm: no kstack" else
      if p_pgdir pr =? 0 then panic "switchuvm: no pgdir" else
      pushcli ;;
      i ← mycpu ;
      base ← gets (fun s => u32 (l_cpus (link s) + cpu_size * Z.of_nat i + ts_offset)) ;
      set_cpu i (fun c => c <| gdt ::= <[Z.to_nat SEG_TSS :=
        (SEG16 STS_T32A base (ts_size - 1) 0) <| sd_s := 0 |> ]> |>) ;;
      set_cpu i (fun c => c <| ts_ss0 := Z.shiftl SEG_KDATA 3 |>) ;;
      set_cpu i (fun c => c <| ts_esp0 := u32 (p_kstack pr + KSTACKSIZE) |>) ;;
      set_cpu i (fun c => c <| ts_iomb := 0xFFFF |>) ;;
      set_vm (fun w => w <| cr3 := V2P (p_pgdir pr) |>) ;;
      popcli
  end.

Definition inituvm (pgdir : Z) (init : list Z) (sz : Z) : M unit :=
  if PGSIZE <=? sz then panic "inituvm: more than a page" else
  m ← kalloc ;
  if m =? 0 then undef "inituvm: memset(0)" else
  memset_page m 0 ;;
  mappages pgdir 0 PGSIZE (V2P m) (Z.lor PTE_W PTE_U) ;;
  set_vm (fun w => w <| mem ::= fun mm => put_bytes mm m (take (Z.to_nat sz) init) |>).

Fixpoint allocuvm_loop (fuel : nat) (pgdir a oldsz newsz : Z) : M Z :=
  match fuel with
  | O => nofuel
  | S fuel =>
      if a <? newsz then
        m ← kalloc ;
        if m =? 0 then
          cprintf ("allocuvm out of memory
") [] ;;
          deallocuvm pgdir newsz oldsz ;;
          ret 0
        else
        memset_page m 0 ;;
        r ← mappages pgdir a PGSIZE (V2P m) (Z.lor PTE_W PTE_U) ;
        if r <? 0 then
          cprintf ("allocuvm out of memory (2)
") [] ;;
          deallocuvm pgdir newsz oldsz ;;
          kfree m ;;
          ret 0
        else allocuvm_loop fuel pgdir (u32 (a + PGSIZE)) oldsz newsz
      else ret newsz
  end.

Definition allocuvm (pgdir oldsz newsz : Z) : M Z :=
  if KERNBASE <=? newsz then ret 0 else
  if newsz <? oldsz then ret oldsz else
  allocuvm_loop (S (Z.to_nat (newsz / PGSIZE + 1))) pgdir (PGROUNDUP oldsz) oldsz newsz.

Definition clearpteu (pgdir uva : Z) : M unit :=
  pte ← walkpgdir pgdir uva 0 ;
  if pte =? 0 then panic "clearpteu" else
  w ← kload pte ;
  kstore pte (Z.land w (Z.lnot PTE_U)).

(** The loop of copyuvm; [false] is its [goto bad]. *)
Fixpoint copyuvm_loop (fuel : nat) (pgdir d i sz : Z) : M bool :=
  match fuel with
  | O => nofuel
  | S fuel =>
      if i <? sz then
        pte ← walkpgdir pgdir i 0 ;
        if pte =? 0 then panic "copyuvm: pte should exist" else
        w ← kload pte ;
        if negb (has w PTE_P) then panic "copyuvm: page not present" else
        let pa := PTE_ADDR w in
        let flags := PTE_FLAGS w in
        m ← kalloc ;
        if m =? 0 then ret false else
        kmemmove m (P2V pa) PGSIZE ;;
        r ← mappages d i PGSIZE (V2P m) flags ;
        if r <? 0 then kfree m ;; ret false
        else copyuvm_loop fuel pgdir d (u32 (i + PGSIZE)) sz
      else ret true
  end.

Definition copyuvm (pgdir sz : Z) : M Z :=
  d ← setupkvm ;
  if d =? 0 then ret 0 else
  ok ← copyuvm_loop (S (Z.to_nat (sz / PGSIZE + 1))) pgdir d 0 sz ;
  if ok : bool then ret d else freevm d ;; ret 0.

(** The entry is read without a test that there is one. *)
Definition uva2ka (pgdir uva : Z) : M Z :=
  pte ← walkpgdir pgdir uva 0 ;
  if pte =? 0 then undef "uva2ka: null page-table entry" else
  w ← kload pte ;
  if negb (has w PTE_P) then ret 0 else
  if negb (has w PTE_U) then ret 0 else
  ret (P2V (PTE_ADDR w)).

Fixpoint copyout_loop (fuel : nat) (pgdir va : Z) (buf : list Z) (len : Z) : M Z :=
  match fuel with
  | O => nofuel
  | S fuel =>
      if 0 <? len then
        let va0 := PGROUNDDOWN va in
        pa0 ← uva2ka pgdir va0 ;
        if pa0 =? 0 then ret (-1) else
        let n := Z.min (PGSIZE - (va - va0)) len in
        set_vm (fun w => w <| mem ::= fun m => put_bytes m (u32 (pa0 + (va - va0))) (take (Z.to_nat n) buf) |>) ;;
        copyout_loop fuel pgdir (u32 (va0 + PGSIZE)) (drop (Z.to_nat n) buf) (len - n)
      else ret 0
  end.

(** [p] is the bytes the source pointer gives. *)
Definition copyout (pgdir va : Z) (p : list Z) (len : Z) : M Z :=
  copyout_loop (S (Z.to_nat (len / PGSIZE + 2))) pgdir va p len.
