(* ===== verification/VmProofs.v ===== *)
(** * Page tables as finite maps

    [pte_of] reads the entry of a virtual address out of memory.  [pgt_inv] says that a page
    directory and its page tables are well-formed and that they, the user frames and the free
    pages partition a fixed region of pages.  walkpgdir leaves every entry alone, mappages is a
    range update, and neither touches memory outside the region. *)

From stdpp Require Import base list gmap strings fin_maps.
From S2P Require Import Prelude State Monad Spinlock Console Kalloc Str Vm.
Open Scope Z_scope.

(** ** Addresses and entries *)

Lemma PDX_range va : 0 <= PDX va < 1024.
Proof.
  unfold PDX. change 0x3FF with (Z.ones 10). rewrite Z.land_ones by lia.
  by apply Z.mod_pos_bound.
Qed.
Lemma PTX_range va : 0 <= PTX va < 1024.
Proof.
  unfold PTX. change 0x3FF with (Z.ones 10). rewrite Z.land_ones by lia.
  by apply Z.mod_pos_bound.
Qed.

Lemma PDX_eq va : is_u32 va -> PDX va = va / 4194304.
Proof.
  intros H. unfold PDX, PDXSHIFT. change 0x3FF with (Z.ones 10).
  rewrite Z.land_ones, Z.shiftr_div_pow2 by lia. apply Z.mod_small.
  unfold is_u32 in H. change (2 ^ 22) with 4194304. change (2 ^ 10) with 1024.
  change (2 ^ 32) with 4294967296 in *. Z.div_mod_to_equations; lia.
Qed.
Lemma PTX_eq va : PTX va = (va / 4096) mod 1024.
Proof.
  unfold PTX, PTXSHIFT. change 0x3FF with (Z.ones 10).
  by rewrite Z.land_ones, Z.shiftr_div_pow2 by lia.
Qed.

(** Same directory and table index iff same page. *)
Lemma same_page va va' :
  is_u32 va -> is_u32 va' ->
  PDX va = PDX va' /\ PTX va = PTX va' <-> va / PGSIZE = va' / PGSIZE.
Proof.
  intros H H'. rewrite !PDX_eq, !PTX_eq by done. unfold PGSIZE.
  replace 4194304 with (4096 * 1024) by lia. rewrite <-!Z.div_div by lia.
  split; [|by intros ->]. intros [E1 E2].
  rewrite (Z.div_mod (va / 4096) 1024), (Z.div_mod (va' / 4096) 1024), E1, E2 by lia. done.
Qed.

Lemma PGADDR_split va :
  is_u32 va -> PGADDR (PDX va) (PTX va) (Z.land va 0xFFF) = va.
Proof.
  intros H. unfold PGADDR.
  rewrite <-Z.lor_assoc.
  change 0xFFF with (Z.ones 12). rewrite Z.land_ones by lia. change (2 ^ 12) with 4096.
  assert (0 <= va mod 4096 < 4096) by (apply Z.mod_pos_bound; lia).
  pose proof (PTX_range va).
  rewrite (lor_shiftl_add (PTX va)) by (unfold PTXSHIFT; lia).
  rewrite lor_shiftl_add by (unfold PTXSHIFT, PDXSHIFT; lia).
  unfold PTXSHIFT, PDXSHIFT. rewrite PDX_eq, PTX_eq by done.
  unfold is_u32 in H. change (2 ^ 12) with 4096. change (2 ^ 22) with 4194304.
  cint.
Qed.

Lemma has_bit w k : 0 <= k -> has w (2 ^ k) = Z.testbit w k.
Proof.
  intros Hk. unfold has. destruct (Z.eqb_spec (Z.land w (2 ^ k)) 0) as [E|E]; symmetry.
  - pose proof (Z.land_spec w (2 ^ k) k) as H. rewrite E, Z.pow2_bits_true in H by done.
    by rewrite Z.bits_0, andb_true_r in H.
  - apply not_false_iff_true. intros H. apply E. apply Z.bits_inj'. intros n Hn.
    rewrite Z.land_spec, Z.bits_0, Z.pow2_bits_eqb by done.
    destruct (Z.eqb_spec k n) as [<-|]; [by rewrite H | by rewrite andb_false_r].
Qed.
Lemma has_P w : has w PTE_P = Z.testbit w 0.
Proof. by apply (has_bit w 0). Qed.
Lemma has_W w : has w PTE_W = Z.testbit w 1.
Proof. by apply (has_bit w 1). Qed.
Lemma has_U w : has w PTE_U = Z.testbit w 2.
Proof. by apply (has_bit w 2). Qed.

Lemma PTE_ADDR_eq w : PTE_ADDR w = PGSIZE * (w / PGSIZE).
Proof. apply PGROUNDDOWN_eq. Qed.
Lemma PTE_FLAGS_eq w : PTE_FLAGS w = w mod PGSIZE.
Proof.
  unfold PTE_FLAGS, PGSIZE. change 0xFFF with (Z.ones 12). by rewrite Z.land_ones by lia.
Qed.

(** An entry put together from a page address and flags gives both back. *)
Lemma lor_flags pa f : pa mod PGSIZE = 0 -> 0 <= f < PGSIZE -> Z.lor pa f = pa + f.
Proof.
  unfold PGSIZE. intros Hpa Hf. replace pa with (Z.shiftl (pa / 4096) 12) at 1.
  - rewrite lor_shiftl_add by lia. change (2 ^ 12) with 4096. Z.div_mod_to_equations; lia.
  - rewrite Z.shiftl_mul_pow2 by lia. change (2 ^ 12) with 4096. Z.div_mod_to_equations; lia.
Qed.
Lemma PTE_ADDR_join pa f : pa mod PGSIZE = 0 -> 0 <= f < PGSIZE -> PTE_ADDR (pa + f) = pa.
Proof. rewrite PTE_ADDR_eq. unfold PGSIZE. intros. Z.div_mod_to_equations; lia. Qed.
Lemma PTE_FLAGS_join pa f : pa mod PGSIZE = 0 -> 0 <= f < PGSIZE -> PTE_FLAGS (pa + f) = f.
Proof. rewrite PTE_FLAGS_eq. unfold PGSIZE. intros. Z.div_mod_to_equations; lia. Qed.
Lemma testbit_join pa f k :
  pa mod PGSIZE = 0 -> 0 <= f < PGSIZE -> 0 <= k < 12 -> Z.testbit (pa + f) k = Z.testbit f k.
Proof.
  intros Hpa Hf Hk. rewrite <-lor_flags, Z.lor_spec by done. unfold PGSIZE in *.
  replace pa with (Z.shiftl (pa / 4096) 12).
  - by rewrite Z.shiftl_spec_low by lia.
  - rewrite Z.shiftl_mul_pow2 by lia. change (2 ^ 12) with 4096. Z.div_mod_to_equations; lia.
Qed.

Lemma P2V_V2P_page en v : KERNBASE <= en -> is_page en v -> P2V (V2P v) = v.
Proof.
  intros Hen Hv. rewrite (V2P_page en) by done. unfold P2V, is_page, KERNBASE, PHYSTOP in *. cint.
Qed.
Lemma V2P_off en v o :
  KERNBASE <= en -> is_page en v -> 0 <= o < PGSIZE -> V2P (u32 (v + o)) = V2P v + o.
Proof.
  intros Hen Hv Ho. rewrite (V2P_page en v) by done.
  unfold V2P, is_page, KERNBASE, PHYSTOP, PGSIZE in *. cint.
Qed.

(** ** Memory *)

Lemma word_store m x w a :
  x mod 4 = 0 -> a mod 4 = 0 -> word_at (<[x / 4 := w]> m) a = if x =? a then w else word_at m a.
Proof.
  intros Hx Ha. unfold word_at. destruct (Z.eqb_spec x a) as [->|Hne].
  - by rewrite lookup_insert_eq.
  - rewrite lookup_insert_ne; [done|]. Z.div_mod_to_equations; lia.
Qed.

Lemma fill_inside v w m a :
  V2P v mod PGSIZE = 0 -> in_page v a -> word_at (fill 1024 (V2P v / 4) w m) a = w.
Proof.
  intros Hv Ha. unfold word_at. rewrite lookup_fill.
  replace (in_range _ _) with true; [done|]. symmetry. apply in_range_spec.
  unfold in_page, PGSIZE in *. Z.div_mod_to_equations; lia.
Qed.

(** Two pages of the allocator share no address. *)
Lemma in_page_inj en v v' a :
  KERNBASE <= en -> is_page en v -> is_page en v' -> in_page v a -> in_page v' a -> v = v'.
Proof.
  intros Hen Hv Hv'. unfold in_page. rewrite !(V2P_page en) by done.
  unfold is_page, PGSIZE, KERNBASE in *. Z.div_mod_to_equations; lia.
Qed.

(** ** The entry of a virtual address *)

Definition pte_of (m : gmap Z Z) (dir va : Z) : Z :=
  let d := word_at m (V2P dir + 4 * PDX va) in
  if has d PTE_P then word_at m (PTE_ADDR d + 4 * PTX va) else 0.

(** [tabs] gives the page table of each present directory entry. *)
Definition tabs_ok (m : gmap Z Z) (dir : Z) (tabs : gmap Z Z) : Prop :=
  (forall i t, tabs !! i = Some t -> 0 <= i < 1024 /\ word_at m (V2P dir + 4 * i) = V2P t + 7) /\
  (forall i, 0 <= i < 1024 -> tabs !! i = None -> has (word_at m (V2P dir + 4 * i)) PTE_P = false).

Definition tpages (tabs : gmap Z Z) : list Z := (map_to_list tabs).*2.

(** The page directory [dir], its tables, the pages [frames] and the free pages are exactly the
    region [R], without overlap. *)
Record pgt_inv (R : list Z) (dir : Z) (tabs : gmap Z Z) (frames free : list Z) (s : kstate) : Prop := {
  pi_mem : kmem_inv s free;
  pi_ready : kmem_ready s;
  pi_tabs : tabs_ok (mem (vm s)) dir tabs;
  pi_perm : dir :: tpages tabs ++ frames ++ free ≡ₚ R;
  pi_nodup : NoDup R;
  pi_pages : Forall (is_page (l_end (link s))) R
}.

(** Memory outside the pages [ps] is the same in [m] and [m']. *)
Definition same_outside (ps : list Z) (m m' : gmap Z Z) : Prop :=
  forall a, (forall p, p ∈ ps -> ~ in_page p a) -> word_at m' a = word_at m a.

Lemma same_outside_refl ps m : same_outside ps m m.
Proof. done. Qed.
Lemma same_outside_trans ps ps' m1 m2 m3 :
  ps' ⊆ ps -> same_outside ps m1 m2 -> same_outside ps' m2 m3 -> same_outside ps m1 m3.
Proof. intros Hsub H1 H2 a Ha. rewrite H2, H1; set_solver. Qed.
Lemma same_outside_mono ps ps' m m' : ps' ⊆ ps -> same_outside ps' m m' -> same_outside ps m m'.
Proof. intros Hsub H a Ha. apply H. set_solver. Qed.
#[export] Hint Resolve same_outside_refl kmem_frame_refl : xv6.

Lemma elem_of_tpages tabs t : t ∈ tpages tabs <-> exists i, tabs !! i = Some t.
Proof.
  unfold tpages. rewrite list_elem_of_fmap. split.
  - intros ([i t'] & -> & H). exists i. by apply elem_of_map_to_list.
  - intros (i & H). exists (i, t). split; [done|]. by apply elem_of_map_to_list.
Qed.

Lemma tpages_insert tabs i t : tabs !! i = None -> tpages (<[i := t]> tabs) ≡ₚ t :: tpages tabs.
Proof. intros H. unfold tpages. by rewrite map_to_list_insert. Qed.

(** ** Walking *)

Record dir_ok (dir : Z) (tabs : gmap Z Z) (s : kstate) : Prop := {
  do_en : KERNBASE <= l_end (link s);
  do_dir : is_page (l_end (link s)) dir;
  do_page : forall i t, tabs !! i = Some t -> is_page (l_end (link s)) t;
  do_tabs : tabs_ok (mem (vm s)) dir tabs
}.

Lemma pgt_is_page R dir tabs frames free s p :
  pgt_inv R dir tabs frames free s -> p ∈ dir :: tpages tabs ++ frames ++ free ->
  is_page (l_end (link s)) p.
Proof.
  intros H. rewrite (pi_perm _ _ _ _ _ _ H). apply Forall_forall, H.
Qed.

Lemma pgt_dir_ok R dir tabs frames free s : pgt_inv R dir tabs frames free s -> dir_ok dir tabs s.
Proof.
  intros H. split; [apply H|..|apply H].
  - eapply pgt_is_page; [done|]. left.
  - intros i t Ht. eapply pgt_is_page; [done|]. right. apply elem_of_app. left.
    apply elem_of_tpages. eauto.
Qed.

Lemma tab_entry en t :
  KERNBASE <= en -> is_page en t ->
  has (V2P t + 7) PTE_P = true /\ has (V2P t + 7) PTE_W = true /\ PTE_ADDR (V2P t + 7) = V2P t.
Proof.
  intros Hen Ht. pose proof (V2P_aligned _ _ Hen Ht).
  rewrite has_P, has_W, !testbit_join, PTE_ADDR_join by (unfold PGSIZE; lia || done). done.
Qed.

Lemma dir_entry dir tabs s va :
  dir_ok dir tabs s -> kload (u32 (dir + 4 * PDX va)) = gets (fun s => word_at (mem (vm s)) (V2P dir + 4 * PDX va)).
Proof.
  intros H. unfold kload. pose proof (PDX_range va).
  by rewrite (V2P_off _ _ _ (do_en _ _ _ H) (do_dir _ _ _ H)) by (unfold PGSIZE; lia).
Qed.

Lemma pte_of_tab dir tabs s va :
  dir_ok dir tabs s ->
  pte_of (mem (vm s)) dir va =
  match tabs !! PDX va with
  | Some t => word_at (mem (vm s)) (V2P t + 4 * PTX va)
  | None => 0
  end.
Proof.
  intros H. unfold pte_of. destruct (do_tabs _ _ _ H) as [Hs Hn].
  destruct (tabs !! PDX va) as [t|] eqn:E.
  - destruct (Hs _ _ E) as [_ ->].
    destruct (tab_entry _ t (do_en _ _ _ H) (do_page _ _ _ H _ _ E)) as (-> & _ & ->). done.
  - by rewrite (Hn _ (PDX_range va) E).
Qed.

Lemma walkpgdir_found dir tabs s va alloc t e :
  dir_ok dir tabs s -> tabs !! PDX va = Some t ->
  walkpgdir dir va alloc e s = Ret (u32 (t + 4 * PTX va)) e s.
Proof.
  intros H E. unfold walkpgdir. rewrite (dir_entry _ _ _ _ H). prim.
  destruct (do_tabs _ _ _ H) as [Hs _]. destruct (Hs _ _ E) as [_ ->].
  pose proof (do_page _ _ _ H _ _ E) as Ht.
  destruct (tab_entry _ t (do_en _ _ _ H) Ht) as (-> & _ & ->).
  by rewrite (P2V_V2P_page _ _ (do_en _ _ _ H)).
Qed.

Lemma walkpgdir_none dir tabs s va e :
  dir_ok dir tabs s -> tabs !! PDX va = None -> walkpgdir dir va 0 e s = Ret 0 e s.
Proof.
  intros H E. unfold walkpgdir. rewrite (dir_entry _ _ _ _ H). prim.
  destruct (do_tabs _ _ _ H) as [_ Hn]. by rewrite (Hn _ (PDX_range va) E).
Qed.

Lemma pte_nonzero dir tabs s i t o :
  dir_ok dir tabs s -> tabs !! i = Some t -> 0 <= o < PGSIZE -> u32 (t + o) = t + o /\ t + o <> 0.
Proof.
  intros H Ht Ho. destruct (do_page _ _ _ H _ _ Ht) as [_ Hr]. pose proof (do_en _ _ _ H).
  unfold KERNBASE, PHYSTOP, PGSIZE in *. cint.
Qed.

(** The entries only depend on the directory and its tables. *)
Lemma pte_of_frame dir tabs s s' va :
  dir_ok dir tabs s -> link s' = link s ->
  (forall p a, p = dir \/ p ∈ tpages tabs -> in_page p a ->
     word_at (mem (vm s')) a = word_at (mem (vm s)) a) ->
  dir_ok dir tabs s' /\ pte_of (mem (vm s')) dir va = pte_of (mem (vm s)) dir va.
Proof.
  intros H Hl Heq. assert (dir_ok dir tabs s') as H'.
  { split; rewrite ?Hl; [apply H..|]. destruct (do_tabs _ _ _ H) as [Hs Hn].
    assert (forall i, 0 <= i < 1024 -> word_at (mem (vm s')) (V2P dir + 4 * i) =
              word_at (mem (vm s)) (V2P dir + 4 * i)) as Hd.
    { intros i Hi. apply (Heq dir); [by left|]. unfold in_page, PGSIZE. lia. }
    split.
    - intros i t E. destruct (Hs _ _ E) as [Hi Hw]. by rewrite Hd.
    - intros i Hi E. rewrite Hd by done. by apply Hn. }
  split; [done|]. rewrite !(pte_of_tab _ tabs) by done.
  destruct (tabs !! PDX va) as [t|] eqn:E; [|done].
  apply (Heq t); [right; apply elem_of_tpages; eauto|].
  pose proof (PTX_range va). unfold in_page, PGSIZE. lia.
Qed.

(** Membership in a concatenation. *)
Ltac in_list :=
  repeat first [rewrite list_elem_of_singleton | rewrite elem_of_cons | rewrite elem_of_app];
  tauto.

(** ** Growing a page table

    [grows]: free pages may have become page tables, the existing tables stay, the region keeps
    its pages, and nothing outside the directory, the tables and the free pages changed. *)

Definition grows (R : list Z) (dir : Z) (frames : list Z)
    (tabs : gmap Z Z) (free : list Z) (s : kstate)
    (tabs' : gmap Z Z) (free' : list Z) (s' : kstate) : Prop :=
  pgt_inv R dir tabs' frames free' s' /\ kmem_frame s s' /\ tabs ⊆ tabs' /\
  same_outside (dir :: tpages tabs ++ free) (mem (vm s)) (mem (vm s')).

Lemma pgt_region R dir frames tabs free s tabs' free' s' :
  pgt_inv R dir tabs frames free s -> pgt_inv R dir tabs' frames free' s' ->
  tpages tabs' ++ free' ≡ₚ tpages tabs ++ free.
Proof.
  intros H H'. pose proof (pi_perm _ _ _ _ _ _ H) as P. rewrite <-(pi_perm _ _ _ _ _ _ H') in P.
  apply Permutation_cons_inv in P. rewrite (Permutation_app_comm frames free) in P.
  rewrite (Permutation_app_comm frames free') in P. rewrite !app_assoc in P.
  by apply Permutation_app_inv_r in P.
Qed.

Lemma grows_refl R dir frames tabs free s :
  pgt_inv R dir tabs frames free s -> grows R dir frames tabs free s tabs free s.
Proof. intros H. split; [done|]. auto with xv6. Qed.

Lemma grows_trans R dir frames tabs1 free1 s1 tabs2 free2 s2 tabs3 free3 s3 :
  pgt_inv R dir tabs1 frames free1 s1 ->
  grows R dir frames tabs1 free1 s1 tabs2 free2 s2 ->
  grows R dir frames tabs2 free2 s2 tabs3 free3 s3 ->
  grows R dir frames tabs1 free1 s1 tabs3 free3 s3.
Proof.
  intros H1 (H2 & F2 & S2 & O2) (H3 & F3 & S3 & O3). split; [done|].
  split; [by eapply kmem_frame_trans|]. split; [by transitivity tabs2|].
  eapply same_outside_trans; [|done..].
  intros p. rewrite !elem_of_cons. by rewrite (pgt_region _ _ _ _ _ _ _ _ _ H1 H2).
Qed.

Lemma kmem_inv_write s free (m' : gmap Z Z) :
  kmem_inv s free ->
  (forall p, p ∈ free -> word_at m' (V2P p) = word_at (mem (vm s)) (V2P p)) ->
  kmem_inv (s <| vm ::= fun w => w <| mem := m' |> |>) free.
Proof.
  intros (Hen & Hfl & Hnd & Hpg) Heq. split; [done|]. split; [|done]. by eapply flist_frame.
Qed.

Lemma page_word_in_page v : in_page v (V2P v).
Proof. unfold in_page, PGSIZE. lia. Qed.

Lemma NoDup_apart {A} (l1 l2 : list A) x y : NoDup (l1 ++ l2) -> x ∈ l1 -> y ∈ l2 -> x <> y.
Proof. intros (_ & H & _)%NoDup_app Hx Hy ->. by eapply H. Qed.

(** The pages of the region are pairwise distinct. *)
Lemma pgt_nodup R dir tabs frames free s :
  pgt_inv R dir tabs frames free s -> NoDup (dir :: tpages tabs ++ frames ++ free).
Proof. intros H. rewrite (pi_perm _ _ _ _ _ _ H). apply H. Qed.

(** Overwriting one word of a page table, or any words of a frame, keeps the free list. *)
Lemma pgt_write_mem R dir tabs frames free s (m' : gmap Z Z) p :
  pgt_inv R dir tabs frames free s -> p ∈ dir :: tpages tabs ++ frames ->
  same_outside [p] (mem (vm s)) m' ->
  kmem_inv (s <| vm ::= fun w => w <| mem := m' |> |>) free.
Proof.
  intros H Hp Hout. apply kmem_inv_write; [apply H|]. intros q Hq. apply Hout.
  intros p' ->%list_elem_of_singleton Hin.
  pose proof (pgt_nodup _ _ _ _ _ _ H) as Hnd. rewrite app_assoc, app_comm_cons in Hnd.
  apply (NoDup_apart _ _ _ _ Hnd Hp Hq).
  eapply in_page_inj; [apply H| | |exact Hin|apply page_word_in_page].
  - eapply pgt_is_page; [done|]. set_solver.
  - eapply pgt_is_page; [done|]. set_solver.
Qed.

Lemma store_in_page p x w m :
  V2P p mod PGSIZE = 0 -> in_page p x -> same_outside [p] m (<[x / 4 := w]> m).
Proof.
  intros Hp Hx a Ha. unfold word_at. rewrite lookup_insert_ne; [done|]. intros E.
  apply (Ha p); [set_solver|]. unfold in_page, PGSIZE in *. Z.div_mod_to_equations; lia.
Qed.

(** Writing inside a table or a frame only: the directory entries stay. *)
Lemma pgt_write R dir tabs frames free s (m' : gmap Z Z) p :
  pgt_inv R dir tabs frames free s -> p ∈ tpages tabs ++ frames ->
  same_outside [p] (mem (vm s)) m' ->
  pgt_inv R dir tabs frames free (s <| vm ::= fun w => w <| mem := m' |> |>).
Proof.
  intros H Hp Hout. split; [|apply H| |apply H..].
  - eapply pgt_write_mem; [done| |done]. set_solver.
  - assert (forall i, 0 <= i < 1024 ->
              word_at m' (V2P dir + 4 * i) = word_at (mem (vm s)) (V2P dir + 4 * i)) as Hd.
    { intros i Hi. apply Hout. intros p' ->%list_elem_of_singleton Hin.
      pose proof (pgt_nodup _ _ _ _ _ _ H) as Hnd. rewrite app_assoc in Hnd.
      apply NoDup_cons in Hnd as [Hnd _]. apply Hnd. apply elem_of_app. left.
      replace dir with p; [done|].
      eapply in_page_inj; [apply H| | |exact Hin|unfold in_page, PGSIZE; lia].
      - eapply pgt_is_page; [done|]. set_solver.
      - eapply pgt_is_page; [done|]. left. }
    destruct (pi_tabs _ _ _ _ _ _ H) as [Hs Hn]. split; cbn.
    + intros i t E. destruct (Hs _ _ E) as [Hi Hw]. by rewrite Hd.
    + intros i Hi E. rewrite Hd by done. by apply Hn.
Qed.

Lemma kmem_frame_mem s (m' : gmap Z Z) : kmem_frame s (s <| vm ::= fun w => w <| mem := m' |> |>).
Proof.
  exists m', (freelist (vm s)), (sync s). split; [|auto with xv6].
  unfold upd; cbn. by destruct s, vm.
Qed.

Lemma tab_in tabs i t : tabs !! i = Some t -> t ∈ tpages tabs.
Proof. intros. apply elem_of_tpages. eauto. Qed.
#[export] Hint Resolve tab_in kmem_frame_mem page_word_in_page : xv6.

Lemma tabs_inj R dir tabs frames free s i j t :
  pgt_inv R dir tabs frames free s -> tabs !! i = Some t -> tabs !! j = Some t -> i = j.
Proof.
  intros H Hi Hj. pose proof (pgt_nodup _ _ _ _ _ _ H) as Hnd.
  apply NoDup_cons in Hnd as [_ (Hnd & _)%NoDup_app].
  destruct (decide (i = j)) as [|Hne]; [done|]. exfalso.
  rewrite <-(insert_delete_id tabs i t Hi), tpages_insert in Hnd by apply lookup_delete_eq.
  apply NoDup_cons in Hnd as [Hnd _]. apply Hnd. apply (tab_in _ j).
  by rewrite lookup_delete_ne.
Qed.

Definition kstored (a w : Z) (s : kstate) : kstate :=
  s <| vm ::= fun v => v <| mem ::= <[V2P a / 4 := u32 w]> |> |>.

Lemma pte_store R dir tabs frames free s va t w :
  pgt_inv R dir tabs frames free s -> tabs !! PDX va = Some t -> is_u32 va -> is_u32 w ->
  let s' := kstored (u32 (t + 4 * PTX va)) w s in
  grows R dir frames tabs free s tabs free s' /\
  forall va', is_u32 va' ->
    pte_of (mem (vm s')) dir va' =
    if va / PGSIZE =? va' / PGSIZE then w else pte_of (mem (vm s)) dir va'.
Proof.
  intros H Ht Hva Hw. unfold kstored. rewrite (u32_small w) by done.
  pose proof (pgt_dir_ok _ _ _ _ _ _ H) as Hd. pose proof (PTX_range va) as Hptx.
  pose proof (do_page _ _ _ Hd _ _ Ht) as Hpage. pose proof (do_en _ _ _ Hd) as Hen.
  pose proof (V2P_aligned _ _ Hen Hpage) as Hal.
  rewrite (V2P_off _ _ _ Hen Hpage) by (unfold PGSIZE; lia).
  set (x := V2P t + 4 * PTX va). cbn zeta.
  assert (same_outside [t] (mem (vm s)) (<[x / 4 := w]> (mem (vm s)))) as Hout.
  { apply store_in_page; [done|]. unfold in_page, PGSIZE, x. lia. }
  assert (grows R dir frames tabs free s tabs free
            (s <| vm ::= fun v => v <| mem ::= <[x / 4 := w]> |> |>)) as Hg.
  { split; [eapply (pgt_write _ _ _ _ _ _ (<[x / 4 := w]> (mem (vm s))) t); eauto|].
    { apply elem_of_app. left. eauto with xv6. }
    split; [apply (kmem_frame_mem s (<[x / 4 := w]> (mem (vm s))))|]. split; [done|].
    apply (same_outside_mono _ [t]); [|exact Hout]. apply tab_in in Ht. set_solver. }
  split; [done|]. intros va' Hva'.
  assert (dir_ok dir tabs (s <| vm ::= fun v => v <| mem ::= <[x / 4 := w]> |> |>)) as Hd'
    by (eapply pgt_dir_ok, Hg).
  rewrite (pte_of_tab _ _ _ va' Hd), (pte_of_tab _ _ _ va' Hd').
  pose proof (same_page va va' Hva Hva') as Hsp. pose proof (PTX_range va').
  destruct (tabs !! PDX va') as [t'|] eqn:Ht'.
  2:{ destruct (Z.eqb_spec (va / PGSIZE) (va' / PGSIZE)) as [E|]; [|done].
      apply Hsp in E as [E _]. congruence. }
  cbn. pose proof (do_page _ _ _ Hd _ _ Ht') as Hpage'.
  pose proof (V2P_aligned _ _ Hen Hpage') as Hal'.
  rewrite word_store by (unfold x, PGSIZE in *; Z.div_mod_to_equations; lia).
  destruct (Z.eqb_spec x (V2P t' + 4 * PTX va')) as [E|E],
    (Z.eqb_spec (va / PGSIZE) (va' / PGSIZE)) as [E'|E']; try done.
  - destruct E'. apply Hsp. assert (t = t') as <-.
    { apply (in_page_inj _ _ _ x Hen Hpage Hpage'); unfold in_page, PGSIZE; lia. }
    split; [|lia]. by eapply tabs_inj.
  - destruct E. apply Hsp in E' as [E1 E2]. unfold x. congruence.
Qed.

(** The memory after a zeroed page [p] becomes the page table of directory entry [i]. *)
Definition with_table (dir i p : Z) (m : gmap Z Z) : gmap Z Z :=
  <[(V2P dir + 4 * i) / 4 := V2P p + 7]> (fill 1024 (V2P p / 4) 0 m).

Lemma with_table_words en dir i p m a :
  KERNBASE <= en -> is_page en dir -> is_page en p -> p <> dir -> 0 <= i < 1024 -> a mod 4 = 0 ->
  (in_page p a -> word_at (with_table dir i p m) a = 0) /\
  (~ in_page p a ->
   word_at (with_table dir i p m) a = if V2P dir + 4 * i =? a then V2P p + 7 else word_at m a).
Proof.
  intros Hen Hdir Hp Hne Hi Ha. unfold with_table.
  pose proof (V2P_aligned _ _ Hen Hdir). pose proof (V2P_aligned _ _ Hen Hp).
  rewrite word_store by (done || unfold PGSIZE in *; Z.div_mod_to_equations; lia). split; intros Hin.
  - destruct (Z.eqb_spec (V2P dir + 4 * i) a) as [E|]; [|by rewrite fill_inside].
    destruct Hne. apply (in_page_inj _ _ _ a Hen Hp Hdir Hin). unfold in_page, PGSIZE. lia.
  - by rewrite fill_outside.
Qed.

Lemma page_words_aligned en v o : KERNBASE <= en -> is_page en v -> (V2P v + 4 * o) mod 4 = 0.
Proof.
  intros Hen Hv. pose proof (V2P_aligned _ _ Hen Hv). unfold PGSIZE in *.
  Z.div_mod_to_equations; lia.
Qed.

Lemma page_words_apart en v v' o :
  KERNBASE <= en -> is_page en v -> is_page en v' -> v <> v' -> 0 <= o < 1024 ->
  ~ in_page v (V2P v' + 4 * o).
Proof.
  intros Hen Hv Hv' Hne Ho Hin. apply Hne. apply (in_page_inj _ _ _ _ Hen Hv Hv' Hin).
  unfold in_page, PGSIZE. lia.
Qed.

(** The free page [p] becomes the table of [va]. *)
Section new_table.
  Context (R : list Z) (dir : Z) (tabs : gmap Z Z) (frames free : list Z) (p : Z) (s s1 : kstate) (va : Z).
  Hypothesis H : pgt_inv R dir tabs frames (p :: free) s.
  Hypothesis Hnone : tabs !! PDX va = None.
  Hypothesis Hf1 : kmem_frame s s1.
  Hypothesis Hinv1 : kmem_inv s1 free.
  Hypothesis Hm : mem (vm s1) = mem (vm s).
Let m' := with_table dir (PDX va) p (mem (vm s)).
Let s' := s1 <| vm ::= fun v => v <| mem := m' |> |>.
Let en := l_end (link s).

Lemma nt_en : KERNBASE <= en.
Proof. apply H. Qed.
Lemma nt_dir : is_page en dir.
Proof. eapply pgt_is_page; [exact H|]. in_list. Qed.
Lemma nt_p : is_page en p.
Proof. eapply pgt_is_page; [exact H|]. in_list. Qed.
Lemma nt_apart q : q ∈ dir :: tpages tabs ++ frames ++ free -> q <> p.
Proof.
  pose proof (pgt_nodup _ _ _ _ _ _ H) as Hnd.
  assert (dir :: tpages tabs ++ frames ++ p :: free ≡ₚ p :: dir :: tpages tabs ++ frames ++ free)
    as Hp by solve_Permutation.
  rewrite Hp in Hnd. apply NoDup_cons in Hnd as [Hnd _]. by intros Hq ->.
Qed.

Lemma nt_word q o :
  q ∈ dir :: tpages tabs ++ frames ++ free -> 0 <= o < 1024 ->
  word_at m' (V2P q + 4 * o) =
  if V2P dir + 4 * PDX va =? V2P q + 4 * o then V2P p + 7 else word_at (mem (vm s)) (V2P q + 4 * o).
Proof.
  intros Hq Ho. pose proof nt_en as Hen. pose proof nt_p as Hp.
  assert (is_page en q) as Hpq.
  { eapply pgt_is_page; [exact H|]. revert Hq. in_list. }
  eapply with_table_words; [exact Hen|exact nt_dir|exact Hp| |apply PDX_range|..].
  - apply not_eq_sym, nt_apart. in_list.
  - by eapply page_words_aligned.
  - eapply page_words_apart; eauto. by apply not_eq_sym, nt_apart.
Qed.

Lemma nt_dir_word i :
  0 <= i < 1024 ->
  word_at m' (V2P dir + 4 * i) =
  if PDX va =? i then V2P p + 7 else word_at (mem (vm s)) (V2P dir + 4 * i).
Proof.
  intros Hi. rewrite nt_word by (in_list || done).
  destruct (Z.eqb_spec (V2P dir + 4 * PDX va) (V2P dir + 4 * i)), (Z.eqb_spec (PDX va) i);
    done || lia.
Qed.

Lemma nt_other_word q o :
  q ∈ tpages tabs ++ frames ++ free -> 0 <= o < 1024 ->
  word_at m' (V2P q + 4 * o) = word_at (mem (vm s)) (V2P q + 4 * o).
Proof.
  intros Hq Ho. pose proof (PDX_range va) as Hi.
  rewrite nt_word by (done || by apply list_elem_of_further).
  destruct (Z.eqb_spec (V2P dir + 4 * PDX va) (V2P q + 4 * o)) as [E|]; [|done]. exfalso.
  pose proof (pgt_nodup _ _ _ _ _ _ H) as [Hnd _]%NoDup_cons. apply Hnd.
  replace dir with q; [revert Hq; in_list|].
  eapply (in_page_inj en _ _ (V2P q + 4 * o)); [exact nt_en| |exact nt_dir|..].
  - eapply pgt_is_page; [exact H|]. revert Hq. in_list.
  - unfold in_page, PGSIZE. lia.
  - rewrite <-E. unfold in_page, PGSIZE. lia.
Qed.

Lemma nt_tabs : tabs_ok m' dir (<[PDX va := p]> tabs).
Proof.
  destruct (pi_tabs _ _ _ _ _ _ H) as [Hs Hn]. split.
  - intros i t. destruct (decide (PDX va = i)) as [<-|Hne].
    + rewrite lookup_insert_eq. intros [= <-]. pose proof (PDX_range va).
      by rewrite nt_dir_word, Z.eqb_refl.
    + rewrite lookup_insert_ne by done. intros Ht. destruct (Hs _ _ Ht) as [Hi Hw].
      by rewrite nt_dir_word, (proj2 (Z.eqb_neq _ _) Hne).
  - intros i Hi [Hne Ht]%lookup_insert_None.
    rewrite nt_dir_word by done. destruct (Z.eqb_spec (PDX va) i); [done|]. by apply Hn.
Qed.

Lemma nt_inv : pgt_inv R dir (<[PDX va := p]> tabs) frames free s'.
Proof.
  pose proof (kmem_frame_link _ _ Hf1) as Hl. split.
  - apply kmem_inv_write; [done|]. intros q Hq. rewrite <-(Z.add_0_r (V2P q)).
    change 0 with (4 * 0). rewrite Hm. apply nt_other_word; [revert Hq; in_list | lia].
  - destruct (kmem_frame_ready _ _ Hf1 (pi_ready _ _ _ _ _ _ H)) as [?|?]; [by left|by right].
  - exact nt_tabs.
  - rewrite tpages_insert by done. rewrite <-(pi_perm _ _ _ _ _ _ H). solve_Permutation.
  - apply H.
  - cbn. rewrite Hl. apply H.
Qed.

Lemma nt_pte va' : pte_of (mem (vm s')) dir va' = pte_of (mem (vm s)) dir va'.
Proof.
  rewrite (pte_of_tab _ _ _ va' (pgt_dir_ok _ _ _ _ _ _ nt_inv)).
  rewrite (pte_of_tab _ _ _ va' (pgt_dir_ok _ _ _ _ _ _ H)). pose proof (PTX_range va') as Ho.
  destruct (decide (PDX va = PDX va')) as [<-|Hne].
  - rewrite lookup_insert_eq, Hnone. cbn.
    apply (with_table_words en); [exact nt_en|exact nt_dir|exact nt_p| |apply PDX_range| |].
    + apply not_eq_sym, nt_apart. in_list.
    + eapply page_words_aligned; [exact nt_en|exact nt_p].
    + unfold in_page, PGSIZE. lia.
  - rewrite lookup_insert_ne by done. destruct (tabs !! PDX va') as [t|] eqn:Ht; [|done].
    apply nt_other_word; [|done]. apply elem_of_app. left. eauto with xv6.
Qed.

Lemma nt_outside : same_outside (dir :: tpages tabs ++ p :: free) (mem (vm s)) m'.
Proof.
  intros a Ha. unfold m'. pose proof (PDX_range va) as Hi.
  pose proof (V2P_aligned _ _ nt_en nt_dir) as Hd. pose proof (V2P_aligned _ _ nt_en nt_p) as Hp.
  unfold with_table. rewrite (store_in_page dir (V2P dir + 4 * PDX va)).
  - apply fill_outside; [done|]. apply Ha. in_list.
  - done.
  - unfold in_page, PGSIZE. lia.
  - intros q ->%list_elem_of_singleton. apply Ha. in_list.
Qed.

Lemma nt_grows : grows R dir frames tabs (p :: free) s (<[PDX va := p]> tabs) free s'.
Proof.
  split; [exact nt_inv|]. split.
  { eapply kmem_frame_trans; [exact Hf1|]. apply (kmem_frame_mem s1 m'). }
  split; [by apply insert_subseteq|exact nt_outside].
Qed.
End new_table.

(** walkpgdir with alloc: it fails only when no page is free and [va] has no table; otherwise it
    returns the address of the entry of [va] in a table that is there or a new, empty one.  No
    entry changes. *)
Lemma walkpgdir_alloc R dir tabs frames free s va e :
  pgt_inv R dir tabs frames free s ->
  exists r s' tabs' free', walkpgdir dir va 1 e s = Ret r e s' /\
    grows R dir frames tabs free s tabs' free' s' /\
    (forall va', pte_of (mem (vm s')) dir va' = pte_of (mem (vm s)) dir va') /\
    (r = 0 /\ free' = [] /\ tabs !! PDX va = None \/
     exists t, tabs' !! PDX va = Some t /\ r = u32 (t + 4 * PTX va)).
Proof.
  intros H. pose proof (pgt_dir_ok _ _ _ _ _ _ H) as Hd.
  destruct (tabs !! PDX va) as [t|] eqn:Ht.
  { exists (u32 (t + 4 * PTX va)), s, tabs, free. split; [by eapply walkpgdir_found|].
    split; [by apply grows_refl|]. split; [done|]. right. eauto. }
  unfold walkpgdir. rewrite (dir_entry _ _ _ _ Hd). prim.
  destruct (do_tabs _ _ _ Hd) as [_ Hn]. rewrite (Hn _ (PDX_range va) Ht).
  change (1 =? 0) with false. cbv iota.
  destruct (kalloc_spec e s free) as (s1 & Hrun & Hfr & Hinv & Hm); [apply H..|].
  erewrite bind_Ret by exact Hrun. destruct free as [|p free].
  - exists 0, s1, tabs, []. split; [done|]. split; [|split; [by rewrite Hm|by left]].
    split; [|split; [done|split; [done|by rewrite Hm]]].
    destruct H as [? Hr Htb Hp Hnd Hpg]. split; try done.
    + by eapply kmem_frame_ready.
    + by rewrite Hm.
    + by rewrite (kmem_frame_link _ _ Hfr).
  - cbn [head default tail] in *. assert (is_page (l_end (link s)) p) as Hp.
    { eapply pgt_is_page; [exact H|in_list]. }
    unfold id. destruct (Z.eqb_spec p 0) as [->|Hp0].
    { pose proof (do_en _ _ _ Hd). unfold is_page, KERNBASE in *. lia. }
    eexists _, _, (<[PDX va := p]> tabs), free. split.
    2: split; [eapply (nt_grows _ _ _ _ _ _ s s1); eauto|].
    2: split; [eapply (nt_pte _ _ _ _ _ _ s s1); eauto|].
    2: right; exists p; split; [apply lookup_insert_eq|reflexivity].
    unfold memset_page, kstore, set_vm. prim.
    unfold ret. f_equal. unfold upd; cbn. rewrite Hm. do 2 f_equal.
    unfold with_table. pose proof (PDX_range va). pose proof (do_en _ _ _ Hd) as Hen.
    rewrite (V2P_off _ _ _ Hen (do_dir _ _ _ Hd)) by (unfold PGSIZE; lia). f_equal.
    rewrite <-!Z.lor_assoc. change (Z.lor PTE_P (Z.lor PTE_W PTE_U)) with 7.
    rewrite (lor_flags _ 7 (V2P_aligned _ _ Hen Hp)) by (unfold PGSIZE; lia). apply u32_small.
    rewrite (V2P_page _ _ Hen Hp). unfold is_u32, is_page, PHYSTOP, KERNBASE in *. lia.
Qed.

(** ** Mapping a range *)

(** The entry mappages writes for page [va'] when it maps [k] pages from [a] to [pa]. *)
Definition mapped (a pa perm k va' : Z) (old : Z) : Z :=
  if in_range (va' / PGSIZE - a / PGSIZE) k
  then pa + PGSIZE * (va' / PGSIZE - a / PGSIZE) + Z.lor perm PTE_P else old.

Lemma perm_flags perm : 0 <= perm < PGSIZE -> 0 <= Z.lor perm PTE_P < PGSIZE.
Proof.
  unfold PTE_P, PGSIZE. intros H.
  assert (forall q, Z.lor (Z.shiftl q 1) 1 = 2 * q + 1) as Hq.
  { intros q. rewrite lor_shiftl_add by lia. lia. }
  destruct (Z.Even_or_Odd perm) as [[q ->]|[q ->]].
  - replace (2 * q) with (Z.shiftl q 1) by (rewrite Z.shiftl_mul_pow2; lia). rewrite Hq. lia.
  - rewrite <-Hq, <-Z.lor_assoc. simpl (Z.lor 1 1). rewrite Hq. lia.
Qed.

Lemma mappages_entry pa perm :
  pa mod PGSIZE = 0 -> 0 <= perm < PGSIZE -> is_u32 pa ->
  Z.lor (Z.lor pa perm) PTE_P = pa + Z.lor perm PTE_P /\ is_u32 (pa + Z.lor perm PTE_P).
Proof.
  intros Hpa Hperm Hu. pose proof (perm_flags _ Hperm).
  rewrite <-Z.lor_assoc, lor_flags by done. split; [done|].
  unfold PGSIZE in *. cint.
Qed.

Lemma mapped_S a pa perm k va' old :
  a mod PGSIZE = 0 -> 0 <= k ->
  mapped (a + PGSIZE) (pa + PGSIZE) perm k va' (mapped a pa perm 1 va' old) =
  mapped a pa perm (k + 1) va' old.
Proof.
  intros Ha Hk. unfold mapped.
  replace ((a + PGSIZE) / PGSIZE) with (a / PGSIZE + 1)
    by (unfold PGSIZE in *; Z.div_mod_to_equations; lia).
  unfold in_range.
  destruct (Z.leb_spec 0 (va' / PGSIZE - (a / PGSIZE + 1))), (Z.leb_spec 0 (va' / PGSIZE - a / PGSIZE)),
    (Z.ltb_spec (va' / PGSIZE - (a / PGSIZE + 1)) k), (Z.ltb_spec (va' / PGSIZE - a / PGSIZE) 1),
    (Z.ltb_spec (va' / PGSIZE - a / PGSIZE) (k + 1)); simpl; try lia; try done.
  all: unfold PGSIZE; lia.
Qed.

(** One page: the walk fails, or the absent entry is written. *)
Lemma mappages_one R dir tabs frames free s a pa perm e :
  pgt_inv R dir tabs frames free s ->
  a mod PGSIZE = 0 -> is_u32 a -> pa mod PGSIZE = 0 -> is_u32 pa -> 0 <= perm < PGSIZE ->
  has (pte_of (mem (vm s)) dir a) PTE_P = false ->
  exists s' tabs' free', grows R dir frames tabs free s tabs' free' s' /\
    ((free' = [] /\
      (forall va', pte_of (mem (vm s')) dir va' = pte_of (mem (vm s)) dir va') /\
      forall fuel last, mappages_loop (S fuel) dir a last pa perm e s = Ret (-1) e s') \/
     ((forall va', is_u32 va' ->
         pte_of (mem (vm s')) dir va' = mapped a pa perm 1 va' (pte_of (mem (vm s)) dir va')) /\
      forall fuel last, mappages_loop (S fuel) dir a last pa perm e s =
        (if a =? last then ret 0
         else mappages_loop fuel dir (u32 (a + PGSIZE)) last (u32 (pa + PGSIZE)) perm) e s')).
Proof.
  intros H Ha Hau Hpa Hpau Hperm Habs.
  destruct (walkpgdir_alloc _ _ _ _ _ _ a e H)
    as (pte & s1 & tabs' & free' & Hrun & Hg & Hpte & [(-> & -> & Hnone)|(t & Ht & ->)]).
  { exists s1, tabs', []. split; [done|]. left. split; [done|]. split; [done|].
    intros fuel last. cbn [mappages_loop]. by erewrite bind_Ret by exact Hrun. }
  pose proof (proj1 Hg) as H1. pose proof (pgt_dir_ok _ _ _ _ _ _ H1) as Hd.
  pose proof (PTX_range a) as Ho.
  destruct (pte_nonzero _ _ _ _ _ (4 * PTX a) Hd Ht) as [Hu Hnz]; [unfold PGSIZE; lia|].
  destruct (mappages_entry pa perm) as [Hval Hvu]; [done..|].
  destruct (pte_store _ _ _ _ _ _ a t _ H1 Ht Hau Hvu) as [Hg2 Hst].
  exists (kstored (u32 (t + 4 * PTX a)) (pa + Z.lor perm PTE_P) s1), tabs', free'.
  split; [by eapply grows_trans|]. right. split.
  - intros va' Hva'. rewrite Hst, Hpte by done. unfold mapped, in_range.
    destruct (Z.eqb_spec (a / PGSIZE) (va' / PGSIZE)) as [<-|].
    + rewrite Z.sub_diag. simpl. lia.
    + goal_bools; done || lia.
  - intros fuel last. cbn [mappages_loop]. erewrite bind_Ret by exact Hrun.
    destruct (Z.eqb_spec (u32 (t + 4 * PTX a)) 0) as [E|]; [congruence|].
    assert (has (word_at (mem (vm s1)) (V2P (u32 (t + 4 * PTX a)))) PTE_P = false) as Hw.
    { rewrite <-Habs, <-Hpte, (pte_of_tab _ _ _ a Hd), Ht.
      by rewrite (V2P_off _ _ _ (do_en _ _ _ Hd) (do_page _ _ _ Hd _ _ Ht)) by (unfold PGSIZE; lia). }
    unfold kload, kstore, set_vm. prim. rewrite Hw. prim. rewrite Hval.
    by destruct (a =? last).
Qed.

Lemma mappages_loop_spec (n : nat) R dir tabs frames free s a pa perm e :
  pgt_inv R dir tabs frames free s ->
  a mod PGSIZE = 0 -> 0 <= a -> a + Z.of_nat n * PGSIZE < 2 ^ 32 ->
  pa mod PGSIZE = 0 -> 0 <= pa -> pa + Z.of_nat n * PGSIZE < 2 ^ 32 -> 0 <= perm < PGSIZE ->
  (forall va', is_u32 va' -> in_range (va' / PGSIZE - a / PGSIZE) (Z.of_nat n + 1) = true ->
     has (pte_of (mem (vm s)) dir va') PTE_P = false) ->
  exists r s' tabs' free' k,
    mappages_loop (S n) dir a (a + Z.of_nat n * PGSIZE) pa perm e s = Ret r e s' /\
    grows R dir frames tabs free s tabs' free' s' /\
    (r = 0 /\ k = Z.of_nat n + 1 \/ r = -1 /\ 0 <= k <= Z.of_nat n /\ free' = []) /\
    forall va', is_u32 va' ->
      pte_of (mem (vm s')) dir va' = mapped a pa perm k va' (pte_of (mem (vm s)) dir va').
Proof.
  revert tabs free s a pa. induction n as [|n IH];
    intros tabs free s a pa H Ha Ha0 Hal Hpa Hpa0 Hpal Hperm Habs.
  all: assert (is_u32 a /\ is_u32 pa) as [Hau Hpau] by (unfold is_u32, PGSIZE in *; lia).
  all: destruct (mappages_one _ _ _ _ _ _ a pa perm e H Ha Hau Hpa Hpau Hperm)
    as (s1 & tabs1 & free1 & Hg & [(Hfree & Hpte & Hrun)|(Hpte & Hrun)]);
    [apply Habs; [done|]; apply in_range_spec; lia| |].
  1,3: exists (-1), s1, tabs1, free1, 0; split; [apply Hrun|]; split; [done|];
    split; [right; by auto with lia|]; intros va' Hva'; rewrite Hpte; unfold mapped, in_range;
    goal_bools; done || lia.
  - exists 0, s1, tabs1, free1, 1. rewrite Hrun. simpl. rewrite Z.add_0_r, Z.eqb_refl.
    split; [done|]. split; [done|]. split; [by left|]. done.
  - assert (u32 (a + PGSIZE) = a + PGSIZE /\ u32 (pa + PGSIZE) = pa + PGSIZE) as [Hua Hup].
    { split; apply u32_small; unfold is_u32, PGSIZE in *; lia. }
    assert ((a + PGSIZE) mod PGSIZE = 0 /\ (pa + PGSIZE) mod PGSIZE = 0) as [Ha' Hpa'].
    { unfold PGSIZE in *. Z.div_mod_to_equations; lia. }
    rewrite Hrun, Hua, Hup. destruct (Z.eqb_spec a (a + Z.of_nat (S n) * PGSIZE)) as [E|_].
    { unfold PGSIZE in E. lia. }
    replace (a + Z.of_nat (S n) * PGSIZE) with (a + PGSIZE + Z.of_nat n * PGSIZE)
      by (unfold PGSIZE; lia).
    destruct (IH tabs1 free1 s1 (a + PGSIZE) (pa + PGSIZE))
      as (r & s2 & tabs2 & free2 & k & Hrun2 & Hg2 & Hr & Hpte2);
      try first [done | apply Hg | unfold PGSIZE in *; lia].
    { intros va' Hva' Hin. apply in_range_spec in Hin. rewrite Hpte by done.
      replace ((a + PGSIZE) / PGSIZE) with (a / PGSIZE + 1) in Hin
        by (unfold PGSIZE in *; Z.div_mod_to_equations; lia).
      unfold mapped. destruct (in_range _ 1) eqn:E; [apply in_range_spec in E; lia|].
      apply Habs; [done|]. apply in_range_spec. lia. }
    exists r, s2, tabs2, free2, (k + 1). split; [done|]. split; [by eapply grows_trans|].
    assert (0 <= k) by (destruct Hr; lia). split.
    { destruct Hr as [[-> ->]|(-> & ? & ->)]; [left|right]; repeat split; lia. }
    intros va' Hva'. rewrite Hpte2, Hpte by done. by apply mapped_S.
Qed.

(** mappages on whole pages: a range update of the entries, complete when it returns 0, cut
    short when it returns -1, and the latter only when no page is free. *)
Lemma mappages_spec R dir tabs frames free s a n pa perm e :
  pgt_inv R dir tabs frames free s ->
  a mod PGSIZE = 0 -> 0 <= a -> 0 < n -> a + n * PGSIZE <= 2 ^ 32 ->
  pa mod PGSIZE = 0 -> 0 <= pa -> pa + n * PGSIZE <= 2 ^ 32 -> 0 <= perm < PGSIZE ->
  (forall va', is_u32 va' -> in_range (va' / PGSIZE - a / PGSIZE) n = true ->
     has (pte_of (mem (vm s)) dir va') PTE_P = false) ->
  exists r s' tabs' free' k,
    mappages dir a (n * PGSIZE) pa perm e s = Ret r e s' /\
    grows R dir frames tabs free s tabs' free' s' /\
    (r = 0 /\ k = n \/ r = -1 /\ 0 <= k < n /\ free' = []) /\
    forall va', is_u32 va' ->
      pte_of (mem (vm s')) dir va' = mapped a pa perm k va' (pte_of (mem (vm s)) dir va').
Proof.
  intros H Ha Ha0 Hn Han Hpa Hpa0 Hpan Hperm Habs. unfold mappages.
  assert (PGROUNDDOWN a = a) as ->.
  { rewrite PGROUNDDOWN_eq. unfold PGSIZE in *. Z.div_mod_to_equations; lia. }
  assert (PGROUNDDOWN (u32 (a + n * PGSIZE - 1)) = a + Z.of_nat (Z.to_nat (n - 1)) * PGSIZE) as ->.
  { rewrite PGROUNDDOWN_eq, u32_small by (unfold is_u32, PGSIZE in *; lia).
    rewrite Z2Nat.id by lia. unfold PGSIZE in *. Z.div_mod_to_equations; lia. }
  replace (Z.to_nat (u32 (a + Z.of_nat (Z.to_nat (n - 1)) * PGSIZE - a) / PGSIZE)) with (Z.to_nat (n - 1)).
  2:{ rewrite Z2Nat.id by lia. replace (a + (n - 1) * PGSIZE - a) with ((n - 1) * PGSIZE) by lia.
      rewrite u32_small by (unfold is_u32, PGSIZE in *; lia). by rewrite Z.div_mul. }
  destruct (mappages_loop_spec (Z.to_nat (n - 1)) _ _ _ _ _ _ a pa perm e H)
    as (r & s' & tabs' & free' & k & Hrun & Hg & Hr & Hpte);
    rewrite ?Z2Nat.id in * by lia; try first [done | unfold PGSIZE in *; lia].
  { intros va' Hva' Hin. apply Habs; [done|]. by replace n with (n - 1 + 1) by lia. }
  exists r, s', tabs', free', k. split; [exact Hrun|]. split; [done|]. split; [|done].
  destruct Hr as [[-> ->]|(-> & ? & ->)]; [left|right]; repeat split; lia.
Qed.
