(* ===== verification/VmUser.v ===== *)
(** * Address spaces

    The user part of a page table as a finite map from page numbers to frames, and what
    allocuvm, deallocuvm, freevm, setupkvm and copyuvm do to it.  Every operation conserves the
    pages of the region: a page is in the directory, a table, a user frame or free, and none is
    in two places. *)

From stdpp Require Import base list gmap strings fin_maps.
From S2P Require Import Prelude State Monad Spinlock Console Kalloc Str Vm VmProofs.
Open Scope Z_scope.

(** ** Counting pages *)

Lemma size_keys (t : gmap Z Z) l : (forall v f, t !! v = Some f -> v ∈ l) -> (size t <= length l)%nat.
Proof.
  intros Hl. rewrite <-length_map_to_list, <-(length_fmap fst).
  apply submseteq_length, NoDup_submseteq; [apply NoDup_fst_map_to_list|].
  intros i ([j f] & -> & Hi%elem_of_map_to_list)%list_elem_of_fmap. by eapply Hl.
Qed.
Lemma size_tabs m dir tabs : tabs_ok m dir tabs -> (size tabs <= 1024)%nat.
Proof.
  intros [Ht _]. rewrite (size_keys tabs (seqZ 0 1024)); [by rewrite length_seqZ|].
  intros v f Hv. apply elem_of_seqZ. apply Ht in Hv as [Hv _]. lia.
Qed.

Lemma length_tpages (t : gmap Z Z) : length (tpages t) = size t.
Proof. unfold tpages. by rewrite length_fmap, length_map_to_list. Qed.

Lemma size_one_more (t t' : gmap Z Z) k :
  (forall v, v <> k -> t' !! v = t !! v) -> (size t' <= S (size t))%nat.
Proof.
  intros H. assert (delete k t' = delete k t) as E.
  { apply map_eq. intros v. destruct (decide (v = k)) as [->|]; [by rewrite !lookup_delete_eq|].
    rewrite !lookup_delete_ne by done. by apply H. }
  pose proof (map_size_delete k t) as H1. pose proof (map_size_delete k t') as H2.
  rewrite E in H2. destruct (t !! k), (t' !! k); unfold id in *; lia.
Qed.

(** The size of the region, by where its pages are. *)
Lemma pgt_length R dir tabs frames free s :
  pgt_inv R dir tabs frames free s ->
  length R = S (size tabs + length frames + length free) /\ (size tabs <= 1024)%nat.
Proof.
  intros [_ _ Ht HP _ _]. split; [|by eapply size_tabs].
  rewrite <-HP. cbn. rewrite !length_app, length_tpages. lia.
Qed.

(** ** Moving pages between the free list and the frames *)

Lemma pgt_frames R dir tabs frames frames' free s :
  frames ≡ₚ frames' -> pgt_inv R dir tabs frames free s -> pgt_inv R dir tabs frames' free s.
Proof. intros Hp H. split; [apply H..| |apply H|apply H]. rewrite <-Hp. apply H. Qed.

Lemma tabs_ok_frame dir tabs m m' :
  tabs_ok m dir tabs ->
  (forall i, 0 <= i < 1024 -> word_at m' (V2P dir + 4 * i) = word_at m (V2P dir + 4 * i)) ->
  tabs_ok m' dir tabs.
Proof.
  intros [Hs Hn] Heq. split.
  - intros i t Ht. destruct (Hs _ _ Ht) as [Hi Hw]. by rewrite Heq.
  - intros i Hi Ht. rewrite Heq by done. by apply Hn.
Qed.

(** kalloc moves the head of the free list to the frames. *)
Lemma pgt_kalloc R dir tabs frames free s e :
  pgt_inv R dir tabs frames free s ->
  exists s', kalloc e s = Ret (default 0 (head free)) e s' /\ kmem_frame s s' /\
    mem (vm s') = mem (vm s) /\
    match free with
    | [] => pgt_inv R dir tabs frames [] s'
    | p :: free => p <> 0 /\ is_page (l_end (link s)) p /\ pgt_inv R dir tabs (p :: frames) free s'
    end.
Proof.
  intros H. destruct (kalloc_spec e s free) as (s' & Hrun & Hfr & Hinv & Hm); [apply H..|].
  exists s'. split; [done|]. split; [done|]. split; [done|].
  assert (forall fs fr, kmem_inv s' fr -> dir :: tpages tabs ++ fs ++ fr ≡ₚ R ->
            pgt_inv R dir tabs fs fr s') as Hp.
  { intros fs fr Hi HP. split; [done| | |done|apply H|].
    - eapply kmem_frame_ready; [done|apply H].
    - rewrite Hm. apply H.
    - rewrite (kmem_frame_link _ _ Hfr). apply H. }
  destruct free as [|p free]; [by apply Hp; [|apply H]|].
  assert (is_page (l_end (link s)) p) as Hpg by (eapply pgt_is_page; [exact H|in_list]).
  split; [|split; [done|apply Hp; [done|]]].
  - pose proof (proj1 (pi_mem _ _ _ _ _ _ H)). unfold is_page, KERNBASE in *. lia.
  - rewrite <-(pi_perm _ _ _ _ _ _ H). solve_Permutation.
Qed.

(** kfree moves a frame to the free list. *)
Lemma pgt_kfree R dir tabs f frames free s e :
  pgt_inv R dir tabs (f :: frames) free s ->
  exists s', kfree f e s = Ret tt e s' /\ kmem_frame s s' /\
    same_outside [f] (mem (vm s)) (mem (vm s')) /\
    pgt_inv R dir tabs frames (f :: free) s'.
Proof.
  intros H. pose proof (pgt_nodup _ _ _ _ _ _ H) as Hnd.
  assert (is_page (l_end (link s)) f) as Hf by (eapply pgt_is_page; [exact H|in_list]).
  assert (dir :: tpages tabs ++ (f :: frames) ++ free ≡ₚ f :: dir :: tpages tabs ++ frames ++ free)
    as HP by solve_Permutation.
  rewrite HP in Hnd. apply NoDup_cons in Hnd as [Hnf Hnd].
  destruct (kfree_spec f e s free) as (s' & Hrun & Hfr & Hinv & Hout); [apply H|done| |apply H|].
  { intros Hin. apply Hnf. revert Hin. in_list. }
  exists s'. split; [done|]. split; [done|].
  assert (same_outside [f] (mem (vm s)) (mem (vm s'))) as Hso.
  { intros a Ha. apply Hout, Ha. in_list. }
  split; [done|]. split; [done| | | |apply H|].
  - eapply kmem_frame_ready; [done|apply H].
  - eapply tabs_ok_frame; [apply H|]. intros i Hi. apply Hout.
    eapply page_words_apart; [apply H|done| | |done].
    + eapply pgt_is_page; [exact H|in_list].
    + intros ->. apply Hnf. in_list.
  - rewrite <-(pi_perm _ _ _ _ _ _ H). solve_Permutation.
  - rewrite (kmem_frame_link _ _ Hfr). apply H.
Qed.

(** Overwriting a frame leaves the entries alone. *)
Lemma pte_of_outside R dir tabs frames free s s' ps va :
  pgt_inv R dir tabs frames free s -> link s' = link s ->
  same_outside ps (mem (vm s)) (mem (vm s')) ->
  (forall p, p ∈ ps -> p ∈ frames ++ free) ->
  pte_of (mem (vm s')) dir va = pte_of (mem (vm s)) dir va.
Proof.
  intros H Hl Hout Hps. apply (pte_of_frame dir tabs); [by eapply pgt_dir_ok|done|].
  intros p a Hp Ha. apply Hout. intros q Hq Hqa.
  pose proof (pgt_nodup _ _ _ _ _ _ H) as Hnd. rewrite app_comm_cons in Hnd.
  assert (p ∈ dir :: tpages tabs) as Hp' by (revert Hp; in_list).
  apply (NoDup_apart _ _ _ _ Hnd Hp' (Hps _ Hq)).
  eapply in_page_inj; [apply H| | |exact Ha|exact Hqa].
  - eapply pgt_is_page; [exact H|]. revert Hp'. in_list.
  - eapply pgt_is_page; [exact H|]. specialize (Hps _ Hq). revert Hps. in_list.
Qed.

(** ** The user part *)

Definition upages : Z := KERNBASE / PGSIZE.

Definition user_ok (m : gmap Z Z) (dir : Z) (ufr : gmap Z Z) : Prop :=
  (forall v f, ufr !! v = Some f -> 0 <= v < upages) /\
  forall va, 0 <= va < KERNBASE ->
    match ufr !! (va / PGSIZE) with
    | Some f => has (pte_of m dir va) PTE_P = true /\ PTE_ADDR (pte_of m dir va) = V2P f
    | None => has (pte_of m dir va) PTE_P = false
    end.

Definition as_inv (R : list Z) (dir : Z) (tabs ufr : gmap Z Z) (free : list Z) (s : kstate) : Prop :=
  pgt_inv R dir tabs (tpages ufr) free s /\ user_ok (mem (vm s)) dir ufr /\
  KERNBASE < l_end (link s).

Lemma tpages_delete ufr v f : ufr !! v = Some f -> tpages ufr ≡ₚ f :: tpages (delete v ufr).
Proof.
  intros H. rewrite <-(insert_delete_id _ _ _ H) at 1. apply tpages_insert, lookup_delete_eq.
Qed.

(** The pages of [ps] have the same contents. *)
Definition agree (ps : list Z) (m m' : gmap Z Z) : Prop :=
  forall p a, p ∈ ps -> in_page p a -> word_at m' a = word_at m a.

Lemma agree_trans ps m1 m2 m3 : agree ps m1 m2 -> agree ps m2 m3 -> agree ps m1 m3.
Proof. intros H1 H2 p a Hp Ha. rewrite (H2 p a Hp Ha). by apply (H1 p). Qed.
Lemma agree_mono ps ps' m m' : ps' ⊆ ps -> agree ps m m' -> agree ps' m m'.
Proof. intros Hs H p a Hp. apply H. by apply Hs. Qed.

Lemma outside_agree en qs ps m m' :
  KERNBASE <= en -> same_outside qs m m' ->
  (forall p, p ∈ qs ++ ps -> is_page en p) -> (forall p, p ∈ ps -> p ∉ qs) -> agree ps m m'.
Proof.
  intros Hen Hout Hpg Hdis p a Hp Ha. apply Hout. intros q Hq Hqa. apply (Hdis p Hp).
  replace p with q; [done|].
  eapply in_page_inj; [exact Hen|apply Hpg|apply Hpg|exact Hqa|exact Ha].
  - revert Hq. in_list.
  - revert Hp. in_list.
Qed.

Lemma user_ok_update m m' dir ufr ufr' :
  user_ok m dir ufr ->
  (forall v f, ufr' !! v = Some f -> 0 <= v < upages) ->
  (forall va, 0 <= va < KERNBASE ->
     pte_of m' dir va = pte_of m dir va /\ ufr' !! (va / PGSIZE) = ufr !! (va / PGSIZE) \/
     match ufr' !! (va / PGSIZE) with
     | Some f => has (pte_of m' dir va) PTE_P = true /\ PTE_ADDR (pte_of m' dir va) = V2P f
     | None => has (pte_of m' dir va) PTE_P = false
     end) ->
  user_ok m' dir ufr'.
Proof.
  intros [Hd Hu] Hd' Hupd. split; [done|]. intros va Hva.
  destruct (Hupd va Hva) as [[-> ->]|H]; [by apply Hu|done].
Qed.

Lemma page_va va : 0 <= va < KERNBASE -> 0 <= va / PGSIZE < upages /\ is_u32 va.
Proof. unfold upages, is_u32, KERNBASE, PGSIZE. intros. Z.div_mod_to_equations; lia. Qed.

(** ** deallocuvm *)

(** Freeing the frame of one page and clearing its entry. *)
Lemma unmap_one R dir tabs ufr free s a t f e :
  as_inv R dir tabs ufr free s -> 0 <= a < KERNBASE ->
  tabs !! PDX a = Some t -> ufr !! (a / PGSIZE) = Some f ->
  exists s', (kfree f ;; kstore (u32 (t + 4 * PTX a)) 0) e s = Ret tt e s' /\
    as_inv R dir tabs (delete (a / PGSIZE) ufr) (f :: free) s' /\ kmem_frame s s' /\
    same_outside (f :: tpages tabs) (mem (vm s)) (mem (vm s')) /\
    forall va', is_u32 va' ->
      pte_of (mem (vm s')) dir va' =
      if a / PGSIZE =? va' / PGSIZE then 0 else pte_of (mem (vm s)) dir va'.
Proof.
  intros (H & Hu & Hke) Ha Ht Hf. destruct (page_va a Ha) as [Hv Hau].
  pose proof (pgt_frames _ _ _ _ _ _ _ (tpages_delete _ _ _ Hf) H) as Hp.
  destruct (pgt_kfree _ _ _ _ _ _ _ e Hp) as (s1 & Hrun & Hfr & Hout & H1).
  destruct (pte_store _ _ _ _ _ _ a t 0 H1 Ht Hau) as [(H2 & Hfr2 & _ & _) Hst].
  { by unfold is_u32. }
  exists (kstored (u32 (t + 4 * PTX a)) 0 s1).
  assert (forall va', is_u32 va' ->
    pte_of (mem (vm (kstored (u32 (t + 4 * PTX a)) 0 s1))) dir va' =
    if a / PGSIZE =? va' / PGSIZE then 0 else pte_of (mem (vm s)) dir va') as Hpte.
  { intros va' Hva'. rewrite Hst by done.
    rewrite (pte_of_outside _ _ _ _ _ _ s1 [f] va' Hp); [done|by apply kmem_frame_link|done|].
    intros p. in_list. }
  split; [by erewrite bind_Ret by exact Hrun|]. split; [split; [done|split]|].
  - eapply user_ok_update; [exact Hu| |].
    + intros v f' [_ Hv']%lookup_delete_Some. by eapply Hu.
    + intros va Hva. rewrite Hpte by (apply page_va; lia).
      destruct (Z.eqb_spec (a / PGSIZE) (va / PGSIZE)) as [<-|].
      * right. by rewrite lookup_delete_eq.
      * left. by rewrite lookup_delete_ne.
  - rewrite (kmem_frame_link _ _ Hfr2), (kmem_frame_link _ _ Hfr). done.
  - split; [by eapply kmem_frame_trans|]. split; [|done].
    eapply (same_outside_trans _ [t]); [|eapply same_outside_mono; [|exact Hout]|].
    + apply tab_in in Ht. intros p ->%list_elem_of_singleton. revert Ht. in_list.
    + intros p. in_list.
    + pose proof (pgt_dir_ok _ _ _ _ _ _ H1) as Hd. pose proof (PTX_range a).
      pose proof (do_page _ _ _ Hd _ _ Ht) as Htp.
      unfold kstored. cbn. rewrite (V2P_off _ _ _ (do_en _ _ _ Hd) Htp) by (unfold PGSIZE; lia).
      apply store_in_page; [by eapply V2P_aligned, Htp; apply Hd|]. unfold in_page, PGSIZE. lia.
Qed.

(** The pages from [lo] on that lie below address [sz] are gone. *)
Definition drop_range (lo sz : Z) (ufr : gmap Z Z) : gmap Z Z :=
  filter (fun vf => ~ (lo <= vf.1 /\ vf.1 * PGSIZE < sz)) ufr.

Lemma lookup_drop_range lo sz ufr v :
  drop_range lo sz ufr !! v = if (lo <=? v) && (v * PGSIZE <? sz) then None else ufr !! v.
Proof.
  unfold drop_range. rewrite map_lookup_filter. destruct (ufr !! v) as [f|]; simpl; [|by case_match].
  destruct (Z.leb_spec lo v), (Z.ltb_spec (v * PGSIZE) sz); simpl; case_guard; simpl in *;
    done || lia.
Qed.

Lemma drop_range_next lo sz ufr :
  lo * PGSIZE < sz -> drop_range (lo + 1) sz (delete lo ufr) = drop_range lo sz ufr.
Proof.
  intros Hlt. apply map_eq. intros v. rewrite !lookup_drop_range.
  destruct (decide (lo = v)) as [<-|Hne].
  - rewrite lookup_delete_eq. goal_bools; done || lia.
  - rewrite lookup_delete_ne by done. goal_bools; done || lia.
Qed.

Lemma drop_range_skip lo lo' sz ufr :
  lo <= lo' -> (forall v, lo <= v < lo' -> ufr !! v = None) ->
  drop_range lo' sz ufr = drop_range lo sz ufr.
Proof.
  intros Hle Hn. apply map_eq. intros v. rewrite !lookup_drop_range.
  goal_bools; try done; try lia. by apply Hn.
Qed.

Lemma drop_range_empty lo sz ufr : sz <= lo * PGSIZE -> drop_range lo sz ufr = ufr.
Proof.
  intros Hle. apply map_eq. intros v. rewrite lookup_drop_range.
  unfold PGSIZE in *. goal_bools; done || lia.
Qed.

(** [shrunk]: some pages were unmapped and their frames freed; the other entries and the
    contents of the other frames are as before. *)
Definition shrunk (R : list Z) (dir : Z) (tabs ufr : gmap Z Z) (s : kstate)
    (ufr' : gmap Z Z) (free' : list Z) (s' : kstate) : Prop :=
  as_inv R dir tabs ufr' free' s' /\ kmem_frame s s' /\ ufr' ⊆ ufr /\
  same_outside (tpages tabs ++ tpages ufr) (mem (vm s)) (mem (vm s')) /\
  agree (tpages ufr') (mem (vm s)) (mem (vm s')) /\
  forall va, is_u32 va -> ufr' !! (va / PGSIZE) = ufr !! (va / PGSIZE) ->
    pte_of (mem (vm s')) dir va = pte_of (mem (vm s)) dir va.

Lemma tpages_mono (ufr ufr' : gmap Z Z) : ufr' ⊆ ufr -> tpages ufr' ⊆ tpages ufr.
Proof.
  intros Hs p. rewrite !elem_of_tpages. intros (v & Hv). exists v. by eapply lookup_weaken.
Qed.

Lemma shrunk_refl R dir tabs ufr free s :
  as_inv R dir tabs ufr free s -> shrunk R dir tabs ufr s ufr free s.
Proof. intros H. split; [done|]. repeat split; auto with xv6. Qed.

Lemma shrunk_trans R dir tabs ufr1 s1 ufr2 free2 s2 ufr3 free3 s3 :
  shrunk R dir tabs ufr1 s1 ufr2 free2 s2 -> shrunk R dir tabs ufr2 s2 ufr3 free3 s3 ->
  shrunk R dir tabs ufr1 s1 ufr3 free3 s3.
Proof.
  intros (H2 & F2 & S2 & O2 & A2 & P2) (H3 & F3 & S3 & O3 & A3 & P3).
  pose proof (tpages_mono _ _ S3) as M3. pose proof (tpages_mono _ _ S2) as M2.
  split; [done|]. split; [by eapply kmem_frame_trans|]. split; [by transitivity ufr2|]. repeat split.
  - eapply same_outside_trans; [|done..]. intros p Hp. apply elem_of_app in Hp as [?|?]; apply elem_of_app;
      auto.
  - eapply agree_trans; [|done]. by eapply agree_mono.
  - intros va Hva E. assert (ufr2 !! (va / PGSIZE) = ufr1 !! (va / PGSIZE)) as E2.
    { destruct (ufr1 !! (va / PGSIZE)) as [f|] eqn:E1.
      - by eapply lookup_weaken; [exact E|].
      - by eapply lookup_weaken_None; [exact E1|]. }
    rewrite P3, P2; congruence.
Qed.

Lemma unmap_shrunk R dir tabs ufr free s a t f e :
  as_inv R dir tabs ufr free s -> 0 <= a < KERNBASE ->
  tabs !! PDX a = Some t -> ufr !! (a / PGSIZE) = Some f ->
  exists s', (kfree f ;; kstore (u32 (t + 4 * PTX a)) 0) e s = Ret tt e s' /\
    shrunk R dir tabs ufr s (delete (a / PGSIZE) ufr) (f :: free) s'.
Proof.
  intros H Ha Ht Hf. destruct (unmap_one _ _ _ _ _ _ _ _ _ e H Ha Ht Hf)
    as (s' & Hrun & H' & Hfr & Hout & Hpte).
  exists s'. split; [done|]. split; [done|]. split; [done|]. split; [apply delete_subseteq|].
  split; [|split].
  - eapply same_outside_mono; [|exact Hout]. intros p. rewrite elem_of_cons, elem_of_app.
    intros [->|?]; [right; eauto with xv6|by left].
  - eapply outside_agree; [apply H|exact Hout|..].
    + intros p Hp. eapply pgt_is_page; [apply H|].
      rewrite (tpages_delete _ _ _ Hf). revert Hp. in_list.
    + intros p Hp Hq. pose proof (pgt_nodup _ _ _ _ _ _ (proj1 H)) as Hnd.
      apply NoDup_cons in Hnd as [_ (_ & Hx & Hy)%NoDup_app].
      apply NoDup_app in Hy as (Hy & _). rewrite (tpages_delete _ _ _ Hf) in Hy.
      apply NoDup_cons in Hy as [Hy _]. apply elem_of_cons in Hq as [->|Hq]; [done|].
      apply (Hx _ Hq). rewrite (tpages_delete _ _ _ Hf). revert Hp. in_list.
  - intros va Hva E. rewrite Hpte by done.
    destruct (Z.eqb_spec (a / PGSIZE) (va / PGSIZE)) as [E'|]; [|done].
    rewrite <-E', lookup_delete_eq, Hf in E. done.
Qed.

(** Where a whole page table is absent, the loop goes on at the next one. *)
Lemma next_table a :
  0 <= a < KERNBASE -> a mod PGSIZE = 0 ->
  let a' := u32 (u32 (PGADDR (PDX a + 1) 0 0 - PGSIZE) + PGSIZE) in
  a' = (a / 4194304 + 1) * 4194304 /\ a + PGSIZE <= a' <= KERNBASE.
Proof.
  intros Ha Hal. assert (is_u32 a) as Hu by (by apply page_va).
  unfold PGADDR. rewrite !Z.shiftl_0_l, !Z.lor_0_r, PDX_eq, Z.shiftl_mul_pow2 by (done || unfold PDXSHIFT; lia).
  unfold PDXSHIFT. change (2 ^ 22) with 4194304.
  set (q := a / 4194304). assert (0 <= q < 512) as Hq.
  { unfold q, KERNBASE in *. Z.div_mod_to_equations; lia. }
  rewrite !(u32_small ((q + 1) * 4194304)) by (unfold is_u32; lia).
  rewrite (u32_small (_ - PGSIZE)) by (unfold is_u32, PGSIZE; lia).
  cbn zeta. rewrite u32_small by (unfold is_u32, PGSIZE; lia).
  unfold q, KERNBASE, PGSIZE in *. Z.div_mod_to_equations; lia.
Qed.

Lemma absent_table R dir tabs ufr free s a va :
  as_inv R dir tabs ufr free s -> 0 <= a < KERNBASE -> tabs !! PDX a = None ->
  a / 4194304 = va / 4194304 -> 0 <= va < KERNBASE -> ufr !! (va / PGSIZE) = None.
Proof.
  intros (H & Hu & _) Ha Ht E Hva. pose proof (proj2 Hu va Hva) as Hx.
  rewrite (pte_of_tab _ _ _ _ (pgt_dir_ok _ _ _ _ _ _ H)) in Hx.
  replace (PDX va) with (PDX a) in Hx by (rewrite !PDX_eq by (by apply page_va); done).
  rewrite Ht in Hx. by destruct (ufr !! (va / PGSIZE)) as [f|]; [destruct Hx|].
Qed.

(** One turn of the loop at [a]: the address and the state it goes on with. *)
Section turn.
  Context (R : list Z) (dir : Z) (tabs ufr : gmap Z Z) (free : list Z) (s : kstate) (a oldsz : Z) (e : env).
  Hypothesis H : as_inv R dir tabs ufr free s.
  Hypothesis Hal : a mod PGSIZE = 0.
  Hypothesis Ha : 0 <= a < KERNBASE.
  Hypothesis Hlt : a < oldsz.

Lemma turn_page : (a / PGSIZE) * PGSIZE = a /\ u32 (a + PGSIZE) = a + PGSIZE /\
  (a + PGSIZE) mod PGSIZE = 0 /\ (a + PGSIZE) / PGSIZE = a / PGSIZE + 1.
Proof.
  rewrite u32_small by (unfold is_u32, KERNBASE, PGSIZE in *; lia).
  unfold PGSIZE in *. Z.div_mod_to_equations; lia.
Qed.

Lemma turn_entry t fuel :
  tabs !! PDX a = Some t ->
  deallocuvm_loop (S fuel) dir a oldsz e s =
  (let w := pte_of (mem (vm s)) dir a in
   bind (if has w PTE_P then
           if PTE_ADDR w =? 0 then panic "kfree" else
           kfree (P2V (PTE_ADDR w)) ;; kstore (u32 (t + 4 * PTX a)) 0 ;; ret a
         else ret a)
     (fun a => deallocuvm_loop fuel dir (u32 (a + PGSIZE)) oldsz)) e s.
Proof.
  intros Ht. pose proof (pgt_dir_ok _ _ _ _ _ _ (proj1 H)) as Hd. pose proof (PTX_range a) as Ho.
  destruct (pte_nonzero _ _ _ _ _ (4 * PTX a) Hd Ht) as [Hup Hnz]; [unfold PGSIZE; lia|].
  cbn [deallocuvm_loop]. rewrite (proj2 (Z.ltb_lt a oldsz)) by lia.
  erewrite bind_Ret by (by apply (walkpgdir_found _ _ _ a 0 t e Hd Ht)).
  rewrite (proj2 (Z.eqb_neq (u32 (t + 4 * PTX a)) 0)) by congruence.
  rewrite bind_bind. erewrite bind_Ret; [reflexivity|].
  rewrite (pte_of_tab _ _ _ _ Hd), Ht. unfold kload, gets.
  by rewrite (V2P_off _ _ _ (do_en _ _ _ Hd) (do_page _ _ _ Hd _ _ Ht)) by (unfold PGSIZE; lia).
Qed.

Lemma turn_mapped t f :
  tabs !! PDX a = Some t -> ufr !! (a / PGSIZE) = Some f ->
  exists s', shrunk R dir tabs ufr s (delete (a / PGSIZE) ufr) (f :: free) s' /\
    forall fuel, deallocuvm_loop (S fuel) dir a oldsz e s =
                 deallocuvm_loop fuel dir (a + PGSIZE) oldsz e s'.
Proof.
  intros Ht Hf. destruct (unmap_shrunk _ _ _ _ _ _ _ _ _ e H Ha Ht Hf) as (s' & Hrun & Hs).
  exists s'. split; [done|]. intros fuel. rewrite (turn_entry t) by done. cbn zeta.
  pose proof (proj2 (proj1 (proj2 H)) a Ha) as Hpte. rewrite Hf in Hpte.
  destruct Hpte as [-> ->]. destruct H as (Hp & _ & Hke).
  assert (is_page (l_end (link s)) f) as Hfp.
  { eapply pgt_is_page; [exact Hp|]. assert (f ∈ tpages ufr) by eauto with xv6. in_list. }
  assert (KERNBASE <= l_end (link s)) as Hen by lia.
  destruct (Z.eqb_spec (V2P f) 0) as [E0|_].
  { rewrite (V2P_page _ _ Hen Hfp) in E0. unfold is_page, KERNBASE in *. lia. }
  rewrite (P2V_V2P_page _ _ Hen Hfp), <-(proj1 (proj2 turn_page)).
  erewrite bind_Ret; [done|]. revert Hrun. unfold bind. by destruct (kfree f e s); [intros ->|..].
Qed.

Lemma turn_unmapped t fuel :
  tabs !! PDX a = Some t -> ufr !! (a / PGSIZE) = None ->
  deallocuvm_loop (S fuel) dir a oldsz e s = deallocuvm_loop fuel dir (a + PGSIZE) oldsz e s.
Proof.
  intros Ht Hf. rewrite (turn_entry t) by done. cbn zeta.
  pose proof (proj2 (proj1 (proj2 H)) a Ha) as Hpte. rewrite Hf in Hpte. rewrite Hpte.
  by rewrite <-(proj1 (proj2 turn_page)).
Qed.

Lemma deallocuvm_turn :
  oldsz <= KERNBASE ->
  exists a' ufr' free' s', shrunk R dir tabs ufr s ufr' free' s' /\
    a' mod PGSIZE = 0 /\ a + PGSIZE <= a' /\
    drop_range (a' / PGSIZE) oldsz ufr' = drop_range (a / PGSIZE) oldsz ufr /\
    forall fuel, deallocuvm_loop (S fuel) dir a oldsz e s = deallocuvm_loop fuel dir a' oldsz e s'.
Proof.
  intros Hle. destruct turn_page as (Hpg & Hu & Hal' & Hdiv).
  destruct (tabs !! PDX a) as [t|] eqn:Ht; [destruct (ufr !! (a / PGSIZE)) as [f|] eqn:Hf|].
  - destruct (turn_mapped t f Ht Hf) as (s' & Hs & Hrun).
    exists (a + PGSIZE), (delete (a / PGSIZE) ufr), (f :: free), s'.
    split; [done|]. split; [done|]. split; [lia|]. split; [|done].
    rewrite Hdiv. apply drop_range_next. lia.
  - exists (a + PGSIZE), ufr, free, s.
    split; [by apply shrunk_refl|]. split; [done|]. split; [lia|]. split.
    + rewrite Hdiv. apply drop_range_skip; [lia|]. intros v Hv.
      by replace v with (a / PGSIZE) by lia.
    + intros fuel. by eapply turn_unmapped.
  - destruct (next_table a Ha Hal) as [Ha' Hr].
    set (a' := u32 (u32 (PGADDR (PDX a + 1) 0 0 - PGSIZE) + PGSIZE)) in *.
    exists a', ufr, free, s. split; [by apply shrunk_refl|].
    split; [rewrite Ha'; unfold PGSIZE; Z.div_mod_to_equations; lia|]. split; [lia|]. split.
    + apply drop_range_skip; [unfold PGSIZE in *; Z.div_mod_to_equations; lia|].
      intros v Hv. replace v with (v * PGSIZE / PGSIZE) by (by apply Z.div_mul).
      eapply (absent_table _ _ _ _ _ _ a); eauto;
        unfold PGSIZE, KERNBASE in *; Z.div_mod_to_equations; lia.
    + intros fuel. cbn [deallocuvm_loop]. rewrite (proj2 (Z.ltb_lt a oldsz)) by lia.
      erewrite bind_Ret by (eapply walkpgdir_none; [by eapply pgt_dir_ok, H|done]). by prim.
Qed.
End turn.

(** deallocuvm unmaps and frees exactly the pages between the two sizes, whatever page tables
    are missing there; [n] turns are enough for [n] pages. *)
Lemma deallocuvm_loop_spec (n : nat) R dir tabs ufr free s a oldsz e :
  as_inv R dir tabs ufr free s -> a mod PGSIZE = 0 -> 0 <= a -> oldsz <= KERNBASE ->
  oldsz <= a + Z.of_nat n * PGSIZE ->
  exists free' s', deallocuvm_loop (S n) dir a oldsz e s = Ret tt e s' /\
    shrunk R dir tabs ufr s (drop_range (a / PGSIZE) oldsz ufr) free' s'.
Proof.
  revert ufr free s a. induction n as [|n IH]; intros ufr free s a H Hal Ha0 Hle Hn.
  all: destruct (Z.ltb_spec a oldsz) as [Hlt|Hge].
  2,4: exists free, s; cbn [deallocuvm_loop]; rewrite (proj2 (Z.ltb_ge a oldsz)) by lia;
    split; [done|]; rewrite drop_range_empty;
    [by apply shrunk_refl | unfold PGSIZE in *; Z.div_mod_to_equations; lia].
  { lia. }
  destruct (deallocuvm_turn _ _ _ _ _ _ a oldsz e H Hal) as (a' & ufr' & free' & s' & Hs & Hal' & Hstep & Hd & Hrun);
    [lia..|].
  destruct (IH ufr' free' s' a') as (free2 & s2 & Hrun2 & Hs2); [apply Hs|done|unfold PGSIZE in *; lia..|].
  exists free2, s2. rewrite Hrun. split; [done|]. rewrite <-Hd. by eapply shrunk_trans.
Qed.

Lemma deallocuvm_spec R dir tabs ufr free s oldsz newsz e :
  as_inv R dir tabs ufr free s -> 0 <= newsz -> oldsz <= KERNBASE ->
  exists free' s', deallocuvm dir oldsz newsz e s = Ret (Z.min oldsz newsz) e s' /\
    shrunk R dir tabs ufr s (drop_range ((newsz + PGSIZE - 1) / PGSIZE) oldsz ufr) free' s'.
Proof.
  intros H Hn Hold. unfold deallocuvm. destruct (Z.leb_spec oldsz newsz).
  - exists free, s. rewrite Z.min_l by done. split; [done|].
    rewrite drop_range_empty; [by apply shrunk_refl|].
    unfold PGSIZE. Z.div_mod_to_equations; lia.
  - rewrite PGROUNDUP_eq by (unfold KERNBASE, PGSIZE in *; lia).
    set (v := (newsz + PGSIZE - 1) / PGSIZE).
    destruct (deallocuvm_loop_spec (Z.to_nat (oldsz / PGSIZE + 1)) R dir tabs ufr free s (PGSIZE * v) oldsz e H)
      as (free' & s' & Hrun & Hs).
    + unfold PGSIZE. Z.div_mod_to_equations; lia.
    + unfold v, PGSIZE. Z.div_mod_to_equations; lia.
    + done.
    + rewrite Z2Nat.id by (unfold PGSIZE; Z.div_mod_to_equations; lia).
      unfold v, PGSIZE. Z.div_mod_to_equations; lia.
    + exists free', s'. erewrite bind_Ret by exact Hrun. rewrite Z.min_r by lia.
      split; [done|]. by rewrite Z.mul_comm, Z.div_mul in Hs.
Qed.

(** ** freevm *)

(** The loop of freevm over the directory indices [l]: [rest] are the tables still to be freed. *)
Lemma free_tables R dir e (l : list Z) (rest : gmap Z Z) free s :
  NoDup l -> (forall i, i ∈ l -> 0 <= i < 1024) -> (forall i t, rest !! i = Some t -> i ∈ l) ->
  kmem_inv s free -> kmem_ready s -> NoDup R -> Forall (is_page (l_end (link s))) R ->
  dir :: tpages rest ++ free ≡ₚ R ->
  (forall i, i ∈ l ->
     match rest !! i with
     | Some t => word_at (mem (vm s)) (V2P dir + 4 * i) = V2P t + 7
     | None => has (word_at (mem (vm s)) (V2P dir + 4 * i)) PTE_P = false
     end) ->
  exists free' s',
    for_each l (fun i => d ← kload (u32 (dir + 4 * i)) ;
                         when (has d PTE_P) (kfree (P2V (PTE_ADDR d)))) e s = Ret tt e s' /\
    kmem_inv s' free' /\ kmem_ready s' /\ kmem_frame s s' /\ dir :: free' ≡ₚ R /\
    same_outside (tpages rest) (mem (vm s)) (mem (vm s')).
Proof.
  revert rest free s. induction l as [|i l IH];
    intros rest free s Hnd Hl Hdom Hinv Hready HR Hpg HP Hw.
  { assert (rest = ∅) as ->.
    { apply map_eq. intros i. destruct (rest !! i) as [t|] eqn:E; [|done].
      apply Hdom in E. by apply elem_of_nil in E. }
    exists free, s. split; [done|]. split_and!; auto with xv6. }
  pose proof (proj1 Hinv) as Hen. apply NoDup_cons in Hnd as [Hni Hnd].
  assert (is_page (l_end (link s)) dir) as Hdir.
  { rewrite Forall_forall in Hpg. apply Hpg. rewrite <-HP. left. }
  assert (kload (u32 (dir + 4 * i)) e s = Ret (word_at (mem (vm s)) (V2P dir + 4 * i)) e s) as Hload.
  { unfold kload, gets. rewrite (V2P_off _ _ _ Hen Hdir); [done|].
    assert (0 <= i < 1024) by (apply Hl; left). unfold PGSIZE. lia. }
  cbn [for_each]. rewrite bind_bind. erewrite bind_Ret by exact Hload.
  pose proof (Hw i ltac:(left)) as Hwi. destruct (rest !! i) as [t|] eqn:Ht.
  - assert (is_page (l_end (link s)) t) as Htp.
    { rewrite Forall_forall in Hpg. apply Hpg. rewrite <-HP. right. apply elem_of_app. left. eauto with xv6. }
    rewrite Hwi. destruct (tab_entry _ t Hen Htp) as (-> & _ & ->).
    rewrite (P2V_V2P_page _ _ Hen Htp). cbn [when].
    pose proof (tpages_delete _ _ _ Ht) as Hdel.
    assert (NoDup (t :: dir :: tpages (delete i rest) ++ free)) as Hnd'.
    { assert (t :: dir :: tpages (delete i rest) ++ free ≡ₚ R) as HR2
        by (rewrite <-HP, Hdel; solve_Permutation). by rewrite HR2. }
    apply NoDup_cons in Hnd' as [Htn _].
    destruct (kfree_spec t e s free) as (s1 & Hrun & Hfr & Hinv1 & Hout); auto.
    { intros Hin. apply Htn. revert Hin. in_list. }
    erewrite bind_Ret by exact Hrun. pose proof (kmem_frame_link _ _ Hfr) as Hlk.
    destruct (IH (delete i rest) (t :: free) s1) as (free' & s' & Hrun' & Hinv' & Hready' & Hfr' & HP' & Hout'); auto.
    + intros j Hj. apply Hl. by right.
    + intros j t' [Hne Hj]%lookup_delete_Some. apply Hdom in Hj.
      apply elem_of_cons in Hj as [->|?]; done.
    + by eapply kmem_frame_ready.
    + by rewrite Hlk.
    + rewrite <-HP, Hdel. solve_Permutation.
    + intros j Hj. assert (i <> j) by (by intros ->). rewrite lookup_delete_ne by done.
      rewrite Hout; [apply Hw; by right|].
      eapply page_words_apart; eauto; [|by apply Hl; right]. intros ->. apply Htn. in_list.
    + exists free', s'. split; [exact Hrun'|]. split_and!; try done.
      * by eapply kmem_frame_trans.
      * eapply (same_outside_trans _ (tpages (delete i rest))); [..|exact Hout'].
        -- apply tpages_mono, delete_subseteq.
        -- intros a Ha. apply Hout, Ha. rewrite Hdel. in_list.
  - rewrite Hwi. cbn [when]. erewrite bind_Ret by reflexivity. apply (IH rest free); auto.
    + intros j Hj. apply Hl. by right.
    + intros j t Hj. pose proof (Hdom _ _ Hj) as Hin. apply elem_of_cons in Hin as [->|?]; [congruence|done].
    + intros j Hj. apply Hw. by right.
Qed.

Lemma drop_all m dir ufr : user_ok m dir ufr -> drop_range 0 KERNBASE ufr = ∅.
Proof.
  intros [Hd _]. apply map_eq. intros v. rewrite lookup_drop_range, lookup_empty.
  destruct (ufr !! v) as [f|] eqn:E; [|by case_match].
  apply Hd in E. unfold upages, KERNBASE, PGSIZE in *. change (2147483648 / 4096) with 524288 in *.
  goal_bools; done || lia.
Qed.

(** freevm gives back every page of the address space: directory, tables and frames. *)
Lemma freevm_spec R dir tabs ufr free s e :
  as_inv R dir tabs ufr free s ->
  exists free' s', freevm dir e s = Ret tt e s' /\
    kmem_inv s' free' /\ kmem_ready s' /\ kmem_frame s s' /\ free' ≡ₚ R /\
    same_outside R (mem (vm s)) (mem (vm s')).
Proof.
  intros H. destruct (deallocuvm_spec _ _ _ _ _ _ KERNBASE 0 e H) as (free1 & s1 & Hrun1 & Hs1); [lia..|].
  change ((0 + PGSIZE - 1) / PGSIZE) with 0 in Hs1.
  rewrite (drop_all _ _ _ (proj1 (proj2 H))) in Hs1. destruct Hs1 as ((H1 & _) & Hfr1 & _ & Hout1 & _).
  pose proof (pgt_dir_ok _ _ _ _ _ _ (proj1 H)) as Hd.
  assert (dir <> 0) as Hd0.
  { pose proof (do_dir _ _ _ Hd). pose proof (do_en _ _ _ Hd). unfold is_page, KERNBASE in *. lia. }
  unfold freevm. rewrite (proj2 (Z.eqb_neq _ _) Hd0). erewrite bind_Ret by exact Hrun1.
  destruct (free_tables R dir e (range 0 NPDENTRIES) tabs free1 s1)
    as (free2 & s2 & Hrun2 & Hinv2 & Hready2 & Hfr2 & HP2 & Hout2).
  { apply NoDup_seqZ. }
  { intros i Hi. apply elem_of_seqZ in Hi. unfold NPDENTRIES in Hi. lia. }
  { intros i t Ht. apply elem_of_seqZ. apply H1 in Ht as [? _]. unfold NPDENTRIES. lia. }
  1-5: apply H1.
  { intros i Hi. apply elem_of_seqZ in Hi. unfold NPDENTRIES in Hi.
    destruct (pi_tabs _ _ _ _ _ _ H1) as [Hs Hn].
    destruct (tabs !! i) as [t|] eqn:E; [by apply Hs|apply Hn; [lia|done]]. }
  erewrite bind_Ret by exact Hrun2.
  assert (NoDup (dir :: free2)) as Hnd2 by (rewrite HP2; apply H).
  apply NoDup_cons in Hnd2 as [Hdn _].
  destruct (kfree_spec dir e s2 free2) as (s3 & Hrun3 & Hfr3 & Hinv3 & Hout3); auto.
  { rewrite (kmem_frame_link _ _ Hfr2), (kmem_frame_link _ _ Hfr1). apply Hd. }
  exists (dir :: free2), s3. split; [done|]. split; [done|].
  split; [by eapply kmem_frame_ready|].
  split; [by eapply kmem_frame_trans, kmem_frame_trans|]. split; [done|].
  assert (forall p, p ∈ dir :: tpages tabs ++ tpages ufr -> p ∈ R) as Hin.
  { intros p Hp. rewrite <-(pi_perm _ _ _ _ _ _ (proj1 H)). revert Hp. in_list. }
  intros a Ha. rewrite Hout3, Hout2, Hout1; [done|..].
  - intros p Hp. apply Ha, Hin. revert Hp. in_list.
  - intros p Hp. apply Ha, Hin. revert Hp. in_list.
  - apply Ha, Hin. in_list.
Qed.

(** ** setupkvm *)

(** A row of kmap: its size, and what makes it mappable above KERNBASE. *)
Definition seg_size (seg : Z * Z * Z * Z) : Z := let '(_, ps, pe, _) := seg in u32 (pe - ps).
Definition seg_ok (seg : Z * Z * Z * Z) : Prop :=
  let '(virt, ps, pe, perm) := seg in
  virt mod PGSIZE = 0 /\ KERNBASE <= virt /\ 0 < seg_size seg /\ seg_size seg mod PGSIZE = 0 /\
  virt + seg_size seg <= 2 ^ 32 /\ ps mod PGSIZE = 0 /\ 0 <= ps /\ ps + seg_size seg <= 2 ^ 32 /\
  0 <= perm < PGSIZE.
Definition in_seg (seg : Z * Z * Z * Z) (va : Z) : bool :=
  let '(virt, _, _, _) := seg in in_range (va / PGSIZE - virt / PGSIZE) (seg_size seg / PGSIZE).
Definition seg_disj (s1 s2 : Z * Z * Z * Z) : Prop :=
  forall va, is_u32 va -> in_seg s1 va = true -> in_seg s2 va = true -> False.

(** The entry of [va] after the rows are mapped in order. *)
Fixpoint kmap_pte (segs : list (Z * Z * Z * Z)) (va old : Z) : Z :=
  match segs with
  | [] => old
  | (virt, ps, pe, perm) as seg :: segs =>
      kmap_pte segs va (mapped virt ps perm (seg_size seg / PGSIZE) va old)
  end.

Lemma mapped_out a pa perm k va old :
  in_range (va / PGSIZE - a / PGSIZE) k = false -> mapped a pa perm k va old = old.
Proof. unfold mapped. by intros ->. Qed.

(** Mapping above KERNBASE leaves the user part as it is. *)
Lemma as_inv_kernel R dir tabs ufr free s tabs' free' s' virt pa perm k :
  as_inv R dir tabs ufr free s -> grows R dir (tpages ufr) tabs free s tabs' free' s' ->
  KERNBASE <= virt ->
  (forall va, is_u32 va ->
     pte_of (mem (vm s')) dir va = mapped virt pa perm k va (pte_of (mem (vm s)) dir va)) ->
  as_inv R dir tabs' ufr free' s'.
Proof.
  intros (H & Hu & Hke) (H' & Hfr & _) Hv Hpte. split; [done|].
  split; [|by rewrite (kmem_frame_link _ _ Hfr)].
  eapply user_ok_update; [exact Hu|apply Hu|]. intros va Hva. left. split; [|done].
  rewrite Hpte by (by apply page_va). apply mapped_out, not_true_iff_false.
  rewrite in_range_spec. unfold KERNBASE, PGSIZE in *. Z.div_mod_to_equations; lia.
Qed.

Lemma grows_outside R dir frames tabs free s tabs' free' s' :
  pgt_inv R dir tabs frames free s -> grows R dir frames tabs free s tabs' free' s' ->
  same_outside R (mem (vm s)) (mem (vm s')).
Proof.
  intros H (_ & _ & _ & Ho). eapply same_outside_mono; [|exact Ho].
  intros p Hp. rewrite <-(pi_perm _ _ _ _ _ _ H). revert Hp. in_list.
Qed.

Definition map_seg (dir : Z) : Z * Z * Z * Z -> M (option Z) := fun '(virt, pstart, pend, perm) =>
  r ← mappages dir virt (u32 (pend - pstart)) pstart perm ;
  if r <? 0 then freevm dir ;; ret (Some 0) else ret None.

Lemma map_segs R dir e segs tabs ufr free s :
  as_inv R dir tabs ufr free s -> Forall seg_ok segs -> ForallOrdPairs seg_disj segs ->
  (forall seg va, seg ∈ segs -> is_u32 va -> in_seg seg va = true ->
     has (pte_of (mem (vm s)) dir va) PTE_P = false) ->
  exists r s' tabs' free', for_until segs (map_seg dir) e s = Ret r e s' /\
    kmem_frame s s' /\ same_outside R (mem (vm s)) (mem (vm s')) /\
    ((r = None /\ as_inv R dir tabs' ufr free' s' /\
      forall va, is_u32 va ->
        pte_of (mem (vm s')) dir va = kmap_pte segs va (pte_of (mem (vm s)) dir va)) \/
     (r = Some 0 /\ kmem_inv s' free' /\ kmem_ready s' /\ free' ≡ₚ R /\
      (length R <= 1025 + size ufr)%nat)).
Proof.
  revert tabs free s. induction segs as [|seg segs IH]; intros tabs free s H Hok Hdis Habs.
  { exists None, s, tabs, free. split; [done|]. split; [auto with xv6|]. split; [done|]. by left. }
  apply Forall_cons in Hok as [Hseg Hok]. inversion Hdis as [|? ? Hd1 Hdis']; subst.
  destruct seg as [[[virt ps] pe] perm]. destruct Hseg as (Hv & Hk & Hsz & Hsm & Hvs & Hps & Hp0 & Hpe & Hperm).
  set (n := seg_size (virt, ps, pe, perm) / PGSIZE).
  assert (n * PGSIZE = seg_size (virt, ps, pe, perm) /\ 0 < n) as [Hn Hn0].
  { unfold n. set (z := seg_size _) in *. unfold PGSIZE in *. Z.div_mod_to_equations; lia. }
  destruct (mappages_spec _ _ _ _ _ _ virt n ps perm e (proj1 H))
    as (r & s1 & tabs1 & free1 & k & Hrun & Hg & Hr & Hpte); try done; try lia.
  { unfold KERNBASE in Hk. lia. }
  { intros va Hva Hin. apply (Habs (virt, ps, pe, perm)); [left|done|exact Hin]. }
  rewrite Hn in Hrun. cbn in Hrun.
  pose proof (grows_outside _ _ _ _ _ _ _ _ _ (proj1 H) Hg) as Hout.
  pose proof (as_inv_kernel _ _ _ _ _ _ _ _ _ _ _ _ _ H Hg Hk Hpte) as H1.
  cbn [for_until map_seg]. rewrite bind_bind. erewrite bind_Ret by exact Hrun.
  destruct Hr as [[-> ->]|(-> & _ & ->)].
  - change (0 <? 0) with false. cbv iota. erewrite bind_Ret by reflexivity.
    destruct (IH tabs1 free1 s1 H1 Hok Hdis') as (r & s2 & tabs2 & free2 & Hrun2 & Hfr2 & Hout2 & Hr).
    { intros seg va Hin Hva Hs. rewrite Hpte by done. rewrite mapped_out.
      - apply (Habs seg); [by right|done..].
      - rewrite Forall_forall in Hd1. apply not_true_iff_false. intros Hx.
        by eapply (Hd1 seg Hin va). }
    exists r, s2, tabs2, free2. split; [done|]. split; [eapply kmem_frame_trans; [apply Hg|done]|].
    split; [by eapply same_outside_trans|]. destruct Hr as [(-> & H2 & Hp2)|Hr]; [left|by right].
    split; [done|]. split; [done|]. intros va Hva. by rewrite Hp2, Hpte.
  - change (-1 <? 0) with true. cbv iota.
    destruct (freevm_spec _ _ _ _ _ _ e H1) as (free2 & s2 & Hrun2 & Hi2 & Hr2 & Hf2 & HP2 & Ho2).
    exists (Some 0), s2, tabs1, free2. rewrite bind_bind. erewrite bind_Ret by exact Hrun2.
    split; [done|]. split; [eapply kmem_frame_trans; [apply Hg|done]|].
    split; [by eapply same_outside_trans|]. right. split_and!; try done.
    destruct (pgt_length _ _ _ _ _ _ (proj1 Hg)) as [-> Hsz1]. rewrite length_tpages. cbn. lia.
Qed.

(** What kernel.ld guarantees: [data] is page-aligned, follows the kernel text, and the image
    ends below PHYSTOP. *)
Definition link_ok (lk : linkmap) : Prop :=
  l_data lk mod PGSIZE = 0 /\ KERNLINK < l_data lk /\ l_data lk <= l_end lk /\
  l_end lk < KERNBASE + PHYSTOP.

(** A zeroed page is an empty page directory. *)
Lemma fresh_dir dir free s s1 :
  kmem_inv s (dir :: free) -> kmem_ready s -> KERNBASE < l_end (link s) ->
  kmem_frame s s1 -> kmem_inv s1 free -> mem (vm s1) = mem (vm s) ->
  let s2 := s1 <| vm ::= fun w => w <| mem := fill 1024 (V2P dir / 4) 0 (mem (vm s)) |> |> in
  as_inv (dir :: free) dir ∅ ∅ free s2 /\ same_outside [dir] (mem (vm s)) (mem (vm s2)) /\
  forall va, pte_of (mem (vm s2)) dir va = 0.
Proof.
  intros (Hen & _ & Hnd & Hpg) Hready Hke Hfr Hinv Hm s2.
  pose proof (kmem_frame_link _ _ Hfr) as Hl. apply Forall_cons in Hpg as [Hd Hpg].
  pose proof (V2P_aligned _ _ Hen Hd) as Hal.
  assert (same_outside [dir] (mem (vm s)) (mem (vm s2))) as Hout.
  { intros a Ha. cbn. apply fill_outside; [done|]. apply Ha. left. }
  assert (forall i, 0 <= i < 1024 -> word_at (mem (vm s2)) (V2P dir + 4 * i) = 0) as Hz.
  { intros i Hi. cbn. apply fill_inside; [done|]. unfold in_page, PGSIZE. lia. }
  assert (pgt_inv (dir :: free) dir ∅ (tpages ∅) free s2) as H.
  { split.
    - apply kmem_inv_write; [done|]. intros p Hp. rewrite Hm. apply Hout.
      intros q ->%list_elem_of_singleton. rewrite Forall_forall in Hpg.
      eapply pages_apart; eauto. apply NoDup_cons in Hnd as [Hn _]. by intros ->.
    - destruct (kmem_frame_ready _ _ Hfr Hready); [by left|by right].
    - split; [done|]. intros i Hi _. by rewrite Hz.
    - done.
    - done.
    - cbn. rewrite Hl. by constructor. }
  assert (forall va, pte_of (mem (vm s2)) dir va = 0) as Hpte.
  { intros va. by rewrite (pte_of_tab _ _ _ _ (pgt_dir_ok _ _ _ _ _ _ H)). }
  split; [|done]. split; [done|]. split; [|by cbn; rewrite Hl].
  split; [done|]. intros va _. rewrite lookup_empty, Hpte. done.
Qed.

Lemma kmap_ok lk : link_ok lk -> Forall seg_ok (kmap lk).
Proof.
  intros (Hal & Hd & He & Hp). unfold kmap.
  assert (V2P (l_data lk) = l_data lk - KERNBASE) as HV.
  { unfold V2P, KERNLINK, EXTMEM, KERNBASE, PHYSTOP in *. cint. }
  assert (u32 (V2P (l_data lk) - V2P KERNLINK) = l_data lk - KERNLINK) as H1.
  { rewrite HV. unfold V2P, KERNLINK, EXTMEM, KERNBASE, PHYSTOP in *. cint. }
  assert (u32 (PHYSTOP - V2P (l_data lk)) = KERNBASE + PHYSTOP - l_data lk) as H2.
  { rewrite HV. unfold KERNLINK, EXTMEM, KERNBASE, PHYSTOP in *. cint. }
  repeat constructor; cbn [seg_size]; rewrite ?H1, ?H2, ?HV; unfold seg_size;
    rewrite ?H1, ?H2; try done.
  all: unfold KERNLINK, EXTMEM, KERNBASE, PHYSTOP, PTE_W, PGSIZE, V2P in *; try lia; try done.
  all: try (Z.div_mod_to_equations; lia).
  change (u32 (2147483648 + 1048576 - KERNBASE)) with 1048576. lia.
Qed.

(** The page numbers the four rows cover. *)
Lemma in_kmap lk va :
  link_ok lk -> is_u32 va ->
  map (fun seg => in_seg seg va) (kmap lk) =
  [ (KERNBASE <=? va) && (va <? KERNLINK);
    (KERNLINK <=? va) && (va <? l_data lk);
    (l_data lk <=? va) && (va <? KERNBASE + PHYSTOP);
    (DEVSPACE <=? va) ].
Proof.
  intros (Hal & Hd & He & Hp) Hva. unfold kmap, in_seg, seg_size. cbn [map].
  assert (V2P (l_data lk) = l_data lk - KERNBASE) as HV.
  { unfold V2P, KERNLINK, EXTMEM, KERNBASE, PHYSTOP in *. cint. }
  assert (u32 (l_data lk - KERNBASE - V2P KERNLINK) = l_data lk - KERNLINK) as H1.
  { unfold V2P, KERNLINK, EXTMEM, KERNBASE, PHYSTOP in *. cint. }
  assert (u32 (PHYSTOP - (l_data lk - KERNBASE)) = KERNBASE + PHYSTOP - l_data lk) as H2.
  { unfold KERNLINK, EXTMEM, KERNBASE, PHYSTOP in *. cint. }
  rewrite HV, H1, H2.
  change (u32 (0 - DEVSPACE)) with 33554432. change (u32 (EXTMEM - 0)) with 1048576.
  unfold is_u32, in_range, KERNLINK, EXTMEM, KERNBASE, PHYSTOP, DEVSPACE, PGSIZE in *.
  change (2 ^ 32) with 4294967296 in *.
  repeat (apply (f_equal2 cons);
    [goal_bools; try done; exfalso; Z.div_mod_to_equations; lia|]). done.
Qed.

Lemma kmap_disj lk : link_ok lk -> ForallOrdPairs seg_disj (kmap lk).
Proof.
  intros Hlk. pose proof Hlk as (Hal & Hd & He & Hp).
  unfold kmap. repeat first [apply FOP_nil | apply FOP_cons | apply Forall_nil_2 | apply Forall_cons_2].
  all: intros va Hva;
    pose proof (in_kmap lk va Hlk Hva) as E; unfold kmap in E; cbn [map] in E;
    remember in_seg as f; injection E as E1 E2 E3 E4; rewrite ?E1, ?E2, ?E3, ?E4;
    rewrite ?andb_true_iff, ?Z.leb_le, ?Z.ltb_lt;
    unfold KERNLINK, EXTMEM, KERNBASE, PHYSTOP, DEVSPACE in *; lia.
Qed.

Lemma setupkvm_spec free s e :
  kmem_inv s free -> kmem_ready s -> KERNBASE < l_end (link s) -> link_ok (link s) ->
  exists r s', setupkvm e s = Ret r e s' /\ kmem_frame s s' /\
    same_outside free (mem (vm s)) (mem (vm s')) /\
    ((r = 0 /\ (length free <= 1025)%nat /\
      exists free', kmem_inv s' free' /\ kmem_ready s' /\ free' ≡ₚ free) \/
     (exists tabs free', as_inv free r tabs ∅ free' s' /\
        forall va, is_u32 va -> pte_of (mem (vm s')) r va = kmap_pte (kmap (link s)) va 0)).
Proof.
  intros Hinv Hready Hke Hlk.
  destruct (kalloc_spec e s free) as (s1 & Hrun & Hfr & Hinv1 & Hm); [done..|].
  unfold setupkvm. erewrite bind_Ret by exact Hrun. destruct free as [|dir free].
  { exists 0, s1. split; [done|]. split; [done|]. split; [by rewrite Hm|]. left. split; [done|].
    split; [cbn; lia|]. exists []. split; [done|]. split; [by eapply kmem_frame_ready|done]. }
  cbn [head default tail] in *. unfold id in *.
  assert (dir <> 0) as Hd0.
  { destruct Hinv as (Hen & _ & _ & Hpg). apply Forall_cons in Hpg as [Hpg _].
    unfold is_page, KERNBASE in *. lia. }
  rewrite (proj2 (Z.eqb_neq _ _) Hd0).
  destruct (fresh_dir dir free s s1) as (H2 & Hout2 & Hpte2); [done..|].
  unfold memset_page, set_vm. prim.
  change (DEVSPACE <? P2V PHYSTOP) with false. cbv iota. prim.
  rewrite (kmem_frame_link _ _ Hfr).
  match goal with |- context [bind _ _ e ?st] => set (s2 := st) end.
  assert (s2 = s1 <| vm ::= fun w => w <| mem := fill 1024 (V2P dir / 4) 0 (mem (vm s)) |> |>) as Hs2.
  { unfold s2, upd. cbn. by rewrite Hm. }
  rewrite <-Hs2 in H2, Hout2, Hpte2. clearbody s2.
  assert (kmem_frame s s2) as Hfr2.
  { subst s2. eapply kmem_frame_trans; [exact Hfr|apply kmem_frame_mem]. }
  destruct (map_segs (dir :: free) dir e (kmap (link s)) ∅ ∅ free s2 H2)
    as (r & s3 & tabs3 & free3 & Hrun3 & Hfr3 & Hout3 & Hr).
  { by apply kmap_ok. }
  { by apply kmap_disj. }
  { intros seg va _ _ _. by rewrite Hpte2. }
  erewrite bind_Ret by exact Hrun3.
  assert (same_outside (dir :: free) (mem (vm s)) (mem (vm s3))) as Hout.
  { eapply same_outside_trans; [|eapply same_outside_mono; [|exact Hout2]|exact Hout3]; [done|].
    intros p. in_list. }
  destruct Hr as [(-> & H3 & Hp3)|(-> & Hi3 & Hr3 & HP3 & Hn3)].
  - exists dir, s3. split; [done|]. split; [by eapply kmem_frame_trans|]. split; [done|].
    right. exists tabs3, free3. split; [done|]. intros va Hva. by rewrite Hp3, Hpte2.
  - exists 0, s3. split; [done|]. split; [by eapply kmem_frame_trans|]. split; [done|].
    left. split; [done|]. split; [|by exists free3]. rewrite map_size_empty in Hn3. cbn in *. lia.
Qed.

(** ** Setting a frame aside *)

Lemma pgt_split R dir tabs f frames free s :
  pgt_inv R dir tabs (f :: frames) free s ->
  exists R', R ≡ₚ f :: R' /\ f ∉ R' /\ is_page (l_end (link s)) f /\
    pgt_inv R' dir tabs frames free s.
Proof.
  intros H. exists (dir :: tpages tabs ++ frames ++ free).
  assert (R ≡ₚ f :: dir :: tpages tabs ++ frames ++ free) as HR.
  { rewrite <-(pi_perm _ _ _ _ _ _ H). solve_Permutation. }
  pose proof (pi_nodup _ _ _ _ _ _ H) as Hnd. rewrite HR in Hnd. apply NoDup_cons in Hnd as [Hf Hnd].
  pose proof (pi_pages _ _ _ _ _ _ H) as Hpg. rewrite HR in Hpg. apply Forall_cons in Hpg as [Hfp Hpg].
  split; [done|]. split; [done|]. split; [done|].
  split; [apply H..|done|done|done].
Qed.

Lemma pgt_join R R' dir tabs f frames free s :
  R ≡ₚ f :: R' -> f ∉ R' -> is_page (l_end (link s)) f ->
  pgt_inv R' dir tabs frames free s -> pgt_inv R dir tabs (f :: frames) free s.
Proof.
  intros HR Hf Hfp H. split; [apply H..| | |].
  - rewrite HR, <-(pi_perm _ _ _ _ _ _ H). solve_Permutation.
  - rewrite HR. constructor; [done|apply H].
  - rewrite HR. constructor; [done|apply H].
Qed.

(** ** allocuvm *)

(** Only memory, the free list, console output and the saved interrupt flag differ. *)
Definition vframe (s s' : kstate) : Prop :=
  exists m fl sy k, s' = s <| vm ::= fun w => w <| mem := m |> <| freelist := fl |> |>
                           <| con := k |> <| sync := sy |> /\
    settled (sync s) sy /\ (con_ok (con s) -> con_ok k).

Lemma vframe_kmem s s' : kmem_frame s s' -> vframe s s'.
Proof.
  intros (m & fl & sy & -> & Hsy). exists m, fl, sy, (con s). split; [|done].
  unfold upd; cbn. by destruct s.
Qed.
Lemma vframe_talk s s' : talk s s' -> vframe s s'.
Proof.
  intros (k & sy & -> & Hk & Hsy). exists (mem (vm s)), (freelist (vm s)), sy, k. split; [|done].
  unfold upd; cbn. by destruct s as [???????? [] ??]; destruct vm.
Qed.
Lemma vframe_trans s1 s2 s3 : vframe s1 s2 -> vframe s2 s3 -> vframe s1 s3.
Proof.
  intros (m1 & f1 & sy1 & k1 & -> & H1 & K1) (m2 & f2 & sy2 & k2 & -> & H2 & K2).
  exists m2, f2, sy2, k2. split; [done|]. split; [by eapply settled_trans|auto].
Qed.
Lemma vframe_refl s : vframe s s.
Proof. apply vframe_kmem, kmem_frame_refl. Qed.
#[export] Hint Resolve vframe_kmem vframe_talk vframe_refl : xv6.

Lemma talk_pgt R dir tabs frames free s s' :
  talk s s' -> pgt_inv R dir tabs frames free s ->
  pgt_inv R dir tabs frames free s' /\ vm s' = vm s /\ link s' = link s.
Proof.
  intros (k & sy & -> & _ & Hsy) H. split; [|done]. split; [apply H| |apply H..].
  destruct (pi_ready _ _ _ _ _ _ H) as [?|[Hok Hf]]; [by left|right]. cbn. eauto with xv6.
Qed.

(** The invariant is about memory, the free list and the allocator's lock. *)
Lemma as_inv_ext R dir tabs ufr free s s' :
  mem (vm s') = mem (vm s) -> freelist (vm s') = freelist (vm s) ->
  use_lock (vm s') = use_lock (vm s) -> link s' = link s -> sync s' = sync s ->
  as_inv R dir tabs ufr free s -> as_inv R dir tabs ufr free s'.
Proof.
  intros Hm Hf Hu Hl Hs ([Hi Hr Ht HP Hnd Hpg] & Hus & Hke).
  unfold as_inv, kmem_inv, kmem_ready in *. rewrite Hm, Hl. split_and!; [|done..].
  split; [|unfold kmem_ready|..]; unfold kmem_inv; rewrite ?Hm, ?Hf, ?Hu, ?Hl, ?Hs; done.
Qed.

(** The page [p] holds zeroes. *)
Definition zero_page (m : gmap Z Z) (p : Z) : Prop :=
  forall i, 0 <= i < 1024 -> word_at m (V2P p + 4 * i) = 0.

Lemma can_print_vframe s s' : vframe s s' -> can_print s -> can_print s'.
Proof.
  intros (m & fl & sy & k & -> & Hsy & Hk) (Hc & Hok & Hf). unfold can_print. cbn.
  eauto 6 with xv6.
Qed.

(** Mapping the frame [p] at the unmapped user page [a]. *)
Lemma map_frame R dir tabs p ufr free s a perm e :
  pgt_inv R dir tabs (p :: tpages ufr) free s -> user_ok (mem (vm s)) dir ufr ->
  KERNBASE < l_end (link s) -> a mod PGSIZE = 0 -> 0 <= a < KERNBASE ->
  ufr !! (a / PGSIZE) = None -> 0 <= perm < PGSIZE ->
  exists r s' tabs' free', mappages dir a PGSIZE (V2P p) perm e s = Ret r e s' /\
    grows R dir (p :: tpages ufr) tabs free s tabs' free' s' /\
    ((r = 0 /\ as_inv R dir tabs' (<[a / PGSIZE := p]> ufr) free' s' /\
      forall va, is_u32 va -> pte_of (mem (vm s')) dir va =
        if a / PGSIZE =? va / PGSIZE then V2P p + Z.lor perm PTE_P
        else pte_of (mem (vm s)) dir va) \/
     (r = -1 /\ free' = [] /\ user_ok (mem (vm s')) dir ufr /\
      forall va, is_u32 va -> pte_of (mem (vm s')) dir va = pte_of (mem (vm s)) dir va)).
Proof.
  intros H Hu Hke Hal Ha Hnone Hperm. destruct (page_va a Ha) as [Hv Hau].
  assert (is_page (l_end (link s)) p) as Hp by (eapply pgt_is_page; [exact H|in_list]).
  assert (KERNBASE <= l_end (link s)) as Hen by lia.
  pose proof (V2P_aligned _ _ Hen Hp) as Hpal. pose proof (V2P_page _ _ Hen Hp) as HpV.
  destruct (mappages_spec _ _ _ _ _ _ a 1 (V2P p) perm e H)
    as (r & s' & tabs' & free' & k & Hrun & Hg & Hr & Hpte); try done; try lia.
  1-3: unfold is_page, KERNBASE, PHYSTOP, PGSIZE in *; lia.
  { intros va Hva Hin. apply in_range_spec in Hin. assert (va / PGSIZE = a / PGSIZE) as E by lia.
    rewrite <-E in Hnone. pose proof (proj2 Hu va) as Hx. rewrite Hnone in Hx. apply Hx.
    unfold is_u32, KERNBASE, PGSIZE in *. Z.div_mod_to_equations; lia. }
  exists r, s', tabs', free'. split; [exact Hrun|]. split; [done|].
  destruct Hr as [[-> ->]|(-> & Hk & ->)]; [left|right]; (split; [done|]).
  - assert (forall va, is_u32 va -> pte_of (mem (vm s')) dir va =
        if a / PGSIZE =? va / PGSIZE then V2P p + Z.lor perm PTE_P
        else pte_of (mem (vm s)) dir va) as Hpte'.
    { intros va Hva. rewrite Hpte by done. unfold mapped, in_range.
      destruct (Z.eqb_spec (a / PGSIZE) (va / PGSIZE)) as [<-|].
      - rewrite Z.sub_diag, Z.mul_0_r, Z.add_0_r. done.
      - goal_bools; done || lia. }
    split; [|done]. split; [|split].
    + eapply pgt_frames; [|apply Hg]. symmetry. by apply tpages_insert.
    + pose proof (perm_flags _ Hperm) as Hfl.
      eapply user_ok_update; [exact Hu| |].
      * intros v f. destruct (decide (a / PGSIZE = v)) as [<-|]; [done|].
        rewrite lookup_insert_ne by done. apply Hu.
      * intros va Hva. rewrite Hpte' by (by apply page_va).
        destruct (Z.eqb_spec (a / PGSIZE) (va / PGSIZE)) as [<-|].
        -- right. rewrite lookup_insert_eq, has_P, testbit_join, PTE_ADDR_join by (done || lia).
           split; [|done]. unfold PTE_P. rewrite Z.lor_spec, orb_true_r. done.
        -- left. by rewrite lookup_insert_ne.
    + destruct Hg as (_ & Hfr & _). by rewrite (kmem_frame_link _ _ Hfr).
  - assert (forall va, is_u32 va -> pte_of (mem (vm s')) dir va = pte_of (mem (vm s)) dir va) as Hpte'.
    { intros va Hva. rewrite Hpte by done. apply mapped_out. unfold in_range. goal_bools; done || lia. }
    split; [done|]. split; [|done]. eapply user_ok_update; [exact Hu|apply Hu|]. intros va Hva. left.
    split; [|done]. by apply Hpte', page_va.
Qed.

(** [keeps P]: the user pages selected by [P] keep their frame, its contents and their entry;
    so do the entries of the kernel pages [P] selects.  Nothing outside the region changes. *)
Definition keeps (P : Z -> Prop) (R : list Z) (dir : Z) (ufr : gmap Z Z) (s : kstate)
    (tabs' ufr' : gmap Z Z) (free' : list Z) (s' : kstate) : Prop :=
  as_inv R dir tabs' ufr' free' s' /\ vframe s s' /\
  same_outside R (mem (vm s)) (mem (vm s')) /\
  (forall v, P v -> ufr' !! v = ufr !! v) /\
  (forall v f, P v -> ufr !! v = Some f -> agree [f] (mem (vm s)) (mem (vm s'))) /\
  (forall va, is_u32 va -> P (va / PGSIZE) ->
     pte_of (mem (vm s')) dir va = pte_of (mem (vm s)) dir va).

Lemma keeps_refl P R dir tabs ufr free s :
  as_inv R dir tabs ufr free s -> keeps P R dir ufr s tabs ufr free s.
Proof. intros H. split; [done|]. split_and!; auto with xv6. done. Qed.

Lemma keeps_trans P R dir ufr1 s1 tabs2 ufr2 free2 s2 tabs3 ufr3 free3 s3 :
  keeps P R dir ufr1 s1 tabs2 ufr2 free2 s2 -> keeps P R dir ufr2 s2 tabs3 ufr3 free3 s3 ->
  keeps P R dir ufr1 s1 tabs3 ufr3 free3 s3.
Proof.
  intros (H2 & F2 & O2 & U2 & A2 & P2) (H3 & F3 & O3 & U3 & A3 & P3).
  split; [done|]. split_and!.
  - by eapply vframe_trans.
  - by eapply same_outside_trans.
  - intros v Hv. by rewrite U3, U2.
  - intros v f Hv Hf. eapply agree_trans; [by eapply A2|]. eapply A3; [done|]. by rewrite U2.
  - intros va Hva Hp. by rewrite P3, P2.
Qed.

Lemma keeps_mono (P Q : Z -> Prop) R dir ufr s tabs' ufr' free' s' :
  (forall v, Q v -> P v) -> keeps P R dir ufr s tabs' ufr' free' s' ->
  keeps Q R dir ufr s tabs' ufr' free' s'.
Proof. intros HPQ (H & F & O & U & A & E). split; [done|]. split_and!; eauto. Qed.

(** A change of everything but memory may come first. *)
Lemma keeps_from P R dir ufr s s1 tabs' ufr' free' s' :
  vframe s s1 -> mem (vm s1) = mem (vm s) ->
  keeps P R dir ufr s1 tabs' ufr' free' s' -> keeps P R dir ufr s tabs' ufr' free' s'.
Proof.
  intros Hf Hm (H & F & O & U & A & E). rewrite Hm in O, A, E. split; [done|]. split_and!; try done.
  by eapply vframe_trans.
Qed.

(** So may a change of a frame that is not mapped. *)
Lemma keeps_from_frame P R dir tabs p ufr free s s1 tabs' ufr' free' s' :
  vframe s s1 -> same_outside [p] (mem (vm s)) (mem (vm s1)) ->
  pgt_inv R dir tabs (p :: tpages ufr) free s1 ->
  (forall va, pte_of (mem (vm s1)) dir va = pte_of (mem (vm s)) dir va) ->
  keeps P R dir ufr s1 tabs' ufr' free' s' -> keeps P R dir ufr s tabs' ufr' free' s'.
Proof.
  intros Hf Hout H1 Hpte (H & F & O & U & A & E). split; [done|]. split_and!.
  - by eapply vframe_trans.
  - eapply same_outside_trans; [|eapply same_outside_mono; [|exact Hout]|exact O]; [done|].
    intros q ->%list_elem_of_singleton. rewrite <-(pi_perm _ _ _ _ _ _ H1). in_list.
  - done.
  - intros v f Hv Hfv. eapply agree_trans; [|by eapply A].
    assert (f ∈ tpages ufr) as Hin by eauto with xv6.
    eapply (outside_agree (l_end (link s1)) [p]); [apply H1|done|..].
    + intros q Hq. eapply pgt_is_page; [exact H1|]. revert Hq Hin.
      rewrite elem_of_app, !list_elem_of_singleton. intros [ -> | -> ]; in_list.
    + intros q ->%list_elem_of_singleton ->%list_elem_of_singleton.
      pose proof (pgt_nodup _ _ _ _ _ _ H1) as [_ (_ & _ & Hnd)%NoDup_app]%NoDup_cons.
      apply NoDup_app in Hnd as ([Hnd _]%NoDup_cons & _). done.
  - intros va Hva Hv. by rewrite E, Hpte.
Qed.

(** Growing the page table leaves the frames alone. *)
Lemma grows_agree R dir frames tabs free s tabs' free' s' f :
  pgt_inv R dir tabs frames free s -> grows R dir frames tabs free s tabs' free' s' ->
  f ∈ frames -> agree [f] (mem (vm s)) (mem (vm s')).
Proof.
  intros H (_ & _ & _ & Hout) Hf. eapply outside_agree; [apply H|exact Hout|..].
  - intros q Hq. eapply pgt_is_page; [exact H|]. revert Hq.
    rewrite elem_of_app, list_elem_of_singleton. intros [Hq| ->]; [revert Hq|revert Hf]; in_list.
  - intros q ->%list_elem_of_singleton Hq. pose proof (pgt_nodup _ _ _ _ _ _ H) as Hnd.
    assert (dir :: tpages tabs ++ frames ++ free ≡ₚ (dir :: tpages tabs ++ free) ++ frames) as HP
      by solve_Permutation.
    rewrite HP in Hnd. by apply (NoDup_apart _ _ _ _ Hnd Hq Hf).
Qed.

Lemma keeps_from_grows P R dir frames tabs free s tabs1 free1 s1 ufr tabs' ufr' free' s' :
  pgt_inv R dir tabs frames free s -> grows R dir frames tabs free s tabs1 free1 s1 ->
  tpages ufr ⊆ frames ->
  (forall va, is_u32 va -> pte_of (mem (vm s1)) dir va = pte_of (mem (vm s)) dir va) ->
  keeps P R dir ufr s1 tabs' ufr' free' s' -> keeps P R dir ufr s tabs' ufr' free' s'.
Proof.
  intros H Hg Hsub Hpte (K & F & O & U & A & E). split; [done|]. split_and!.
  - eapply vframe_trans; [|exact F]. apply vframe_kmem, Hg.
  - eapply same_outside_trans; [|by eapply grows_outside|exact O]. done.
  - done.
  - intros v f Hv Hf. eapply agree_trans; [|by eapply A]. eapply grows_agree; eauto.
    apply Hsub. eauto with xv6.
  - intros va Hva Hv. by rewrite E, Hpte.
Qed.

(** Adding one mapping is [keeps] for all other pages. *)
Lemma grows_keeps R dir tabs p ufr free s tabs' free' s' v :
  pgt_inv R dir tabs (p :: tpages ufr) free s -> ufr !! v = None ->
  grows R dir (p :: tpages ufr) tabs free s tabs' free' s' ->
  as_inv R dir tabs' (<[v := p]> ufr) free' s' ->
  (forall va, is_u32 va -> v <> va / PGSIZE ->
     pte_of (mem (vm s')) dir va = pte_of (mem (vm s)) dir va) ->
  keeps (fun v' => v' <> v) R dir ufr s tabs' (<[v := p]> ufr) free' s'.
Proof.
  intros H Hn Hg Has Hpte. split; [done|]. split_and!.
  - apply vframe_kmem, Hg.
  - by eapply grows_outside.
  - intros v' Hne. by rewrite lookup_insert_ne.
  - intros v' f Hne Hf. eapply grows_agree; eauto. right. eauto with xv6.
  - intros va Hva Hne. by apply Hpte, not_eq_sym.
Qed.

(** A page set aside is freed at the end. *)
Lemma keeps_kfree P R R' dir ufr s tabs' ufr' free' s' p e :
  R ≡ₚ p :: R' -> p ∉ R' -> is_page (l_end (link s)) p ->
  keeps P R' dir ufr s tabs' ufr' free' s' ->
  exists s2, kfree p e s' = Ret tt e s2 /\ keeps P R dir ufr s tabs' ufr' (p :: free') s2.
Proof.
  intros HR Hp Hpp ((K & Hu & Hke) & F & O & U & A & E).
  assert (link s' = link s) as Hl by (by destruct F as (? & ? & ? & ? & -> & _)).
  assert (pgt_inv R dir tabs' (p :: tpages ufr') free' s') as H1.
  { eapply pgt_join; eauto. by rewrite Hl. }
  destruct (pgt_kfree _ _ _ _ _ _ _ e H1) as (s2 & Hrun & Hfr & Hout & H2).
  assert (forall va, pte_of (mem (vm s2)) dir va = pte_of (mem (vm s')) dir va) as Hpte.
  { intros va. eapply pte_of_outside; [exact H1|by apply kmem_frame_link|exact Hout|].
    intros q. in_list. }
  exists s2. split; [done|]. split; [split; [done|split]|split_and!].
  - eapply user_ok_update; [exact Hu|apply Hu|]. intros va _. left. by rewrite Hpte.
  - by rewrite (kmem_frame_link _ _ Hfr).
  - eapply vframe_trans; [exact F|by apply vframe_kmem].
  - eapply same_outside_trans; [|eapply same_outside_mono; [|exact O]|exact Hout].
    + rewrite HR. intros q. in_list.
    + rewrite HR. intros q. in_list.
  - done.
  - intros v f Hv Hf. eapply agree_trans; [by eapply A|].
    assert (f ∈ tpages ufr') as Hin by (apply (tab_in _ v); by rewrite U).
    assert (f ∈ R') as HfR by (rewrite <-(pi_perm _ _ _ _ _ _ K); revert Hin; in_list).
    eapply (outside_agree (l_end (link s')) [p]); [apply H1|exact Hout|..].
    + intros q Hq. eapply pgt_is_page; [exact H1|]. revert Hq Hin.
      rewrite elem_of_app, !list_elem_of_singleton. intros [ -> | -> ]; in_list.
    + by intros q ->%list_elem_of_singleton ->%list_elem_of_singleton.
  - intros va Hva Hv. by rewrite Hpte, E.
Qed.

Definition out_range (lo sz v : Z) : Prop := ~ (lo <= v /\ v * PGSIZE < sz).

Lemma shrunk_keeps R dir tabs ufr s lo sz free' s' free :
  as_inv R dir tabs ufr free s ->
  shrunk R dir tabs ufr s (drop_range lo sz ufr) free' s' ->
  keeps (out_range lo sz) R dir ufr s tabs (drop_range lo sz ufr) free' s'.
Proof.
  intros H0 (H & F & S & O & A & P). 
  assert (forall v, out_range lo sz v -> drop_range lo sz ufr !! v = ufr !! v) as Hd.
  { intros v Hv. rewrite lookup_drop_range. unfold out_range in Hv. goal_bools; done || lia. }
  split; [done|]. split_and!.
  - by apply vframe_kmem.
  - eapply same_outside_mono; [|exact O]. intros p Hp.
    rewrite <-(pi_perm _ _ _ _ _ _ (proj1 H0)). revert Hp. in_list.
  - done.
  - intros v f Hv Hf. eapply agree_mono; [|exact A]. intros q ->%list_elem_of_singleton.
    apply (tab_in _ v). by rewrite Hd.
  - intros va Hva Hv. apply P; auto.
Qed.

(** An allocated page filled with anything is a frame that is not mapped yet. *)
Lemma new_frame R dir tabs ufr p free s s1 m' :
  as_inv R dir tabs ufr (p :: free) s -> kmem_frame s s1 -> mem (vm s1) = mem (vm s) ->
  pgt_inv R dir tabs (p :: tpages ufr) free s1 -> same_outside [p] (mem (vm s)) m' ->
  let s2 := s1 <| vm ::= fun w => w <| mem := m' |> |> in
  kmem_frame s s2 /\ pgt_inv R dir tabs (p :: tpages ufr) free s2 /\ user_ok m' dir ufr /\
  forall va, pte_of m' dir va = pte_of (mem (vm s)) dir va.
Proof.
  intros (_ & Hu & _) Hfr Hm H1 Hout s2. rewrite <-Hm in Hout.
  assert (forall va, pte_of m' dir va = pte_of (mem (vm s)) dir va) as Hpte.
  { intros va. rewrite <-Hm.
    pose proof (pte_of_outside _ _ _ _ _ s1 s2 [p] va H1 eq_refl Hout) as Hx. apply Hx.
    intros q. in_list. }
  split; [eapply kmem_frame_trans; [exact Hfr|apply kmem_frame_mem]|].
  split; [eapply pgt_write; [exact H1|in_list|done]|]. split; [|done].
  eapply user_ok_update; [exact Hu|apply Hu|]. intros va _. left. by rewrite Hpte.
Qed.

(** The pages of the failed call: everything from the old size on is unmapped again. *)
Section allocuvm.
  Context (dir oldsz newsz : Z) (e : env).
  Hypothesis Hold : 0 <= oldsz.
  Hypothesis Hnew : newsz < KERNBASE.
Let lo := (oldsz + PGSIZE - 1) / PGSIZE.

Lemma as_inv_talk R tabs ufr free s s' :
  talk s s' -> as_inv R dir tabs ufr free s -> as_inv R dir tabs ufr free s'.
Proof.
  intros Ht (H & Hu & Hke). destruct (talk_pgt _ _ _ _ _ _ _ Ht H) as (H' & Hv & Hl).
  split; [done|]. by rewrite Hv, Hl.
Qed.

Lemma out_of_memory R fmt text tabs ufr free s :
  render (str fmt) [] = Some text -> as_inv R dir tabs ufr free s -> can_print s ->
  exists s1 free' s', cprintf fmt [] e s = Ret tt e s1 /\
    deallocuvm dir newsz oldsz e s1 = Ret (Z.min newsz oldsz) e s' /\
    keeps (out_range lo newsz) R dir ufr s tabs (drop_range lo newsz ufr) free' s'.
Proof.
  intros Hr H (Hc & Hok & Hf).
  destruct (talk_cprintf fmt [] text e s) as (s1 & Hrun & Ht); [done..|].
  pose proof (as_inv_talk _ _ _ _ _ _ Ht H) as H1.
  destruct (deallocuvm_spec _ _ _ _ _ _ newsz oldsz e H1) as (free' & s' & Hrun' & Hs); [lia..|].
  exists s1, free', s'. split; [done|]. split; [done|].
  destruct (talk_pgt _ _ _ _ _ _ _ Ht (proj1 H)) as (_ & Hv & _).
  apply (keeps_from _ _ _ _ _ s1); [by apply vframe_talk|by rewrite Hv|].
  by eapply shrunk_keeps.
Qed.

Lemma drop_range_insert v p (ufr : gmap Z Z) :
  lo <= v -> v * PGSIZE < newsz -> drop_range lo newsz (<[v := p]> ufr) = drop_range lo newsz ufr.
Proof.
  intros Hv Hn. apply map_eq. intros w. rewrite !lookup_drop_range.
  destruct (decide (v = w)) as [<-|]; [|by rewrite lookup_insert_ne].
  goal_bools; done || lia.
Qed.

(** A page that is mapped writable for the user and holds zeroes. *)
Definition fresh_at (ufr : gmap Z Z) (s : kstate) (v : Z) : Prop :=
  exists f, ufr !! v = Some f /\ zero_page (mem (vm s)) f /\
    forall va, is_u32 va -> va / PGSIZE = v -> pte_of (mem (vm s)) dir va = V2P f + 7.

(** kalloc and memset: a zeroed frame that is not mapped yet. *)
Lemma zeroed_frame R tabs ufr p free s :
  as_inv R dir tabs ufr (p :: free) s ->
  exists s', (m ← kalloc ; memset_page m 0 ;; ret m) e s = Ret p e s' /\ p <> 0 /\
    kmem_frame s s' /\ same_outside [p] (mem (vm s)) (mem (vm s')) /\ zero_page (mem (vm s')) p /\
    pgt_inv R dir tabs (p :: tpages ufr) free s' /\ user_ok (mem (vm s')) dir ufr /\
    forall va, pte_of (mem (vm s')) dir va = pte_of (mem (vm s)) dir va.
Proof.
  intros H. destruct (pgt_kalloc _ _ _ _ _ _ e (proj1 H)) as (s1 & Hrun & Hfr & Hm & Hp0 & Hp & H1).
  assert (V2P p mod PGSIZE = 0) as Hal by (eapply V2P_aligned; [apply H|done]).
  set (m' := fill 1024 (V2P p / 4) 0 (mem (vm s))).
  assert (same_outside [p] (mem (vm s)) m') as Hout.
  { intros a Ha. apply fill_outside; [done|]. apply Ha. left. }
  destruct (new_frame _ _ _ _ _ _ _ _ m' H Hfr Hm H1 Hout) as (Hfr2 & H2 & Hu2 & Hpte).
  exists (s1 <| vm ::= fun w => w <| mem := m' |> |>). split.
  { erewrite bind_Ret by exact Hrun. unfold memset_page, set_vm. prim. unfold ret. f_equal.
    unfold upd; cbn. by rewrite Hm. }
  split_and!; try done. intros i Hi. cbn. apply fill_inside; [done|]. unfold in_page, PGSIZE. lia.
Qed.

Lemma bind_3 {A B} (m : M A) (k : A -> M unit) (f : A -> M B) s a s' :
  (x ← m ; k x ;; ret x) e s = Ret a e s' -> (x ← m ; k x ;; f x) e s = f a e s'.
Proof.
  unfold bind. destruct (m e s) as [x e1 s1|?|?|?|?|]; try done.
  destruct (k x e1 s1) as [[] e2 s2|?|?|?|?|]; try done. by intros [= -> -> ->].
Qed.

(** No page left for the frame, or for a page table. *)
Lemma turn_no_frame R tabs ufr s a :
  as_inv R dir tabs ufr [] s -> can_print s -> a < newsz ->
  exists free' s', keeps (out_range lo newsz) R dir ufr s tabs (drop_range lo newsz ufr) free' s' /\
    forall fuel, allocuvm_loop (S fuel) dir a oldsz newsz e s = Ret 0 e s'.
Proof.
  intros H Hcp Ha. destruct (pgt_kalloc _ _ _ _ _ _ e (proj1 H)) as (s1 & Hrun & Hfr & Hm & H1).
  edestruct (out_of_memory R "allocuvm out of memory
") as (s2 & free' & s' & Hrun2 & Hrun3 & Hk); [reflexivity|..].
  { destruct H as (_ & Hu & Hke). split; [exact H1|]. by rewrite Hm, (kmem_frame_link _ _ Hfr). }
  { eapply can_print_vframe; [|done]. by apply vframe_kmem. }
  exists free', s'. split; [by eapply keeps_from; [apply vframe_kmem|..]|].
  intros fuel. cbn [allocuvm_loop]. rewrite (proj2 (Z.ltb_lt a newsz)) by lia.
  erewrite bind_Ret by exact Hrun. cbn [head default Z.eqb].
  erewrite bind_Ret by exact Hrun2. by erewrite bind_Ret by exact Hrun3.
Qed.

Lemma turn_frame R tabs ufr p free s a :
  as_inv R dir tabs ufr (p :: free) s -> can_print s -> a mod PGSIZE = 0 ->
  oldsz <= a < newsz -> ufr !! (a / PGSIZE) = None ->
  exists tabs' ufr' free' s',
    (keeps (fun v => v <> a / PGSIZE) R dir ufr s tabs' ufr' free' s' /\ fresh_at ufr' s' (a / PGSIZE) /\ tabs ⊆ tabs' /\
     drop_range lo newsz ufr' = drop_range lo newsz ufr /\
     forall fuel, allocuvm_loop (S fuel) dir a oldsz newsz e s =
                  allocuvm_loop fuel dir (a + PGSIZE) oldsz newsz e s') \/
    (keeps (out_range lo newsz) R dir ufr s tabs' (drop_range lo newsz ufr) free' s' /\
     (length R <= 1026 + size ufr)%nat /\ tabs ⊆ tabs' /\
     forall fuel, allocuvm_loop (S fuel) dir a oldsz newsz e s = Ret 0 e s').
Proof.
  intros H Hcp Hal Ha Hnone. assert (0 <= a < KERNBASE) as Ha' by lia.
  destruct (zeroed_frame _ _ _ _ _ _ H) as (s1 & Hrun & Hp0 & Hfr & Hout & Hz & H1 & Hu1 & Hpte1).
  destruct (map_frame _ _ _ _ _ _ _ a (Z.lor PTE_W PTE_U) e H1 Hu1)
    as (r & s2 & tabs2 & free2 & Hrun2 & Hg & Hr); try done.
  { rewrite (kmem_frame_link _ _ Hfr). apply H. }
  assert (forall k, (m ← kalloc ; if m =? 0 then
      cprintf "allocuvm out of memory
" [] ;; deallocuvm dir newsz oldsz ;; ret 0
      else memset_page m 0 ;; k m) e s = k p e s1) as Hrun'.
  { intros k. revert Hrun. unfold bind. destruct (kalloc e s) as [m e1 s1'|?|?|?|?|]; try done.
    destruct (memset_page m 0 e1 s1') as [[] e2 s2'|?|?|?|?|] eqn:Hms; try done.
    intros [= -> -> ->]. rewrite (proj2 (Z.eqb_neq _ _) Hp0). by rewrite Hms. }
  assert (u32 (a + PGSIZE) = a + PGSIZE) as Hu32.
  { apply u32_small. unfold is_u32, KERNBASE, PGSIZE in *. lia. }
  destruct Hr as [(-> & H2 & Hpte2)|(-> & -> & Hu2 & Hpte2)].
  - pose proof (grows_agree _ _ _ _ _ _ _ _ _ p H1 Hg ltac:(left)) as Hag.
    exists tabs2, (<[a / PGSIZE := p]> ufr), free2, s2. left. split_and!.
    + apply (keeps_from_frame _ _ _ tabs p ufr free s s1); auto with xv6.
      eapply grows_keeps; eauto. intros va Hva Hne. rewrite Hpte2 by done.
      by rewrite (proj2 (Z.eqb_neq _ _) Hne).
    + exists p. split; [apply lookup_insert_eq|]. split.
      * intros i Hi. rewrite (Hag p); [by apply Hz|left|]. unfold in_page, PGSIZE. lia.
      * intros va Hva E. by rewrite Hpte2, E, Z.eqb_refl.
    + apply Hg.
    + apply drop_range_insert; unfold lo, PGSIZE in *; Z.div_mod_to_equations; lia.
    + intros fuel. cbn [allocuvm_loop]. rewrite (proj2 (Z.ltb_lt a newsz)) by lia.
      rewrite Hrun'. erewrite bind_Ret by exact Hrun2.
      change (0 <? 0) with false. by rewrite Hu32.
  - destruct (pgt_split _ _ _ _ _ _ _ (proj1 Hg)) as (R' & HR & HpR & Hpp & H2).
    assert (link s2 = link s) as Hl2.
    { rewrite (kmem_frame_link s1 s2) by apply Hg. by apply kmem_frame_link. }
    edestruct (out_of_memory R' "allocuvm out of memory (2)
") as (s3 & free4 & s4 & Hrun3 & Hrun4 & Hk4); [reflexivity|..].
    { split; [exact H2|]. split; [done|]. rewrite Hl2. apply H. }
    { eapply can_print_vframe, Hcp. eapply vframe_trans; [by apply vframe_kmem|].
      apply vframe_kmem, Hg. }
    destruct (keeps_kfree _ _ _ _ _ _ _ _ _ _ _ e HR HpR Hpp Hk4) as (s5 & Hrun5 & Hk5).
    exists tabs2, ∅, (p :: free4), s5. right. split_and!.
    + apply (keeps_from_frame _ _ _ tabs p ufr free s s1); auto with xv6.
      apply (keeps_from_grows _ _ _ _ _ _ _ _ _ _ _ _ _ _ _ H1 Hg); [|done|done].
      intros q. in_list.
    + destruct (pgt_length _ _ _ _ _ _ (proj1 Hg)) as [-> ?]. cbn. rewrite length_tpages. lia.
    + apply Hg.
    + intros fuel. cbn [allocuvm_loop]. rewrite (proj2 (Z.ltb_lt a newsz)) by lia.
      rewrite Hrun'. erewrite bind_Ret by exact Hrun2. change (-1 <? 0) with true. cbv iota.
      erewrite bind_Ret by exact Hrun3. erewrite bind_Ret by exact Hrun4.
      by erewrite bind_Ret by exact Hrun5.
Qed.

Lemma allocuvm_turn R tabs ufr free s a :
  as_inv R dir tabs ufr free s -> can_print s -> a mod PGSIZE = 0 ->
  oldsz <= a < newsz -> ufr !! (a / PGSIZE) = None ->
  exists tabs' ufr' free' s',
    (keeps (fun v => v <> a / PGSIZE) R dir ufr s tabs' ufr' free' s' /\ fresh_at ufr' s' (a / PGSIZE) /\ tabs ⊆ tabs' /\
     drop_range lo newsz ufr' = drop_range lo newsz ufr /\
     forall fuel, allocuvm_loop (S fuel) dir a oldsz newsz e s =
                  allocuvm_loop fuel dir (a + PGSIZE) oldsz newsz e s') \/
    (keeps (out_range lo newsz) R dir ufr s tabs' (drop_range lo newsz ufr) free' s' /\
     (length R <= 1026 + size ufr)%nat /\ tabs ⊆ tabs' /\
     forall fuel, allocuvm_loop (S fuel) dir a oldsz newsz e s = Ret 0 e s').
Proof.
  intros H Hcp Hal Ha Hnone. destruct free as [|p free]; [|by eapply turn_frame].
  destruct (turn_no_frame R tabs ufr s a) as (free' & s' & Hk & Hrun); [done|done|lia|].
  exists tabs, ∅, free', s'. right. split; [done|]. split; [|by split].
  destruct (pgt_length _ _ _ _ _ _ (proj1 H)) as [-> ?]. rewrite length_tpages. cbn. lia.
Qed.

Lemma allocuvm_loop_spec (n : nat) R tabs ufr free s a :
  as_inv R dir tabs ufr free s -> can_print s -> a mod PGSIZE = 0 -> oldsz <= a ->
  newsz <= a + Z.of_nat n * PGSIZE ->
  (forall v, a / PGSIZE <= v -> v * PGSIZE < newsz -> ufr !! v = None) ->
  exists tabs' ufr' free' s',
    (keeps (out_range (a / PGSIZE) newsz) R dir ufr s tabs' ufr' free' s' /\
     (forall v, a / PGSIZE <= v -> v * PGSIZE < newsz -> fresh_at ufr' s' v) /\
     tabs ⊆ tabs' /\ allocuvm_loop (S n) dir a oldsz newsz e s = Ret newsz e s') \/
    (keeps (out_range lo newsz) R dir ufr s tabs' (drop_range lo newsz ufr) free' s' /\
     Z.of_nat (length R) <= 1025 + Z.of_nat (size ufr) + (newsz - a + PGSIZE - 1) / PGSIZE /\
     tabs ⊆ tabs' /\ allocuvm_loop (S n) dir a oldsz newsz e s = Ret 0 e s').
Proof.
  revert tabs ufr free s a. induction n as [|n IH]; intros tabs ufr free s a H Hcp Hal Ha Hn Hnone.
  all: assert (a / PGSIZE * PGSIZE = a) as Hdiv by (unfold PGSIZE in *; Z.div_mod_to_equations; lia).
  all: destruct (Z.ltb_spec a newsz) as [Hlt|Hge].
  2,4: exists tabs, ufr, free, s; left; split; [by apply keeps_refl|]; split_and!;
    [intros v Hv1 Hv2; unfold PGSIZE in *; lia|done
    |cbn [allocuvm_loop]; by rewrite (proj2 (Z.ltb_ge a newsz)) by lia].
  { lia. }
  destruct (allocuvm_turn R tabs ufr free s a) as (tabs1 & ufr1 & free1 & s1 & [Hok|Hbad]); try done.
  { apply Hnone; [lia|]. lia. }
  2:{ exists tabs1, ∅, free1, s1. right. destruct Hbad as (Hk & HR & Ht & Hrun). rewrite Hrun.
      split_and!; try done. unfold PGSIZE. Z.div_mod_to_equations; lia. }
  destruct Hok as (Hk & Hfresh & Ht & Hdrop & Hrun). pose proof Hk as (H1 & Hvf & _ & HU & _).
  assert ((a + PGSIZE) / PGSIZE = a / PGSIZE + 1) as Hnext.
  { unfold PGSIZE in *. Z.div_mod_to_equations; lia. }
  destruct (IH tabs1 ufr1 free1 s1 (a + PGSIZE)) as (tabs2 & ufr2 & free2 & s2 & Hr); try done.
  { by eapply can_print_vframe. }
  { unfold PGSIZE in *. Z.div_mod_to_equations; lia. }
  1,2: unfold PGSIZE in *; lia.
  { intros v Hv1 Hv2. rewrite Hnext in Hv1. rewrite HU by lia. apply Hnone; lia. }
  exists tabs2, ufr2, free2, s2. rewrite Hnext in Hr. rewrite Hrun.
  destruct Hr as [(Hk2 & Hf2 & Ht2 & Hrun2)|(Hk2 & HR & Ht2 & Hrun2)]; [left|right]; split_and!;
    try done; try by etrans.
  - eapply keeps_trans; eapply keeps_mono; [|exact Hk| |exact Hk2]; unfold out_range;
      intros v Hv; [|lia]. intros ->. lia.
  - intros v Hv1 Hv2. destruct (decide (v = a / PGSIZE)) as [->|]; [|apply Hf2; lia].
    destruct Hfresh as (f & Hf & Hz & Hp). destruct Hk2 as (_ & _ & _ & U2 & A2 & E2).
    exists f. split; [rewrite U2; [done|unfold out_range; lia]|]. split.
    + intros i Hi. rewrite (A2 (a / PGSIZE) f) with (p := f); [by apply Hz|unfold out_range; lia|done|left|].
      unfold in_page, PGSIZE. lia.
    + intros va Hva E. rewrite E2 by (done || rewrite E; unfold out_range; lia). by apply Hp.
  - rewrite <-Hdrop. eapply keeps_trans; [|exact Hk2].
    eapply keeps_mono; [|exact Hk]. intros v Hv ->. apply Hv.
    split; [unfold lo, PGSIZE in *; Z.div_mod_to_equations; lia|lia].
  - pose proof (size_one_more _ _ _ HU). unfold PGSIZE in *. Z.div_mod_to_equations; lia.
Qed.

Lemma allocuvm_spec R tabs ufr free s :
  as_inv R dir tabs ufr free s -> can_print s -> oldsz <= newsz ->
  (forall v, lo <= v -> v * PGSIZE < newsz -> ufr !! v = None) ->
  exists r tabs' ufr' free' s', allocuvm dir oldsz newsz e s = Ret r e s' /\
    keeps (out_range lo newsz) R dir ufr s tabs' ufr' free' s' /\ tabs ⊆ tabs' /\
    ((r = newsz /\ forall v, lo <= v -> v * PGSIZE < newsz -> fresh_at ufr' s' v) \/
     (r = 0 /\ ufr' = ufr /\ Z.of_nat (length free) <= 1024 + (newsz - PGSIZE * lo + PGSIZE - 1) / PGSIZE)).
Proof.
  intros H Hcp Hle Hnone. unfold allocuvm.
  destruct (Z.leb_spec KERNBASE newsz); [lia|]. destruct (Z.ltb_spec newsz oldsz); [lia|].
  rewrite PGROUNDUP_eq by (unfold KERNBASE, PGSIZE in *; lia). fold lo.
  assert (PGSIZE * lo / PGSIZE = lo) as Hlo by (rewrite Z.mul_comm; by apply Z.div_mul).
  destruct (allocuvm_loop_spec (Z.to_nat (newsz / PGSIZE + 1)) R tabs ufr free s (PGSIZE * lo))
    as (tabs' & ufr' & free' & s' & Hr); try done.
  { unfold PGSIZE. Z.div_mod_to_equations; lia. }
  { unfold lo, PGSIZE. Z.div_mod_to_equations; lia. }
  { rewrite Z2Nat.id by (unfold PGSIZE; Z.div_mod_to_equations; lia).
    unfold lo, PGSIZE. Z.div_mod_to_equations; lia. }
  { by rewrite Hlo. }
  rewrite Hlo in Hr. destruct Hr as [(Hk & Hf & Ht & Hrun)|(Hk & HR & Ht & Hrun)].
  - exists newsz, tabs', ufr', free', s'. do 3 (split; [done|]). by left.
  - exists 0, tabs', ufr, free', s'. split; [done|].
    assert (drop_range lo newsz ufr = ufr) as Hd.
    { apply map_eq. intros v. rewrite lookup_drop_range. goal_bools; try done.
      symmetry. apply Hnone; lia. }
    rewrite Hd in Hk. do 2 (split; [done|]). right. split_and!; try done.
    destruct (pgt_length _ _ _ _ _ _ (proj1 H)) as [HRl _]. rewrite length_tpages in HRl. lia.
Qed.
End allocuvm.
