(* ===== verification/VmCopy.v ===== *)
(** * Copying an address space: copyuvm

    The child's pages come from the free list, the parent's are outside it.  On success every
    page of the parent below [sz] has a private copy in the child with the same flags; on
    failure every page taken is free again.  In both cases the parent is untouched. *)

From stdpp Require Import base list gmap strings fin_maps.
From S2P Require Import Prelude State Monad Spinlock Console Kalloc Str Vm VmProofs VmUser.
Open Scope Z_scope.

(** ** memmove of one page *)

Lemma stb_word (m : gmap Z Z) a b x : V2P a / 4 <> x / 4 -> word_at (stb m a b) x = word_at m x.
Proof. intros H. cbn. unfold set_byte, word_at. by rewrite lookup_insert_ne. Qed.

Lemma move_up_word (n : nat) (m : gmap Z Z) d s x :
  (forall j, 0 <= j < Z.of_nat n -> V2P (u32 (d + j)) / 4 <> x / 4) ->
  word_at (move_up m (u32 d) (u32 s) n) x = word_at m x.
Proof.
  revert m d s. induction n as [|n IH]; intros m d s H; [done|]. cbn [move_up].
  rewrite !u32_succ, IH.
  - apply stb_word. rewrite <-(Z.add_0_r d). apply H. lia.
  - intros j Hj. rewrite <-Z.add_assoc. apply H. lia.
Qed.

(** The page at [p] holds the bytes the page at [f] has in [m0]. *)
Definition copied (m0 m : gmap Z Z) (f p : Z) : Prop :=
  forall o, 0 <= o < PGSIZE -> byte_at m (V2P p + o) = byte_at m0 (V2P f + o).

Lemma page_bounds en v :
  KERNBASE <= en -> is_page en v -> v mod PGSIZE = 0 /\ KERNBASE <= v /\ v + PGSIZE < 2 ^ 32.
Proof.
  unfold is_page, KERNBASE, PHYSTOP, PGSIZE. intros Hen [Hal Hr].
  change (2 ^ 32) with 4294967296. lia.
Qed.

Lemma memmove_page en (m : gmap Z Z) p f :
  KERNBASE <= en -> is_page en p -> is_page en f -> p <> f ->
  same_outside [p] m (memmove m p f PGSIZE) /\ copied m (memmove m p f PGSIZE) f p.
Proof.
  intros Hen Hp Hf Hne.
  destruct (page_bounds _ _ Hen Hp) as (Hpal & Hp0 & Hp1).
  destruct (page_bounds _ _ Hen Hf) as (Hfal & Hf0 & Hf1).
  assert (u32 p = p /\ u32 f = f) as [Hup Huf].
  { split; apply u32_small; unfold is_u32, KERNBASE, PGSIZE in *; lia. }
  split.
  - intros x Hx. unfold memmove. rewrite (u32_small (f + PGSIZE)) by (unfold is_u32, KERNBASE, PGSIZE in *; lia).
    replace ((f <? p) && (p <? f + PGSIZE)) with false.
    2:{ symmetry. goal_bools; try done. unfold PGSIZE in *. Z.div_mod_to_equations; lia. }
    rewrite <-Hup, <-Huf, move_up_word; [done|]. intros j Hj E. apply (Hx p); [left|].
    rewrite (V2P_off _ _ _ Hen Hp) in E by (unfold PGSIZE in *; lia).
    pose proof (V2P_aligned _ _ Hen Hp). unfold in_page, PGSIZE in *. Z.div_mod_to_equations; lia.
  - intros o Ho.
    pose proof (memmove_bytes m p f PGSIZE (p + o)) as Hb. cbn [ldb kernel_mem] in Hb.
    assert (forall v, is_page en v -> V2P (v + o) = V2P v + o) as HV.
    { intros v Hv. destruct (page_bounds _ _ Hen Hv) as (_ & Hv0 & Hv1).
      rewrite <-(V2P_off _ v o Hen Hv Ho), u32_small; [done|]. unfold is_u32, KERNBASE, PGSIZE in *. lia. }
    rewrite HV in Hb by done. rewrite Hb.
    + replace (within p PGSIZE (p + o)) with true by (unfold within; goal_bools; done || lia).
      replace (p + o - p + f) with (f + o) by lia. by rewrite HV.
    + unfold block, KERNBASE, PGSIZE in *. lia.
    + unfold block, KERNBASE, PGSIZE in *. lia.
    + lia.
    + unfold is_addr, KERNBASE, PGSIZE in *. lia.
Qed.

Lemma copied_agree m0 m m' f p : copied m0 m f p -> agree [p] m m' -> copied m0 m' f p.
Proof.
  intros Hc Ha o Ho. rewrite <-(Hc o Ho). unfold byte_at. rewrite (Ha p); [done|left|].
  unfold in_page. lia.
Qed.

(** ** The loop of copyuvm

    [s0] is the state in which the copy begins; the child lives in the pages [Rc] that are free
    in it. *)
Section copy.
  Context (R : list Z) (pgdir : Z) (tabsP ufrP : gmap Z Z) (Rc : list Z) (s0 : kstate).
  Context (d sz : Z) (e : env).
  Hypothesis Hpar : as_inv R pgdir tabsP ufrP Rc s0.
  Hypothesis Hsz : sz <= KERNBASE.
  Hypothesis Hall : forall v, 0 <= v -> v * PGSIZE < sz -> is_Some (ufrP !! v).

Definition parent_view (s : kstate) : Prop :=
  link s = link s0 /\ same_outside Rc (mem (vm s0)) (mem (vm s)).

Lemma parent_page p :
  p ∈ pgdir :: tpages tabsP ++ tpages ufrP -> is_page (l_end (link s0)) p /\ p ∉ Rc.
Proof.
  intros Hp. split.
  - eapply pgt_is_page; [apply Hpar|]. revert Hp. in_list.
  - pose proof (pgt_nodup _ _ _ _ _ _ (proj1 Hpar)) as Hnd. rewrite app_assoc, app_comm_cons in Hnd.
    intros Hc. by apply (NoDup_apart _ _ _ _ Hnd Hp Hc).
Qed.

Lemma parent_agree s p :
  parent_view s -> p ∈ pgdir :: tpages tabsP ++ tpages ufrP -> agree [p] (mem (vm s0)) (mem (vm s)).
Proof.
  intros [_ Ho] Hp. eapply outside_agree; [apply Hpar|exact Ho|..].
  - intros q. rewrite elem_of_app, list_elem_of_singleton. intros [Hq| ->]; [|by apply parent_page].
    eapply pgt_is_page; [apply Hpar|]. revert Hq. in_list.
  - intros q ->%list_elem_of_singleton. by apply parent_page.
Qed.

Lemma parent_pte s va :
  parent_view s ->
  dir_ok pgdir tabsP s /\ pte_of (mem (vm s)) pgdir va = pte_of (mem (vm s0)) pgdir va.
Proof.
  intros Hv. apply pte_of_frame; [eapply pgt_dir_ok, Hpar|apply Hv|].
  intros p a Hp Ha. refine (parent_agree s p Hv _ p a _ Ha); [revert Hp; in_list|left].
Qed.

(** Page [v] of the child is a copy of the parent's. *)
Definition copy_at (ufrC : gmap Z Z) (s : kstate) (v : Z) : Prop :=
  exists f p, ufrP !! v = Some f /\ ufrC !! v = Some p /\ copied (mem (vm s0)) (mem (vm s)) f p /\
    forall va, is_u32 va -> va / PGSIZE = v ->
      pte_of (mem (vm s)) d va = V2P p + PTE_FLAGS (pte_of (mem (vm s0)) pgdir va).

Lemma flags_of_entry w : has w PTE_P = true -> 0 <= PTE_FLAGS w < PGSIZE /\ Z.lor (PTE_FLAGS w) PTE_P = PTE_FLAGS w.
Proof.
  intros Hp. rewrite PTE_FLAGS_eq. assert (0 <= w mod PGSIZE < PGSIZE) as Hr by (by apply Z.mod_pos_bound).
  split; [done|]. apply Z.bits_inj'. intros n Hn. rewrite Z.lor_spec. unfold PTE_P.
  destruct (Z.eq_dec n 0) as [->|Hne].
  - rewrite has_P in Hp. unfold PGSIZE. change 4096 with (2 ^ 12).
    by rewrite Z.mod_pow2_bits_low, Hp by lia.
  - change 1 with (2 ^ 0). rewrite Z.pow2_bits_false by lia. apply orb_false_r.
Qed.

(** The parent's entry of the page at [i]. *)
Lemma parent_entry s i :
  parent_view s -> i mod PGSIZE = 0 -> 0 <= i -> i < sz ->
  exists f t, ufrP !! (i / PGSIZE) = Some f /\ f ∈ tpages ufrP /\
    walkpgdir pgdir i 0 e s = Ret (u32 (t + 4 * PTX i)) e s /\ u32 (t + 4 * PTX i) <> 0 /\
    kload (u32 (t + 4 * PTX i)) e s = Ret (pte_of (mem (vm s0)) pgdir i) e s /\
    has (pte_of (mem (vm s0)) pgdir i) PTE_P = true /\
    P2V (PTE_ADDR (pte_of (mem (vm s0)) pgdir i)) = f.
Proof.
  intros Hv Hal Hi0 Hi. destruct (parent_pte s i Hv) as [Hd Hpte].
  assert (0 <= i / PGSIZE) as Hv0 by (apply Z.div_pos; unfold PGSIZE; lia).
  destruct (Hall (i / PGSIZE)) as [f Hf]; [done|unfold PGSIZE in *; Z.div_mod_to_equations; lia|].
  pose proof (proj2 (proj1 (proj2 Hpar)) i ltac:(lia)) as Hu. rewrite Hf in Hu. destruct Hu as [HP HA].
  assert (f ∈ tpages ufrP) as Hin by eauto with xv6.
  pose proof (pte_of_tab _ _ _ i Hd) as Htab. rewrite Hpte in Htab.
  destruct (tabsP !! PDX i) as [t|] eqn:Ht.
  2:{ rewrite Htab in HP. done. }
  pose proof (PTX_range i).
  destruct (pte_nonzero _ _ _ _ _ (4 * PTX i) Hd Ht) as [Hu32 Hnz]; [unfold PGSIZE; lia|].
  exists f, t. split; [done|]. split; [done|]. split_and!.
  - by eapply walkpgdir_found.
  - congruence.
  - unfold kload, gets. rewrite (V2P_off _ _ _ (do_en _ _ _ Hd) (do_page _ _ _ Hd _ _ Ht)) by (unfold PGSIZE; lia).
    by rewrite Htab.
  - done.
  - rewrite HA. eapply P2V_V2P_page; [apply Hpar|].
    apply parent_page. revert Hin. in_list.
Qed.

Lemma vframe_link s s' : vframe s s' -> link s' = link s.
Proof. by intros (? & ? & ? & ? & -> & _). Qed.

Lemma parent_view_step s s' :
  parent_view s -> vframe s s' -> same_outside Rc (mem (vm s)) (mem (vm s')) -> parent_view s'.
Proof.
  intros [Hl Ho] Hf Ho'. split; [by rewrite (vframe_link _ _ Hf)|].
  by eapply same_outside_trans.
Qed.

(** Everything that fails leaves the child well-formed. *)
Definition failed (ufr : gmap Z Z) (s s' : kstate) : Prop :=
  exists tabs' free', as_inv Rc d tabs' ufr free' s' /\ vframe s s' /\
    same_outside Rc (mem (vm s)) (mem (vm s')).

Lemma turn_no_page tabs ufr s i :
  as_inv Rc d tabs ufr [] s -> parent_view s -> i mod PGSIZE = 0 -> 0 <= i -> i < sz ->
  exists s', failed ufr s s' /\ forall fuel, copyuvm_loop (S fuel) pgdir d i sz e s = Ret false e s'.
Proof.
  intros H Hv Hal Hi0 Hi.
  destruct (parent_entry s i Hv Hal Hi0 Hi) as (f & t & _ & _ & Hwalk & Hnz & Hload & HP & _).
  destruct (pgt_kalloc _ _ _ _ _ _ e (proj1 H)) as (s1 & Hrun & Hfr & Hm & H1).
  exists s1. split.
  - exists tabs, []. split; [|split; [by apply vframe_kmem|by rewrite Hm]].
    destruct H as (_ & Hu & Hke). split; [done|]. by rewrite Hm, (kmem_frame_link _ _ Hfr).
  - intros fuel. cbn [copyuvm_loop]. rewrite (proj2 (Z.ltb_lt i sz)) by lia.
    erewrite bind_Ret by exact Hwalk. rewrite (proj2 (Z.eqb_neq _ _) Hnz).
    erewrite bind_Ret by exact Hload. rewrite HP. cbn [negb]. cbn zeta.
    by erewrite bind_Ret by exact Hrun.
Qed.

Lemma turn_page_run tabs ufr p free s i :
  as_inv Rc d tabs ufr (p :: free) s -> parent_view s -> i mod PGSIZE = 0 -> 0 <= i -> i < sz ->
  exists f s1, ufrP !! (i / PGSIZE) = Some f /\ kmem_frame s s1 /\
    same_outside [p] (mem (vm s)) (mem (vm s1)) /\ copied (mem (vm s0)) (mem (vm s1)) f p /\
    pgt_inv Rc d tabs (p :: tpages ufr) free s1 /\ user_ok (mem (vm s1)) d ufr /\
    (forall va, pte_of (mem (vm s1)) d va = pte_of (mem (vm s)) d va) /\
    has (pte_of (mem (vm s0)) pgdir i) PTE_P = true /\
    forall fuel, copyuvm_loop (S fuel) pgdir d i sz e s =
      (r ← mappages d i PGSIZE (V2P p) (PTE_FLAGS (pte_of (mem (vm s0)) pgdir i)) ;
       if r <? 0 then kfree p ;; ret false
       else copyuvm_loop fuel pgdir d (u32 (i + PGSIZE)) sz) e s1.
Proof.
  intros H Hv Hal Hi0 Hi.
  destruct (parent_entry s i Hv Hal Hi0 Hi) as (f & t & Hf & Hin & Hwalk & Hnz & Hload & HP & HA).
  destruct (pgt_kalloc _ _ _ _ _ _ e (proj1 H)) as (s1 & Hrun & Hfr & Hm & Hp0 & Hpp & H1).
  assert (KERNBASE <= l_end (link s)) as Hen by apply H.
  assert (f ∈ pgdir :: tpages tabsP ++ tpages ufrP) as Hin' by (revert Hin; in_list).
  destruct (parent_page f Hin') as [Hfp HfR].
  assert (p <> f) as Hne.
  { intros ->. apply HfR. rewrite <-(pi_perm _ _ _ _ _ _ (proj1 H)). in_list. }
  destruct (memmove_page (l_end (link s)) (mem (vm s)) p f) as [Hout Hcp]; try done.
  { by rewrite (proj1 Hv). }
  destruct (new_frame _ _ _ _ _ _ _ _ _ H Hfr Hm H1 Hout) as (Hfr2 & H2 & Hu2 & Hpte).
  exists f. eexists. split; [done|]. split; [exact Hfr2|]. split; [done|]. split_and!; try done.
  - intros o Ho. cbn. rewrite (Hcp o Ho). unfold byte_at.
    rewrite (parent_agree s f Hv Hin' f); [done|left|]. unfold in_page. lia.
  - intros fuel. cbn [copyuvm_loop]. rewrite (proj2 (Z.ltb_lt i sz)) by lia.
    erewrite bind_Ret by exact Hwalk. rewrite (proj2 (Z.eqb_neq _ _) Hnz).
    erewrite bind_Ret by exact Hload. rewrite HP. cbn [negb]. cbn zeta.
    erewrite bind_Ret by exact Hrun. cbn [head default]. unfold id.
    rewrite (proj2 (Z.eqb_neq _ _) Hp0), HA. unfold kmemmove, set_vm.
    erewrite bind_Ret by reflexivity. cbv beta. rewrite <-Hm.
    unfold upd; cbn. done.
Qed.

Lemma same_page_entry i va :
  0 <= i < KERNBASE -> is_u32 va -> va / PGSIZE = i / PGSIZE ->
  pte_of (mem (vm s0)) pgdir va = pte_of (mem (vm s0)) pgdir i.
Proof.
  intros Hi Hva E. destruct (page_va i Hi) as [_ Hiu].
  apply (same_page va i Hva Hiu) in E as [E1 E2]. unfold pte_of. by rewrite E1, E2.
Qed.

Lemma copyuvm_turn tabs ufr free s i :
  as_inv Rc d tabs ufr free s -> parent_view s -> i mod PGSIZE = 0 -> 0 <= i -> i < sz ->
  ufr !! (i / PGSIZE) = None ->
  (exists tabs' ufr' free' s',
     keeps (fun v => v <> i / PGSIZE) Rc d ufr s tabs' ufr' free' s' /\
     copy_at ufr' s' (i / PGSIZE) /\
     forall fuel, copyuvm_loop (S fuel) pgdir d i sz e s =
                  copyuvm_loop fuel pgdir d (i + PGSIZE) sz e s') \/
  (exists s', failed ufr s s' /\ (length Rc <= 1026 + size ufr)%nat /\
     forall fuel, copyuvm_loop (S fuel) pgdir d i sz e s = Ret false e s').
Proof.
  intros H Hv Hal Hi0 Hi Hnone. destruct free as [|p free].
  { right. destruct (turn_no_page _ _ _ _ H Hv Hal Hi0 Hi) as (s' & Hf & Hrun).
    exists s'. split_and!; try done.
    destruct (pgt_length _ _ _ _ _ _ (proj1 H)) as [-> ?]. rewrite length_tpages. cbn. lia. }
  destruct (turn_page_run _ _ _ _ _ _ H Hv Hal Hi0 Hi)
    as (f & s1 & Hf & Hfr & Hout & Hcp & H1 & Hu1 & Hpte1 & HP & Hrun).
  destruct (flags_of_entry _ HP) as [Hfl Hlor].
  set (fl := PTE_FLAGS (pte_of (mem (vm s0)) pgdir i)) in *.
  destruct (map_frame _ _ _ _ _ _ _ i fl e H1 Hu1) as (r & s2 & tabs2 & free2 & Hrun2 & Hg & Hr);
    try done; try lia.
  { rewrite (kmem_frame_link _ _ Hfr). apply H. }
  pose proof (grows_agree _ _ _ _ _ _ _ _ _ p H1 Hg ltac:(left)) as Hag.
  destruct Hr as [(-> & H2 & Hpte2)|(-> & -> & Hu2 & Hpte2)].
  - left. exists tabs2, (<[i / PGSIZE := p]> ufr), free2, s2. split_and!.
    + apply (keeps_from_frame _ _ _ tabs p ufr free s s1); auto with xv6.
      eapply grows_keeps; eauto. intros va Hva Hne. rewrite Hpte2 by done.
      by rewrite (proj2 (Z.eqb_neq _ _) Hne).
    + exists f, p. split; [done|]. split; [apply lookup_insert_eq|]. split; [by eapply copied_agree|].
      intros va Hva E. rewrite Hpte2, E, Z.eqb_refl, Hlor by done.
      by rewrite (same_page_entry i va ltac:(lia) Hva E).
    + intros fuel. rewrite Hrun. erewrite bind_Ret by exact Hrun2. change (0 <? 0) with false. cbv iota.
      rewrite u32_small; [done|]. unfold is_u32, KERNBASE, PGSIZE in *. lia.
  - right. destruct (pgt_kfree _ _ _ _ _ _ _ e (proj1 Hg)) as (s3 & Hrun3 & Hfr3 & Hout3 & H3).
    assert (forall va, pte_of (mem (vm s3)) d va = pte_of (mem (vm s2)) d va) as Hpte3.
    { intros va. eapply pte_of_outside; [apply Hg|by apply kmem_frame_link|exact Hout3|].
      intros q. in_list. }
    assert (kmem_frame s s3) as Hfr'.
    { eapply kmem_frame_trans; [exact Hfr|]. eapply kmem_frame_trans; [apply Hg|exact Hfr3]. }
    assert ([p] ⊆ Rc) as HpR.
    { intros q ->%list_elem_of_singleton. rewrite <-(pi_perm _ _ _ _ _ _ H1). in_list. }
    exists s3. split_and!.
    + exists tabs2, [p]. split_and!; [split; [done|split]|by apply vframe_kmem|].
      * eapply user_ok_update; [exact Hu2|apply Hu2|]. intros va _. left. by rewrite Hpte3.
      * rewrite (kmem_frame_link _ _ Hfr'). apply H.
      * apply (same_outside_trans _ Rc _ (mem (vm s1))); [done|by apply (same_outside_mono _ [p])|].
        eapply (same_outside_trans _ [p]); [exact HpR|by eapply grows_outside|exact Hout3].
    + destruct (pgt_length _ _ _ _ _ _ (proj1 Hg)) as [-> ?]. cbn. rewrite length_tpages. lia.
    + intros fuel. rewrite Hrun. erewrite bind_Ret by exact Hrun2. change (-1 <? 0) with true. cbv iota.
      by erewrite bind_Ret by exact Hrun3.
Qed.

Lemma copyuvm_loop_spec (n : nat) tabs ufr free s i :
  as_inv Rc d tabs ufr free s -> parent_view s -> i mod PGSIZE = 0 -> 0 <= i ->
  sz <= i + Z.of_nat n * PGSIZE ->
  (forall v, i / PGSIZE <= v -> v * PGSIZE < sz -> ufr !! v = None) ->
  (exists tabs' ufr' free' s',
     keeps (out_range (i / PGSIZE) sz) Rc d ufr s tabs' ufr' free' s' /\
     (forall v, i / PGSIZE <= v -> v * PGSIZE < sz -> copy_at ufr' s' v) /\
     copyuvm_loop (S n) pgdir d i sz e s = Ret true e s') \/
  (exists ufr' s', failed ufr' s s' /\
     Z.of_nat (length Rc) <= 1025 + Z.of_nat (size ufr) + (sz - i + PGSIZE - 1) / PGSIZE /\
     copyuvm_loop (S n) pgdir d i sz e s = Ret false e s').
Proof.
  revert tabs ufr free s i. induction n as [|n IH]; intros tabs ufr free s i H Hv Hal Hi0 Hn Hnone.
  all: assert (i / PGSIZE * PGSIZE = i) as Hdiv by (unfold PGSIZE in *; Z.div_mod_to_equations; lia).
  all: destruct (Z.ltb_spec i sz) as [Hlt|Hge].
  2,4: left; exists tabs, ufr, free, s; split; [by apply keeps_refl|]; split;
    [intros v Hv1 Hv2; unfold PGSIZE in *; lia
    |cbn [copyuvm_loop]; by rewrite (proj2 (Z.ltb_ge i sz)) by lia].
  { lia. }
  destruct (copyuvm_turn _ _ _ _ i H Hv Hal Hi0 Hlt)
    as [(tabs1 & ufr1 & free1 & s1 & Hk & Hc & Hrun)|(s1 & Hbad & HR & Hrun)]; [apply Hnone; lia| |].
  2:{ right. exists ufr, s1. rewrite Hrun. split_and!; try done.
      unfold PGSIZE. Z.div_mod_to_equations; lia. }
  pose proof Hk as (H1 & Hvf & Hout & HU & _).
  assert ((i + PGSIZE) / PGSIZE = i / PGSIZE + 1) as Hnext.
  { unfold PGSIZE in *. Z.div_mod_to_equations; lia. }
  pose proof (parent_view_step _ _ Hv Hvf Hout) as Hv1.
  destruct (IH tabs1 ufr1 free1 s1 (i + PGSIZE) H1 Hv1) as [Hr|Hr];
    try (unfold PGSIZE in *; Z.div_mod_to_equations; lia).
  { intros v Hv2 Hv3. rewrite Hnext in Hv2. rewrite HU by lia. apply Hnone; lia. }
  - left. rewrite Hnext in Hr. destruct Hr as (tabs2 & ufr2 & free2 & s2 & Hk2 & Hc2 & Hrun2).
    exists tabs2, ufr2, free2, s2. rewrite Hrun. split; [|split; [|done]].
    + eapply keeps_trans; eapply keeps_mono; [|exact Hk| |exact Hk2]; unfold out_range;
        intros v Hv2; [|lia]. intros ->. lia.
    + intros v Hv2 Hv3. destruct (decide (v = i / PGSIZE)) as [->|]; [|apply Hc2; lia].
      destruct Hc as (f & p & Hf & Hp & Hcp & Hpte). destruct Hk2 as (_ & _ & _ & U2 & A2 & E2).
      assert (out_range (i / PGSIZE + 1) sz (i / PGSIZE)) as Hor by (unfold out_range; lia).
      exists f, p. split; [done|]. split; [by rewrite U2|]. split.
      * eapply copied_agree; [done|]. by eapply A2.
      * intros va Hva E. rewrite E2 by (done || by rewrite E). by apply Hpte.
  - right. destruct Hr as (ufr2 & s2 & (tabs' & free' & Hf1 & Hf2 & Hf3) & HR & Hrun2).
    exists ufr2, s2. rewrite Hrun. split_and!; [|pose proof (size_one_more _ _ _ HU);
      unfold PGSIZE in *; Z.div_mod_to_equations; lia|done].
    exists tabs', free'. split; [done|].
    split; [by eapply vframe_trans|by eapply same_outside_trans].
Qed.
End copy.

(** copyuvm of an address space that maps all pages below [sz]. *)
Lemma copyuvm_spec R pgdir tabs ufr free s sz e :
  as_inv R pgdir tabs ufr free s -> link_ok (link s) -> 0 <= sz <= KERNBASE ->
  (forall v, 0 <= v -> v * PGSIZE < sz -> is_Some (ufr !! v)) ->
  exists d s', copyuvm pgdir sz e s = Ret d e s' /\ vframe s s' /\
    same_outside free (mem (vm s)) (mem (vm s')) /\
    ((d = 0 /\ Z.of_nat (length free) <= 1025 + (sz + PGSIZE - 1) / PGSIZE /\
      exists free', kmem_inv s' free' /\ kmem_ready s' /\ free' ≡ₚ free) \/
     (exists tabs' ufr' free', as_inv free d tabs' ufr' free' s' /\
        (forall v, 0 <= v -> v * PGSIZE < sz -> copy_at pgdir ufr s d ufr' s' v) /\
        (forall v, sz <= v * PGSIZE -> ufr' !! v = None) /\
        forall va, is_u32 va -> KERNBASE <= va ->
          pte_of (mem (vm s')) d va = kmap_pte (kmap (link s)) va 0)).
Proof.
  intros H Hlk Hsz Hall. pose proof H as (Hp & _ & Hke).
  destruct (setupkvm_spec free s e (pi_mem _ _ _ _ _ _ Hp) (pi_ready _ _ _ _ _ _ Hp) Hke Hlk)
    as (d & s1 & Hrun1 & Hfr1 & Hout1 & [(-> & Hn1 & Hfail)|(tabs1 & free1 & H1 & Hk1)]);
    unfold copyuvm; erewrite bind_Ret by exact Hrun1.
  { exists 0, s1. split; [done|]. split; [by apply vframe_kmem|]. split; [done|]. left.
    split_and!; try done. unfold PGSIZE. Z.div_mod_to_equations; lia. }
  assert (d <> 0) as Hd0.
  { pose proof (pgt_dir_ok _ _ _ _ _ _ (proj1 H1)) as Hd. pose proof (do_dir _ _ _ Hd).
    pose proof (do_en _ _ _ Hd). unfold is_page, KERNBASE in *. lia. }
  rewrite (proj2 (Z.eqb_neq _ _) Hd0).
  assert (parent_view free s s1) as Hv by (split; [by apply kmem_frame_link|done]).
  destruct (copyuvm_loop_spec R pgdir tabs ufr free s d sz e H ltac:(lia) Hall
              (Z.to_nat (sz / PGSIZE + 1)) tabs1 ∅ free1 s1 0 H1 Hv)
    as [(tabs2 & ufr2 & free2 & s2 & Hk2 & Hc2 & Hrun2)|(ufr2 & s2 & (tabs2 & free2 & H2 & Hf2 & Ho2) & HR & Hrun2)];
    try done.
  { rewrite Z2Nat.id by (unfold PGSIZE; Z.div_mod_to_equations; lia).
    unfold PGSIZE. Z.div_mod_to_equations; lia. }
  - erewrite bind_Ret by exact Hrun2. exists d, s2. destruct Hk2 as (H2 & F2 & O2 & U2 & _ & E2).
    split; [done|]. split; [eapply vframe_trans; [by apply vframe_kmem|done]|].
    split; [by eapply same_outside_trans|]. right. exists tabs2, ufr2, free2. split; [done|].
    change (0 / PGSIZE) with 0 in *. split_and!.
    + intros v Hv0 Hv1. by apply Hc2.
    + intros v Hv1. rewrite U2 by (unfold out_range; lia). done.
    + intros va Hva Hva'. rewrite E2; [by apply Hk1|done|].
      unfold out_range, KERNBASE, PGSIZE in *. Z.div_mod_to_equations; lia.
  - erewrite bind_Ret by exact Hrun2.
    destruct (freevm_spec _ _ _ _ _ _ e H2) as (free3 & s3 & Hrun3 & Hi3 & Hr3 & Hf3 & HP3 & Ho3).
    exists 0, s3. erewrite bind_Ret by exact Hrun3. split; [done|]. split.
    { eapply vframe_trans; [by apply vframe_kmem|]. eapply vframe_trans; [done|by apply vframe_kmem]. }
    rewrite map_size_empty, Z.add_0_r, Z.sub_0_r in HR.
    split; [|left; eauto 10]. eapply same_outside_trans; [|exact Hout1|]; [done|].
    by eapply same_outside_trans.
Qed.
