(* ===== verification/Umem.v ===== *)
(** * Kernel accesses to user memory

    Kernel code dereferences user pointers through the current page table.  [ubuf v va pas]
    describes a writable user buffer at [va] by the physical addresses [pas] of its bytes; the
    lemmas below give loops of loads and stores over such a buffer as list operations. *)

From stdpp Require Import base list gmap strings fin_maps.
From S2P Require Import Prelude State Monad Spinlock Console Kalloc Str Vm VmProofs VmUser.
Open Scope Z_scope.

(** [n] bytes at the user address [va], and a list of bytes stored there. *)
Fixpoint uloads (n : nat) (va : Z) : M (list Z) :=
  match n with
  | O => ret []
  | S n => b ← uload8 va ; bs ← uloads n (u32 (va + 1)) ; ret (b :: bs)
  end.

Fixpoint ustores (va : Z) (bs : list Z) : M unit :=
  match bs with
  | [] => ret tt
  | b :: bs => ustore8 va b ;; ustores (u32 (va + 1)) bs
  end.

(** ** Bytes of physical memory *)

Lemma byte_at_set m pa b pa' :
  byte_at (set_byte m pa b) pa' = if pa =? pa' then u8 b else byte_at m pa'.
Proof.
  unfold byte_at, set_byte, word_at at 1.
  destruct (decide (pa / 4 = pa' / 4)) as [E|E].
  - rewrite E, lookup_insert_eq. cbn. rewrite get_put_byte by (apply Z.mod_pos_bound; lia).
    unfold word_at. rewrite E.
    destruct (Z.eqb_spec (pa mod 4) (pa' mod 4)), (Z.eqb_spec pa pa'); try done;
      exfalso; Z.div_mod_to_equations; lia.
  - rewrite lookup_insert_ne by done. destruct (Z.eqb_spec pa pa'); [congruence|done].
Qed.

Lemma word_at_set m pa b a : pa / 4 <> a / 4 -> word_at (set_byte m pa b) a = word_at m a.
Proof. intros H. unfold word_at, set_byte. by rewrite lookup_insert_ne. Qed.

Fixpoint set_bytes (m : gmap Z Z) (pas bs : list Z) : gmap Z Z :=
  match pas, bs with
  | pa :: pas, b :: bs => set_bytes (set_byte m pa b) pas bs
  | _, _ => m
  end.

Lemma set_bytes_out m pas bs pa : pa ∉ pas -> byte_at (set_bytes m pas bs) pa = byte_at m pa.
Proof.
  revert m bs. induction pas as [|p pas IH]; intros m [|b bs] Hp; try done. cbn.
  apply not_elem_of_cons in Hp as [Hne Hp]. rewrite IH, byte_at_set by done.
  destruct (Z.eqb_spec p pa); [congruence|done].
Qed.

Lemma set_bytes_in m pas bs :
  NoDup pas -> length bs = length pas ->
  (fun pa => byte_at (set_bytes m pas bs) pa) <$> pas = u8 <$> bs.
Proof.
  revert m bs. induction pas as [|p pas IH]; intros m [|b bs] Hnd Hl; try done.
  apply NoDup_cons in Hnd as [Hp Hnd]. cbn. f_equal.
  - by rewrite set_bytes_out, byte_at_set, Z.eqb_refl.
  - apply IH; [done|]. by injection Hl.
Qed.

Lemma set_bytes_word m pas bs a :
  (forall pa, pa ∈ pas -> pa / 4 <> a / 4) -> word_at (set_bytes m pas bs) a = word_at m a.
Proof.
  revert m bs. induction pas as [|p pas IH]; intros m [|b bs] H; try done. cbn.
  rewrite IH by (intros; apply H; by right). apply word_at_set, H. left.
Qed.

(** ** User buffers *)

(** The translation of [va] does not read the word at physical address [pa]. *)
Definition clear_of (m : gmap Z Z) (dir va pa : Z) : Prop :=
  pa / 4 <> (dir + 4 * PDX va) / 4 /\
  pa / 4 <> (PTE_ADDR (word_at m (dir + 4 * PDX va)) + 4 * PTX va) / 4.

Lemma xlate_set m dir va pa b :
  clear_of m dir va pa ->
  xlate (set_byte m pa b) dir va = xlate m dir va /\
  forall pa', clear_of m dir va pa' -> clear_of (set_byte m pa b) dir va pa'.
Proof.
  intros [H1 H2]. unfold xlate, clear_of. rewrite (word_at_set _ pa b (dir + 4 * PDX va)) by done.
  split; [|done]. destruct (has _ PTE_P); [|done]. by rewrite word_at_set.
Qed.

Definition ubuf (v : vmst) (va : Z) (pas : list Z) : Prop :=
  NoDup pas /\
  forall i pa, pas !! i = Some pa ->
    xlate (mem v) (cr3 v) (u32 (va + Z.of_nat i)) = Some (pa, true) /\
    forall pb, pb ∈ pas -> clear_of (mem v) (cr3 v) (u32 (va + Z.of_nat i)) pb.

Lemma ubuf_cons v va pa pas :
  is_u32 va -> ubuf v va (pa :: pas) ->
  xlate (mem v) (cr3 v) va = Some (pa, true) /\ ubuf v (u32 (va + 1)) pas.
Proof.
  intros Hva [Hnd H]. apply NoDup_cons in Hnd as [_ Hnd]. split.
  - destruct (H 0%nat pa eq_refl) as [Hx _]. rewrite Z.add_0_r, u32_small in Hx by done. done.
  - split; [done|]. intros i p Hi. destruct (H (S i) p Hi) as [Hx Hc].
    rewrite u32_add_l. replace (va + 1 + Z.of_nat i) with (va + Z.of_nat (S i)) by lia.
    split; [done|]. intros pb Hb. apply Hc. by right.
Qed.

Lemma ubuf_set v va pas pa b :
  ubuf v va pas ->
  (forall i, (i < length pas)%nat -> clear_of (mem v) (cr3 v) (u32 (va + Z.of_nat i)) pa) ->
  ubuf (v <| mem := set_byte (mem v) pa b |>) va pas.
Proof.
  intros [Hnd H] Hc. split; [done|]. intros i p Hi. cbn. destruct (H i p Hi) as [Hx Hcl].
  destruct (xlate_set (mem v) (cr3 v) (u32 (va + Z.of_nat i)) pa b) as [E Hk].
  { apply Hc. by eapply lookup_lt_Some. }
  rewrite E. split; [done|]. intros pb Hb. by apply Hk, Hcl.
Qed.

Lemma uloads_run pas va e s :
  is_u32 va -> ubuf (vm s) va pas ->
  uloads (length pas) va e s = Ret (byte_at (mem (vm s)) <$> pas) e s.
Proof.
  revert va. induction pas as [|pa pas IH]; intros va Hva Hb; [done|]. cbn.
  apply ubuf_cons in Hb as [Hx Hb]; [|done].
  erewrite bind_Ret. 2:{ unfold uload8. prim. by rewrite Hx. }
  erewrite bind_Ret by (apply IH; [apply u32_range|done]). done.
Qed.

Lemma ustores_run pas va bs e s :
  is_u32 va -> ubuf (vm s) va pas -> length bs = length pas ->
  ustores va bs e s = Ret tt e (s <| vm ::= fun w => w <| mem := set_bytes (mem w) pas bs |> |>) /\
  ubuf ((vm s) <| mem := set_bytes (mem (vm s)) pas bs |>) va pas.
Proof.
  intros Hva Hb Hl. split.
  - revert va bs s Hva Hb Hl. induction pas as [|pa pas IH]; intros va [|b bs] s Hva Hb Hl; try done; cbn.
    { unfold ret, upd; cbn. by destruct s as [?????? [] ????]. }
    pose proof Hb as [_ Hall]. pose proof Hb as [Hx Hb']%ubuf_cons; [|done].
    erewrite bind_Ret. 2:{ unfold ustore8. prim. rewrite Hx. reflexivity. }
    rewrite IH; [done|apply u32_range| |by injection Hl].
    apply (ubuf_set (vm s)); [done|]. intros i Hi.
    destruct (lookup_lt_is_Some_2 pas i Hi) as [p Hp]. destruct (Hall (S i) p Hp) as [_ Hc].
    rewrite u32_add_l. replace (va + 1 + Z.of_nat i) with (va + Z.of_nat (S i)) by lia.
    apply Hc. left.
  - clear Hl. destruct Hb as [Hnd Hb]. split; [done|]. intros i p Hp. destruct (Hb i p Hp) as [Hx Hc].
    cbn. enough (forall ps m bs, (forall q, q ∈ ps -> q ∈ pas) ->
      xlate m (cr3 (vm s)) (u32 (va + Z.of_nat i)) = Some (p, true) ->
      (forall pb, pb ∈ pas -> clear_of m (cr3 (vm s)) (u32 (va + Z.of_nat i)) pb) ->
      xlate (set_bytes m ps bs) (cr3 (vm s)) (u32 (va + Z.of_nat i)) = Some (p, true) /\
      forall pb, pb ∈ pas -> clear_of (set_bytes m ps bs) (cr3 (vm s)) (u32 (va + Z.of_nat i)) pb) as E
      by (by apply E).
    clear. intros ps. induction ps as [|q ps IH]; intros m [|b bs] Hsub Hx Hc; try done. cbn.
    destruct (xlate_set m (cr3 (vm s)) (u32 (va + Z.of_nat i)) q b) as [E Hk].
    { apply Hc, Hsub. left. }
    apply IH; [intros; apply Hsub; by right|by rewrite E|]. intros pb Hb. by apply Hk, Hc.
Qed.

(** What a load finds after the stores. *)
Lemma ustores_uloads pas va bs e s e' :
  is_u32 va -> ubuf (vm s) va pas -> length bs = length pas ->
  exists s', ustores va bs e s = Ret tt e s' /\
    s' = s <| vm ::= fun w => w <| mem := mem (vm s') |> |> /\
    (forall pa, pa ∉ pas -> byte_at (mem (vm s')) pa = byte_at (mem (vm s)) pa) /\
    uloads (length bs) va e' s' = Ret (u8 <$> bs) e' s'.
Proof.
  intros Hva Hb Hl. destruct (ustores_run pas va bs e s Hva Hb Hl) as [Hrun Hb'].
  eexists. split; [exact Hrun|]. split; [done|]. split.
  - intros pa Hpa. cbn. by apply set_bytes_out.
  - rewrite Hl, (uloads_run pas) by done. cbn. rewrite set_bytes_in; [done|apply Hb|done].
Qed.

#[global] Arguments uloads : simpl never.
#[global] Arguments ustores : simpl never.

(** ** Buffers of a well-formed address space *)

Section address_space.
Context (R : list Z) (dir : Z) (tabs ufr : gmap Z Z) (free : list Z) (s : kstate).
Context (Has : as_inv R dir tabs ufr free s).
Let m := mem (vm s).

(** The physical address of the user address [va]. *)
Definition uphys (va : Z) : Z := V2P (default 0 (ufr !! (va / PGSIZE))) + va mod PGSIZE.

Lemma frame_page v f : ufr !! v = Some f -> is_page (l_end (link s)) f.
Proof.
  intros Hf. destruct Has as (H & _). eapply pgt_is_page; [exact H|].
  apply tab_in in Hf. revert Hf. in_list.
Qed.

Lemma frame_inj v v' f : ufr !! v = Some f -> ufr !! v' = Some f -> v = v'.
Proof.
  intros Hv Hv'. destruct Has as (H & _). destruct (decide (v = v')) as [|Hne]; [done|].
  pose proof (pgt_nodup _ _ _ _ _ _ H) as Hnd.
  apply NoDup_cons in Hnd as [_ Hnd]. apply NoDup_app in Hnd as (_ & _ & Hnd).
  apply NoDup_app in Hnd as (Hnd & _). rewrite (tpages_delete _ _ _ Hv) in Hnd.
  apply NoDup_cons in Hnd as [Hni _]. destruct Hni. apply (tab_in _ v').
  by rewrite lookup_delete_ne.
Qed.

Lemma uphys_in va f : ufr !! (va / PGSIZE) = Some f -> in_page f (uphys va).
Proof.
  intros Hf. unfold in_page, uphys. rewrite Hf. cbn. pose proof (Z.mod_pos_bound va PGSIZE).
  unfold PGSIZE in *. lia.
Qed.

Lemma uphys_inj va va' :
  is_Some (ufr !! (va / PGSIZE)) -> is_Some (ufr !! (va' / PGSIZE)) ->
  uphys va = uphys va' -> va = va'.
Proof.
  intros [f Hf] [f' Hf'] E. pose proof (uphys_in _ _ Hf) as Hi. pose proof (uphys_in _ _ Hf') as Hi'.
  rewrite E in Hi. destruct Has as (_ & _ & Hen).
  assert (f = f') as <- by (eapply (in_page_inj (l_end (link s))); eauto using frame_page; lia).
  pose proof (frame_inj _ _ _ Hf Hf'). unfold uphys in E. rewrite Hf, Hf' in E. cbn in E.
  unfold PGSIZE in *. Z.div_mod_to_equations; lia.
Qed.

Lemma user_xlate va f :
  0 <= va < KERNBASE -> ufr !! (va / PGSIZE) = Some f ->
  xlate m (V2P dir) va = Some (uphys va, has (pte_of m dir va) PTE_W).
Proof.
  intros Hva Hf. destruct Has as (H & [_ Hu] & _). specialize (Hu va Hva). rewrite Hf in Hu.
  destruct Hu as [HP HA]. pose proof (pgt_dir_ok _ _ _ _ _ _ H) as Hd. fold m in HP, HA.
  unfold xlate, pte_of in *. destruct (do_tabs _ _ _ Hd) as [Hs Hn]. fold m in Hs, Hn.
  destruct (tabs !! PDX va) as [t|] eqn:E.
  - destruct (Hs _ _ E) as [_ Hw]. rewrite Hw in *.
    destruct (tab_entry _ t (do_en _ _ _ Hd) (do_page _ _ _ Hd _ _ E)) as (HtP & HtW & HtA).
    rewrite HtP in *. rewrite HP, HtW, HA. unfold uphys. rewrite Hf. cbn. do 3 f_equal.
    change 0xFFF with (Z.ones 12). rewrite Z.land_ones by lia. done.
  - rewrite (Hn _ (PDX_range va) E) in HP. done.
Qed.

(** A user frame holds neither the directory nor a page table. *)
Lemma user_clear va va' f f' :
  0 <= va < KERNBASE -> ufr !! (va / PGSIZE) = Some f -> ufr !! (va' / PGSIZE) = Some f' ->
  clear_of m (V2P dir) va (uphys va').
Proof.
  intros Hva Hf Hf'. destruct Has as (H & [_ Hu] & _). pose proof (pgt_dir_ok _ _ _ _ _ _ H) as Hd.
  pose proof (frame_page _ _ Hf') as Hp'. pose proof (uphys_in _ _ Hf') as Hin.
  pose proof (pgt_nodup _ _ _ _ _ _ H) as Hnd. pose proof (do_en _ _ _ Hd) as Hen.
  assert (forall p o, p ∈ dir :: tpages tabs -> is_page (l_end (link s)) p -> 0 <= o < 1024 ->
            uphys va' / 4 <> (V2P p + 4 * o) / 4) as Hapart.
  { intros p o Hp Hpg Ho E. rewrite app_comm_cons in Hnd.
    apply (NoDup_apart _ _ p f' Hnd Hp); [apply tab_in in Hf'; revert Hf'; in_list|].
    eapply (in_page_inj _ _ _ (V2P p + 4 * o) Hen Hpg Hp').
    - unfold in_page, PGSIZE. lia.
    - unfold in_page in *. pose proof (V2P_aligned _ _ Hen Hpg). pose proof (V2P_aligned _ _ Hen Hp').
      unfold PGSIZE in *. Z.div_mod_to_equations; lia. }
  split; [apply Hapart; [left|apply Hd|apply PDX_range]|].
  specialize (Hu va Hva). rewrite Hf in Hu. destruct Hu as [HP _]. fold m in HP. unfold pte_of in HP.
  destruct (do_tabs _ _ _ Hd) as [Hs Hn]. fold m in Hs, Hn.
  destruct (tabs !! PDX va) as [t|] eqn:E.
  - destruct (Hs _ _ E) as [_ ->].
    pose proof (do_page _ _ _ Hd _ _ E) as Htp.
    destruct (tab_entry _ t Hen Htp) as (_ & _ & ->).
    apply Hapart; [right; by eapply tab_in|done|apply PTX_range].
  - by rewrite (Hn _ (PDX_range va) E) in HP.
Qed.

(** A block of mapped, writable user addresses is a buffer. *)
Lemma as_ubuf va n :
  cr3 (vm s) = V2P dir -> 0 <= va -> va + n <= KERNBASE ->
  (forall a, va <= a < va + n -> is_Some (ufr !! (a / PGSIZE)) /\ has (pte_of m dir a) PTE_W = true) ->
  ubuf (vm s) va (uphys <$> seqZ va n).
Proof.
  intros Hcr Hva Hn Hall.
  assert (forall i, (i < Z.to_nat n)%nat -> u32 (va + Z.of_nat i) = va + Z.of_nat i) as Hu.
  { intros i Hi. apply u32_small. unfold is_u32, KERNBASE in *. lia. }
  split.
  - apply NoDup_fmap_2_strong; [|apply NoDup_seqZ]. intros x y Hx Hy E.
    rewrite elem_of_seqZ in Hx, Hy. apply uphys_inj; [apply Hall; lia..|done].
  - intros i pa Hi. rewrite list_lookup_fmap in Hi.
    destruct (seqZ va n !! i) as [a|] eqn:Ea; [|done]. injection Hi as <-.
    apply lookup_seqZ in Ea as [-> Hi]. rewrite Hu, Hcr by lia.
    destruct (Hall (va + Z.of_nat i)) as [[f Hf] HW]; [lia|]. split.
    + erewrite user_xlate by (exact Hf || lia). by rewrite HW.
    + intros pb (b & -> & Hb)%list_elem_of_fmap. apply elem_of_seqZ in Hb.
      destruct (Hall b) as [[f' Hf'] _]; [lia|]. eapply user_clear; [lia|exact Hf|exact Hf'].
Qed.
End address_space.
