(* ===== verification/Sched.v ===== *)
(** * Scheduling and the process table: the core of proc.c

    sched, yield, sleep, wakeup, kill, the scheduler's pass, and allocproc and growproc. *)

From stdpp Require Import base list gmap strings fin_maps.
From S2P Require Import Prelude State Monad Spinlock Console Kalloc Str Vm.
Open Scope Z_scope.

(** ** Definitions *)

Definition is_state (st : procstate) (p : proc) : bool := bool_decide (p_state p = st).

(** The slots of ptable.proc, in table order. *)
Definition slots : list nat := seq 0 (Z.to_nat NPROC).

Definition set_procs (f : list proc -> list proc) : M unit :=
  modify (fun s => s <| pt ::= fun t => t <| procs ::= f |> |>).

Definition pinit : M unit := initlock L_ptable.

(** A dereference of myproc(). *)
Definition the_proc (p : option nat) : M nat :=
  match p with Some i => ret i | None => undef "null process" end.

(** A copy of the structure of the running process. *)
Definition curproc : M proc :=
  p ← myproc ;
  p ← the_proc p ;
  getp p.

Definition sched : M unit :=
  p ← myproc ;
  h ← holding L_ptable ;
  if negb h then panic "sched ptable.lock" else
  i ← mycpu ;
  c ← get_cpu i ;
  if negb (ncli c =? 1) then panic "sched locks" else
  p ← the_proc p ;
  pr ← getp p ;
  if is_state RUNNING pr then panic "sched running" else
  fl ← gets (fun s => IF (sync s)) ;
  if fl : bool then panic "sched interruptible" else
  i ← mycpu ;
  c ← get_cpu i ;
  switch ;;
  i ← mycpu ;
  set_cpu i (fun c' => c' <| intena := intena c |>).

Definition yield : M unit :=
  acquire L_ptable ;;
  p ← myproc ;
  p ← the_proc p ;
  setp p (fun pr => pr <| p_state := RUNNABLE |>) ;;
  sched ;;
  release L_ptable.

(** The body of sleep over the two lock operations, so that the steps of other processors
    around them can be made explicit. *)
Definition sleep_on (acq rel : lockid -> M unit) (ch : chan) (lk : lockid) : M unit :=
  p ← myproc ;
  match p with
  | None => panic "sleep"
  | Some p =>
      when (bool_decide (lk <> L_ptable)) (acq L_ptable ;; rel lk) ;;
      setp p (fun pr => pr <| p_chan := Some ch |>) ;;
      setp p (fun pr => pr <| p_state := SLEEPING |>) ;;
      sched ;;
      setp p (fun pr => pr <| p_chan := None |>) ;;
      when (bool_decide (lk <> L_ptable)) (rel L_ptable ;; acq lk)
  end.

Definition sleep (ch : chan) (lk : lockid) : M unit := sleep_on acquire release ch lk.

Definition wakeup1 (ch : option chan) : M unit :=
  for_each slots (fun i =>
    p ← getp i ;
    when (is_state SLEEPING p && bool_decide (p_chan p = ch))
      (setp i (fun p => p <| p_state := RUNNABLE |>))).

Definition wakeup (ch : chan) : M unit :=
  acquire L_ptable ;;
  wakeup1 (Some ch) ;;
  release L_ptable.

Definition kill (pid : Z) : M Z :=
  acquire L_ptable ;;
  r ← for_until slots (fun i =>
        p ← getp i ;
        if p_pid p =? pid then
          setp i (fun p => p <| p_killed := 1 |>) ;;
          p ← getp i ;
          when (is_state SLEEPING p) (setp i (fun p => p <| p_state := RUNNABLE |>)) ;;
          release L_ptable ;;
          ret (Some 0)
        else ret None) ;
  match r with
  | Some v => ret v
  | None => release L_ptable ;; ret (-1)
  end.

(** One pass of the scheduler's loop on cpu [c]; [switch] runs the chosen process until it
    comes back. *)
Definition scheduler_pass (c : nat) : M unit :=
  sti ;;
  acquire L_ptable ;;
  for_each slots (fun p =>
    pr ← getp p ;
    when (is_state RUNNABLE pr)
      (set_cpu c (fun k => k <| c_proc := Some p |>) ;;
       switchuvm (Some p) ;;
       setp p (fun pr => pr <| p_state := RUNNING |>) ;;
       switch ;;
       switchkvm ;;
       set_cpu c (fun k => k <| c_proc := None |>))) ;;
  release L_ptable.

(** scheduler() never returns: [n] passes of it. *)
Fixpoint scheduler_loop (n : nat) (c : nat) : M unit :=
  match n with
  | O => ret tt
  | S n => scheduler_pass c ;; scheduler_loop n c
  end.

Definition scheduler (n : nat) : M unit :=
  c ← mycpu ;
  set_cpu c (fun k => k <| c_proc := None |>) ;;
  scheduler_loop n c.

(** sizeof(struct trapframe) and sizeof(struct context). *)
Definition tf_size : Z := 76.
Definition context_size : Z := 20.

Definition allocproc : M (option nat) :=
  acquire L_ptable ;;
  found ← gets (fun s => findi (is_state UNUSED) (procs (pt s))) ;
  match found with
  | None => release L_ptable ;; ret None
  | Some p =>
      setp p (fun pr => pr <| p_state := EMBRYO |>) ;;
      n ← gets (fun s => nextpid (pt s)) ;
      if n =? 2 ^ 31 - 1 then undef "nextpid++" else
      setp p (fun pr => pr <| p_pid := n |>) ;;
      modify (fun s => s <| pt ::= fun t => t <| nextpid := n + 1 |> |>) ;;
      setp p (fun pr => pr <| p_container_id := -1 |>) ;;
      release L_ptable ;;
      k ← kalloc ;
      setp p (fun pr => pr <| p_kstack := k |>) ;;
      if k =? 0 then setp p (fun pr => pr <| p_state := UNUSED |>) ;; ret None else
      lk ← gets link ;
      let sp := u32 (k + KSTACKSIZE - tf_size) in
      let sp := u32 (sp - 4) in
      kstore sp (l_trapret lk) ;;
      let sp := u32 (sp - context_size) in
      setp p (fun pr => pr <| p_context := sp |>) ;;
      for_each (range 0 5) (fun i => kstore (u32 (sp + 4 * i)) 0) ;;
      kstore (u32 (sp + 16)) (l_forkret lk) ;;
      ret (Some p)
  end.

Definition growproc (n : Z) : M Z :=
  p ← myproc ;
  p ← the_proc p ;
  pr ← getp p ;
  let sz := p_sz pr in
  r ← (if 0 <? n then
         sz ← allocuvm (p_pgdir pr) sz (u32 (sz + n)) ;
         ret (if sz =? 0 then None else Some sz)
       else if n <? 0 then
         sz ← deallocuvm (p_pgdir pr) sz (u32 (sz + n)) ;
         ret (if sz =? 0 then None else Some sz)
       else ret (Some sz)) ;
  match r with
  | None => ret (-1)
  | Some sz =>
      setp p (fun pr => pr <| p_sz := sz |>) ;;
      switchuvm (Some p) ;;
      ret 0
  end.

(** The listing printed on ^P; [pcs] gives the return addresses found on the kernel stack of a
    sleeping process. *)
Definition state_name (st : procstate) : string :=
  match st with
  | UNUSED => "unused" | EMBRYO => "embryo" | SLEEPING => "sleep "
  | RUNNABLE => "runble" | RUNNING => "run   " | ZOMBIE => "zombie"
  end.

(** The C string in a char array. *)
Fixpoint cstring (bs : list Z) : list Z :=
  match bs with
  | [] => []
  | b :: bs => if b =? 0 then [] else b :: cstring bs
  end.

Definition procdump (pcs : nat -> list Z) : M unit :=
  for_each slots (fun i =>
    p ← getp i ;
    if is_state UNUSED p then ret tt else
    cprintf "%d %s %s" [AInt (p_pid p); AStr (str (state_name (p_state p)));
                        AStr (cstring (p_name p))] ;;
    when (is_state SLEEPING p)
      (for_until (take 10 (pcs i)) (fun pc =>
         if pc =? 0 then ret (Some tt) else cprintf " %p" [AInt pc] ;; ret None) ;; ret tt) ;;
    cprintf "
" []).

(** ** Scans of the process table *)

Definition nprocs (s : kstate) : Prop := length (procs (pt s)) = Z.to_nat NPROC.

Definition upd_procs (f : list proc -> list proc) (s : kstate) : kstate :=
  s <| pt ::= fun t => t <| procs ::= f |> |>.

Lemma getp_run i p e s : procs (pt s) !! i = Some p -> getp i e s = Ret p e s.
Proof. intros H. unfold getp. prim. by rewrite H. Qed.

Lemma setp_run i f p e s :
  procs (pt s) !! i = Some p -> setp i f e s = Ret tt e (upd_procs (alter f i) s).
Proof. intros H. unfold setp. prim. by rewrite H. Qed.

(** The running process is [p], entry [pr] of the table. *)
Definition running (p : nat) (pr : proc) (s : kstate) : Prop :=
  c_proc (my (sync s)) = Some p /\ procs (pt s) !! p = Some pr.

Lemma curproc_run p pr e s :
  sync_ok (sync s) -> running p pr s -> curproc e s = Ret pr e (s <| sync ::= settle |>).
Proof.
  intros Hok [Hc Hpr]. unfold curproc. erewrite bind_Ret by (by apply myproc_run).
  rewrite Hc. erewrite bind_Ret by reflexivity. by apply getp_run.
Qed.

Lemma upd_procs_id s : upd_procs (fun l => l) s = s.
Proof. unfold upd_procs, upd. cbn. by destruct s as [? [] ?????????]. Qed.

Lemma upd_procs_ext f g s : f (procs (pt s)) = g (procs (pt s)) -> upd_procs f s = upd_procs g s.
Proof. intros H. unfold upd_procs, upd. cbn. by rewrite H. Qed.

(** A loop that rewrites the entries satisfying [P] is a map over the table. *)
Lemma for_slots_map (P : proc -> bool) (g : proc -> proc) e s :
  nprocs s ->
  for_each slots (fun i => p ← getp i ; when (P p) (setp i g)) e s =
  Ret tt e (upd_procs (map (fun p => if P p then g p else p)) s).
Proof.
  intros Hn. unfold slots, nprocs in *. rewrite <-Hn.
  enough (forall suf pre s, procs (pt s) = map (fun p => if P p then g p else p) pre ++ suf ->
    for_each (seq (length pre) (length suf)) (fun i => p ← getp i ; when (P p) (setp i g)) e s =
    Ret tt e (upd_procs (fun _ => map (fun p => if P p then g p else p) (pre ++ suf)) s)) as H.
  { exact (H (procs (pt s)) [] s eq_refl). }
  clear s Hn. induction suf as [|p suf IH]; intros pre s Hs; simpl.
  { rewrite app_nil_r in Hs |- *. rewrite (upd_procs_ext _ (fun l => l)) by done.
    by rewrite upd_procs_id. }
  assert (procs (pt s) !! length pre = Some p) as Hp.
  { rewrite Hs, lookup_app_r; rewrite length_map; [|lia]. by rewrite Nat.sub_diag. }
  rewrite bind_bind. erewrite bind_Ret by (by apply getp_run).
  assert (forall f, f p = (if P p then g p else p) ->
    alter f (length pre) (procs (pt s)) = map (fun p => if P p then g p else p) (pre ++ [p]) ++ suf) as Halter.
  { intros f Hf. rewrite Hs, map_app, <-app_assoc. simpl.
    rewrite <-(Nat.add_0_r (length pre)), <-(length_map (fun p => if P p then g p else p) pre).
    rewrite alter_app_r. simpl. by rewrite Hf. }
  replace (pre ++ p :: suf) with ((pre ++ [p]) ++ suf) by (by rewrite <-app_assoc).
  replace (S (length pre)) with (length (pre ++ [p])) by (rewrite length_app; simpl; lia).
  destruct (P p) eqn:HP; simpl.
  - erewrite bind_Ret by (by eapply setp_run). rewrite IH; [done|].
    cbn. by apply Halter.
  - erewrite bind_Ret by reflexivity. rewrite IH; [done|].
    rewrite <-(Halter (fun p => p)) by done. by rewrite alter_fix.
Qed.

(** The effect of wakeup on one entry. *)
Definition wake (ch : option chan) (p : proc) : proc :=
  if is_state SLEEPING p && bool_decide (p_chan p = ch)
  then p <| p_state := RUNNABLE |> else p.

Lemma wakeup1_run ch e s : nprocs s -> wakeup1 ch e s = Ret tt e (upd_procs (map (wake ch)) s).
Proof.
  intros Hn. unfold wakeup1.
  by rewrite (for_slots_map (fun p => is_state SLEEPING p && bool_decide (p_chan p = ch))).
Qed.

Lemma wakeup_run ch e s :
  nprocs s -> sync_ok (sync s) -> free L_ptable (sync s) ->
  wakeup ch e s = Ret tt e ((upd_procs (map (wake (Some ch))) s) <| sync ::= settle |>).
Proof.
  intros Hn Hok Hf. unfold wakeup. erewrite bind_Ret by (by apply acquire_run).
  erewrite bind_Ret by (by apply wakeup1_run). by rewrite (release_run _ _ _ (sync s)).
Qed.

(** ** Giving up the processor *)

(** What sched does once it is switched back to: the saved interrupt flag of the thread is put
    into the cpu it now runs on. *)
Definition sched_back (fl : bool) : M unit :=
  i ← mycpu ;
  set_cpu i (fun c => c <| intena := fl |>).

(** This thread runs process [p], holds no lock but [l], and nothing else is nested. *)
Definition only_lock (l : lockid) (p : nat) (sy : ksync) (s : kstate) : Prop :=
  sync s = lock_sync l sy /\ sync_ok sy /\ free l sy /\ ncli (my sy) = 0 /\
  c_proc (my sy) = Some p.

Lemma my_locked l sy :
  sync_ok sy -> ncli (my sy) = 0 ->
  ncli (my (lock_sync l sy)) = 1 /\ intena (my (lock_sync l sy)) = IF sy /\
  c_proc (my (lock_sync l sy)) = c_proc (my sy).
Proof. intros Hok H0. rewrite my_lock, my_push by done. cbn. by rewrite H0. Qed.

Lemma settle_locked l sy s :
  sync s = lock_sync l sy -> sync_ok sy -> s <| sync ::= settle |> = s.
Proof.
  intros Hs Hok. unfold upd; cbn. rewrite Hs, settle_lock, <-Hs by done. by destruct s.
Qed.

(** sched hands exactly the state it is called in to the environment. *)
Lemma sched_run p pr sy e s :
  only_lock L_ptable p sy s -> procs (pt s) !! p = Some pr -> p_state pr <> RUNNING ->
  sched e s = (switch ;; sched_back (IF sy)) e s.
Proof.
  intros (Hs & Hok & Hfree & Hn & Hc) Hp Hst. destruct (my_locked L_ptable sy Hok Hn) as (H1 & H2 & H3).
  assert (sync_ok (sync s)) as Hok' by (rewrite Hs; auto with xv6).
  assert (IF (sync s) = false) as HIF by (by rewrite Hs).
  rewrite <-Hs in H1, H2, H3. unfold sched. erewrite bind_Ret by (by apply myproc_run).
  rewrite (settle_locked _ _ _ Hs Hok).
  erewrite bind_Ret by (by apply holding_run). rewrite (settle_locked _ _ _ Hs Hok).
  rewrite bool_decide_eq_true_2.
  2:{ rewrite Hs, me_lock. unfold lock_sync. cbn. apply lookup_insert_eq. }
  cbn [negb]. erewrite bind_Ret by (by apply mycpu_run).
  erewrite bind_Ret by (by apply get_cpu_run). rewrite H1. cbn [negb Z.eqb Pos.eqb].
  rewrite H3, Hc. cbn [the_proc]. erewrite bind_Ret by reflexivity.
  erewrite bind_Ret by (by apply getp_run).
  unfold is_state. rewrite bool_decide_eq_false_2 by done. prim. rewrite HIF.
  erewrite bind_Ret by (by apply mycpu_run). erewrite bind_Ret by (by apply get_cpu_run).
  by rewrite H2.
Qed.

Lemma set_intena l sy b :
  sync_ok sy -> ncli (my sy) = 0 ->
  upd_me (fun c => c <| intena := b |>) (lock_sync l sy) = lock_sync l (sy <| IF := b |>).
Proof.
  intros Hok H0. pose proof (sync_ok_inv _ Hok) as (_ & Hl & _).
  unfold upd_me at 1. rewrite me_lock.
  change (me (sy <| IF := b |>)) with (me sy).
  unfold lock_sync, push, upd_me. change (me (sy <| IF := b |>)) with (me sy).
  state_eq. rewrite list_alter_alter_eq. apply list_alter_ext; [|done].
  intros c Hc. rewrite Hl in Hc. injection Hc as <-. cbn. by rewrite H0.
Qed.

Lemma sync_ok_IF sy b : sync_ok sy -> ncli (my sy) = 0 -> sync_ok (sy <| IF := b |>).
Proof.
  intros Hok H0. destruct (sync_ok_inv _ Hok) as (Hc & Hl & _).
  exists (me sy), (my sy). split; [done|]. split; [done|]. rewrite H0. lia.
Qed.

Lemma sched_back_run fl p sy e s :
  only_lock L_ptable p sy s ->
  sched_back fl e s = Ret tt e (s <| sync := lock_sync L_ptable (sy <| IF := fl |>) |>).
Proof.
  intros (Hs & Hok & _ & Hn & _). unfold sched_back.
  assert (sync_ok (sync s)) as Hok' by (rewrite Hs; auto with xv6).
  erewrite bind_Ret by (apply mycpu_run; [done|by rewrite Hs]).
  unfold set_cpu, modify. f_equal. rewrite <-(set_intena _ _ _ Hok Hn), <-Hs. done.
Qed.

(** ** sleep *)

Definition park (ch : chan) (p : nat) : kstate -> kstate :=
  upd_procs (alter (fun pr => pr <| p_chan := Some ch |> <| p_state := SLEEPING |>) p).

(** What sleep does after it is switched back to. *)
Definition sleep_tail (lk : lockid) (p : nat) (fl : bool) : M unit :=
  sched_back fl ;;
  setp p (fun pr => pr <| p_chan := None |>) ;;
  when (bool_decide (lk <> L_ptable)) (release L_ptable ;; acquire lk).

Lemma upd_procs_upd f g s : upd_procs f (upd_procs g s) = upd_procs (fun l => f (g l)) s.
Proof. done. Qed.

Lemma park_run {B} ch p pr (k : M B) e s sy :
  only_lock L_ptable p sy s -> procs (pt s) !! p = Some pr ->
  (setp p (fun pr => pr <| p_chan := Some ch |>) ;;
   setp p (fun pr => pr <| p_state := SLEEPING |>) ;;
   sched ;; k) e s =
  (switch ;; sched_back (IF sy) ;; k) e (park ch p s).
Proof.
  intros Hl Hp. erewrite bind_Ret by (by eapply setp_run).
  erewrite bind_Ret.
  2:{ eapply setp_run. cbn. rewrite list_lookup_alter_eq, Hp. reflexivity. }
  rewrite upd_procs_upd.
  assert (upd_procs (fun l => alter (fun pr => pr <| p_state := SLEEPING |>) p
            (alter (fun pr => pr <| p_chan := Some ch |>) p l)) s = park ch p s) as ->.
  { apply upd_procs_ext. by rewrite list_alter_alter_eq. }
  unfold bind at 1. rewrite (sched_run p (pr <| p_chan := Some ch |> <| p_state := SLEEPING |>) sy).
  - by destruct e.
  - exact Hl.
  - cbn. by rewrite list_lookup_alter_eq, Hp.
  - done.
Qed.

(** sleep gives up [lk] only after it has ptable.lock, and lets go of the processor with the
    process recorded as sleeping on [ch]. *)
Lemma sleep_parks ch lk p pr sy e s :
  only_lock lk p sy s -> (lk <> L_ptable -> free L_ptable sy) -> procs (pt s) !! p = Some pr ->
  sleep ch lk e s =
  (switch ;; sleep_tail lk p (IF sy)) e (park ch p (s <| sync := lock_sync L_ptable sy |>)).
Proof.
  intros (Hs & Hok & Hfree & Hn & Hc) Hpt Hp.
  assert (sync_ok (sync s)) as Hok' by (rewrite Hs; auto with xv6).
  destruct (my_locked lk sy Hok Hn) as (_ & _ & H3).
  unfold sleep, sleep_on. erewrite bind_Ret by (by apply myproc_run).
  rewrite (settle_locked _ _ _ Hs Hok), Hs, H3, Hc.
  assert (when (bool_decide (lk <> L_ptable)) (acquire L_ptable ;; release lk) e s =
          Ret tt e (s <| sync := lock_sync L_ptable sy |>)) as Hsw.
  { destruct (decide (lk = L_ptable)) as [->|Hne].
    - rewrite bool_decide_eq_false_2 by (by intros []). unfold when, ret. f_equal.
      rewrite <-Hs. by destruct s.
    - rewrite bool_decide_eq_true_2 by done. unfold when.
      erewrite bind_Ret.
      2:{ apply acquire_run; [done|]. rewrite Hs. apply free_lock; auto. }
      rewrite (release_run _ _ _ (lock_sync L_ptable sy)).
      + rewrite settle_lock by done. by unfold upd.
      + cbn. rewrite Hs. by apply lock_comm.
      + auto with xv6.
      + apply free_lock; auto. }
  erewrite bind_Ret by exact Hsw.
  erewrite park_run; [done| |exact Hp].
  repeat split; try done. destruct (decide (lk = L_ptable)) as [->|]; auto.
Qed.

(** With no one left to run, the thread stays asleep. *)
Lemma sleep_blocks ch lk p pr sy s :
  only_lock lk p sy s -> (lk <> L_ptable -> free L_ptable sy) -> procs (pt s) !! p = Some pr ->
  sleep ch lk [] s = Blocked (park ch p (s <| sync := lock_sync L_ptable sy |>)).
Proof. intros. by rewrite (sleep_parks ch lk p pr sy). Qed.

Lemma sleep_returns ch lk p pr sy f e s sy1 pr1 :
  only_lock lk p sy s -> (lk <> L_ptable -> free L_ptable sy) -> procs (pt s) !! p = Some pr ->
  let s1 := f (park ch p (s <| sync := lock_sync L_ptable sy |>)) in
  only_lock L_ptable p sy1 s1 -> procs (pt s1) !! p = Some pr1 -> free lk sy1 ->
  sleep ch lk (f :: e) s =
  Ret tt e ((upd_procs (alter (fun pr => pr <| p_chan := None |>) p) s1)
              <| sync := lock_sync lk (sy1 <| IF := IF sy |>) |>).
Proof.
  intros Hl Hpt Hp s1 Hl1 Hp1 Hf1. rewrite (sleep_parks ch lk p pr sy) by done.
  erewrite bind_Ret by reflexivity. fold s1.
  unfold sleep_tail. erewrite bind_Ret by (by eapply sched_back_run).
  erewrite bind_Ret by (by eapply setp_run).
  destruct Hl1 as (Hs1 & Hok1 & Hfr1 & Hn1 & Hc1).
  destruct (decide (lk = L_ptable)) as [->|Hne].
  - rewrite bool_decide_eq_false_2 by (by intros []). done.
  - rewrite bool_decide_eq_true_2 by done. unfold when.
    assert (sync_ok (sy1 <| IF := IF sy |>)) as Hok2 by (by apply sync_ok_IF).
    erewrite bind_Ret by (apply (release_run _ _ _ (sy1 <| IF := IF sy |>)); done).
    rewrite acquire_run by (cbn; auto with xv6). f_equal. unfold upd; cbn. by rewrite lock_settle.
Qed.

(** ** yield *)

Lemma yield_parks p pr e s :
  sync_ok (sync s) -> free L_ptable (sync s) -> ncli (my (sync s)) = 0 ->
  c_proc (my (sync s)) = Some p -> procs (pt s) !! p = Some pr ->
  yield e s =
  (switch ;; sched_back (IF (sync s)) ;; release L_ptable) e
    (upd_procs (alter (fun pr => pr <| p_state := RUNNABLE |>) p)
       (s <| sync ::= lock_sync L_ptable |>)).
Proof.
  intros Hok Hfree Hn Hc Hp. unfold yield. erewrite bind_Ret by (by apply acquire_run).
  destruct (my_locked L_ptable _ Hok Hn) as (_ & _ & H3).
  erewrite bind_Ret by (apply myproc_run; cbn; auto with xv6).
  rewrite (settle_locked L_ptable (sync s)) by done. cbn [sync]. fields. rewrite H3, Hc. cbn [the_proc].
  erewrite bind_Ret by reflexivity. erewrite bind_Ret by (by eapply setp_run).
  unfold bind at 1. erewrite (sched_run p _ (sync s)); [by destruct e|..].
  - repeat split; done.
  - cbn. rewrite list_lookup_alter_eq, Hp. reflexivity.
  - done.
Qed.

(** ** Searching the table *)

Lemma for_slots_find {R} (P : proc -> bool) (k : nat -> M (option R)) e s :
  nprocs s -> (forall i e s e' s', k i e s <> Ret None e' s') ->
  for_until slots (fun i => p ← getp i ; if P p then k i else ret None) e s =
  match findi P (procs (pt s)) with Some i => k i e s | None => Ret None e s end.
Proof.
  intros Hn Hk. unfold slots. unfold nprocs in Hn. rewrite <-Hn.
  enough (forall suf pre, procs (pt s) = pre ++ suf ->
    for_until (seq (length pre) (length suf))
      (fun i => p ← getp i ; if P p then k i else ret None) e s =
    match findi P suf with Some i => k (length pre + i)%nat e s | None => Ret None e s end) as H.
  { by apply (H (procs (pt s)) []). }
  induction suf as [|p suf IH]; intros pre Hs; [done|]. simpl.
  rewrite bind_bind. erewrite bind_Ret.
  2:{ apply getp_run. rewrite Hs, lookup_app_r by done. by rewrite Nat.sub_diag. }
  destruct (P p) eqn:HP.
  - rewrite Nat.add_0_r. unfold bind.
    destruct (k (length pre) e s) as [[v|] e' s'|?|?|?|?|] eqn:E; try done. by apply Hk in E.
  - erewrite bind_Ret by reflexivity. cbv iota.
    specialize (IH (pre ++ [p])). rewrite length_app in IH. simpl in IH.
    rewrite Nat.add_1_r in IH. rewrite IH by (by rewrite <-app_assoc).
    destruct (findi P suf) as [i|]; simpl; [|done]. f_equal. lia.
Qed.

(** The effect of kill on the process it finds. *)
Definition killed_proc (p : proc) : proc :=
  p <| p_killed := 1 |>
    <| p_state ::= fun st => if bool_decide (st = SLEEPING) then RUNNABLE else st |>.

Lemma kill_run pid e s :
  nprocs s -> sync_ok (sync s) -> free L_ptable (sync s) ->
  kill pid e s =
  match findi (fun p => p_pid p =? pid) (procs (pt s)) with
  | Some i => Ret 0 e ((upd_procs (alter killed_proc i) s) <| sync ::= settle |>)
  | None => Ret (-1) e (s <| sync ::= settle |>)
  end.
Proof.
  intros Hn Hok Hf. unfold kill. erewrite bind_Ret by (by apply acquire_run).
  set (s1 := s <| sync ::= lock_sync L_ptable |>).
  unfold bind at 1. rewrite (for_slots_find (fun p => p_pid p =? pid)); [|done|].
  2:{ intros i e1 s2 e' s'. unfold bind. repeat case_match; try done. }
  change (procs (pt s1)) with (procs (pt s)).
  destruct (findi _ (procs (pt s))) as [i|] eqn:E.
  - apply findi_Some in E as [(p & Hp & _) _].
    erewrite bind_Ret by (by eapply setp_run).
    erewrite bind_Ret.
    2:{ apply getp_run. cbn. by rewrite list_lookup_alter_eq, Hp. }
    set (s2 := upd_procs (alter (fun p => p <| p_killed := 1 |>) i) s1).
    assert (when (is_state SLEEPING (p <| p_killed := 1 |>))
              (setp i (fun p => p <| p_state := RUNNABLE |>)) e s2 =
            Ret tt e (upd_procs (alter killed_proc i) s1)) as Hw.
    { assert (procs (pt s2) !! i = Some (p <| p_killed := 1 |>)) as Hp2.
      { cbn. by rewrite list_lookup_alter_eq, Hp. }
      unfold is_state. cbn [p_state]. fields.
      destruct (bool_decide (p_state p = SLEEPING)) eqn:Hst; cbn [when].
      - erewrite setp_run by exact Hp2. unfold s2. rewrite upd_procs_upd. f_equal.
        apply upd_procs_ext. cbn. rewrite list_alter_alter_eq.
        apply list_alter_ext; [|done]. intros p' Hp'. cbn in Hp'. rewrite Hp in Hp'. injection Hp' as <-.
        unfold killed_proc, upd; cbn. by rewrite Hst.
      - unfold ret, s2. f_equal. apply upd_procs_ext. cbn.
        apply list_alter_ext; [|done]. intros p' Hp'. cbn in Hp'. rewrite Hp in Hp'. injection Hp' as <-.
        unfold killed_proc, upd; cbn. by rewrite Hst. }
    erewrite bind_Ret by exact Hw.
    erewrite bind_Ret by (by apply (release_run _ _ _ (sync s))). done.
  - by erewrite bind_Ret by (by apply (release_run _ _ _ (sync s))).
Qed.

(** ** allocproc *)

(** Writes inside the page at [k] only. *)
Definition page_write (k : Z) (s s' : kstate) : Prop :=
  exists m', s' = s <| vm ::= fun w => w <| mem := m' |> |> /\
    forall a, ~ in_page k a -> word_at m' a = word_at (mem (vm s)) a.

Lemma page_write_trans k s1 s2 s3 : page_write k s1 s2 -> page_write k s2 s3 -> page_write k s1 s3.
Proof.
  intros (m1 & -> & H1) (m2 & -> & H2). exists m2. split; [done|].
  intros a Ha. rewrite H2 by done. by apply H1.
Qed.

Lemma kstore_page en k o w e s :
  KERNBASE <= en -> is_page en k -> 0 <= o < PGSIZE ->
  exists s', kstore (u32 (k + o)) w e s = Ret tt e s' /\ page_write k s s'.
Proof.
  intros Hen Hk Ho. eexists. split; [reflexivity|].
  exists (<[V2P (u32 (k + o)) / 4 := u32 w]> (mem (vm s))). split; [done|].
  intros a Ha. unfold word_at. rewrite lookup_insert_ne; [done|]. intros E. apply Ha.
  assert (V2P (u32 (k + o)) = V2P k + o) as HV.
  { rewrite (V2P_page en k) by done. unfold V2P, is_page, KERNBASE, PHYSTOP, PGSIZE in *. cint. }
  rewrite HV in E. pose proof (V2P_aligned _ _ Hen Hk). unfold in_page, PGSIZE in *.
  Z.div_mod_to_equations; lia.
Qed.

Lemma page_write_refl k s : page_write k s s.
Proof. exists (mem (vm s)). split; [|done]. unfold upd; cbn. by destruct s, vm. Qed.

Lemma kstores_page {B} en k (os : list B) (off : B -> Z) w e s :
  KERNBASE <= en -> is_page en k -> (forall o, o ∈ os -> 0 <= off o < PGSIZE) ->
  exists s', for_each os (fun o => kstore (u32 (k + off o)) w) e s = Ret tt e s' /\
    page_write k s s'.
Proof.
  intros Hen Hk. revert s. induction os as [|o os IH]; intros s Hos; simpl.
  { exists s. split; [done|apply page_write_refl]. }
  destruct (kstore_page en k (off o) w e s) as (s1 & Hrun & Hw); [done|done|apply Hos; left|].
  destruct (IH s1) as (s2 & Hrun2 & Hw2); [intros; apply Hos; by right|].
  exists s2. erewrite bind_Ret by exact Hrun. split; [done|]. by eapply page_write_trans.
Qed.

(** The process entry allocproc leaves, with kernel stack [k]. *)
Definition fresh_proc (pid k : Z) (p : proc) : proc :=
  let p := p <| p_state := EMBRYO |> <| p_pid := pid |> <| p_container_id := -1 |>
             <| p_kstack := k |> in
  if k =? 0 then p <| p_state := UNUSED |>
  else p <| p_context := u32 (u32 (u32 (k + KSTACKSIZE - tf_size) - 4) - context_size) |>.

Lemma setp_alter i f p e s :
  procs (pt s) !! i = Some p ->
  setp i f e s = Ret tt e (upd_procs (alter f i) s) /\
  procs (pt (upd_procs (alter f i) s)) !! i = Some (f p).
Proof.
  intros Hp. split; [by eapply setp_run|]. cbn. by rewrite list_lookup_alter_eq, Hp.
Qed.

Lemma kmem_inv_pt s s' pages :
  vm s' = vm s -> link s' = link s -> kmem_inv s pages -> kmem_inv s' pages.
Proof. unfold kmem_inv. by intros -> ->. Qed.

(** The first half, under ptable.lock. *)
Definition claimed (pid : Z) (i : nat) (s : kstate) : kstate :=
  s <| pt ::= fun t => t <| procs ::= alter (fun p => p <| p_state := EMBRYO |> <| p_pid := pid |>
                                                     <| p_container_id := -1 |>) i |>
                        <| nextpid := pid + 1 |> |>.

Lemma claim_run i p k e s :
  procs (pt s) !! i = Some p -> nextpid (pt s) < 2 ^ 31 - 1 ->
  sync_ok (sync s) -> free L_ptable (sync s) ->
  ((setp i (fun pr => pr <| p_state := EMBRYO |>) ;;
    n ← gets (fun s => nextpid (pt s)) ;
    if n =? 2 ^ 31 - 1 then undef "nextpid++" else
    setp i (fun pr => pr <| p_pid := n |>) ;;
    modify (fun s => s <| pt ::= fun t => t <| nextpid := n + 1 |> |>) ;;
    setp i (fun pr => pr <| p_container_id := -1 |>) ;;
    release L_ptable ;; k) : M (option nat)) e (s <| sync ::= lock_sync L_ptable |>) =
  k e ((claimed (nextpid (pt s)) i s) <| sync ::= settle |>).
Proof.
  intros Hp Hn Hok Hf. set (s0 := s <| sync ::= lock_sync L_ptable |>).
  destruct (setp_alter i (fun pr => pr <| p_state := EMBRYO |>) p e s0 Hp) as [H1 Hp1].
  erewrite bind_Ret by exact H1. erewrite bind_Ret by reflexivity. cbn [nextpid pt].
  change (nextpid (pt (upd_procs _ s0))) with (nextpid (pt s)).
  rewrite (proj2 (Z.eqb_neq _ _)) by lia.
  edestruct (setp_alter i (fun pr => pr <| p_pid := nextpid (pt s) |>) _ e _ Hp1) as [H2 Hp2].
  erewrite bind_Ret by exact H2. erewrite bind_Ret by reflexivity.
  erewrite bind_Ret by (eapply setp_run; exact Hp2).
  erewrite bind_Ret by (by apply (release_run _ _ _ (sync s))).
  f_equal. unfold claimed, upd_procs, s0, upd. cbn. do 2 f_equal.
  rewrite !list_alter_alter_eq. done.
Qed.

Lemma stack_offsets en k :
  KERNBASE <= en -> is_page en k ->
  let sp := u32 (u32 (k + KSTACKSIZE - tf_size) - 4) in
  sp = u32 (k + 4016) /\
  (forall i, u32 (u32 (sp - context_size) + 4 * i) = u32 (k + (3996 + 4 * i))) /\
  u32 (u32 (sp - context_size) + 16) = u32 (k + 4012).
Proof.
  intros Hen Hk. unfold KSTACKSIZE, tf_size, context_size.
  assert (u32 (u32 (k + 4096 - 76) - 4) = u32 (k + 4016)) as ->.
  { rewrite u32_sub_l. f_equal. lia. }
  split; [done|]. split; [intros i|]; rewrite u32_sub_l, u32_add_l; f_equal; lia.
Qed.

(** The second half: the kernel stack. *)
Lemma stack_run i p pages e s :
  procs (pt s) !! i = Some p -> kmem_inv s pages -> kmem_ready s ->
  let k := default 0 (head pages) in
  exists s',
    ((k ← kalloc ;
      setp i (fun pr => pr <| p_kstack := k |>) ;;
      if k =? 0 then setp i (fun pr => pr <| p_state := UNUSED |>) ;; ret None else
      lk ← gets link ;
      let sp := u32 (k + KSTACKSIZE - tf_size) in
      let sp := u32 (sp - 4) in
      kstore sp (l_trapret lk) ;;
      let sp := u32 (sp - context_size) in
      setp i (fun pr => pr <| p_context := sp |>) ;;
      for_each (range 0 5) (fun j => kstore (u32 (sp + 4 * j)) 0) ;;
      kstore (u32 (sp + 16)) (l_forkret lk) ;;
      ret (Some i)) : M (option nat)) e s = Ret (if k =? 0 then None else Some i) e s' /\
    (exists s1, kmem_frame s s1 /\ kmem_inv s1 (tail pages) /\ mem (vm s1) = mem (vm s) /\
       exists m', s' = (upd_procs (alter (fun p =>
           if k =? 0 then p <| p_kstack := k |> <| p_state := UNUSED |>
           else p <| p_kstack := k |>
                  <| p_context := u32 (u32 (u32 (k + KSTACKSIZE - tf_size) - 4) - context_size) |>) i) s1)
                 <| vm ::= fun w => w <| mem := m' |> |> /\
         forall a, (k <> 0 -> ~ in_page k a) -> word_at m' a = word_at (mem (vm s)) a).
Proof.
  intros Hp Hinv Hready k. destruct (kalloc_spec e s pages) as (s1 & Hrun & Hfr & Hinv1 & Hm); [done..|].
  fold k in Hrun. erewrite (bind_Ret kalloc) by exact Hrun.
  assert (procs (pt s1) !! i = Some p) as Hp1 by (by destruct Hfr as (? & ? & ? & -> & _)).
  destruct (setp_alter i (fun pr => pr <| p_kstack := k |>) p e s1 Hp1) as [H2 Hp2].
  erewrite bind_Ret by exact H2. set (s2 := upd_procs _ s1) in *.
  destruct (Z.eqb_spec k 0) as [Hk|Hk].
  - eexists. split.
    + erewrite bind_Ret by (eapply setp_run; exact Hp2). reflexivity.
    + exists s1. split_and!; try done. exists (mem (vm s)). split; [|done].
      unfold s2. rewrite upd_procs_upd. rewrite <-Hm. unfold upd_procs, upd; cbn.
      rewrite list_alter_alter_eq. by destruct (vm s1).
  - assert (is_page (l_end (link s1)) k) as Hpage.
    { unfold k in *. destruct pages as [|v pages]; [done|]. destruct Hinv as (_ & _ & _ & Hpg).
      apply Forall_cons in Hpg as [Hpg _]. by rewrite (kmem_frame_link _ _ Hfr). }
    pose proof (proj1 Hinv1) as Hen.
    destruct (stack_offsets _ k Hen Hpage) as (Ho1 & Ho2 & Ho3).
    erewrite bind_Ret by reflexivity. cbn zeta. rewrite Ho1.
    destruct (kstore_page _ k 4016 (l_trapret (link s2)) e s2 Hen Hpage) as (s3 & H3 & Hw3); [unfold PGSIZE; lia|].
    erewrite bind_Ret by exact H3. rewrite <-Ho1.
    assert (procs (pt s3) !! i = Some (p <| p_kstack := k |>)) as Hp3 by (by destruct Hw3 as (? & -> & _)).
    destruct (setp_alter i (fun pr => pr <| p_context :=
      u32 (u32 (u32 (k + KSTACKSIZE - tf_size) - 4) - context_size) |>) _ e s3 Hp3) as [H4 _].
    erewrite bind_Ret by exact H4. set (s4 := upd_procs _ s3) in *.
    destruct (kstores_page _ k (range 0 5) (fun j => 3996 + 4 * j) 0 e s4 Hen Hpage) as (s5 & H5 & Hw5).
    { intros j Hj. apply elem_of_seqZ in Hj. unfold PGSIZE. lia. }
    erewrite bind_Ret.
    2:{ erewrite for_each_ext; [exact H5|]. intros j e' s'. by rewrite Ho2. }
    rewrite Ho3.
    destruct (kstore_page _ k 4012 (l_forkret (link s2)) e s5 Hen Hpage) as (s6 & H6 & Hw6); [unfold PGSIZE; lia|].
    exists s6. erewrite bind_Ret by exact H6. split; [done|]. exists s1. split_and!; try done.
    destruct (page_write_trans _ _ _ _ Hw5 Hw6) as (m6 & -> & Hm6).
    destruct Hw3 as (m3 & -> & Hm3). exists m6. split.
    + unfold s4, s2, upd_procs, upd; cbn. rewrite list_alter_alter_eq. done.
    + intros a Ha. rewrite Hm6 by auto. unfold s4; cbn. rewrite Hm3 by auto. unfold s2; cbn. by rewrite Hm.
Qed.

(** From [s] to [s'] only the process table, memory, the free list and the saved interrupt flag
    differ. *)
Definition proc_frame (s s' : kstate) : Prop :=
  exists t m fl sy, s' = s <| pt := t |> <| vm ::= fun w => w <| mem := m |> <| freelist := fl |> |>
                           <| sync := sy |> /\ settled (sync s) sy.

Lemma allocproc_spec e s pages :
  nprocs s -> sync_ok (sync s) -> free L_ptable (sync s) -> free L_kmem (sync s) ->
  kmem_inv s pages -> nextpid (pt s) < 2 ^ 31 - 1 ->
  match findi (is_state UNUSED) (procs (pt s)) with
  | None => allocproc e s = Ret None e (s <| sync ::= settle |>)
  | Some i =>
      let k := default 0 (head pages) in
      exists s', allocproc e s = Ret (if k =? 0 then None else Some i) e s' /\
        procs (pt s') = alter (fresh_proc (nextpid (pt s)) k) i (procs (pt s)) /\
        nextpid (pt s') = nextpid (pt s) + 1 /\ proc_frame s s' /\
        kmem_inv s' (tail pages) /\
        forall a, (k <> 0 -> ~ in_page k a) -> word_at (mem (vm s')) a = word_at (mem (vm s)) a
  end.
Proof.
  intros Hn Hok Hf Hfk Hinv Hpid. unfold allocproc.
  destruct (findi (is_state UNUSED) (procs (pt s))) as [i|] eqn:E; cbn zeta.
  2:{ erewrite bind_Ret by (by apply acquire_run). erewrite bind_Ret by reflexivity.
      change (procs (pt (s <| sync ::= lock_sync L_ptable |>))) with (procs (pt s)). rewrite E.
      by erewrite bind_Ret by (by apply (release_run _ _ _ (sync s))). }
  pose proof E as [(p & Hp & _) _]%findi_Some.
  set (s1 := (claimed (nextpid (pt s)) i s) <| sync ::= settle |>).
  assert (kmem_inv s1 pages) as Hinv1 by (by apply (kmem_inv_pt s)).
  assert (kmem_ready s1) as Hr1 by (right; cbn; auto with xv6).
  destruct (stack_run i _ pages e s1
    ltac:(cbn; rewrite list_lookup_alter_eq, Hp; reflexivity) Hinv1 Hr1)
    as (s' & Hrun & s2 & Hfr & Hinv2 & Hm2 & m' & Hs' & Hout).
  exists s'. split.
  { erewrite bind_Ret by (by apply acquire_run). erewrite bind_Ret by reflexivity.
    change (procs (pt (s <| sync ::= lock_sync L_ptable |>))) with (procs (pt s)). rewrite E.
    erewrite claim_run by done. exact Hrun. }
  assert (pt s2 = pt s1) as Hpt by (by destruct Hfr as (? & ? & ? & -> & _)).
  pose proof (kmem_frame_link _ _ Hfr) as Hl2.
  split_and!.
  - subst s'. cbn. rewrite Hpt. unfold s1. cbn. rewrite list_alter_alter_eq.
    apply list_alter_ext; [|done]. intros p' _. unfold fresh_proc. cbn.
    by destruct (default 0 (head pages) =? 0).
  - subst s'. cbn. by rewrite Hpt.
  - destruct Hfr as (m2 & fl2 & sy2 & -> & Hsy). subst s'.
    eexists _, m', fl2, sy2. split; [unfold upd_procs, upd; cbn; reflexivity|].
    eapply settled_trans; [|exact Hsy]. cbn. auto with xv6.
  - subst s'. destruct Hinv2 as (Hen & Hfl & Hnd & Hpg).
    split; [exact Hen|]. split; [|done]. apply (flist_frame _ _ _ _ Hfl).
    intros v Hv. cbn. rewrite Hm2. apply Hout. intros Hk.
    destruct pages as [|k pages]; [done|]. cbn in Hk, Hv |- *.
    destruct Hinv as (Hen' & _ & Hnd' & Hpg'). apply NoDup_cons in Hnd' as [Hni _].
    apply Forall_cons in Hpg' as [Hpk Hpg']. rewrite Forall_forall in Hpg'.
    eapply pages_apart; [exact Hen'|done|by apply Hpg'|]. by intros ->.
  - intros a Ha. subst s'. cbn. by apply Hout.
Qed.
