(* ===== verification/Interfere.v ===== *)
(** * Other processors between two lock operations

    A kernel function of the model lets others run where it waits.  Here they also run around
    each lock operation: [acquire_i] and [release_i] take a step of the environment before and
    after the operation, which stands for everything the other processors do in the meantime.
    [others] is what they may do; the theorem is that sleep, run with such steps, does not miss
    a wakeup. *)

From stdpp Require Import base list gmap strings fin_maps.
From S2P Require Import Prelude State Monad Spinlock Sched.
Open Scope Z_scope.

Definition acquire_i (l : lockid) : M unit := switch ;; acquire l ;; switch.
Definition release_i (l : lockid) : M unit := switch ;; release l ;; switch.

(** ** The lock state as the other processors change it *)

(** The processor that runs, its [struct cpu] and its locks stay as they are. *)
Definition elsewhere (sy sy' : ksync) : Prop :=
  lapic_id sy' = lapic_id sy /\ ncpu sy' = ncpu sy /\ IF sy' = IF sy /\
  apicid <$> cpus sy' = apicid <$> cpus sy /\ cpus sy' !! me sy = cpus sy !! me sy /\
  forall l, held sy' !! l = Some (me sy) <-> held sy !! l = Some (me sy).

Lemma elsewhere_cur sy sy' : elsewhere sy sy' -> cur_cpu sy' = cur_cpu sy.
Proof.
  intros (Hl & Hn & _ & Ha & _). unfold cur_cpu. rewrite Hl, Hn.
  rewrite <-!(findi_fmap (fun a => a =? lapic_id sy) apicid), <-!firstn_map.
  change (map apicid) with (fmap (M := list) apicid). by rewrite Ha.
Qed.

Lemma elsewhere_me sy sy' : elsewhere sy sy' -> me sy' = me sy.
Proof. intros H. unfold me. by rewrite (elsewhere_cur sy sy'). Qed.

Lemma elsewhere_my sy sy' : elsewhere sy sy' -> my sy' = my sy.
Proof.
  intros H. unfold my. rewrite (elsewhere_me sy sy' H). by destruct H as (_ & _ & _ & _ & -> & _).
Qed.

Lemma elsewhere_ok sy sy' : elsewhere sy sy' -> sync_ok sy -> sync_ok sy'.
Proof.
  intros H (i & c & Hi & Hc & Hn). pose proof (elsewhere_cur sy sy' H) as Hcur.
  assert (me sy = i) as Hme by (unfold me; by rewrite Hi).
  destruct H as (_ & _ & HIF & _ & Hm & _). exists i, c. rewrite Hcur, HIF. split; [done|].
  rewrite Hme in Hm. by rewrite Hm.
Qed.

(** A lock of this processor seen through the others' steps: it can be taken off again. *)
Lemma elsewhere_lock l sy sy' :
  sync_ok sy -> free l sy -> elsewhere (lock_sync l sy) sy' ->
  exists sy0, sy' = lock_sync l sy0 /\ elsewhere sy sy0 /\ free l sy0.
Proof.
  intros Hok Hf H. pose proof (elsewhere_me _ _ H) as Hme. rewrite me_lock in Hme.
  destruct H as (Hl & Hn & HIF & Ha & Hc & Hh). rewrite me_lock in Hc, Hh.
  destruct (sync_ok_inv sy Hok) as (Hcur & Hmy & _).
  assert (cpus (lock_sync l sy) !! me sy = Some (my (push sy))) as Hpush.
  { pose proof (sync_ok_inv _ (sync_ok_lock l sy Hok)) as (_ & E & _). by rewrite me_lock, my_lock in E. }
  rewrite Hpush in Hc.
  set (sy0 := sy' <| cpus ::= <[me sy := my sy]> |> <| IF := IF sy |> <| held ::= delete l |>).
  assert (apicid <$> cpus sy0 = apicid <$> cpus sy) as Ha0.
  { unfold sy0. cbn. rewrite list_fmap_insert, Ha. unfold lock_sync, push, upd_me. cbn.
    apply list_eq. intros k. destruct (decide (k = me sy)) as [->|Hne].
    - rewrite list_lookup_insert_eq, list_lookup_fmap, Hmy; [done|].
      rewrite length_fmap, length_alter. by eapply lookup_lt_Some.
    - rewrite list_lookup_insert_ne, !list_lookup_fmap, list_lookup_alter_ne by done. done. }
  assert (elsewhere sy sy0) as He.
  { unfold sy0. split_and!; try done.
    - cbn. rewrite list_lookup_insert_eq, Hmy; [done|]. by eapply lookup_lt_Some.
    - intros k. cbn. destruct (decide (k = l)) as [->|Hne].
      + rewrite lookup_delete_eq. unfold free in Hf. by rewrite Hf.
      + rewrite lookup_delete_ne, Hh by done. cbn. by rewrite lookup_insert_ne. }
  exists sy0. split; [|split; [done|unfold free, sy0; cbn; apply lookup_delete_eq]].
  unfold lock_sync, push, upd_me. rewrite (elsewhere_me _ _ He).
  assert (held sy' !! l = Some (me sy)) as Hhl by (apply Hh; cbn; apply lookup_insert_eq).
  rewrite my_push in Hc by done. rewrite IF_lock in HIF.
  subst sy0. destruct sy' as [cs n lid fl h sl]. unfold upd in *. cbn in *. subst fl. f_equal.
  - apply list_eq. intros k. destruct (decide (k = me sy)) as [->|Hne].
    + rewrite list_lookup_alter_eq, list_lookup_insert_eq, Hc by (by eapply lookup_lt_Some). done.
    + by rewrite list_lookup_alter_ne, list_lookup_insert_ne.
  - by rewrite insert_delete_id.
Qed.

(** ** What the other processors may do *)

(** Another processor holds [lk]. *)
Definition other_holds (lk : lockid) (s : kstate) : Prop :=
  exists o, held (sync s) !! lk = Some o /\ o <> me (sync s).

(** A lock of this processor. *)
Definition mine (l : lockid) (s : kstate) : Prop := held (sync s) !! l = Some (me (sync s)).

(** The steps of the others, for a condition [cond] that processes wait for on a channel with
    the lock [lk]:
    - they leave this processor alone, and its locks;
    - they change the process table only under its lock;
    - they change the condition only under [lk];
    - they call wakeup, which needs ptable.lock, before they release the [lk] under which they made the
      condition true: while ptable.lock is taken here, whoever made it true still holds [lk]. *)
Record others (lk : lockid) (cond : kstate -> Prop) (s s' : kstate) : Prop := {
  o_sync : elsewhere (sync s) (sync s');
  o_table : mine L_ptable s -> pt s' = pt s;
  o_cond : mine lk s -> cond s' -> cond s;
  o_wake : mine L_ptable s -> cond s' -> other_holds lk s' \/ (cond s /\ ~ other_holds lk s)
}.

Section sleep.
Context (ch : chan) (lk : lockid) (Hlk : lk <> L_ptable).
(** The condition is neither in the lock state nor in the process table. *)
Context (cond : kstate -> Prop) (cond_sync : forall s sy, cond (s <| sync := sy |>) <-> cond s)
        (cond_procs : forall s g, cond (upd_procs g s) <-> cond s).

(** The rest of sleep, after the processor was given up. *)
Definition sleep_tail_i (p : nat) (fl : bool) : M unit :=
  sched_back fl ;;
  setp p (fun pr => pr <| p_chan := None |>) ;;
  when (bool_decide (lk <> L_ptable)) (release_i L_ptable ;; acquire_i lk).

(** Both locks are taken here: the others' step keeps the table, the locks and the condition. *)
Lemma both_locked f s sy :
  (forall t, others lk cond t (f t)) -> sync_ok sy -> free lk sy -> free L_ptable sy ->
  sync s = lock_sync L_ptable (lock_sync lk sy) -> ~ cond s ->
  exists sy', sync (f s) = lock_sync L_ptable (lock_sync lk sy') /\ elsewhere sy sy' /\
    free lk sy' /\ free L_ptable sy' /\ pt (f s) = pt s /\ ~ cond (f s).
Proof.
  intros Hf Hok Hfl Hfp Hs Hc. destruct (Hf s) as [H1 H2 H3 _].
  assert (mine L_ptable s) as Hm by (unfold mine; rewrite Hs, me_lock; apply lookup_insert_eq).
  assert (mine lk s) as Hml.
  { unfold mine. rewrite Hs, !me_lock. cbn. rewrite lookup_insert_ne by done. apply lookup_insert_eq. }
  rewrite Hs in H1. destruct (elsewhere_lock L_ptable (lock_sync lk sy) (sync (f s))) as (sy1 & E1 & E2 & E3);
    [by apply sync_ok_lock|by apply free_lock|exact H1|].
  destruct (elsewhere_lock lk sy sy1) as (sy2 & -> & E4 & E5); [done..|].
  exists sy2. split_and!; try done; [|by apply H2|by intros Hx; apply Hc, H3].
  unfold free, lock_sync in E3. cbn in E3. by rewrite lookup_insert_ne in E3 by done.
Qed.

Lemma elsewhere_trans sy1 sy2 sy3 : elsewhere sy1 sy2 -> elsewhere sy2 sy3 -> elsewhere sy1 sy3.
Proof.
  intros H1 H2. pose proof (elsewhere_me _ _ H1) as Hme.
  destruct H1 as (A1 & A2 & A3 & A4 & A5 & A6), H2 as (B1 & B2 & B3 & B4 & B5 & B6).
  rewrite Hme in B5, B6. split_and!; try congruence. intros l. by rewrite B6.
Qed.

(** The lock operations of sleep; the lock of the table is free once [f1] is done, which stands
    for the spinning too. *)
Lemma swap_locks_i sy s f1 f2 f3 f4 e :
  sync s = lock_sync lk sy -> sync_ok sy -> free lk sy -> ~ cond s ->
  (forall f, f ∈ [f1; f2; f3; f4] -> forall t, others lk cond t (f t)) -> free L_ptable (sync (f1 s)) ->
  exists sy4 s4, (acquire_i L_ptable ;; release_i lk) (f1 :: f2 :: f3 :: f4 :: e) s = Ret tt e s4 /\
    sync s4 = lock_sync L_ptable sy4 /\ elsewhere sy sy4 /\ free L_ptable sy4 /\ pt s4 = pt (f1 s) /\
    (cond s4 -> other_holds lk s4).
Proof.
  intros Hs Hok Hfl Hcond Hf Hfree.
  (* the spinning *)
  destruct (Hf f1 ltac:(set_solver) s) as [O1 _ O3 _]. rewrite Hs in O1.
  destruct (elsewhere_lock lk sy _ Hok Hfl O1) as (sy1 & E1 & He1 & Hf1).
  assert (~ cond (f1 s)) as Hc1.
  { intros Hx. apply Hcond, O3; [|done]. unfold mine. rewrite Hs, me_lock. apply lookup_insert_eq. }
  assert (free L_ptable sy1) as Hfp1.
  { rewrite E1 in Hfree. unfold free, lock_sync in Hfree. cbn in Hfree. by rewrite lookup_insert_ne in Hfree by done. }
  pose proof (elsewhere_ok _ _ He1 Hok) as Hok1.
  (* the steps with both locks taken *)
  set (s1 := (f1 s) <| sync := lock_sync L_ptable (sync (f1 s)) |>).
  destruct (both_locked f2 s1 sy1) as (sy2 & E2 & He2 & Hf2 & Hfp2 & Hpt2 & Hc2); try done.
  { apply Hf. set_solver. }
  { unfold s1. cbn. by rewrite E1. }
  { unfold s1. by rewrite cond_sync. }
  pose proof (elsewhere_ok _ _ He2 Hok1) as Hok2.
  destruct (both_locked f3 (f2 s1) sy2) as (sy3 & E3 & He3 & Hf3 & Hfp3 & Hpt3 & Hc3); try done.
  { apply Hf. set_solver. }
  pose proof (elsewhere_ok _ _ He3 Hok2) as Hok3.
  (* the step after the release *)
  set (s3 := (f3 (f2 s1)) <| sync := lock_sync L_ptable sy3 |>).
  assert (mine L_ptable s3) as Hm3 by (unfold mine, s3; cbn; rewrite me_lock; apply lookup_insert_eq).
  destruct (Hf f4 ltac:(set_solver) s3) as [P1 P2 _ P4].
  destruct (elsewhere_lock L_ptable sy3 _ Hok3 Hfp3 P1) as (sy4 & E4 & He4 & Hf4).
  exists sy4, (f4 s3). split_and!; try done.
  - unfold acquire_i, release_i. rewrite !bind_bind. erewrite bind_Ret by reflexivity.
    rewrite ?bind_bind. erewrite bind_Ret by (apply acquire_run; [rewrite E1; auto with xv6|done]).
    do 2 erewrite bind_Ret by reflexivity. change ((f1 s) <| sync ::= lock_sync L_ptable |>) with s1.
    erewrite bind_Ret.
    2: { apply (release_run _ _ _ (lock_sync L_ptable sy3)); [|auto with xv6|by apply free_lock].
         rewrite E3. by apply lock_comm. }
    rewrite settle_lock by done. done.
  - eapply elsewhere_trans; [|exact He4]. eapply elsewhere_trans; [|exact He3]. by eapply elsewhere_trans.
  - rewrite P2 by done. unfold s3. cbn. by rewrite Hpt3, Hpt2.
  - intros Hx. destruct (P4 Hm3 Hx) as [|[Hy _]]; [done|]. unfold s3 in Hy. by rewrite cond_sync in Hy.
Qed.

(** sleep run with others' steps around its lock operations. *)
Lemma sleep_interfered p pr sy s f1 f2 f3 f4 e :
  only_lock lk p sy s -> ~ cond s -> (forall f, f ∈ [f1; f2; f3; f4] -> forall t, others lk cond t (f t)) ->
  free L_ptable (sync (f1 s)) -> procs (pt (f1 s)) !! p = Some pr ->
  exists s1, sleep_on acquire_i release_i ch lk (f1 :: f2 :: f3 :: f4 :: e) s =
      (switch ;; sleep_tail_i p (IF sy)) e s1 /\
    mine L_ptable s1 /\ (cond s1 -> other_holds lk s1) /\
    procs (pt s1) = alter (fun pr => pr <| p_chan := Some ch |> <| p_state := SLEEPING |>) p (procs (pt (f1 s))).
Proof.
  intros (Hs & Hok & Hfl & Hn & Hc) Hcond Hf Hfree Hp.
  assert (sync_ok (sync s)) as Hok' by (rewrite Hs; auto with xv6).
  destruct (my_locked lk sy Hok Hn) as (_ & _ & H3).
  unfold sleep_on. erewrite bind_Ret by (by apply myproc_run).
  rewrite (settle_locked _ _ _ Hs Hok), Hs, H3, Hc. rewrite bool_decide_eq_true_2 by done. cbn [when].
  destruct (swap_locks_i sy s f1 f2 f3 f4 e) as (sy4 & s4 & Hrun & E4 & He & Hf4 & Hpt & Hw); try done.
  pose proof (elsewhere_my _ _ He) as Hmy. exists (park ch p s4). split_and!.
  - erewrite bind_Ret by exact Hrun. erewrite park_run; [|split_and!; [exact E4|by eapply elsewhere_ok|done|by rewrite Hmy..]|].
    + destruct He as (_ & _ & -> & _). unfold sleep_tail_i. by rewrite bool_decide_eq_true_2.
    + by rewrite Hpt.
  - unfold mine. cbn. rewrite E4, me_lock. apply lookup_insert_eq.
  - unfold park. rewrite cond_procs. exact Hw.
  - cbn. by rewrite Hpt.
Qed.
End sleep.

(** ** A processor that wakes *)

Definition set_held (g : gmap lockid nat -> gmap lockid nat) (s : kstate) : kstate :=
  s <| sync ::= fun sy => sy <| held ::= g |> |>.

(** Processor [o] in its next step: acquire(lk) and the change [set] of the condition; then
    wakeup(ch) and release(lk).  It waits while a lock that it needs is taken. *)
Definition waker (o : nat) (ch : chan) (lk : lockid) (set : kstate -> kstate) (s : kstate) : kstate :=
  if decide (me (sync s) = o) then s else
  match held (sync s) !! lk with
  | None => set (set_held <[lk := o]> s)
  | Some o' =>
      if decide (o' = o /\ held (sync s) !! L_ptable = None)
      then set_held (delete lk) (upd_procs (map (wake (Some ch))) s) else s
  end.

Lemma elsewhere_refl sy : elsewhere sy sy.
Proof. by split_and!. Qed.

Lemma elsewhere_held sy g :
  (forall l, g (held sy) !! l = Some (me sy) <-> held sy !! l = Some (me sy)) -> elsewhere sy (sy <| held ::= g |>).
Proof. intros Hg. by split_and!. Qed.

Lemma waker_others o ch lk set cond s :
  (forall t, sync (set t) = sync t /\ pt (set t) = pt t) ->
  (forall t g, cond (set_held g t) <-> cond t) -> (forall t g, cond (upd_procs g t) <-> cond t) ->
  others lk cond s (waker o ch lk set s).
Proof.
  intros Hset Hch Hcp.
  assert (others lk cond s s) as Hid.
  { split; [apply elsewhere_refl|done|done|]. intros _ Hc. unfold other_holds.
    destruct (held (sync s) !! lk) as [o'|]; [|right; split; [done|by intros (? & ? & _)]].
    destruct (decide (o' = me (sync s))) as [->|]; [right|left; eauto].
    split; [done|]. by intros (? & [= ->] & ?). }
  unfold waker. destruct (decide (me (sync s) = o)) as [|Hne]; [done|].
  destruct (held (sync s) !! lk) as [o'|] eqn:Hlk.
  - destruct (decide _) as [[-> Hpt]|]; [|done]. split; cbn.
    + apply elsewhere_held. intros l. destruct (decide (l = lk)) as [->|Hl].
      * rewrite lookup_delete_eq, Hlk. split; [done|congruence].
      * by rewrite lookup_delete_ne.
    + unfold mine. by rewrite Hpt.
    + unfold mine. rewrite Hlk. congruence.
    + unfold mine. by rewrite Hpt.
  - destruct (Hset (set_held <[lk := o]> s)) as [Hsy Hp]. split.
    + rewrite Hsy. apply elsewhere_held. intros l. destruct (decide (l = lk)) as [->|Hl].
      * rewrite lookup_insert_eq, Hlk. split; congruence.
      * by rewrite lookup_insert_ne.
    + by rewrite Hp.
    + unfold mine. by rewrite Hlk.
    + intros _ _. left. exists o. rewrite Hsy. cbn. rewrite lookup_insert_eq. auto.
Qed.
