(* ===== verification/Ipc.v ===== *)
(** * Message passing: the queues, send, recv and their relatives in proc.c *)

From stdpp Require Import base list gmap strings fin_maps.
From S2P Require Import Prelude State Monad Spinlock Console Kalloc Str Vm Umem Sched.
Open Scope Z_scope.

(** ** The message queue *)

Definition isEmpty (q : queue) : bool := q_size q =? 0.

(** [for(i = 0; i < 8; i++) array[rear][i] = item[i]] on a row. *)
Definition copy8 (item row : list Z) : list Z := take 8 item ++ drop 8 row.

Definition enqueue (q : queue) (item : list Z) : Z * queue :=
  if q_size q =? MSGBUFFSIZE then (-1, q) else
  let q := q <| q_rear := Z.rem (q_rear q + 1) MSGBUFFSIZE |> in
  let q := q <| q_array ::= alter (copy8 item) (Z.to_nat (q_rear q)) |> in
  (0, q <| q_size := q_size q + 1 |>).

Definition dequeue (q : queue) : Z * queue :=
  if isEmpty q then (-1, q) else
  let q := q <| q_front := Z.rem (q_front q + 1) MSGBUFFSIZE |> in
  (0, q <| q_size := q_size q - 1 |>).

(** rear and front return a pointer to a row: its index. *)
Definition rear (q : queue) : Z := q_rear q.
Definition front (q : queue) : Z := q_front q + 1.

Definition print_queue (q : queue) : M unit :=
  for_each (range (q_front q + 1) (q_rear q + 1)) (fun i =>
    row ← index "array[i]" (q_array q) i ;
    cprintf "   queue element: %d
" [AInt (Z.lor (Z.lor (Z.lor (nthz 0 row 0) (Z.shiftl (nthz 0 row 1) 8))
                 (Z.shiftl (nthz 0 row 2) 16)) (Z.shiftl (nthz 0 row 3) 24))]).

(** ** send and recv *)

Definition set_ipc (f : ipcst -> ipcst) : M unit := modify (fun s => s <| ipc ::= f |>).

(** msg_queue[i]: there are NPROC of them. *)
Definition get_queue (i : Z) : M queue :=
  qs ← gets (fun s => msg_queue (ipc s)) ;
  index "msg_queue[i]" qs i.
Definition set_queue (i : Z) (q : queue) : M unit :=
  set_ipc (fun x => x <| msg_queue ::= <[Z.to_nat i := q]> |>).

(** The lock of msg_queue[i]. *)
Definition queue_lock (i : Z) : M lockid :=
  get_queue i ;; ret (L_msgq (Z.to_nat i)).

(** The slot of the process with the given pid; NPROC when there is none. *)
Definition proc_with_pid (pid : Z) : M nat :=
  ps ← gets (fun s => procs (pt s)) ;
  ret (default (length ps) (findi (fun p => p_pid p =? pid) ps)).

Definition send (send_pid rec_pid msg : Z) : M Z :=
  p ← proc_with_pid rec_pid ;
  pr ← getp p ;
  when (is_state SLEEPING pr) (wakeup (Ch_proc p)) ;;
  pr ← getp p ;
  let i := p_pid pr - 1 in
  l ← queue_lock i ;
  acquire l ;;
  in_msg ← uloads 8 msg ;
  q ← get_queue i ;
  let '(r, q) := enqueue q in_msg in
  if r <? 0 then ret (-1) else
  set_queue i q ;;
  release l ;;
  ret 0.

(** strncpy(msg, m, n) from a row of the queue to a user address. *)
Fixpoint ustrncpy (n : nat) (msg : Z) (m : list Z) : M unit :=
  match n with
  | O => ret tt
  | S n =>
      let c := default 0 (head m) in
      ustore8 msg c ;;
      ustrncpy n (u32 (msg + 1)) (if c =? 0 then [] else tail m)
  end.

Definition recv (msg : Z) : M Z :=
  p ← myproc ;
  p ← the_proc p ;
  pr ← getp p ;
  let i := p_pid pr - 1 in
  q ← get_queue i ;
  when (q_size q =? 0)
    (acquire L_ptable ;; sleep (Ch_proc p) L_ptable ;; release L_ptable) ;;
  q ← get_queue i ;
  let m := front q in
  l ← queue_lock i ;
  acquire l ;;
  q ← get_queue i ;
  let '(r, q) := dequeue q in
  if r <? 0 then ret (-1) else
  set_queue i q ;;
  q ← get_queue i ;
  row ← index "array[front + 1]" (q_array q) m ;
  ustrncpy 8 msg row ;;
  release l ;;
  ret 0.

(** ** Multicast to sleeping siblings *)

Definition store (brother_pid sister_pid : Z) : M Z :=
  n ← gets (fun s => map_len (ipc s)) ;
  m ← gets (fun s => sib_map (ipc s)) ;
  index "map[map_len]" m n ;;
  set_ipc (fun x => x <| sib_map ::= <[Z.to_nat n := mkMap brother_pid sister_pid]> |>) ;;
  set_ipc (fun x => x <| map_len := n + 1 |>) ;;
  ret 0.

Definition sleepcustom (p_pid : Z) : M Z :=
  p ← proc_with_pid p_pid ;
  acquire L_ptable ;;
  sleep (Ch_proc p) L_ptable ;;
  release L_ptable ;;
  ret 0.

Definition wakeupcustom (p_pid : Z) : M Z :=
  p ← proc_with_pid p_pid ;
  wakeup1 (Some (Ch_proc p)) ;;
  ret 0.

Definition send_multi (send_pid : Z) (rec_pid : list Z) (msg len : Z) : M Z :=
  bs ← uloads 8 msg ;
  set_ipc (fun x => x <| mean_buffer := bs |>) ;;
  for_each (range 0 len) (fun i =>
    r ← index "rec_pid[i]" rec_pid i ;
    n ← gets (fun s => map_len (ipc s)) ;
    for_until (range 0 n) (fun j =>
      m ← gets (fun s => sib_map (ipc s)) ;
      e ← index "map[j]" m j ;
      if m_b e =? r then wakeupcustom (m_s e) ;; ret (Some tt) else ret None) ;;
    ret tt) ;;
  ret 0.

Definition read_mean (mean : Z) : M Z :=
  for_each (range 0 8) (fun i =>
    m ← gets (fun s => mean_buffer (ipc s)) ;
    b ← index "mean_buffer[i]" m i ;
    ustore8 (u32 (mean + i)) b) ;;
  ret 0.

(** A copy of the process with the given pid. *)
Definition get_proc (pid : Z) : M proc :=
  p ← proc_with_pid pid ;
  getp p.

(** ** The queue refines a bounded first-in first-out list *)

Record queue_ok (q : queue) : Prop := {
  qk_front : 0 <= q_front q < MSGBUFFSIZE;
  qk_size : 0 <= q_size q <= MSGBUFFSIZE;
  qk_rear : q_rear q = (q_front q + q_size q) mod MSGBUFFSIZE;
  qk_array : length (q_array q) = Z.to_nat MSGBUFFSIZE;
  qk_rows : Forall (fun row => length row = 8%nat) (q_array q)
}.

(** The row of the [i]-th message from the front, and the messages in order. *)
Definition queue_row (q : queue) (i : Z) : Z := (q_front q + 1 + i) mod MSGBUFFSIZE.
Definition queue_list (q : queue) : list (list Z) :=
  (fun i => nthz [] (q_array q) (queue_row q i)) <$> seqZ 0 (q_size q).

Lemma queue_row_range q i : 0 <= queue_row q i < MSGBUFFSIZE.
Proof. by apply Z.mod_pos_bound. Qed.

Lemma queue_list_length q : 0 <= q_size q -> length (queue_list q) = Z.to_nat (q_size q).
Proof. intros. unfold queue_list. by rewrite length_fmap, length_seqZ. Qed.

Lemma zero_queue_ok : queue_ok zero_queue /\ queue_list zero_queue = [].
Proof.
  split; [|done]. split; cbn; try (unfold MSGBUFFSIZE; lia || done).
  by apply Forall_replicate.
Qed.

Lemma nthz_alter_eq {A} (d : A) f l i :
  0 <= i < Z.of_nat (length l) -> nthz d (alter f (Z.to_nat i) l) i = f (nthz d l i).
Proof.
  intros Hi. unfold nthz. destruct (Z.ltb_spec i 0); [lia|].
  rewrite list_lookup_alter_eq. destruct (l !! Z.to_nat i) as [x|] eqn:E; [done|].
  apply lookup_ge_None in E. lia.
Qed.
Lemma nthz_alter_ne {A} (d : A) f l i j :
  0 <= i -> i <> j -> nthz d (alter f (Z.to_nat i) l) j = nthz d l j.
Proof.
  intros Hi Hne. unfold nthz. destruct (Z.ltb_spec j 0); [done|].
  rewrite list_lookup_alter_ne; [done|]. lia.
Qed.

Lemma copy8_row item row : length item = 8%nat -> length row = 8%nat -> copy8 item row = item.
Proof.
  intros Hi Hr. unfold copy8. rewrite take_ge by lia. rewrite drop_ge by lia. apply app_nil_r.
Qed.

(** Distinct positions are distinct rows. *)
Lemma queue_row_inj q i j :
  0 <= i < MSGBUFFSIZE -> 0 <= j < MSGBUFFSIZE -> queue_row q i = queue_row q j -> i = j.
Proof. unfold queue_row, MSGBUFFSIZE. intros. Z.div_mod_to_equations; lia. Qed.

Lemma enqueue_spec q item :
  queue_ok q -> length item = 8%nat ->
  let '(r, q') := enqueue q item in
  queue_ok q' /\
  if q_size q =? MSGBUFFSIZE then r = -1 /\ q' = q
  else r = 0 /\ queue_list q' = queue_list q ++ [item].
Proof.
  intros Hq Hi. unfold enqueue. destruct (Z.eqb_spec (q_size q) MSGBUFFSIZE) as [E|E]; [done|].
  destruct Hq as [Hf Hs Hr Ha Hrows]. cbn.
  assert (Z.rem (q_rear q + 1) MSGBUFFSIZE = queue_row q (q_size q)) as Hrow.
  { rewrite Z.rem_mod_nonneg, Hr by (try rewrite Hr; unfold MSGBUFFSIZE in *; Z.div_mod_to_equations; lia).
    unfold queue_row. rewrite Zplus_mod_idemp_l. f_equal. lia. }
  rewrite Hrow. pose proof (queue_row_range q (q_size q)) as Hrr.
  assert (copy8 item (nthz [] (q_array q) (queue_row q (q_size q))) = item) as Hcopy.
  { apply copy8_row; [done|]. unfold nthz. destruct (Z.ltb_spec (queue_row q (q_size q)) 0); [lia|].
    destruct (q_array q !! Z.to_nat (queue_row q (q_size q))) as [row|] eqn:El; simpl.
    - by eapply (Forall_lookup_1 (fun row => length row = 8%nat)).
    - apply lookup_ge_None in El. unfold MSGBUFFSIZE in *. lia. }
  split; [split; cbn; try lia|split; [done|]].
  - unfold queue_row. f_equal. lia.
  - by rewrite length_alter.
  - apply Forall_alter; [done|]. intros row Hl Hlen. by rewrite copy8_row.
  - unfold queue_list. cbn. rewrite seqZ_app by lia. rewrite fmap_app. f_equal.
    + apply list_fmap_ext. intros k i Hk. apply lookup_seqZ in Hk as [-> Hk].
      change (queue_row _ (0 + Z.of_nat k)) with (queue_row q (0 + Z.of_nat k)).
      apply nthz_alter_ne; [lia|]. intros Heq. apply queue_row_inj in Heq; lia.
    + change (seqZ (0 + q_size q) 1) with [Z.of_nat 0 + (0 + q_size q)]. cbn. f_equal.
      rewrite !Z.add_0_l.
      match goal with |- nthz _ _ ?r = _ => change r with (queue_row q (q_size q)) end.
      rewrite nthz_alter_eq; [done|]. unfold MSGBUFFSIZE in *. lia.
Qed.

Lemma dequeue_spec q :
  queue_ok q ->
  let '(r, q') := dequeue q in
  queue_ok q' /\
  match queue_list q with
  | [] => r = -1 /\ q' = q
  | _ :: rest => r = 0 /\ queue_list q' = rest /\ q_array q' = q_array q
  end.
Proof.
  intros Hq. unfold dequeue, isEmpty.
  pose proof (queue_list_length q (proj1 (qk_size q Hq))) as Hlen.
  destruct Hq as [Hf Hs Hr Ha Hrows].
  destruct (Z.eqb_spec (q_size q) 0) as [E|E].
  { split; [done|]. rewrite E in Hlen. by destruct (queue_list q). }
  cbn. assert (Z.rem (q_front q + 1) MSGBUFFSIZE = (q_front q + 1) mod MSGBUFFSIZE) as Hm.
  { apply Z.rem_mod_nonneg; unfold MSGBUFFSIZE; lia. }
  rewrite Hm. split.
  - split; cbn; try done; try lia.
    + by apply Z.mod_pos_bound.
    + rewrite Zplus_mod_idemp_l, Hr. f_equal. lia.
  - assert (queue_list q = nthz [] (q_array q) (queue_row q 0) ::
      ((fun i => nthz [] (q_array q) (queue_row q i)) <$> seqZ 1 (q_size q - 1))) as ->.
    { unfold queue_list at 1. rewrite (seqZ_cons 0) by lia. done. }
    split; [done|]. split; [|done]. unfold queue_list. cbn.
    rewrite <-(fmap_add_seqZ 1 0), <-list_fmap_compose. apply list_fmap_ext.
    intros k i _. simpl. f_equal. unfold queue_row. cbn.
    rewrite <-!Z.add_assoc, Zplus_mod_idemp_l. f_equal. lia.
Qed.

(** The row front() points at is the oldest message, unless the ring has wrapped there: the
    index is not reduced modulo the ring size. *)
Lemma front_spec q m rest :
  queue_ok q -> queue_list q = m :: rest ->
  lookupz (q_array q) (front q) = if q_front q =? MSGBUFFSIZE - 1 then None else Some m.
Proof.
  intros Hq Hl. pose proof (queue_list_length q (proj1 (qk_size q Hq))) as Hlen.
  rewrite Hl in Hlen. simpl in Hlen. destruct Hq as [Hf Hs Hr Ha Hrows].
  unfold queue_list in Hl. rewrite (seqZ_cons 0) in Hl by lia. injection Hl as Hm _.
  unfold front, lookupz. destruct (Z.ltb_spec (q_front q + 1) 0); [lia|].
  destruct (Z.eqb_spec (q_front q) (MSGBUFFSIZE - 1)) as [E|E].
  - apply lookup_ge_None. lia.
  - unfold queue_row, nthz in Hm. rewrite Z.mod_small in Hm by (unfold MSGBUFFSIZE in *; lia).
    rewrite Z.add_0_r in Hm. destruct (Z.ltb_spec (q_front q + 1) 0); [lia|].
    destruct (q_array q !! Z.to_nat (q_front q + 1)) as [row|] eqn:El; simpl in Hm.
    + by rewrite Hm.
    + apply lookup_ge_None in El. unfold MSGBUFFSIZE in *. lia.
Qed.

(** ** The effect of send *)

(** What send does to the process table before it takes the queue's lock. *)
Definition roused (p : nat) (pr : proc) (s : kstate) : kstate :=
  if is_state SLEEPING pr then (upd_procs (map (wake (Some (Ch_proc p)))) s) <| sync ::= settle |> else s.

Lemma roused_keep p pr s :
  ipc (roused p pr s) = ipc s /\ vm (roused p pr s) = vm s /\ settled (sync s) (sync (roused p pr s)).
Proof. unfold roused. destruct (is_state SLEEPING pr); cbn; auto with xv6. Qed.

Lemma wake_pid ch p : p_pid (wake ch p) = p_pid p.
Proof. unfold wake. by destruct (_ && _). Qed.

Lemma get_queue_run i q e s :
  0 <= i -> msg_queue (ipc s) !! Z.to_nat i = Some q -> get_queue i e s = Ret q e s.
Proof.
  intros Hi Hq. unfold get_queue, index. prim. unfold lookupz.
  destruct (Z.ltb_spec i 0); [lia|]. by rewrite Hq.
Qed.

Section send.
Context (pid msg : Z) (p : nat) (pr : proc) (q : queue) (pas : list Z) (s : kstate).
Context (Hn : nprocs s) (Hok : sync_ok (sync s)) (Hpt : free L_ptable (sync s)).
Context (Hp : findi (fun pr => p_pid pr =? pid) (procs (pt s)) = Some p).
Context (Hpr : procs (pt s) !! p = Some pr).
Context (Hpid : 1 <= pid) (Hq : msg_queue (ipc s) !! Z.to_nat (pid - 1) = Some q).

Let i := Z.to_nat (pid - 1).
Let bytes := byte_at (mem (vm s)) <$> pas.

Lemma receiver_pid : p_pid pr = pid.
Proof.
  apply findi_Some in Hp as [(pr' & Hpr' & E) _]. rewrite Hpr in Hpr'. injection Hpr' as <-.
  by apply Z.eqb_eq in E.
Qed.

Lemma receiver_roused :
  exists pr', procs (pt (roused p pr s)) !! p = Some pr' /\ p_pid pr' = pid.
Proof.
  unfold roused. destruct (is_state SLEEPING pr); [|by exists pr; rewrite receiver_pid].
  exists (wake (Some (Ch_proc p)) pr). rewrite wake_pid, receiver_pid. cbn.
  change (map (wake (Some (Ch_proc p)))) with (fmap (M := list) (wake (Some (Ch_proc p)))).
  by rewrite list_lookup_fmap, Hpr.
Qed.

(** Up to the queue's lock. *)
Lemma send_entry sp e :
  send sp pid msg e s =
  (acquire (L_msgq i) ;;
   in_msg ← uloads 8 msg ;
   q ← get_queue (pid - 1) ;
   let '(r, q) := enqueue q in_msg in
   if r <? 0 then ret (-1) else
   set_queue (pid - 1) q ;;
   release (L_msgq i) ;;
   ret 0) e (roused p pr s).
Proof.
  destruct (roused_keep p pr s) as (Hi & Hv & Hs). unfold send, proc_with_pid. prim. rewrite Hp. cbn.
  erewrite bind_Ret by (by apply getp_run).
  assert (when (is_state SLEEPING pr) (wakeup (Ch_proc p)) e s = Ret tt e (roused p pr s)) as Hw.
  { unfold roused. destruct (is_state SLEEPING pr); [by apply wakeup_run|done]. }
  erewrite bind_Ret by exact Hw. destruct receiver_roused as (pr' & Hpr' & Hpid').
  erewrite bind_Ret by (by apply getp_run). rewrite Hpid'.
  unfold queue_lock. rewrite bind_bind.
  erewrite bind_Ret by (apply get_queue_run; [lia|by rewrite Hi]). done.
Qed.

(** A processor that holds the queue's lock already. *)
Lemma send_locked sp e :
  held (sync s) !! L_msgq i = Some (me (sync s)) ->
  exists s', send sp pid msg e s = Panic "acquire" s'.
Proof.
  intros Hh. destruct (roused_keep p pr s) as (_ & _ & Hs). rewrite send_entry. eexists.
  apply bind_Panic, acquire_held; [by eapply settled_ok|].
  by rewrite (settled_held _ _ Hs), (settled_me _ _ Hs).
Qed.

Context (Hfree : free (L_msgq (Z.to_nat (pid - 1))) (sync s)).
Context (Hmsg : is_u32 msg) (Hbuf : ubuf (vm s) msg pas) (Hlen : length pas = 8%nat).

(** Up to the insertion into the queue. *)
Lemma send_prefix sp e :
  send sp pid msg e s =
  (let '(r, q') := enqueue q bytes in
   if r <? 0 then ret (-1) else
   set_queue (pid - 1) q' ;; release (L_msgq i) ;; ret 0) e
    ((roused p pr s) <| sync ::= lock_sync (L_msgq i) |>).
Proof.
  destruct (roused_keep p pr s) as (Hi & Hv & Hs). rewrite send_entry.
  erewrite bind_Ret by (apply acquire_run; eauto with xv6).
  erewrite bind_Ret.
  2:{ rewrite <-Hlen. apply uloads_run; [done|]. cbn. by rewrite Hv. }
  erewrite bind_Ret by (apply get_queue_run; [lia|cbn; by rewrite Hi]).
  replace (byte_at (mem (vm _)) <$> pas) with bytes; [done|].
  unfold bytes. cbn. by rewrite Hv.
Qed.

(** There is room: the message is appended to the receiver's queue. *)
Lemma send_ok sp e :
  queue_ok q -> q_size q <> MSGBUFFSIZE ->
  exists q', queue_ok q' /\ queue_list q' = queue_list q ++ [bytes] /\
    send sp pid msg e s =
    Ret 0 e ((roused p pr s) <| ipc ::= fun x => x <| msg_queue ::= <[i := q']> |> |>
                             <| sync ::= settle |>).
Proof.
  intros Hqok Hroom. destruct (roused_keep p pr s) as (Hi & Hv & Hs). rewrite send_prefix.
  assert (length bytes = 8%nat) as Hb by (unfold bytes; by rewrite length_fmap).
  pose proof (enqueue_spec q bytes Hqok Hb) as He. destruct (enqueue q bytes) as [r q'].
  rewrite (proj2 (Z.eqb_neq _ _) Hroom) in He. destruct He as (Hq' & -> & Hl').
  exists q'. split; [done|]. split; [done|]. cbn.
  erewrite bind_Ret by (apply (release_run _ _ _ (sync (roused p pr s))); [done|eauto with xv6..]).
  done.
Qed.

(** There is no room: send fails and keeps the queue's lock. *)
Lemma send_full sp e :
  q_size q = MSGBUFFSIZE ->
  send sp pid msg e s = Ret (-1) e ((roused p pr s) <| sync ::= lock_sync (L_msgq i) |>).
Proof. intros Hfull. rewrite send_prefix. unfold enqueue. by rewrite Hfull. Qed.
End send.

Lemma findi_ext {A} (P Q : A -> bool) l : (forall x, P x = Q x) -> findi P l = findi Q l.
Proof. intros H. induction l as [|x l IH]; [done|]. cbn. by rewrite H, IH. Qed.

(** Waking processes changes no pid. *)
Lemma roused_pids p pr pid s :
  findi (fun pr => p_pid pr =? pid) (procs (pt (roused p pr s))) =
  findi (fun pr => p_pid pr =? pid) (procs (pt s)) /\
  (nprocs s -> nprocs (roused p pr s)).
Proof.
  unfold roused, nprocs. destruct (is_state SLEEPING pr); [|done]. cbn.
  change (map (wake (Some (Ch_proc p)))) with (fmap (M := list) (wake (Some (Ch_proc p)))).
  rewrite findi_fmap, length_fmap. split; [|done]. apply findi_ext. intros x. by rewrite wake_pid.
Qed.

(** ** The effect of recv *)

(** The bytes strncpy(_, m, n) writes: up to the first zero, then zeros. *)
Fixpoint strn (n : nat) (m : list Z) : list Z :=
  match n with
  | O => []
  | S n => let c := default 0 (head m) in c :: strn n (if c =? 0 then [] else tail m)
  end.

Lemma strn_length n m : length (strn n m) = n.
Proof. revert m. induction n as [|n IH]; intros m; simpl; [done|]. by rewrite IH. Qed.

(** A message with no zero byte arrives whole; after a zero byte, zeros arrive. *)
Lemma strn_whole m : Forall (fun c => c <> 0) m -> strn (length m) m = m.
Proof.
  induction 1 as [|c m Hc _ IH]; [done|]. simpl. destruct (Z.eqb_spec c 0); [done|]. by rewrite IH.
Qed.
Lemma strn_cut n m rest :
  Forall (fun c => c <> 0) m -> strn (length m + S n) (m ++ 0 :: rest) = m ++ replicate (S n) 0.
Proof.
  induction 1 as [|c m Hc _ IH]; simpl.
  - f_equal. clear. induction n as [|n IH]; simpl; [done|]. by rewrite IH.
  - destruct (Z.eqb_spec c 0); [done|]. by rewrite IH.
Qed.

Lemma ustrncpy_ustores n va m e s : ustrncpy n va m e s = ustores va (strn n m) e s.
Proof.
  revert va m e s. induction n as [|n IH]; intros va m e s; [done|].
  cbn [ustrncpy strn]. change (ustores va (?b :: ?bs)) with (ustore8 va b ;; ustores (u32 (va + 1)) bs).
  unfold bind. by destruct (ustore8 _ _ e s).
Qed.

Definition recv_tail (i msg : Z) : M Z :=
  q ← get_queue i ;
  let m := front q in
  l ← queue_lock i ;
  acquire l ;;
  q ← get_queue i ;
  let '(r, q) := dequeue q in
  if r <? 0 then ret (-1) else
  set_queue i q ;;
  q ← get_queue i ;
  row ← index "array[front + 1]" (q_array q) m ;
  ustrncpy 8 msg row ;;
  release l ;;
  ret 0.

Section recv_tail.
Context (i msg : Z) (q : queue) (pas : list Z) (s : kstate).
Context (Hok : sync_ok (sync s)) (Hi : 0 <= i).
Context (Hq : msg_queue (ipc s) !! Z.to_nat i = Some q) (Hqok : queue_ok q).
Context (Hfree : free (L_msgq (Z.to_nat i)) (sync s)).

(** Up to the copy of the message. *)
Lemma recv_prefix m rest e :
  queue_list q = m :: rest ->
  exists q', queue_ok q' /\ queue_list q' = rest /\
    recv_tail i msg e s =
    (row ← index "array[front + 1]" (q_array q) (front q) ;
     ustrncpy 8 msg row ;; release (L_msgq (Z.to_nat i)) ;; ret 0) e
      (s <| ipc ::= fun x => x <| msg_queue ::= <[Z.to_nat i := q']> |> |>
         <| sync ::= lock_sync (L_msgq (Z.to_nat i)) |>).
Proof.
  intros Hl. pose proof (dequeue_spec q Hqok) as Hd. rewrite Hl in Hd.
  destruct (dequeue q) as [r q'] eqn:Eq. destruct Hd as (Hq' & -> & Hl' & Ha).
  exists q'. split; [done|]. split; [done|]. unfold recv_tail.
  erewrite bind_Ret by (by apply get_queue_run). unfold queue_lock. rewrite bind_bind.
  erewrite bind_Ret by (by apply get_queue_run). erewrite bind_Ret by reflexivity.
  erewrite bind_Ret by (by apply acquire_run).
  erewrite bind_Ret by (by apply get_queue_run). rewrite Eq. cbn [Z.ltb Z.compare].
  erewrite bind_Ret by reflexivity.
  erewrite bind_Ret. 2:{ apply get_queue_run; [done|]. cbn. apply list_lookup_insert_eq.
    by eapply lookup_lt_Some. }
  by rewrite Ha.
Qed.

(** The oldest message is taken off the queue and copied out, as a C string. *)
Lemma recv_takes m rest e :
  queue_list q = m :: rest -> q_front q <> MSGBUFFSIZE - 1 ->
  is_u32 msg -> ubuf (vm s) msg pas -> length pas = 8%nat ->
  exists q', queue_ok q' /\ queue_list q' = rest /\
    recv_tail i msg e s =
    Ret 0 e (s <| ipc ::= fun x => x <| msg_queue ::= <[Z.to_nat i := q']> |> |>
               <| vm ::= fun w => w <| mem := set_bytes (mem w) pas (strn 8 m) |> |>
               <| sync ::= settle |>).
Proof.
  intros Hl Hf Hmsg Hb Hlen. destruct (recv_prefix m rest e Hl) as (q' & Hq' & Hl' & ->).
  exists q'. split; [done|]. split; [done|].
  pose proof (front_spec q m rest Hqok Hl) as Hfront.
  rewrite (proj2 (Z.eqb_neq _ _) Hf) in Hfront. unfold index. rewrite Hfront.
  erewrite bind_Ret by reflexivity.
  erewrite bind_Ret.
  2:{ rewrite ustrncpy_ustores. apply (ustores_run pas); [done|done|]. by rewrite strn_length. }
  by erewrite bind_Ret by (by apply (release_run _ _ _ (sync s))).
Qed.

(** When the front of the ring is its last row, the message is read outside the array. *)
Lemma recv_wraps m rest e :
  queue_list q = m :: rest -> q_front q = MSGBUFFSIZE - 1 ->
  exists s', recv_tail i msg e s = Undef "array[front + 1]" s'.
Proof.
  intros Hl Hf. destruct (recv_prefix m rest e Hl) as (q' & Hq' & Hl' & ->).
  eexists. pose proof (front_spec q m rest Hqok Hl) as Hfront.
  rewrite (proj2 (Z.eqb_eq _ _) Hf) in Hfront. unfold index. by rewrite Hfront.
Qed.
End recv_tail.

Lemma recv_run msg e s :
  sync_ok (sync s) ->
  recv msg e s =
  (p ← the_proc (c_proc (my (sync s))) ;
   pr ← getp p ;
   q ← get_queue (p_pid pr - 1) ;
   when (q_size q =? 0)
     (acquire L_ptable ;; sleep (Ch_proc p) L_ptable ;; release L_ptable) ;;
   recv_tail (p_pid pr - 1) msg) e (s <| sync ::= settle |>).
Proof. intros Hok. unfold recv. by erewrite bind_Ret by (by apply myproc_run). Qed.

(** The size of the queue is tested before ptable.lock is taken.  If another processor holds
    that lock, and queues a message before it lets go of it, recv goes to sleep all the same. *)
Lemma recv_sleeps p pr q f msg s s1 sy1 :
  sync_ok (sync s) -> c_proc (my (sync s)) = Some p -> procs (pt s) !! p = Some pr ->
  ncli (my (sync s)) = 0 -> 1 <= p_pid pr ->
  msg_queue (ipc s) !! Z.to_nat (p_pid pr - 1) = Some q -> q_size q = 0 ->
  held (sync s) !! L_ptable <> Some (me (sync s)) -> held (sync s) !! L_ptable <> None ->
  f (s <| sync ::= push |>) = s1 ->
  sync s1 = push sy1 -> sync_ok sy1 -> free L_ptable sy1 -> ncli (my sy1) = 0 ->
  c_proc (my sy1) = Some p -> is_Some (procs (pt s1) !! p) ->
  recv msg [f] s = Blocked (park (Ch_proc p) p (s1 <| sync := lock_sync L_ptable sy1 |>)).
Proof.
  intros Hok Hc Hp Hn Hpid Hq Hz Hh Hh' Hf Hs1 Hok1 Hf1 Hn1 Hc1 [pr1 Hp1].
  rewrite recv_run by done. rewrite Hc. cbn [the_proc]. erewrite bind_Ret by reflexivity.
  erewrite bind_Ret by (by apply getp_run).
  erewrite bind_Ret by (apply get_queue_run; [lia|exact Hq]).
  rewrite Hz. cbn [when Z.eqb]. apply bind_Blocked.
  erewrite bind_Ret.
  2:{ apply (acquire_spins _ _ _ _ s1 sy1); try done; cbn.
      - auto with xv6.
      - by rewrite me_settle.
      - rewrite <-Hf. f_equal. state_eq. by rewrite push_settle. }
  apply bind_Blocked.
  rewrite (sleep_blocks _ _ p pr1 sy1); [done|by repeat split|done|exact Hp1].
Qed.
