(* ===== verification/Container.v ===== *)
(** * Containers: the container table of proc.c

    The table has NCONTAINER entries, [c_active] marks the live ones and [c_pointer] caches an
    entry that is not, -1 when there is none. *)

From stdpp Require Import base list gmap strings fin_maps.
From S2P Require Import Prelude State Monad Spinlock Console Kalloc Str Vm Sched.
Open Scope Z_scope.

(** ** Definitions *)

(** An enum value as an int. *)
Definition state_code (st : procstate) : Z :=
  match st with
  | UNUSED => 0 | EMBRYO => 1 | SLEEPING => 2 | RUNNABLE => 3 | RUNNING => 4 | ZOMBIE => 5
  end.

Definition set_ctn (f : containers -> containers) : M unit := modify (fun s => s <| ctn ::= f |>).

(** [container_table[i]] and [c_active[i]]. *)
Definition get_container (i : Z) : M container :=
  t ← gets (fun s => container_table (ctn s)) ;
  index "container_table[i]" t i.
Definition set_container (i : Z) (f : container -> container) : M unit :=
  set_ctn (fun x => x <| container_table ::= alter f (Z.to_nat i) |>).
Definition get_active (i : Z) : M Z :=
  a ← gets (fun s => c_active (ctn s)) ;
  index "c_active[i]" a i.
Definition set_active (i v : Z) : M unit :=
  get_active i ;; set_ctn (fun x => x <| c_active ::= <[Z.to_nat i := v]> |>).

Definition init_container (c : container) (t_id : Z) : container :=
  c <| ct_id := t_id |>
    <| ct_active := 1 |>
    <| ct_process_active := replicate (Z.to_nat NPROC_CONTAINER) 0 |>
    <| ct_page_active := replicate (Z.to_nat MAX_PAGES) 0 |>
    <| ct_file_active := replicate (Z.to_nat MAX_FILES) 0 |>
    <| ct_process_pointer := 0 |>
    <| ct_page_pointer := 0 |>
    <| ct_file_pointer := 0 |>.

Definition print_c_table : M unit :=
  cprintf "conatiner_table:
" [] ;;
  for_each (range 0 NCONTAINER) (fun i =>
    c ← get_container i ;
    a ← get_active i ;
    cprintf "id: %d active: %d
" [AInt (ct_id c); AInt a] ;;
    for_each (range 0 NPROC_CONTAINER) (fun j =>
      c ← get_container i ;
      p ← index "process_table[j]" (ct_process_table c) j ;
      pa ← index "process_active[j]" (ct_process_active c) j ;
      cprintf "	 process_id: %d active bit: %d state: %d c_id: %d
" [AInt (p_pid p); AInt pa; AInt (state_code (p_state p)); AInt (p_container_id p)])).

(** The search [for(i in idx) if(c_active[i] == 0) { c_pointer = i; return output; }]. *)
Definition next_pointer (idx : list Z) (output : Z) : M (option Z) :=
  for_until idx (fun i =>
    a ← get_active i ;
    if a =? 0 then set_ctn (fun x => x <| c_pointer := i |>) ;; ret (Some output) else ret None).

(** [c] is the uninitialised container on the stack of create_container. *)
Definition create_container (c : container) : M Z :=
  cprintf "in create_container
" [] ;;
  ptr ← gets (fun s => c_pointer (ctn s)) ;
  if ptr =? -1 then cprintf "container_table full
" [] ;; ret (-1) else
  set_active ptr 1 ;;
  let c := init_container c ptr in
  get_container ptr ;;
  set_container ptr (fun _ => c) ;;
  let output := ptr in
  print_c_table ;;
  ptr ← gets (fun s => c_pointer (ctn s)) ;
  r ← next_pointer (range (ptr + 1) NCONTAINER) output ;
  match r with Some v => ret v | None =>
  r ← next_pointer (range 0 ptr) output ;
  match r with Some v => ret v | None =>
  set_ctn (fun x => x <| c_pointer := -1 |>) ;;
  ret output
  end end.

Definition destroy_container (id : Z) : M Z :=
  cprintf "in destroy_container
" [] ;;
  if (id <? 0) || (NCONTAINER <=? id) then ret (-1) else
  a ← get_active id ;
  if a =? 0 then ret (-1) else
  set_active id 0 ;;
  ptr ← gets (fun s => c_pointer (ctn s)) ;
  when (ptr =? -1) (set_ctn (fun x => x <| c_pointer := id |>)) ;;
  print_c_table ;;
  ret 0.

(** The search for a free entry of container [id]. *)
Definition next_process (id : Z) (idx : list Z) : M (option Z) :=
  for_until idx (fun i =>
    c ← get_container id ;
    a ← index "process_active[i]" (ct_process_active c) i ;
    if a =? 0 then set_container id (fun c => c <| ct_process_pointer := i |>) ;; ret (Some 0)
    else ret None).

Definition join_container (id : Z) : M Z :=
  cprintf "in join_container
" [] ;;
  if (id <? 0) || (NCONTAINER <=? id) then ret (-1) else
  a ← get_active id ;
  if a =? 0 then ret (-1) else
  c ← get_container id ;
  let pointer := ct_process_pointer c in
  if pointer =? -1 then ret (-1) else
  p ← curproc ;
  ptr ← gets (fun s => c_pointer (ctn s)) ;
  let p := p <| p_container_id := ptr |> in
  let p := p <| p_cont := Some (Z.to_nat id) |> in
  c ← get_container id ;
  index "process_table[pointer]" (ct_process_table c) pointer ;;
  set_container id (fun c => c <| ct_process_table ::= <[Z.to_nat pointer := p]> |>) ;;
  index "process_active[pointer]" (ct_process_active c) pointer ;;
  set_container id (fun c => c <| ct_process_active ::= <[Z.to_nat pointer := 1]> |>) ;;
  print_c_table ;;
  ptr ← gets (fun s => c_pointer (ctn s)) ;
  r ← next_process id (range (ptr + 1) NPROC_CONTAINER) ;
  match r with Some v => ret v | None =>
  r ← next_process id (range 0 ptr) ;
  match r with Some v => ret v | None =>
  set_container id (fun c => c <| ct_process_pointer := -1 |>) ;;
  ret 0
  end end.

Definition leave_container : M Z :=
  cprintf "in leave_container
" [] ;;
  p ← curproc ;
  let id := p_container_id p in
  let p := p <| p_container_id := -1 |> in
  if (id <? 0) || (NCONTAINER <=? id) then ret (-1) else
  a ← get_active id ;
  if a =? 0 then ret (-1) else
  for_until (range 0 NPROC_CONTAINER) (fun i =>
    c ← get_container id ;
    pi ← index "process_table[i]" (ct_process_table c) i ;
    ai ← index "process_active[i]" (ct_process_active c) i ;
    if (p_pid pi =? p_pid p) && (ai =? 1) then
      set_container id (fun c => c <| ct_process_active ::= <[Z.to_nat i := 0]> |>) ;;
      ret (Some tt)
    else ret None) ;;
  print_c_table ;;
  ret 0.

(** ** The table as an allocator of identifiers *)

Definition container_ok (c : container) : Prop :=
  length (ct_process_table c) = Z.to_nat NPROC_CONTAINER /\
  length (ct_process_active c) = Z.to_nat NPROC_CONTAINER.

(** [c_pointer] is an entry that is not active, or -1 and all of them are. *)
Definition pointer_ok (x : containers) : Prop :=
  (c_pointer x = -1 /\ Forall (fun a => a <> 0) (c_active x)) \/
  lookupz (c_active x) (c_pointer x) = Some 0.

Record ctn_shape (x : containers) : Prop := {
  co_table : length (container_table x) = Z.to_nat NCONTAINER;
  co_active : length (c_active x) = Z.to_nat NCONTAINER;
  co_containers : Forall container_ok (container_table x)
}.
Definition ctn_ok (x : containers) : Prop := ctn_shape x /\ pointer_ok x.

(** The identifiers in use. *)
Definition ids : gset Z := list_to_set (range 0 NCONTAINER).
Definition is_live (x : containers) (i : Z) : bool := negb (nthz 0 (c_active x) i =? 0).
Definition live (x : containers) : gset Z :=
  list_to_set (filter (fun i => is_live x i = true) (range 0 NCONTAINER)).

Lemma elem_of_ids i : i ∈ ids <-> 0 <= i < NCONTAINER.
Proof. unfold ids, range. rewrite elem_of_list_to_set, elem_of_seqZ. lia. Qed.
Lemma elem_of_live x i : i ∈ live x <-> 0 <= i < NCONTAINER /\ is_live x i = true.
Proof.
  unfold live, range. rewrite elem_of_list_to_set, list_elem_of_filter, elem_of_seqZ. split; intros; lia || naive_solver lia.
Qed.

(** ** Printing the table *)

Lemma index_run {A} what (l : list A) i v e s : lookupz l i = Some v -> index what l i e s = Ret v e s.
Proof. intros H. unfold index. by rewrite H. Qed.

Lemma print_c_table_says x :
  ctn_shape x -> says (fun s => ctn s = x) print_c_table.
Proof.
  intros Hx. assert (forall s s', talk s s' -> ctn s = x -> ctn s' = x) as HP.
  { by intros s s' (k & sy & -> & _). }
  unfold print_c_table. apply says_seq; [exact HP|by eapply says_cprintf|].
  apply says_for_each; [exact HP|]. intros i Hi. unfold range in Hi. apply elem_of_seqZ in Hi.
  destruct (lookupz_is_Some (container_table x) i) as [c Hc]; [rewrite (co_table _ Hx); lia|].
  destruct (lookupz_is_Some (c_active x) i) as [a Ha]; [rewrite (co_active _ Hx); lia|].
  assert (forall e s, ctn s = x -> get_container i e s = Ret c e s) as Hget.
  { intros e s Hs. unfold get_container. prim. rewrite Hs. by apply index_run. }
  apply (says_read _ _ _ c); [exact Hget|].
  apply (says_read _ _ _ a).
  { intros e s Hs. unfold get_active. prim. rewrite Hs. by apply index_run. }
  apply says_seq; [exact HP|by eapply says_cprintf|].
  assert (container_ok c) as [Hpt Hpa].
  { apply lookupz_Some in Hc as [_ Hc]. eapply (Forall_lookup_1 _ _ _ _ (co_containers _ Hx) Hc). }
  apply says_for_each; [exact HP|]. intros j Hj. unfold range in Hj. apply elem_of_seqZ in Hj.
  destruct (lookupz_is_Some (ct_process_table c) j) as [p Hp]; [rewrite Hpt; lia|].
  destruct (lookupz_is_Some (ct_process_active c) j) as [b Hb]; [rewrite Hpa; lia|].
  apply (says_read _ _ _ c); [exact Hget|].
  apply (says_read _ _ _ p); [intros; by apply index_run|].
  apply (says_read _ _ _ b); [intros; by apply index_run|].
  by eapply says_cprintf.
Qed.

(** ** create_container and destroy_container *)

(** Only the container table, console output and the saved interrupt flag change. *)
Definition ctn_step (x : containers) (s s' : kstate) : Prop := talk (s <| ctn := x |>) s'.

Lemma talk_ctn s s' x : talk s s' -> talk (s <| ctn := x |>) (s' <| ctn := x |>).
Proof. intros (k & sy & -> & Hk & Hsy). by exists k, sy. Qed.

Lemma ctn_step_print x s s' e :
  ctn_shape x -> can_print s -> talk s s' ->
  exists s2, print_c_table e (s' <| ctn := x |>) = Ret tt e s2 /\ ctn_step x s s2.
Proof.
  intros Hx Hp Ht. apply (talk_ctn _ _ x) in Ht.
  destruct (print_c_table_says x Hx e (s' <| ctn := x |>)) as (s2 & Hr & Ht2); [done| |].
  - eapply can_print_talk; [exact Ht|]. exact Hp.
  - exists s2. split; [done|]. by eapply talk_trans.
Qed.

Definition inactive (x : containers) (i : Z) : bool := nthz 1 (c_active x) i =? 0.

Lemma get_active_run i e s :
  0 <= i < Z.of_nat (length (c_active (ctn s))) ->
  get_active i e s = Ret (nthz 1 (c_active (ctn s)) i) e s.
Proof.
  intros Hi. unfold get_active. prim. apply index_run. unfold lookupz, nthz.
  destruct (Z.ltb_spec i 0); [lia|]. destruct (lookup_lt_is_Some_2 (c_active (ctn s)) (Z.to_nat i)) as [a ->];
    [lia|done].
Qed.

Lemma next_pointer_run idx out e s :
  (forall i, i ∈ idx -> 0 <= i < Z.of_nat (length (c_active (ctn s)))) ->
  next_pointer idx out e s =
  match find (inactive (ctn s)) idx with
  | Some i => Ret (Some out) e (s <| ctn ::= fun x => x <| c_pointer := i |> |>)
  | None => Ret None e s
  end.
Proof.
  unfold next_pointer. induction idx as [|i idx IH]; intros Hi; simpl; [done|].
  rewrite bind_bind. erewrite bind_Ret by (apply get_active_run, Hi; left).
  unfold inactive at 1. destruct (nthz 1 (c_active (ctn s)) i =? 0); [done|].
  erewrite bind_Ret by reflexivity. apply IH. intros; apply Hi. by right.
Qed.

(** The pointer create_container leaves behind. *)
Definition next_free (x : containers) : Z :=
  let scan := range (c_pointer x + 1) NCONTAINER ++ range 0 (c_pointer x) in
  default (-1) (find (inactive x) scan).

Lemma find_app {A} (f : A -> bool) l1 l2 :
  find f (l1 ++ l2) = match find f l1 with Some x => Some x | None => find f l2 end.
Proof. induction l1 as [|x l1 IH]; simpl; [done|]. by destruct (f x). Qed.

Lemma update_pointer out e s :
  0 <= c_pointer (ctn s) < NCONTAINER -> length (c_active (ctn s)) = Z.to_nat NCONTAINER ->
  (ptr ← gets (fun s => c_pointer (ctn s)) ;
   r ← next_pointer (range (ptr + 1) NCONTAINER) out ;
   match r with Some v => ret v | None =>
   r ← next_pointer (range 0 ptr) out ;
   match r with Some v => ret v | None =>
   set_ctn (fun x => x <| c_pointer := -1 |>) ;; ret out end end) e s =
  Ret out e (s <| ctn ::= fun x => x <| c_pointer := next_free x |> |>).
Proof.
  intros Hp Hl. prim. unfold next_free. 
  assert (forall lo hi, 0 <= lo -> hi <= NCONTAINER ->
    forall i, i ∈ range lo hi -> 0 <= i < Z.of_nat (length (c_active (ctn s)))) as Hr.
  { intros lo hi Hlo Hhi i. unfold range. rewrite elem_of_seqZ, Hl. unfold NCONTAINER in *. lia. }
  unfold bind at 1. rewrite next_pointer_run by (apply Hr; lia).
  destruct (find _ (range (c_pointer (ctn s) + 1) NCONTAINER)) as [i|] eqn:E1.
  { unfold ret, upd; cbn. by rewrite find_app, E1. }
  unfold bind at 1. rewrite next_pointer_run by (apply Hr; lia).
  destruct (find _ (range 0 (c_pointer (ctn s)))) as [i|] eqn:E2.
  { unfold ret, upd; cbn. by rewrite find_app, E1, E2. }
  unfold bind, set_ctn, modify, ret, upd; cbn. by rewrite find_app, E1, E2.
Qed.

Lemma inactive_lookup x i :
  inactive x i = true <-> lookupz (c_active x) i = Some 0.
Proof.
  unfold inactive, nthz, lookupz. destruct (Z.ltb_spec i 0); [done|].
  destruct (c_active x !! Z.to_nat i) as [a|]; cbn; [|done]. rewrite Z.eqb_eq. naive_solver.
Qed.

(** The scan restores the invariant on the pointer. *)
Lemma next_free_ok x :
  length (c_active x) = Z.to_nat NCONTAINER -> 0 <= c_pointer x < NCONTAINER ->
  inactive x (c_pointer x) = false -> pointer_ok (x <| c_pointer := next_free x |>).
Proof.
  intros Hl Hp Ha. unfold pointer_ok, next_free. cbn.
  destruct (find (inactive x) _) as [i|] eqn:E; cbn.
  - right. apply find_some in E as [_ Hi]. by apply inactive_lookup.
  - left. split; [done|]. apply Forall_lookup_2. intros i a Hi ->.
    pose proof (lookup_lt_Some _ _ _ Hi).
    assert (inactive x (Z.of_nat i) = true) as Hin by (apply inactive_lookup; by rewrite lookupz_nat).
    destruct (decide (Z.of_nat i = c_pointer x)) as [Heq|Hne]; [congruence|].
    pose proof (find_none _ _ E (Z.of_nat i)) as Hn. rewrite Hn in Hin; [done|].
    apply list_elem_of_In. unfold range. rewrite elem_of_app, !elem_of_seqZ. unfold NCONTAINER in *. lia.
Qed.

Lemma is_live_inactive x i :
  length (c_active x) = Z.to_nat NCONTAINER -> 0 <= i < NCONTAINER ->
  is_live x i = negb (inactive x i).
Proof.
  intros Hl Hi. unfold is_live, inactive, nthz. destruct (Z.ltb_spec i 0); [lia|].
  destruct (lookup_lt_is_Some_2 (c_active x) (Z.to_nat i)) as [a ->]; [lia|done].
Qed.

(** The pointer tells whether every identifier is taken. *)
Lemma pointer_full x : ctn_ok x -> c_pointer x = -1 -> live x = ids.
Proof.
  intros [Hx Hpt] Hp. apply set_eq. intros i. rewrite elem_of_ids, elem_of_live. split; [naive_solver|].
  intros Hi. split; [done|]. destruct Hpt as [[_ Ha]|Hp']; [|by rewrite Hp in Hp'].
  unfold is_live, nthz. destruct (Z.ltb_spec i 0); [lia|].
  destruct (lookup_lt_is_Some_2 (c_active x) (Z.to_nat i)) as [a Hai].
  { rewrite (co_active _ Hx). lia. }
  rewrite Hai. cbn. apply (Forall_lookup_1 _ _ _ _ Ha) in Hai.
  by destruct (Z.eqb_spec a 0).
Qed.

Lemma pointer_free x : ctn_ok x -> c_pointer x <> -1 -> c_pointer x ∈ ids ∖ live x.
Proof.
  intros [Hx Hpt] Hp. destruct Hpt as [[? _]|Hl]; [done|].
  pose proof (lookupz_Some _ _ _ Hl) as [Hr _]. rewrite (co_active _ Hx) in Hr.
  assert (0 <= c_pointer x < NCONTAINER) as Hr' by (unfold NCONTAINER in *; lia).
  rewrite elem_of_difference, elem_of_ids, elem_of_live. split; [done|]. intros [_ Hlive].
  rewrite (is_live_inactive _ _ (co_active _ Hx)) in Hlive by done.
  apply inactive_lookup in Hl. by rewrite Hl in Hlive.
Qed.

(** Marking entry [i] with [v]. *)
Definition mark (i v : Z) (x : containers) : containers := x <| c_active ::= <[Z.to_nat i := v]> |>.

Lemma is_live_mark i v x j :
  length (c_active x) = Z.to_nat NCONTAINER -> 0 <= i < NCONTAINER -> 0 <= j < NCONTAINER ->
  is_live (mark i v x) j = if i =? j then negb (v =? 0) else is_live x j.
Proof.
  intros Hl Hi Hj. unfold is_live, mark, nthz. cbn. destruct (Z.ltb_spec j 0); [lia|].
  destruct (Z.eqb_spec i j) as [->|Hne].
  - rewrite list_lookup_insert_eq by lia. done.
  - rewrite list_lookup_insert_ne by lia. done.
Qed.

Lemma live_mark i v x :
  length (c_active x) = Z.to_nat NCONTAINER -> 0 <= i < NCONTAINER ->
  live (mark i v x) = if v =? 0 then live x ∖ {[i]} else {[i]} ∪ live x.
Proof.
  intros Hl Hi. apply set_eq. intros j.
  destruct (v =? 0) eqn:Ev; rewrite ?elem_of_difference, ?elem_of_union, elem_of_singleton, !elem_of_live.
  - split.
    + intros [Hj H]. rewrite is_live_mark, Ev in H by done. destruct (Z.eqb_spec i j); naive_solver.
    + intros [[Hj H] Hne]. split; [done|]. rewrite is_live_mark by done.
      destruct (Z.eqb_spec i j); [congruence|done].
  - split.
    + intros [Hj H]. rewrite is_live_mark, Ev in H by done. destruct (Z.eqb_spec i j); naive_solver.
    + intros [->|[Hj H]]; (split; [done|]); rewrite is_live_mark, Ev by done.
      * by rewrite Z.eqb_refl.
      * by destruct (Z.eqb_spec i j).
Qed.

Lemma shape_mark i v x : ctn_shape x -> ctn_shape (mark i v x).
Proof. intros [H1 H2 H3]. split; cbn; [done|by rewrite length_insert|done]. Qed.
Lemma shape_table i f x :
  ctn_shape x -> (forall c, container_ok c -> container_ok (f c)) ->
  ctn_shape (x <| container_table ::= alter f i |>).
Proof.
  intros [H1 H2 H3] Hf. split; cbn; [by rewrite length_alter|done|].
  apply Forall_alter; [done|]. intros c _ Hc. by apply Hf.
Qed.
Lemma shape_pointer p x : ctn_shape x -> ctn_shape (x <| c_pointer := p |>).
Proof. by intros [H1 H2 H3]. Qed.

Lemma get_container_run i e s :
  ctn_shape (ctn s) -> 0 <= i < NCONTAINER ->
  exists c, container_table (ctn s) !! Z.to_nat i = Some c /\ container_ok c /\
    get_container i e s = Ret c e s.
Proof.
  intros Hx Hi. destruct (lookupz_is_Some (container_table (ctn s)) i) as [c Hc].
  { rewrite (co_table _ Hx). lia. }
  exists c. pose proof (lookupz_Some _ _ _ Hc) as [_ Hl]. split; [done|]. split.
  - by apply (Forall_lookup_1 _ _ _ _ (co_containers _ Hx) Hl).
  - unfold get_container. prim. by apply index_run.
Qed.

Lemma set_active_run i v e s :
  ctn_shape (ctn s) -> 0 <= i < NCONTAINER ->
  set_active i v e s = Ret tt e (s <| ctn ::= mark i v |>).
Proof.
  intros Hx Hi. unfold set_active. erewrite bind_Ret; [reflexivity|].
  apply get_active_run. rewrite (co_active _ Hx). lia.
Qed.

(** The table after create_container took the entry at the pointer for [c]. *)
Definition created (c : container) (x : containers) : containers :=
  let x := (mark (c_pointer x) 1 x) <| container_table ::=
             alter (fun _ => init_container c (c_pointer x)) (Z.to_nat (c_pointer x)) |> in
  x <| c_pointer := next_free x |>.

Lemma create_run c e s :
  ctn_ok (ctn s) -> container_ok c -> can_print s ->
  exists s', 
    create_container c e s = Ret (c_pointer (ctn s)) e s' /\
    ctn_step (if c_pointer (ctn s) =? -1 then ctn s else created c (ctn s)) s s'.
Proof.
  intros Hx Hc Hp. pose proof Hp as (Hcon & Hsy & Hf). unfold create_container.
  destruct (talk_cprintf "in create_container
" [] _ e s eq_refl Hcon Hsy Hf) as (s1 & Hr1 & Ht1).
  erewrite bind_Ret by exact Hr1. pose proof (can_print_talk _ _ Ht1 Hp) as Hp1.
  assert (ctn s1 = ctn s) as Hcs by (by destruct Ht1 as (? & ? & -> & _)).
  erewrite bind_Ret by reflexivity. rewrite Hcs.
  destruct (Z.eqb_spec (c_pointer (ctn s)) (-1)) as [E|E].
  - destruct (talk_cprintf "container_table full
" [] _ e s1 eq_refl) as (s2 & Hr2 & Ht2); [apply Hp1..|].
    exists s2. erewrite bind_Ret by exact Hr2. rewrite E. split; [done|].
    unfold ctn_step. replace (s <| ctn := ctn s |>) with s by (by destruct s).
    by eapply talk_trans.
  - pose proof (pointer_free _ Hx E) as Hfree. apply elem_of_difference in Hfree as [Hid _].
    apply elem_of_ids in Hid. destruct Hx as [Hx Hptr].
    erewrite bind_Ret by (apply set_active_run; [by rewrite Hcs|done]).
    pose proof (shape_mark (c_pointer (ctn s)) 1 _ Hx) as Hx1.
    destruct (get_container_run (c_pointer (ctn s)) e
      (s1 <| ctn ::= mark (c_pointer (ctn s)) 1 |>)) as (c0 & _ & _ & Hg).
    { cbn. by rewrite Hcs. } { done. }
    erewrite bind_Ret by exact Hg. erewrite bind_Ret by reflexivity.
    set (x2 := (mark (c_pointer (ctn s)) 1 (ctn s)) <| container_table ::=
             alter (fun _ => init_container c (c_pointer (ctn s))) (Z.to_nat (c_pointer (ctn s))) |>).
    assert (ctn_shape x2) as Hx2 by (apply shape_table; [done|]; intros; split; [apply Hc|done]).
    match goal with |- context [(print_c_table ;; _) e ?st] =>
      replace st with (s1 <| ctn := x2 |>) by (unfold upd; cbn; by rewrite Hcs) end.
    destruct (ctn_step_print x2 s s1 e Hx2 Hp Ht1) as (s2 & Hr2 & Ht2).
    erewrite bind_Ret by exact Hr2.
    assert (ctn s2 = x2) as Hcs2 by (by destruct Ht2 as (? & ? & -> & _)).
    eexists. split.
    + apply update_pointer; rewrite Hcs2; [done|apply Hx2].
    + destruct Ht2 as (k & sy & -> & Hk & Hsy'). by exists k, sy.
Qed.

Lemma created_ok c x :
  ctn_ok x -> container_ok c -> c_pointer x <> -1 ->
  ctn_ok (created c x) /\ live (created c x) = {[c_pointer x]} ∪ live x.
Proof.
  intros Hx Hc E. pose proof (pointer_free _ Hx E) as Hfree.
  apply elem_of_difference in Hfree as [Hid _]. apply elem_of_ids in Hid.
  destruct Hx as [Hx Hptr]. pose proof (shape_mark (c_pointer x) 1 _ Hx) as Hx1.
  split; [split|].
  - apply shape_pointer, shape_table; [done|]. intros; split; [apply Hc|done].
  - apply next_free_ok; [apply Hx1|done|].
    pose proof (is_live_mark (c_pointer x) 1 x (c_pointer x) (co_active _ Hx) Hid Hid) as Hl.
    rewrite is_live_inactive, Z.eqb_refl in Hl; [|apply Hx1|done].
    by destruct (inactive (mark _ 1 x) _) eqn:Ei in Hl.
  - by apply (live_mark (c_pointer x) 1 x (co_active _ Hx)).
Qed.

Lemma destroy_run id e s :
  ctn_ok (ctn s) -> can_print s ->
  exists x s', destroy_container id e s = Ret (if bool_decide (id ∈ live (ctn s)) then 0 else -1) e s' /\
    ctn_step x s s' /\ ctn_ok x /\ live x = live (ctn s) ∖ {[id]}.
Proof.
  intros Hx Hp. pose proof Hp as (Hcon & Hsy & Hf). unfold destroy_container.
  destruct (talk_cprintf "in destroy_container
" [] _ e s eq_refl Hcon Hsy Hf) as (s1 & Hr1 & Ht1).
  erewrite bind_Ret by exact Hr1. pose proof (can_print_talk _ _ Ht1 Hp) as Hp1.
  assert (ctn s1 = ctn s) as Hcs by (by destruct Ht1 as (? & ? & -> & _)).
  assert (id ∉ live (ctn s) ->
    exists x s', Ret (-1) e s1 = Ret (if bool_decide (id ∈ live (ctn s)) then 0 else -1) e s' /\
    ctn_step x s s' /\ ctn_ok x /\ live x = live (ctn s) ∖ {[id]}) as Hdead.
  { intros Hid. exists (ctn s), s1. rewrite bool_decide_eq_false_2 by done. split; [done|].
    split; [|split; [done|set_solver]]. unfold ctn_step. by destruct s. }
  destruct (decide (0 <= id < NCONTAINER)) as [Hid|Hid].
  2:{ replace ((id <? 0) || (NCONTAINER <=? id)) with true.
      - apply Hdead. rewrite elem_of_live. naive_solver.
      - symmetry. apply orb_true_iff. rewrite Z.ltb_lt, Z.leb_le. lia. }
  replace ((id <? 0) || (NCONTAINER <=? id)) with false.
  2:{ symmetry. apply orb_false_iff. rewrite Z.ltb_ge, Z.leb_gt. lia. }
  destruct Hx as [Hx Hptr]. erewrite bind_Ret.
  2:{ apply get_active_run. rewrite Hcs, (co_active _ Hx). unfold NCONTAINER in *. lia. }
  rewrite Hcs. change (nthz 1 (c_active (ctn s)) id =? 0) with (inactive (ctn s) id).
  pose proof (is_live_inactive (ctn s) id (co_active _ Hx) Hid) as Hli.
  destruct (inactive (ctn s) id) eqn:Ei.
  { apply Hdead. rewrite elem_of_live, Hli. naive_solver. }
  rewrite bool_decide_eq_true_2 by (by rewrite elem_of_live, Hli).
  erewrite bind_Ret by (apply set_active_run; [by rewrite Hcs|done]).
  erewrite bind_Ret by reflexivity.
  set (x2 := let x := mark id 0 (ctn s) in if c_pointer x =? -1 then x <| c_pointer := id |> else x).
  erewrite bind_Ret with (s' := s1 <| ctn := x2 |>) (e' := e) (a := tt).
  2:{ unfold x2, when, ret, set_ctn, modify. cbn. rewrite Hcs.
      destruct (c_pointer (ctn s) =? -1); unfold upd; cbn; by rewrite Hcs. }
  assert (ctn_shape x2) as Hx2.
  { pose proof (shape_mark id 0 _ Hx). unfold x2; cbn. destruct (_ =? -1); auto using shape_pointer. }
  destruct (ctn_step_print x2 s s1 e Hx2 Hp Ht1) as (s2 & Hr2 & Ht2).
  erewrite bind_Ret by exact Hr2. exists x2, s2. split; [done|]. split; [done|].
  split; [split; [done|]|].
  - unfold pointer_ok, x2. cbn.
    destruct (Z.eqb_spec (c_pointer (ctn s)) (-1)) as [E|E]; cbn.
    + right. unfold lookupz. destruct (Z.ltb_spec id 0); [lia|]. apply list_lookup_insert_eq.
      rewrite (co_active _ Hx). lia.
    + right. destruct Hptr as [[? _]|Hl]; [done|]. apply lookupz_Some in Hl as [Hr Hl].
      unfold lookupz. destruct (Z.ltb_spec (c_pointer (ctn s)) 0); [lia|].
      destruct (decide (id = c_pointer (ctn s))) as [->|Hne].
      * apply list_lookup_insert_eq. lia.
      * rewrite list_lookup_insert_ne by lia. done.
  - assert (live x2 = live (mark id 0 (ctn s))) as ->.
    { unfold x2. cbn. by destruct (_ =? -1). }
    by apply (live_mark id 0 _ (co_active _ Hx)).
Qed.

(** ** join_container and leave_container *)

Definition vacant (c : container) (i : Z) : bool := nthz 1 (ct_process_active c) i =? 0.

(** The process pointer join_container leaves: the scan starts at c_pointer, not at the entry
    just filled. *)
Definition next_member (ptr : Z) (c : container) : Z :=
  default (-1) (find (vacant c) (range (ptr + 1) NPROC_CONTAINER ++ range 0 ptr)).

Definition enrol (p : proc) (c : container) : container :=
  c <| ct_process_table ::= <[Z.to_nat (ct_process_pointer c) := p]> |>
    <| ct_process_active ::= <[Z.to_nat (ct_process_pointer c) := 1]> |>.

(** Entry [id] after [p] joined it. *)
Definition joined (id : Z) (p : proc) (x : containers) : containers :=
  let p := p <| p_container_id := c_pointer x |> <| p_cont := Some (Z.to_nat id) |> in
  x <| container_table ::= alter (fun c =>
         let c := enrol p c in c <| ct_process_pointer := next_member (c_pointer x) c |>)
         (Z.to_nat id) |>.

Lemma next_process_run id idx c e s :
  lookupz (container_table (ctn s)) id = Some c ->
  (forall i, i ∈ idx -> 0 <= i < Z.of_nat (length (ct_process_active c))) ->
  next_process id idx e s =
  match find (vacant c) idx with
  | Some i => Ret (Some 0) e (s <| ctn ::= fun x => x <| container_table ::=
                alter (fun c => c <| ct_process_pointer := i |>) (Z.to_nat id) |> |>)
  | None => Ret None e s
  end.
Proof.
  intros Hc. unfold next_process. induction idx as [|i idx IH]; intros Hi; simpl; [done|].
  rewrite bind_bind. erewrite bind_Ret. 2:{ unfold get_container. prim. by apply index_run. }
  destruct (lookupz_is_Some (ct_process_active c) i) as [a Ha]; [apply Hi; left|].
  rewrite bind_bind. erewrite bind_Ret by (by apply index_run).
  unfold vacant at 1. assert (nthz 1 (ct_process_active c) i = a) as ->.
  { apply lookupz_Some in Ha as [? Ha]. unfold nthz. destruct (Z.ltb_spec i 0); [lia|]. by rewrite Ha. }
  destruct (a =? 0); [done|]. erewrite bind_Ret by reflexivity. apply IH. intros; apply Hi. by right.
Qed.

Lemma update_member id c e s :
  lookupz (container_table (ctn s)) id = Some c -> container_ok c ->
  -1 <= c_pointer (ctn s) < NCONTAINER ->
  (ptr ← gets (fun s => c_pointer (ctn s)) ;
   r ← next_process id (range (ptr + 1) NPROC_CONTAINER) ;
   match r with Some v => ret v | None =>
   r ← next_process id (range 0 ptr) ;
   match r with Some v => ret v | None =>
   set_container id (fun c => c <| ct_process_pointer := -1 |>) ;; ret 0 end end) e s =
  Ret 0 e (s <| ctn ::= fun x => x <| container_table ::=
     alter (fun c => c <| ct_process_pointer := next_member (c_pointer x) c |>) (Z.to_nat id) |> |>).
Proof.
  intros Hc [_ Hl] Hp. prim. pose proof (lookupz_Some _ _ _ Hc) as [_ Hc'].
  assert (forall lo hi, 0 <= lo -> hi <= NPROC_CONTAINER ->
    forall i, i ∈ range lo hi -> 0 <= i < Z.of_nat (length (ct_process_active c))) as Hr.
  { intros lo hi Hlo Hhi i. unfold range. rewrite elem_of_seqZ, Hl. unfold NPROC_CONTAINER in *. lia. }
  assert (forall i, default (-1) (find (vacant c) (range (c_pointer (ctn s) + 1) NPROC_CONTAINER ++
      range 0 (c_pointer (ctn s)))) = i ->
    s <| ctn ::= fun x => x <| container_table ::=
       alter (fun c => c <| ct_process_pointer := i |>) (Z.to_nat id) |> |> =
    s <| ctn ::= fun x => x <| container_table ::=
       alter (fun c => c <| ct_process_pointer := next_member (c_pointer x) c |>) (Z.to_nat id) |> |>) as Heq.
  { intros i Hi. unfold upd; cbn. do 2 f_equal. apply list_alter_ext; [|done].
    intros c' E. rewrite Hc' in E. injection E as <-. unfold next_member. by rewrite Hi. }
  unfold NPROC_CONTAINER, NCONTAINER in *.
  unfold bind at 1. rewrite (next_process_run _ _ c) by (done || apply Hr; lia).
  rewrite find_app in Heq. destruct (find _ (range (c_pointer (ctn s) + 1) 2)) as [i|] eqn:E1.
  { unfold ret. by rewrite (Heq i). }
  unfold bind at 1. rewrite (next_process_run _ _ c) by (done || apply Hr; lia).
  destruct (find _ (range 0 (c_pointer (ctn s)))) as [i|] eqn:E2.
  { unfold ret. by rewrite (Heq i). }
  unfold bind, set_container, set_ctn, modify, ret. by rewrite (Heq (-1)).
Qed.

Lemma talk_settle s : can_print s -> talk s (s <| sync ::= settle |>).
Proof.
  intros (Hc & _). exists (con s), (settle (sync s)). split; [by destruct s|]. auto with xv6.
Qed.

Lemma talk_running p pr s s' : sync_ok (sync s) -> talk s s' -> running p pr s -> running p pr s'.
Proof.
  intros Hok (k & sy & -> & _ & Hsy) [Hc Hp]. split; cbn; [|done].
  by rewrite (settled_cproc (sync s)).
Qed.

Lemma container_entry x id :
  ctn_shape x -> 0 <= id < NCONTAINER ->
  exists c, lookupz (container_table x) id = Some c /\ container_ok c.
Proof.
  intros Hx Hid. destruct (lookupz_is_Some (container_table x) id) as [c Hc].
  { rewrite (co_table _ Hx). lia. }
  exists c. split; [done|]. apply lookupz_Some in Hc as [_ Hc].
  by apply (Forall_lookup_1 _ _ _ _ (co_containers _ Hx) Hc).
Qed.

Lemma enrol_ok p c : container_ok c -> container_ok (enrol p c).
Proof. intros [H1 H2]. split; cbn; by rewrite length_insert. Qed.

(** A process joins an active container that has a free entry: a copy of its process structure
    is recorded; the process table itself does not change. *)
Lemma join_run id c p pr e s :
  ctn_ok (ctn s) -> can_print s -> running p pr s -> id ∈ live (ctn s) ->
  container_table (ctn s) !! Z.to_nat id = Some c -> 0 <= ct_process_pointer c < NPROC_CONTAINER ->
  exists s', join_container id e s = Ret 0 e s' /\ ctn_step (joined id pr (ctn s)) s s'.
Proof.
  intros [Hx Hptr] Hp Hrun Hid Hc Hpp. pose proof Hp as (Hcon & Hsy & Hf). unfold join_container.
  destruct (talk_cprintf "in join_container
" [] _ e s eq_refl Hcon Hsy Hf) as (s1 & Hr1 & Ht1).
  erewrite bind_Ret by exact Hr1. pose proof (can_print_talk _ _ Ht1 Hp) as Hp1.
  assert (ctn s1 = ctn s) as Hcs by (by destruct Ht1 as (? & ? & -> & _)).
  apply elem_of_live in Hid as [Hid Hl]. rewrite (is_live_inactive _ _ (co_active _ Hx)) in Hl by done.
  replace ((id <? 0) || (NCONTAINER <=? id)) with false.
  2:{ symmetry. apply orb_false_iff. rewrite Z.ltb_ge, Z.leb_gt. lia. }
  erewrite bind_Ret. 2:{ apply get_active_run. rewrite Hcs, (co_active _ Hx). unfold NCONTAINER in *. lia. }
  rewrite Hcs. change (nthz 1 (c_active (ctn s)) id =? 0) with (inactive (ctn s) id).
  apply negb_true_iff in Hl. rewrite Hl.
  destruct (container_entry (ctn s) id Hx Hid) as (c' & Hc' & Hcok).
  assert (c' = c) as ->.
  { apply lookupz_Some in Hc' as [_ Hc']. rewrite Hc in Hc'. by injection Hc'. }
  assert (forall st, ctn st = ctn s -> get_container id e st = Ret c e st) as Hget.
  { intros st Hst. unfold get_container. prim. rewrite Hst. by apply index_run. }
  erewrite bind_Ret by (by apply Hget). rewrite (proj2 (Z.eqb_neq _ _)) by lia.
  assert (talk s1 (s1 <| sync ::= settle |>)) as Ht2 by (by apply talk_settle).
  assert (curproc e s1 = Ret pr e (s1 <| sync ::= settle |>)) as Hcopy.
  { eapply curproc_run; [apply Hp1|by eapply talk_running]. }
  erewrite bind_Ret by exact Hcopy. set (s2 := s1 <| sync ::= settle |>) in *.
  erewrite bind_Ret by reflexivity. change (ctn s2) with (ctn s1). rewrite Hcs.
  erewrite bind_Ret by (by apply Hget).
  destruct Hcok as [Hpt Hpa].
  destruct (lookupz_is_Some (ct_process_table c) (ct_process_pointer c)) as [? Hi1]; [rewrite Hpt; lia|].
  destruct (lookupz_is_Some (ct_process_active c) (ct_process_pointer c)) as [? Hi2]; [rewrite Hpa; lia|].
  erewrite bind_Ret by (by apply index_run). erewrite bind_Ret by reflexivity.
  erewrite bind_Ret by (by apply index_run). erewrite bind_Ret by reflexivity.
  set (p' := pr <| p_container_id := c_pointer (ctn s) |> <| p_cont := Some (Z.to_nat id) |>).
  set (x2 := (ctn s) <| container_table ::= alter (enrol p') (Z.to_nat id) |>).
  assert (ctn_shape x2) as Hx2 by (apply shape_table; auto using enrol_ok).
  match goal with |- context [(print_c_table ;; _) e ?st] => replace st with (s2 <| ctn := x2 |>) end.
  2:{ unfold x2, upd; cbn. rewrite Hcs, list_alter_alter_eq. do 2 f_equal.
      apply list_alter_ext; [|done]. intros c' E. rewrite Hc in E. by injection E as <-. }
  destruct (ctn_step_print x2 s s2 e Hx2 Hp) as (s3 & Hr3 & Ht3); [by eapply talk_trans|].
  erewrite bind_Ret by exact Hr3.
  assert (ctn s3 = x2) as Hcs3 by (by destruct Ht3 as (? & ? & -> & _)).
  assert (lookupz (container_table x2) id = Some (enrol p' c)) as Hc2.
  { unfold x2, lookupz. cbn. destruct (Z.ltb_spec id 0); [lia|]. by rewrite list_lookup_alter_eq, Hc. }
  eexists. split.
  - apply (update_member id (enrol p' c)); [by rewrite Hcs3|by apply enrol_ok|rewrite Hcs3].
    change (c_pointer x2) with (c_pointer (ctn s)). destruct Hptr as [[-> _]|Hq].
    + unfold NCONTAINER. lia.
    + apply lookupz_Some in Hq as [Hq _]. rewrite (co_active _ Hx) in Hq. unfold NCONTAINER in *. lia.
  - destruct Ht3 as (k & sy & -> & Hk & Hsy'). exists k, sy. split; [|done].
    unfold joined, x2, upd; cbn. by rewrite list_alter_alter_eq.
Qed.

(** A process whose own container_id is not that of an active container cannot leave. *)
Lemma leave_refused p pr e s :
  ctn_ok (ctn s) -> can_print s -> running p pr s -> p_container_id pr ∉ live (ctn s) ->
  exists s', leave_container e s = Ret (-1) e s' /\ talk s s'.
Proof.
  intros [Hx Hptr] Hp Hrun Hid. pose proof Hp as (Hcon & Hsy & Hf). unfold leave_container.
  destruct (talk_cprintf "in leave_container
" [] _ e s eq_refl Hcon Hsy Hf) as (s1 & Hr1 & Ht1).
  erewrite bind_Ret by exact Hr1. pose proof (can_print_talk _ _ Ht1 Hp) as Hp1.
  assert (ctn s1 = ctn s) as Hcs by (by destruct Ht1 as (? & ? & -> & _)).
  assert (talk s1 (s1 <| sync ::= settle |>)) as Ht2 by (by apply talk_settle).
  assert (curproc e s1 = Ret pr e (s1 <| sync ::= settle |>)) as Hcopy.
  { eapply curproc_run; [apply Hp1|by eapply talk_running]. }
  erewrite bind_Ret by exact Hcopy. eexists. split; [|by eapply talk_trans].
  destruct (_ || _) eqn:Ho; [done|]. apply orb_false_iff in Ho as [H1 H2].
  apply Z.ltb_ge in H1. apply Z.leb_gt in H2.
  erewrite bind_Ret. 2:{ apply get_active_run. cbn. rewrite Hcs, (co_active _ Hx). unfold NCONTAINER in *. lia. }
  cbn [ctn]. fields. rewrite Hcs.
  change (nthz 1 (c_active (ctn s)) (p_container_id pr) =? 0) with (inactive (ctn s) (p_container_id pr)).
  destruct (inactive (ctn s) (p_container_id pr)) eqn:Ei; [done|]. destruct Hid.
  rewrite elem_of_live, (is_live_inactive _ _ (co_active _ Hx)), Ei by lia. split; [lia|done].
Qed.
