(* ===== verification/Syscall.v ===== *)
(** * System calls: syscall.c, and the tracing calls of proc.c

    Arguments are fetched from the user stack through the current page table; the dispatcher
    runs the entry of its table for the number in eax.  An out-parameter filled on success is
    modelled by an option, [None] for the return value -1. *)

From stdpp Require Import base list gmap strings fin_maps.
From S2P Require Import Prelude State Monad Spinlock Console Kalloc Str Vm VmProofs VmUser Umem Sched.
Open Scope Z_scope.

(** ** Fetching arguments *)

Definition fetchint (addr : Z) : M (option Z) :=
  pr ← curproc ;
  if (p_sz pr <=? addr) || (p_sz pr <? u32 (addr + 4)) then ret None else
  w ← uload32 addr ;
  ret (Some (s32 w)).

(** The scan for the terminating zero, from [s] up to [ep]. *)
Fixpoint fetchstr_loop (fuel : nat) (s ep pp : Z) : M (option Z) :=
  match fuel with
  | O => nofuel
  | S fuel =>
      if s <? ep then
        c ← uload8 s ;
        if c =? 0 then ret (Some (s - pp)) else fetchstr_loop fuel (u32 (s + 1)) ep pp
      else ret None
  end.

(** The length of the string at [addr]. *)
Definition fetchstr (addr : Z) : M (option Z) :=
  pr ← curproc ;
  if p_sz pr <=? addr then ret None else
  let ep := p_sz pr in
  fetchstr_loop (S (Z.to_nat (ep - addr))) addr ep addr.

Definition argint (n : Z) : M (option Z) :=
  pr ← curproc ;
  fetchint (u32 (esp (p_tf pr) + 4 + 4 * n)).

Definition argptr (n size : Z) : M (option Z) :=
  pr ← curproc ;
  i ← argint n ;
  match i with
  | None => ret None
  | Some i =>
      if (size <? 0) || (p_sz pr <=? u32 i) || (p_sz pr <? u32 (u32 i + size)) then ret None
      else ret (Some (u32 i))
  end.

(** The address of the string and its length. *)
Definition argstr (n : Z) : M (option (Z * Z)) :=
  addr ← argint n ;
  match addr with
  | None => ret None
  | Some addr => len ← fetchstr (u32 addr) ; ret ((fun l => (u32 addr, l)) <$> len)
  end.

(** ** Dispatch *)

Definition set_trc (f : tracest -> tracest) : M unit := modify (fun s => s <| trc ::= f |>).

(** counter[i]++ on an int array. *)
Definition count (i : Z) : M unit :=
  cs ← gets (fun s => counter (trc s)) ;
  c ← index "counter[num-1]" cs i ;
  if c =? 2 ^ 31 - 1 then undef "counter[num-1]++" else
  set_trc (fun t => t <| counter ::= <[Z.to_nat i := c + 1]> |>).

(** [table] is syscalls[]: the handler of each number, [None] for a hole of the array. *)
Definition syscall (table : list (option (M Z))) : M unit :=
  p ← myproc ;
  p ← the_proc p ;
  pr ← getp p ;
  let num := s32 (eax (p_tf pr)) in
  let unknown :=
    cprintf "%d %s: unknown sys call %d
" [AInt (p_pid pr); AStr (cstring (p_name pr)); AInt num] ;;
    setp p (fun pr => pr <| p_tf ::= fun tf => tf <| eax := u32 (-1) |> |>) in
  if (0 <? num) && (num <? Z.of_nat (length table)) then
    match lookupz table num with
    | Some (Some h) =>
        tr ← gets (fun s => trace (trc s)) ;
        when (tr =? 1) (count (num - 1)) ;;
        r ← h ;
        setp p (fun pr => pr <| p_tf ::= fun tf => tf <| eax := u32 r |> |>)
    | _ => unknown
    end
  else unknown.

(** ** Tracing *)

Definition num_syscall : Z := 33.

Definition syscall_arr : list string :=
  [ "sys_fork"; "sys_exit"; "sys_wait"; "sys_pipe"; "sys_read"; "sys_kill"; "sys_exec";
    "sys_fstat"; "sys_chdir"; "sys_dup"; "sys_getpid"; "sys_sbrk"; "sys_sleep"; "sys_uptime";
    "sys_open"; "sys_write"; "sys_mknod"; "sys_unlink"; "sys_link"; "sys_mkdir"; "sys_close";
    "sys_halt"; "sys_toggle"; "sys_print_count"; "sys_ps"; "sys_send"; "sys_recv";
    "sys_send_multi"; "sys_create_container"; "sys_destroy_container"; "sys_join_container";
    "sys_leave_container"; "sys_container_malloc" ].

(** syscall.h, from 1 on. *)
Definition syscall_names : list string :=
  [ "fork"; "exit"; "wait"; "pipe"; "read"; "kill"; "exec"; "fstat"; "chdir"; "dup"; "getpid";
    "sbrk"; "sleep"; "uptime"; "open"; "write"; "mknod"; "unlink"; "link"; "mkdir"; "close";
    "halt"; "toggle"; "print_count"; "ps"; "send"; "recv"; "send_multi"; "store"; "sleepcustom";
    "wakeupcustom"; "read_mean"; "create_container"; "destroy_container"; "join_container";
    "leave_container"; "container_malloc" ].

Definition halt : M unit := cprintf "in halt functions: " [].

Definition toggle : M Z :=
  t ← gets (fun s => trace (trc s)) ;
  (if t =? 0 then set_trc (fun x => x <| trace := 1 |>)
   else
     set_trc (fun x => x <| trace := 0 |>) ;;
     for_each (range 0 num_syscall) (fun i =>
       cs ← gets (fun s => counter (trc s)) ;
       index "counter[i]" cs i ;;
       set_trc (fun x => x <| counter ::= <[Z.to_nat i := 0]> |>))) ;;
  ret 0.

Definition print_count : M Z :=
  for_each (range 0 num_syscall) (fun i =>
    cs ← gets (fun s => counter (trc s)) ;
    c ← index "counter[i]" cs i ;
    when (negb (c =? 0))
      (nm ← index "syscall_arr[i]" syscall_arr i ;
       cprintf "%s %d
" [AStr (str nm); AInt c])) ;;
  ret 0.

(** The text [m] that ps builds for each state is not printed. *)
Definition ps : M Z :=
  for_each slots (fun i =>
    p ← getp i ;
    when (negb (is_state UNUSED p))
      (cprintf "pid:%d name:%s 
" [AInt (p_pid p); AStr (cstring (p_name p))])) ;;
  ret 0.

(** ** Fetching arguments is safe

    [uspace p pr ufr s]: the running process is [p], the page table in use is its own, and every
    page below its size is mapped. *)

Definition uspace (p : nat) (pr : proc) (R : list Z) (tabs ufr : gmap Z Z) (fr : list Z) (s : kstate) : Prop :=
  sync_ok (sync s) /\ running p pr s /\ as_inv R (p_pgdir pr) tabs ufr fr s /\
  cr3 (vm s) = V2P (p_pgdir pr) /\ 0 <= p_sz pr <= KERNBASE /\
  forall va, 0 <= va < p_sz pr -> is_Some (ufr !! (va / PGSIZE)).

(** The byte the process has at [va]. *)
Definition ubyte (ufr : gmap Z Z) (s : kstate) (va : Z) : Z := byte_at (mem (vm s)) (uphys ufr va).

Definition le32 (f : Z -> Z) (va : Z) : Z :=
  Z.lor (Z.lor (Z.lor (f va) (Z.shiftl (f (va + 1)) 8)) (Z.shiftl (f (va + 2)) 16))
        (Z.shiftl (f (va + 3)) 24).

Section fetch.
Context (p : nat) (pr : proc) (R : list Z) (tabs ufr : gmap Z Z) (fr : list Z) (s : kstate).
Context (Hu : uspace p pr R tabs ufr fr s).
Let s1 := s <| sync ::= settle |>.

Lemma uload8_user va e :
  0 <= va < p_sz pr -> uload8 va e s1 = Ret (ubyte ufr s va) e s1.
Proof.
  intros Hva. destruct Hu as (_ & _ & Has & Hcr & Hsz & Hmap). destruct (Hmap va Hva) as [f Hf].
  unfold uload8. prim. cbn. rewrite Hcr. erewrite user_xlate by (exact Has || exact Hf || lia). done.
Qed.

Lemma uload32_user va e :
  0 <= va -> va + 4 <= p_sz pr -> uload32 va e s1 = Ret (le32 (ubyte ufr s) va) e s1.
Proof.
  intros Hva Hle. assert (p_sz pr <= KERNBASE) as Hsz by apply Hu. unfold uload32.
  assert (forall k, 0 <= k < 4 -> u32 (va + k) = va + k) as Hk.
  { intros. apply u32_small. unfold is_u32, KERNBASE in *. lia. }
  rewrite !Hk by lia. do 4 (erewrite bind_Ret by (apply uload8_user; lia)). done.
Qed.

Lemma curproc_user e : curproc e s = Ret pr e s1.
Proof. destruct Hu as (Hok & Hrun & _). by eapply curproc_run. Qed.

(** A word is fetched exactly when all of it lies below the size of the process. *)
Lemma fetchint_run addr e :
  is_u32 addr ->
  fetchint addr e s =
  Ret (if bool_decide (addr + 4 <= p_sz pr) then Some (s32 (le32 (ubyte ufr s) addr)) else None) e s1.
Proof.
  intros Ha. assert (0 <= p_sz pr <= KERNBASE) as Hsz by apply Hu.
  unfold fetchint. erewrite bind_Ret by apply curproc_user.
  destruct (Z.leb_spec (p_sz pr) addr); cbn [orb].
  { rewrite bool_decide_eq_false_2 by lia. done. }
  rewrite u32_small by (unfold is_u32, KERNBASE in *; lia).
  destruct (Z.ltb_spec (p_sz pr) (addr + 4)).
  - rewrite bool_decide_eq_false_2 by lia. done.
  - rewrite bool_decide_eq_true_2 by lia. unfold is_u32 in Ha.
    erewrite bind_Ret by (apply uload32_user; lia). done.
Qed.

Lemma fetchstr_loop_run n a e pp :
  0 <= a -> Z.of_nat n = p_sz pr - a ->
  fetchstr_loop (S n) a (p_sz pr) pp e s1 =
  Ret ((fun i => a + Z.of_nat i - pp) <$> findi (fun b => b =? 0) (ubyte ufr s <$> seqZ a (Z.of_nat n))) e s1.
Proof.
  assert (0 <= p_sz pr <= KERNBASE) as Hsz by apply Hu.
  revert a. induction n as [|n IH]; intros a Ha Hn.
  - cbn. destruct (Z.ltb_spec a (p_sz pr)); [lia|done].
  - remember (S n) as n' eqn:En. cbn [fetchstr_loop]. destruct (Z.ltb_spec a (p_sz pr)); [|lia].
    erewrite bind_Ret by (apply uload8_user; lia). subst n'.
    rewrite seqZ_cons by lia. cbn [fmap list_fmap findi].
    destruct (ubyte ufr s a =? 0); [cbn; do 2 f_equal; lia|].
    rewrite u32_small by (unfold is_u32, KERNBASE in *; lia).
    rewrite (IH (a + 1)) by lia. replace (Z.pred (Z.of_nat (S n))) with (Z.of_nat n) by lia.
    change (Z.succ a) with (a + 1).
    destruct (findi _ _) as [i|]; cbn; [|done]. do 2 f_equal. lia.
Qed.

(** A string is accepted exactly when it ends below the size; its length is returned. *)
Lemma fetchstr_run addr e :
  is_u32 addr ->
  fetchstr addr e s =
  Ret (Z.of_nat <$> findi (fun b => b =? 0) (ubyte ufr s <$> seqZ addr (p_sz pr - addr))) e s1.
Proof.
  intros Ha. assert (0 <= p_sz pr <= KERNBASE) as Hsz by apply Hu. unfold is_u32 in Ha.
  unfold fetchstr. erewrite bind_Ret by apply curproc_user.
  destruct (Z.leb_spec (p_sz pr) addr).
  - replace (seqZ addr (p_sz pr - addr)) with (@nil Z); [done|].
    unfold seqZ. by replace (Z.to_nat (p_sz pr - addr)) with 0%nat by lia.
  - rewrite fetchstr_loop_run by lia. rewrite Z2Nat.id by lia. f_equal.
    destruct (findi _ _) as [i|]; cbn; [|done]. f_equal. lia.
Qed.

Lemma uspace_settle : uspace p pr R tabs ufr fr s1.
Proof.
  destruct Hu as (Hok & [Hc Hpr] & (Hpg & Huk & Hen) & Hrest). split; [cbn; auto with xv6|]. split.
  { split; [|done]. cbn. by rewrite (settled_cproc (sync s)) by auto with xv6. }
  split; [|done]. split; [|done].
  destruct Hpg as [Hm Hr Ht Hp Hn Hpa]. split; try done.
  destruct Hr as [?|[Ho Hf]]; [by left|right]. split; [cbn; auto with xv6|done].
Qed.

Lemma s1_settle : s1 <| sync ::= settle |> = s1.
Proof. unfold s1, upd; cbn. by rewrite settle_settle. Qed.
End fetch.

Section args.
Context (p : nat) (pr : proc) (R : list Z) (tabs ufr : gmap Z Z) (fr : list Z) (s : kstate).
Context (Hu : uspace p pr R tabs ufr fr s).

(** The [n]-th word above the saved stack pointer. *)
Definition arg_at (n : Z) : option Z :=
  let addr := u32 (esp (p_tf pr) + 4 + 4 * n) in
  if bool_decide (addr + 4 <= p_sz pr) then Some (s32 (le32 (ubyte ufr s) addr)) else None.

Lemma argint_run n e : argint n e s = Ret (arg_at n) e (s <| sync ::= settle |>).
Proof.
  unfold argint. erewrite bind_Ret by (by eapply curproc_user).
  erewrite (fetchint_run _ _ _ _ ufr) by (apply u32_range || by apply uspace_settle).
  by rewrite s1_settle.
Qed.

(** A pointer argument is accepted only for a block that lies in the address space. *)
Lemma argptr_run n size e :
  is_s32 size ->
  argptr n size e s =
  Ret (arg_at n ≫= fun a => if bool_decide (0 <= size /\ u32 a < p_sz pr /\ u32 a + size <= p_sz pr)
                           then Some (u32 a) else None) e (s <| sync ::= settle |>).
Proof.
  intros Hs. assert (0 <= p_sz pr <= KERNBASE) as Hsz by apply Hu.
  unfold argptr. erewrite bind_Ret by (by eapply curproc_user).
  assert (argint n e (s <| sync ::= settle |>) = Ret (arg_at n) e (s <| sync ::= settle |>)) as Harg.
  { unfold argint. erewrite bind_Ret by (eapply curproc_user; by apply uspace_settle).
    rewrite s1_settle.
    erewrite (fetchint_run _ _ _ _ ufr) by (apply u32_range || by apply uspace_settle).
    by rewrite s1_settle. }
  erewrite bind_Ret by exact Harg. destruct (arg_at n) as [a|]; cbn; [|done].
  pose proof (u32_range a) as Ha. unfold is_u32, is_s32, KERNBASE in *.
  destruct (Z.ltb_spec size 0); cbn [orb].
  { rewrite bool_decide_eq_false_2 by lia. done. }
  destruct (Z.leb_spec (p_sz pr) (u32 a)); cbn [orb].
  { rewrite bool_decide_eq_false_2 by lia. done. }
  rewrite (u32_small (u32 a + size)) by (unfold is_u32; lia).
  destruct (Z.ltb_spec (p_sz pr) (u32 a + size)).
  - rewrite bool_decide_eq_false_2 by lia. done.
  - rewrite bool_decide_eq_true_2 by lia. done.
Qed.

Lemma argstr_run n e :
  argstr n e s =
  Ret (arg_at n ≫= fun a =>
       (fun l => (u32 a, Z.of_nat l)) <$>
         findi (fun b => b =? 0) (ubyte ufr s <$> seqZ (u32 a) (p_sz pr - u32 a)))
      e (s <| sync ::= settle |>).
Proof.
  unfold argstr. erewrite bind_Ret by apply argint_run.
  destruct (arg_at n) as [a|]; cbn; [|done].
  erewrite bind_Ret.
  2:{ eapply (fetchstr_run _ _ _ _ ufr); [by apply uspace_settle|apply u32_range]. }
  rewrite s1_settle. unfold ret. f_equal.
  change (ubyte ufr (s <| sync ::= settle |>)) with (ubyte ufr s). by destruct (findi _ _).
Qed.
End args.

(** ** Dispatch *)

Lemma count_run i c e s :
  lookupz (counter (trc s)) i = Some c -> c < 2 ^ 31 - 1 ->
  count i e s = Ret tt e (s <| trc ::= fun t => t <| counter ::= <[Z.to_nat i := c + 1]> |> |>).
Proof.
  intros Hi Hc. unfold count. prim. erewrite bind_Ret by (unfold index; by rewrite Hi).
  rewrite (proj2 (Z.eqb_neq _ _)) by lia. done.
Qed.

Lemma known_call num n : 0 < num < n -> (0 <? num) && (num <? n) = true.
Proof. intros [H1 H2]. by rewrite (proj2 (Z.ltb_lt _ _) H1), (proj2 (Z.ltb_lt _ _) H2). Qed.

(** The state in which the handler of call [num] starts: with tracing on the call has been
    counted, which needs an entry of the array and room in it; otherwise there is nothing to
    count. *)
Definition counted (num : Z) (s s2 : kstate) : Prop :=
  let s1 := s <| sync ::= settle |> in
  if trace (trc s) =? 1
  then exists c, lookupz (counter (trc s)) (num - 1) = Some c /\ c < 2 ^ 31 - 1 /\
         s2 = s1 <| trc ::= fun t => t <| counter ::= <[Z.to_nat (num - 1) := c + 1]> |> |>
  else s2 = s1.

(** The handler runs, and its result goes to eax. *)
Lemma syscall_run (table : list (option (M Z))) p pr (h : M Z) e s s2 :
  sync_ok (sync s) -> running p pr s ->
  let num := s32 (eax (p_tf pr)) in
  0 < num < Z.of_nat (length table) -> lookupz table num = Some (Some h) -> counted num s s2 ->
  syscall table e s =
  (r ← h ; setp p (fun pr => pr <| p_tf ::= fun tf => tf <| eax := u32 r |> |>)) e s2.
Proof.
  intros Hok [Hc Hpr] num Hnum Hh Hcnt. unfold syscall.
  erewrite bind_Ret by (by apply myproc_run). rewrite Hc. erewrite bind_Ret by reflexivity.
  erewrite bind_Ret by (by apply getp_run). cbn zeta. fold num.
  rewrite known_call by done. rewrite Hh. prim. cbn [trc]. unfold counted in Hcnt.
  erewrite bind_Ret; [reflexivity|].
  unfold when. cbn. destruct (trace (trc s) =? 1) eqn:Et.
  - destruct Hcnt as (c & Hl & Hc31 & ->). by erewrite count_run by done.
  - by subst s2.
Qed.

(** With tracing on, the calls numbered 34 and up are counted outside the array. *)
Lemma syscall_overrun (table : list (option (M Z))) p pr (h : M Z) e s :
  sync_ok (sync s) -> running p pr s ->
  let num := s32 (eax (p_tf pr)) in
  0 < num < Z.of_nat (length table) -> lookupz table num = Some (Some h) ->
  length (counter (trc s)) = Z.to_nat num_syscall -> num_syscall < num -> trace (trc s) = 1 ->
  syscall table e s = Undef "counter[num-1]" (s <| sync ::= settle |>).
Proof.
  intros Hok [Hc Hpr] num Hnum Hh Hlen Hover Htr. unfold syscall.
  erewrite bind_Ret by (by apply myproc_run). rewrite Hc. erewrite bind_Ret by reflexivity.
  erewrite bind_Ret by (by apply getp_run). cbn zeta. fold num.
  rewrite known_call by done. rewrite Hh. prim.
  apply bind_Undef. cbn. rewrite Htr. cbn. unfold count. prim. apply bind_Undef. unfold index.
  replace (lookupz _ (num - 1)) with (@None Z); [done|]. symmetry. unfold lookupz.
  destruct (Z.ltb_spec (num - 1) 0); [lia|]. apply lookup_ge_None_2. cbn. lia.
Qed.

(** A number without a handler: a message is printed and the call fails. *)
Lemma syscall_unknown (table : list (option (M Z))) p pr e s :
  can_print s -> running p pr s ->
  let num := s32 (eax (p_tf pr)) in
  ~ 0 < num < Z.of_nat (length table) \/ lookupz table num = Some None ->
  exists s1, talk s s1 /\
  syscall table e s =
  Ret tt e (upd_procs (alter (fun pr => pr <| p_tf ::= fun tf => tf <| eax := u32 (-1) |> |>) p) s1).
Proof.
  intros Hp [Hc Hpr] num Hbad. pose proof Hp as (_ & Hok & _). unfold syscall.
  erewrite bind_Ret by (by apply myproc_run). rewrite Hc. erewrite bind_Ret by reflexivity.
  erewrite bind_Ret by (by apply getp_run). cbn zeta. fold num.
  assert (talk s (s <| sync ::= settle |>)) as Ht0.
  { exists (con s), (settle (sync s)). split; [by destruct s|]. split; [apply Hp|auto with xv6]. }
  destruct (says_cprintf (fun _ => True) "%d %s: unknown sys call %d
" [AInt (p_pid pr); AStr (cstring (p_name pr)); AInt num] _ eq_refl e (s <| sync ::= settle |>))
    as (s1 & Hr1 & Ht1); [done|by eapply can_print_talk|].
  exists s1. split; [by eapply talk_trans|].
  assert (forall (b : bool) (h : M unit), (b = true -> lookupz table num = Some None) ->
    (if b then match lookupz table num with Some (Some h) => tr ← gets (fun s => trace (trc s)) ;
        when (tr =? 1) (count (num - 1)) ;;
        r ← h ;
        setp p (fun pr => pr <| p_tf ::= fun tf => tf <| eax := u32 r |> |>) | _ => h end else h) = h) as Hsel.
  { intros [] h Hb; [by rewrite Hb|done]. }
  rewrite Hsel.
  - erewrite bind_Ret by exact Hr1. eapply setp_run.
    destruct Ht1 as (? & ? & -> & _). exact Hpr.
  - intros Hb. destruct Hbad as [Hn|]; [|done]. destruct Hn.
    apply andb_true_iff in Hb as [H1 H2]. apply Z.ltb_lt in H1. apply Z.ltb_lt in H2. done.
Qed.

(** ** Tracing *)

Definition set_counter (cs : list Z) (s : kstate) : kstate :=
  s <| trc ::= fun t => t <| counter := cs |> |>.

Lemma clear_loop (k : nat) suf e s :
  counter (trc s) = replicate k 0 ++ suf ->
  for_each (seqZ (Z.of_nat k) (Z.of_nat (length suf))) (fun i =>
    cs ← gets (fun s => counter (trc s)) ;
    index "counter[i]" cs i ;;
    set_trc (fun x => x <| counter ::= <[Z.to_nat i := 0]> |>)) e s =
  Ret tt e (set_counter (replicate (k + length suf) 0) s).
Proof.
  revert k s. induction suf as [|c suf IH]; intros k s Hs.
  - cbn [for_each length seqZ]. unfold ret, set_counter, upd; cbn.
    rewrite app_nil_r in Hs. rewrite Nat.add_0_r, <-Hs. by destruct s as [???? [] ??????].
  - rewrite seqZ_cons by (cbn; lia). cbn [for_each]. rewrite bind_bind. prim.
    assert (counter (trc s) !! k = Some c) as Hk.
    { rewrite Hs, lookup_app_r; rewrite length_replicate; [|lia]. by rewrite Nat.sub_diag. }
    erewrite bind_Ret by (unfold index; by rewrite lookupz_nat, Hk).
    erewrite bind_Ret by reflexivity.
    replace (Z.pred (Z.of_nat (length (c :: suf)))) with (Z.of_nat (length suf)) by (cbn; lia).
    replace (Z.succ (Z.of_nat k)) with (Z.of_nat (S k)) by lia. rewrite IH.
    + unfold set_counter, upd; cbn. do 4 f_equal. by rewrite <-Nat.add_succ_comm.
    + cbn. rewrite Nat2Z.id, Hs, insert_app_r_alt by (by rewrite length_replicate).
      rewrite length_replicate, Nat.sub_diag. cbn.
      rewrite (app_comm_cons (replicate k 0)), replicate_cons_app. by rewrite <-app_assoc.
Qed.

(** toggle flips tracing; turning it off clears every counter. *)
Lemma toggle_run e s :
  length (counter (trc s)) = Z.to_nat num_syscall ->
  toggle e s = Ret 0 e (s <| trc ::= fun t =>
    if trace t =? 0 then t <| trace := 1 |>
    else mkTrace 0 (replicate (Z.to_nat num_syscall) 0) |>).
Proof.
  intros Hl. unfold toggle. prim. destruct (trace (trc s) =? 0) eqn:Et.
  - erewrite bind_Ret by reflexivity. unfold ret, upd; cbn. by rewrite Et.
  - rewrite bind_bind. erewrite bind_Ret by reflexivity.
    set (s1 := s <| trc ::= fun x => x <| trace := 0 |> |>).
    pose proof (clear_loop 0 (counter (trc s)) e s1 eq_refl) as Hc.
    rewrite Hl in Hc. change (seqZ _ _) with (range 0 num_syscall) in Hc.
    erewrite bind_Ret by exact Hc.
    unfold ret, set_counter, upd; cbn -[replicate]. by rewrite Et.
Qed.

(** The name table and the numbers of syscall.h part at 29, SYS_store. *)
Lemma names_agree : take 28 syscall_arr = String.append "sys_" <$> take 28 syscall_names.
Proof. reflexivity. Qed.
Lemma names_differ i nm nm' :
  syscall_arr !! i = Some nm -> syscall_names !! i = Some nm' -> (28 <= i)%nat ->
  nm <> String.append "sys_" nm'.
Proof.
  intros Hn Hn' Hi. pose proof (lookup_lt_Some _ _ _ Hn) as Hl. cbn in Hl.
  do 28 (destruct i as [|i]; [lia|]). do 5 (destruct i as [|i]; [by injection Hn as <-; injection Hn' as <-|]). lia.
Qed.
