(* ===== verification/Sleeplock.v ===== *)
(** * Sleep locks: sleeplock.c

    A held sleep lock is an entry of [slocks] with the pid of its holder; a free one has none.
    Each lock has a spin lock of its own, [L_sleep sl]. *)

From stdpp Require Import base list gmap strings fin_maps.
From S2P Require Import Prelude State Monad Spinlock Console Kalloc Str Vm Sched.
Open Scope Z_scope.

Definition set_slocks (f : gmap sleepid Z -> gmap sleepid Z) : M unit :=
  modify (fun s => s <| sync ::= fun sy => sy <| slocks ::= f |> |>).

Definition initsleeplock (sl : sleepid) : M unit :=
  initlock (L_sleep sl) ;;
  set_slocks (delete sl).

(** [while(lk->locked) sleep(lk, &lk->lk);]: every turn of the loop waits, so the steps left in
    the environment bound it. *)
Fixpoint sleep_while (fuel : nat) (sl : sleepid) : M unit :=
  match fuel with
  | O => nofuel
  | S fuel =>
      l ← gets (fun s => slocks (sync s) !! sl) ;
      match l with
      | Some _ => sleep (Ch_sleep sl) (L_sleep sl) ;; sleep_while fuel sl
      | None => ret tt
      end
  end.

Definition acquiresleep (sl : sleepid) : M unit :=
  acquire (L_sleep sl) ;;
  (fun e => sleep_while (S (length e)) sl e) ;;
  pr ← curproc ;
  set_slocks <[sl := p_pid pr]> ;;
  release (L_sleep sl).

Definition releasesleep (sl : sleepid) : M unit :=
  acquire (L_sleep sl) ;;
  set_slocks (delete sl) ;;
  wakeup (Ch_sleep sl) ;;
  release (L_sleep sl).

(** The pid of the caller is looked at only if the lock is held. *)
Definition holdingsleep (sl : sleepid) : M bool :=
  acquire (L_sleep sl) ;;
  l ← gets (fun s => slocks (sync s) !! sl) ;
  r ← match l with
      | None => ret false
      | Some pid => pr ← curproc ; ret (pid =? p_pid pr)
      end ;
  release (L_sleep sl) ;;
  ret r.
