(* ===== verification/Calm.v ===== *)
(** * Uncontended execution of the file system

    The file-system code below runs in a process that no other thread contends with: every spin
    lock is free between operations and no one sleeps on a file-system channel.  Then it only
    changes the sleep locks, the file-system tables and the disk, a value of [fsys], over a fixed
    rest [s0] of the kernel state.  [mrun m x a x'] says that [m] takes [x] to [x'] and returns
    [a], with the help of finitely many steps of the environment (the disk interrupt). *)

From stdpp Require Import base list gmap strings fin_maps.
From S2P Require Import Prelude State Monad Spinlock Console Kalloc Str Vm Sched Sleeplock.
Open Scope Z_scope.

Definition fs_chan (ch : chan) : bool :=
  match ch with Ch_buf _ | Ch_sleep _ | Ch_log => true | _ => false end.

Record calm (p : nat) (pr : proc) (s : kstate) : Prop := {
  cm_ok : sync_ok (sync s);
  cm_settle : settle (sync s) = sync s;
  cm_held : held (sync s) = ∅;
  cm_ncli : ncli (my (sync s)) = 0;
  cm_run : running p pr s;
  cm_state : p_state pr = RUNNING /\ p_chan pr = None;
  cm_nprocs : nprocs s;
  cm_awake : forall i q ch, procs (pt s) !! i = Some q -> p_state q = SLEEPING ->
    p_chan q = Some ch -> fs_chan ch = false
}.

Record fsys := mkFsys { fl : gmap sleepid Z; ff : fsst; fd : diskst }.
#[export] Instance eta_fsys : Eta fsys := fun x => mkFsys (fl x) (ff x) (fd x).

Definition at_fs (s0 : kstate) (x : fsys) : kstate :=
  s0 <| sync ::= fun sy => sy <| slocks := fl x |> |> <| fst_ := ff x |> <| dsk := fd x |>.

(** Sleep locks and interrupts do not interact. *)
Lemma me_slocks g sy : me (sy <| slocks ::= g |>) = me sy.
Proof. done. Qed.
Lemma sync_ok_slocks g sy : sync_ok (sy <| slocks ::= g |>) <-> sync_ok sy.
Proof. done. Qed.
Lemma settle_slocks g sy : settle (sy <| slocks ::= g |>) = (settle sy) <| slocks ::= g |>.
Proof. done. Qed.
Lemma lock_slocks l g sy : lock_sync l (sy <| slocks ::= g |>) = (lock_sync l sy) <| slocks ::= g |>.
Proof. done. Qed.

Section calm.
Context (p : nat) (pr : proc) (s0 : kstate).
Context (Hcalm : calm p pr s0).

Notation st := (at_fs s0).
Definition locked (l : lockid) (x : fsys) : kstate := (st x) <| sync ::= lock_sync l |>.

Lemma calm_st x : calm p pr (st x).
Proof.
  destruct Hcalm as [H1 H2 H3 H4 H5 H6 H7 H8]. split; try done.
  change (settle (sync (st x))) with ((settle (sync s0)) <| slocks := fl x |>). by rewrite H2.
Qed.

Lemma st_free l x : free l (sync (st x)).
Proof. pose proof (cm_held _ _ _ (calm_st x)) as H. unfold free. rewrite H. apply lookup_empty. Qed.
Lemma st_sync x : sync_ok (sync (st x)).
Proof. apply (cm_ok _ _ _ (calm_st x)). Qed.
Lemma st_settle x : (st x) <| sync ::= settle |> = st x.
Proof.
  pose proof (cm_settle _ _ _ (calm_st x)) as H. set (s := st x) in *. clearbody s.
  destruct s. unfold upd; cbn in *. by rewrite H.
Qed.

Lemma acquire_st l x e : acquire l e (st x) = Ret tt e (locked l x).
Proof. apply acquire_run; [apply st_sync|apply st_free]. Qed.
Lemma release_st l x e : release l e (locked l x) = Ret tt e (st x).
Proof.
  rewrite (release_run l e _ (sync (st x))); [|done|apply st_sync|apply st_free].
  rewrite (cm_settle _ _ _ (calm_st x)). done.
Qed.

(** Changes under a lock. *)
Lemma locked_slocks l x g :
  (locked l x) <| sync ::= fun sy => sy <| slocks ::= g |> |> = locked l (x <| fl ::= g |>).
Proof. reflexivity. Qed.
Lemma locked_ff l x g : (locked l x) <| fst_ ::= g |> = locked l (x <| ff ::= g |>).
Proof. reflexivity. Qed.
Lemma locked_fd l x g : (locked l x) <| dsk ::= g |> = locked l (x <| fd ::= g |>).
Proof. reflexivity. Qed.

Lemma curproc_st x e : curproc e (st x) = Ret pr e (st x).
Proof. rewrite (curproc_run p pr) by apply calm_st. by rewrite st_settle. Qed.
Lemma curproc_locked l x e : curproc e (locked l x) = Ret pr e (locked l x).
Proof.
  rewrite (curproc_run p pr).
  - f_equal. apply (settle_locked l (sync (st x))); [done|apply st_sync].
  - apply sync_ok_lock, st_sync.
  - split; [|apply calm_st]. cbn.
    destruct (my_locked l (sync (st x)) (st_sync x) (cm_ncli _ _ _ (calm_st x))) as (_ & _ & Hc).
    etransitivity; [exact Hc|apply calm_st].
Qed.

(** No one is asleep on a file-system channel: wakeup does nothing. *)
Lemma wake_none ch s : fs_chan ch = true -> calm p pr s -> upd_procs (map (wake (Some ch))) s = s.
Proof.
  intros Hch Hc. rewrite <-(upd_procs_id s) at 2. apply upd_procs_ext.
  change (map (wake (Some ch))) with (fmap (M := list) (wake (Some ch))).
  apply list_eq. intros i. rewrite list_lookup_fmap.
  destruct (procs (pt s) !! i) as [q|] eqn:Hq; [|done]. cbn. f_equal. unfold wake.
  destruct (is_state SLEEPING q) eqn:Hs; [|done]. apply bool_decide_eq_true in Hs. cbn.
  case_bool_decide as Hx; [|done].
  pose proof (cm_awake _ _ _ Hc i q ch Hq Hs Hx). congruence.
Qed.
Lemma wakeup_locked l ch x e :
  fs_chan ch = true -> l <> L_ptable -> wakeup ch e (locked l x) = Ret tt e (locked l x).
Proof.
  intros Hch Hl. rewrite wakeup_run.
  - f_equal. transitivity ((upd_procs (map (wake (Some ch))) (st x)) <| sync ::= fun sy => settle (lock_sync l sy) |>).
    { done. }
    rewrite (wake_none ch _ Hch (calm_st x)). unfold locked, upd. cbn.
    pose proof (settle_lock l (sync (st x)) (st_sync x)) as E. unfold upd in E. cbn in E.
    by rewrite E.
  - apply calm_st.
  - apply sync_ok_lock, st_sync.
  - apply free_lock; [done|apply st_free].
Qed.

(** ** Runs *)

Definition mrun {A} (m : M A) (x : fsys) (a : A) (x' : fsys) : Prop :=
  exists pre, forall e, m (pre ++ e) (st x) = Ret a e (st x').

Lemma mrun_exact {A} (m : M A) x a x' :
  (forall e, m e (st x) = Ret a e (st x')) -> mrun m x a x'.
Proof. intros H. by exists []. Qed.
Lemma mrun_ret {A} (a : A) x : mrun (ret a) x a x.
Proof. by apply mrun_exact. Qed.
Lemma mrun_bind {A B} (m : M A) (k : A -> M B) x a x1 b x2 :
  mrun m x a x1 -> mrun (k a) x1 b x2 -> mrun (bind m k) x b x2.
Proof.
  intros [pre1 H1] [pre2 H2]. exists (pre1 ++ pre2). intros e.
  rewrite <-app_assoc. erewrite bind_Ret by apply H1. apply H2.
Qed.
Lemma mrun_gets {A} (f : kstate -> A) x : mrun (gets f) x (f (st x)) x.
Proof. by apply mrun_exact. Qed.
Lemma mrun_when (b : bool) m x x' :
  (b = true -> mrun m x tt x') -> (b = false -> x' = x) -> mrun (when b m) x tt x'.
Proof.
  destruct b; intros H1 H2; cbn; [by apply H1|]. rewrite H2 by done. apply mrun_ret.
Qed.
Lemma mrun_assoc {A B C} (m : M A) (f : A -> M B) (g : B -> M C) x c x' :
  mrun (bind m (fun a => bind (f a) g)) x c x' -> mrun (bind (bind m f) g) x c x'.
Proof. intros [pre H]. exists pre. intros e. rewrite bind_bind. apply H. Qed.

(** A loop over a list, with an invariant indexed by what is still to be done. *)
Lemma mrun_for_each {B} (I : list B -> fsys -> Prop) (body : B -> M unit) l x :
  I l x ->
  (forall b rest y, I (b :: rest) y -> exists y', mrun (body b) y tt y' /\ I rest y') ->
  exists x', mrun (for_each l body) x tt x' /\ I [] x'.
Proof.
  intros HI Hb. revert x HI. induction l as [|b l IH]; intros x HI; cbn.
  { exists x. split; [apply mrun_ret|done]. }
  destruct (Hb b l x HI) as (y & Hy & HIy). destruct (IH y HIy) as (x' & Hx & HIx).
  exists x'. split; [|done]. by eapply mrun_bind.
Qed.

(** ** Sleep locks *)

Lemma initsleeplock_run sl x :
  mrun (initsleeplock sl) x tt (x <| fl ::= delete sl |>).
Proof.
  apply mrun_exact. intros e. unfold initsleeplock, initlock, set_slocks. prim. unfold modify. f_equal.
  pose proof (st_free (L_sleep sl) x) as Hf. unfold free in Hf. unfold at_fs, upd in *. cbn in *.
  do 2 f_equal. by apply delete_id.
Qed.

Lemma acquiresleep_run sl x :
  fl x !! sl = None -> mrun (acquiresleep sl) x tt (x <| fl ::= <[sl := p_pid pr]> |>).
Proof.
  intros Hf. apply mrun_exact. intros e. unfold acquiresleep.
  erewrite bind_Ret by apply acquire_st.
  assert (sleep_while (S (length e)) sl e (locked (L_sleep sl) x) = Ret tt e (locked (L_sleep sl) x)) as Hw.
  { cbn [sleep_while]. prim. cbn. by rewrite Hf. }
  erewrite bind_Ret by exact Hw. erewrite bind_Ret by apply curproc_locked.
  unfold set_slocks. prim. rewrite locked_slocks. apply release_st.
Qed.

Lemma releasesleep_run sl x : mrun (releasesleep sl) x tt (x <| fl ::= delete sl |>).
Proof.
  apply mrun_exact. intros e. unfold releasesleep. erewrite bind_Ret by apply acquire_st.
  unfold set_slocks. prim. rewrite locked_slocks.
  erewrite bind_Ret by (by apply wakeup_locked).
  apply release_st.
Qed.

Lemma holdingsleep_run sl x :
  mrun (holdingsleep sl) x (bool_decide (fl x !! sl = Some (p_pid pr))) x.
Proof.
  apply mrun_exact. intros e. unfold holdingsleep. erewrite bind_Ret by apply acquire_st. prim. cbn.
  destruct (fl x !! sl) as [pid|].
  - rewrite bind_bind. erewrite bind_Ret by apply curproc_locked. prim.
    erewrite bind_Ret by apply release_st. unfold ret. f_equal.
    case_bool_decide as E.
    + injection E as ->. by rewrite Z.eqb_refl.
    + apply Z.eqb_neq. congruence.
  - prim. erewrite bind_Ret by apply release_st. done.
Qed.
End calm.

#[export] Hint Resolve calm_st st_sync st_free : xv6.
