(* ===== verification/Disk.v ===== *)
(** * Disk drivers: ide.c and memide.c

    The kernel is linked with one of the two; both export ideinit, ideintr and iderw.  The class
    [BlockDriver] is that interface, the rest of the kernel is written against it.  The IDE
    hardware is modelled as always ready and free of errors: a write command stores the block
    when it is issued, a read command delivers it when its interrupt is handled. *)

From stdpp Require Import base list gmap strings fin_maps.
From S2P Require Import Prelude State Monad Spinlock Console Kalloc Str Vm Sched Sleeplock.
Open Scope Z_scope.

Definition B_VALID : Z := 0x2.
Definition B_DIRTY : Z := 0x4.

(** ** Access to buffers and the disk *)

Definition set_fs (f : fsst -> fsst) : M unit := modify (fun s => s <| fst_ ::= f |>).
Definition set_dsk (f : diskst -> diskst) : M unit := modify (fun s => s <| dsk ::= f |>).

(** [bcache.buf[i]]; index NBUF is [bcache.head]. *)
Definition getb (i : nat) : M buf :=
  bs ← gets (fun s => bufs (fst_ s)) ;
  match bs !! i with Some b => ret b | None => undef "bcache.buf[i]" end.
Definition setb (i : nat) (f : buf -> buf) : M unit :=
  set_fs (fun x => x <| bufs ::= alter f i |>).

Definition zero_block : list Z := replicate (Z.to_nat BSIZE) 0.
Definition read_disk (d : diskst) (drive block : Z) : list Z := default zero_block (disk d !! (drive, block)).

Definition write_disk (drive block : Z) (data : list Z) (d : diskst) : diskst :=
  d <| writes ::= fun ws => ws ++ [(drive, block, data)] |>.

Class BlockDriver := {
  ideinit : M unit;
  ideintr : M unit;
  iderw : nat -> M unit
}.

(** ** ide.c *)

Module Ide.

(** [present] tells whether disk 1 answers. *)
Definition ideinit (present : bool) : M unit :=
  initlock L_ide ;;
  when present (set_dsk (fun d => d <| havedisk1 := 1 |>)).

Definition idestart (b : option nat) : M unit :=
  match b with
  | None => panic "idestart"
  | Some i =>
      b ← getb i ;
      if FSSIZE <=? b_blockno b then panic "incorrect blockno" else
      let sector_per_block := BSIZE / 512 in
      let sector := b_blockno b * sector_per_block in
      if 7 <? sector_per_block then panic "idestart" else
      when (has (b_flags b) B_DIRTY)
        (set_dsk (write_disk (Z.land (b_dev b) 1) sector (b_data b)))
  end.

Definition ideintr : M unit :=
  acquire L_ide ;;
  q ← gets (fun s => idequeue (dsk s)) ;
  match q with
  | [] => release L_ide
  | i :: rest =>
      set_dsk (fun d => d <| idequeue := rest |>) ;;
      b ← getb i ;
      when (negb (has (b_flags b) B_DIRTY))
        (d ← gets dsk ;
         setb i (fun b => b <| b_data := read_disk d (Z.land (b_dev b) 1) (b_blockno b) |>)) ;;
      setb i (fun b => b <| b_flags ::= fun f => Z.lor f B_VALID |>) ;;
      setb i (fun b => b <| b_flags ::= fun f => Z.land f (Z.lnot B_DIRTY) |>) ;;
      wakeup (Ch_buf i) ;;
      q ← gets (fun s => idequeue (dsk s)) ;
      when (bool_decide (q <> [])) (idestart (head q)) ;;
      release L_ide
  end.

(** The wait for the request to finish; each turn sleeps. *)
Fixpoint wait_done (fuel : nat) (i : nat) : M unit :=
  match fuel with
  | O => nofuel
  | S fuel =>
      b ← getb i ;
      if Z.land (b_flags b) (Z.lor B_VALID B_DIRTY) =? B_VALID then ret tt
      else sleep (Ch_buf i) L_ide ;; wait_done fuel i
  end.

Definition iderw (i : nat) : M unit :=
  h ← holdingsleep (SL_buf i) ;
  if negb h then panic "iderw: buf not locked" else
  b ← getb i ;
  if Z.land (b_flags b) (Z.lor B_VALID B_DIRTY) =? B_VALID then panic "iderw: nothing to do" else
  d1 ← gets (fun s => havedisk1 (dsk s)) ;
  if negb (b_dev b =? 0) && (d1 =? 0) then panic "iderw: ide disk 1 not present" else
  acquire L_ide ;;
  set_dsk (fun d => d <| idequeue ::= fun q => q ++ [i] |>) ;;
  q ← gets (fun s => idequeue (dsk s)) ;
  when (bool_decide (head q = Some i)) (idestart (Some i)) ;;
  (fun e => wait_done (S (length e)) i e) ;;
  release L_ide.

End Ide.

(** ** memide.c: the disk image linked into the kernel *)

Module Memide.

(** [size] is the length of the image in bytes. *)
Definition ideinit (size : Z) : M unit :=
  set_dsk (fun d => d <| disksize := size / BSIZE |>).

Definition ideintr : M unit := ret tt.

Definition iderw (i : nat) : M unit :=
  h ← holdingsleep (SL_buf i) ;
  if negb h then panic "iderw: buf not locked" else
  b ← getb i ;
  if Z.land (b_flags b) (Z.lor B_VALID B_DIRTY) =? B_VALID then panic "iderw: nothing to do" else
  if negb (b_dev b =? 1) then panic "iderw: request not for disk 1" else
  d ← gets dsk ;
  if disksize d <=? b_blockno b then panic "iderw: block out of range" else
  (if has (b_flags b) B_DIRTY then
     setb i (fun b => b <| b_flags ::= fun f => Z.land f (Z.lnot B_DIRTY) |>) ;;
     set_dsk (write_disk 1 (b_blockno b) (b_data b))
   else setb i (fun b => b <| b_data := read_disk d 1 (b_blockno b) |>)) ;;
  setb i (fun b => b <| b_flags ::= fun f => Z.lor f B_VALID |>).

End Memide.

Definition ide_driver (present : bool) : BlockDriver :=
  {| ideinit := Ide.ideinit present; ideintr := Ide.ideintr; iderw := Ide.iderw |}.
Definition memide_driver (size : Z) : BlockDriver :=
  {| ideinit := Memide.ideinit size; ideintr := Memide.ideintr; iderw := Memide.iderw |}.
