(* ===== verification/Bio.v ===== *)
(** * The buffer cache: bio.c

    Buffers are the first NBUF entries of [bufs]; entry NBUF is bcache.head, and [b_prev] and
    [b_next] link them in order of use. *)

From stdpp Require Import base list gmap strings fin_maps.
From S2P Require Import Prelude State Monad Spinlock Console Kalloc Str Vm Sched Sleeplock Disk.
Open Scope Z_scope.

(** &bcache.head *)
Definition bhead : nat := Z.to_nat NBUF.

Definition binit : M unit :=
  initlock L_bcache ;;
  setb bhead (fun h => h <| b_prev := bhead |>) ;;
  setb bhead (fun h => h <| b_next := bhead |>) ;;
  for_each (seq 0 (Z.to_nat NBUF)) (fun b =>
    h ← getb bhead ;
    setb b (fun x => x <| b_next := b_next h |>) ;;
    setb b (fun x => x <| b_prev := bhead |>) ;;
    initsleeplock (SL_buf b) ;;
    setb (b_next h) (fun x => x <| b_prev := b |>) ;;
    setb bhead (fun x => x <| b_next := b |>)).

Section driver.
Context `{BlockDriver}.

(** The first scan of bget, from [b] along [b_next]. *)
Fixpoint find_cached (fuel : nat) (dev blockno : Z) (b : nat) : M (option nat) :=
  match fuel with
  | O => nofuel
  | S fuel =>
      if bool_decide (b = bhead) then ret None else
      x ← getb b ;
      if (b_dev x =? dev) && (b_blockno x =? blockno) then
        setb b (fun x => x <| b_refcnt := u32 (b_refcnt x + 1) |>) ;;
        release L_bcache ;;
        acquiresleep (SL_buf b) ;;
        ret (Some b)
      else find_cached fuel dev blockno (b_next x)
  end.

(** The second, from [b] along [b_prev]. *)
Fixpoint find_unused (fuel : nat) (dev blockno : Z) (b : nat) : M (option nat) :=
  match fuel with
  | O => nofuel
  | S fuel =>
      if bool_decide (b = bhead) then ret None else
      x ← getb b ;
      if (b_refcnt x =? 0) && negb (has (b_flags x) B_DIRTY) then
        setb b (fun x => x <| b_dev := dev |>) ;;
        setb b (fun x => x <| b_blockno := blockno |>) ;;
        setb b (fun x => x <| b_flags := 0 |>) ;;
        setb b (fun x => x <| b_refcnt := 1 |>) ;;
        release L_bcache ;;
        acquiresleep (SL_buf b) ;;
        ret (Some b)
      else find_unused fuel dev blockno (b_prev x)
  end.

(** The lists have NBUF buffers and the head. *)
Definition list_fuel : nat := S (S (Z.to_nat NBUF)).

Definition bget (dev blockno : Z) : M nat :=
  acquire L_bcache ;;
  h ← getb bhead ;
  r ← find_cached list_fuel dev blockno (b_next h) ;
  match r with
  | Some b => ret b
  | None =>
      h ← getb bhead ;
      r ← find_unused list_fuel dev blockno (b_prev h) ;
      match r with
      | Some b => ret b
      | None => panic "bget: no buffers"
      end
  end.

Definition bread (dev blockno : Z) : M nat :=
  b ← bget dev blockno ;
  x ← getb b ;
  when (negb (has (b_flags x) B_VALID)) (iderw b) ;;
  ret b.

Definition bwrite (b : nat) : M unit :=
  h ← holdingsleep (SL_buf b) ;
  if negb h then panic "bwrite" else
  setb b (fun x => x <| b_flags ::= fun f => Z.lor f B_DIRTY |>) ;;
  iderw b.

Definition brelse (b : nat) : M unit :=
  h ← holdingsleep (SL_buf b) ;
  if negb h then panic "brelse" else
  releasesleep (SL_buf b) ;;
  acquire L_bcache ;;
  setb b (fun x => x <| b_refcnt := u32 (b_refcnt x - 1) |>) ;;
  x ← getb b ;
  when (b_refcnt x =? 0)
    (setb (b_next x) (fun n => n <| b_prev := b_prev x |>) ;;
     setb (b_prev x) (fun p => p <| b_next := b_next x |>) ;;
     h ← getb bhead ;
     setb b (fun x => x <| b_next := b_next h |>) ;;
     setb b (fun x => x <| b_prev := bhead |>) ;;
     setb (b_next h) (fun n => n <| b_prev := b |>) ;;
     setb bhead (fun h => h <| b_next := b |>)) ;;
  release L_bcache.

End driver.
