(* ===== verification/BioProofs.v ===== *)
(** * The buffer cache is a coherent cache of the disk

    [cache x V D W L] relates the buffers to the abstract contents [V] of the disk: block [k]
    reads as [V k] through the cache; the blocks [D] are pinned (modified, to be written by a
    commit), the blocks [W] have been modified by their holder since, and [L] gives the block of
    every locked buffer.  bread, bwrite and brelse are specified against it. *)

From stdpp Require Import base list gmap strings fin_maps.
From S2P Require Import Prelude State Monad Spinlock Console Kalloc Str Vm Sched Sleeplock Calm Disk Bio.
Open Scope Z_scope.

(** ** Doubly linked rings *)

(** [chain nx pv a o z]: following [nx] from [a] leads through [o] to [z], and [pv] leads back. *)
Fixpoint chain (nx pv : nat -> nat) (a : nat) (o : list nat) (z : nat) : Prop :=
  match o with
  | [] => nx a = z /\ pv z = a
  | b :: o => nx a = b /\ pv b = a /\ chain nx pv b o z
  end.

Definition fset (f : nat -> nat) (i v : nat) : nat -> nat := fun j => if decide (i = j) then v else f j.
Lemma fset_eq f i v : fset f i v i = v.
Proof. unfold fset. by rewrite decide_True. Qed.
Lemma fset_ne f i j v : i <> j -> fset f i v j = f j.
Proof. intros. unfold fset. by rewrite decide_False. Qed.

Lemma chain_app nx pv a o1 b o2 z :
  chain nx pv a (o1 ++ b :: o2) z <-> chain nx pv a o1 b /\ chain nx pv b o2 z.
Proof. revert a. induction o1 as [|c o1 IH]; intros a; cbn; [tauto|]. rewrite IH. tauto. Qed.

(** A chain depends on [nx] at its nodes but the last and on [pv] at its nodes but the first. *)
Lemma chain_ext nx pv nx' pv' a o z :
  (forall i, i ∈ a :: o -> nx' i = nx i) -> (forall i, i ∈ o ++ [z] -> pv' i = pv i) ->
  chain nx pv a o z -> chain nx' pv' a o z.
Proof.
  revert a. induction o as [|b o IH]; intros a Hn Hp; cbn.
  - rewrite Hn, Hp by (by left). done.
  - intros (H1 & H2 & H3). rewrite Hn by (by left). rewrite Hp by (by left). split_and!; try done.
    apply IH; [intros i Hi; apply Hn; by right|intros i Hi; apply Hp; by right|done].
Qed.

Lemma chain_rev nx pv a o z : chain nx pv a o z -> chain pv nx z (reverse o) a.
Proof.
  revert a. induction o as [|b o IH]; intros a; cbn [chain]; [cbn; tauto|].
  intros (H1 & H2 & H3). rewrite reverse_cons. apply chain_app. split; [by apply IH|]. done.
Qed.

Lemma chain_pv nx pv a o z : chain nx pv a o z -> pv z ∈ a :: o.
Proof.
  revert a. induction o as [|b o IH]; intros a; cbn [chain].
  - intros [_ ->]. by left.
  - intros (_ & _ & H). right. by apply IH.
Qed.
Lemma chain_nx nx pv a o z : chain nx pv a o z -> nx a ∈ o ++ [z].
Proof. destruct o; cbn; [intros [-> _]|intros [-> _]]; by left. Qed.

(** Taking [b] out. *)
Lemma chain_unlink nx pv a o1 b o2 z :
  NoDup (a :: o1 ++ b :: o2) -> z ∉ o1 ++ b :: o2 -> chain nx pv a (o1 ++ b :: o2) z ->
  chain (fset nx (pv b) (nx b)) (fset pv (nx b) (pv b)) a (o1 ++ o2) z.
Proof.
  revert a. induction o1 as [|c o1 IH]; intros a Hd Hz Hc.
  - cbn in *. destruct Hc as (H1 & H2 & H3). rewrite H2. destruct o2 as [|c o2]; cbn in *.
    + destruct H3 as [-> _]. by rewrite !fset_eq.
    + destruct H3 as (-> & H4 & H5). rewrite !fset_eq. split_and!; [done..|].
      apply (chain_ext nx pv); [| |done]; intros i Hi; apply fset_ne; intros ->.
      * apply NoDup_cons in Hd as [Hd _]. set_solver.
      * apply NoDup_cons in Hd as [_ Hd]. rewrite !NoDup_cons in Hd. set_solver.
  - cbn [app] in *. apply NoDup_cons in Hd as [Ha Hd]. destruct Hc as (H1 & H2 & H3).
    cbn [chain]. apply chain_app in H3 as H4. destruct H4 as [H4 H5].
    apply chain_pv in H4. apply chain_nx in H5.
    rewrite fset_ne by (intros E; rewrite E in H4; set_solver). rewrite fset_ne.
    2: { intros E. rewrite E in H5. apply NoDup_cons in Hd as [Hd _]. set_solver. }
    split_and!; [done..|]. apply IH; [done|set_solver|done].
Qed.

(** Putting [b] at the front. *)
Lemma chain_insert nx pv h b o :
  NoDup (h :: o) -> b ∉ h :: o -> chain nx pv h o h ->
  chain (fset (fset nx b (nx h)) h b) (fset (fset pv b h) (nx h) b) h (b :: o) h.
Proof.
  intros Hd Hb Hc. rewrite not_elem_of_cons in Hb. destruct Hb as [Hbh Hb].
  apply NoDup_cons in Hd as [Hh Hd]. destruct o as [|c o]; cbn in *.
  - destruct Hc as [-> _]. repeat (rewrite fset_eq || rewrite fset_ne by done). done.
  - destruct Hc as (-> & H1 & H2). rewrite not_elem_of_cons in Hb. destruct Hb as [Hbc Hb].
    rewrite not_elem_of_cons in Hh. destruct Hh as [Hhc Hh]. apply NoDup_cons in Hd as [Hc Hd].
    repeat (rewrite fset_eq || rewrite fset_ne by done). split_and!; [done..|].
    apply (chain_ext nx pv); [| |done]; intros i Hi; rewrite !fset_ne; set_solver.
Qed.

(** ** Links and contents of the buffers *)

Definition nxs (bs : list buf) (i : nat) : nat := match bs !! i with Some b => b_next b | None => O end.
Definition pvs (bs : list buf) (i : nat) : nat := match bs !! i with Some b => b_prev b | None => O end.

Lemma nxs_set bs i v j :
  (i < length bs)%nat -> nxs (alter (fun b => b <| b_next := v |>) i bs) j = fset (nxs bs) i v j.
Proof.
  intros Hi. unfold nxs, fset. destruct (decide (i = j)) as [<-|Hj].
  - rewrite list_lookup_alter_eq. by destruct (lookup_lt_is_Some_2 bs i Hi) as [b ->].
  - by rewrite list_lookup_alter_ne.
Qed.
Lemma pvs_set bs i v j :
  (i < length bs)%nat -> pvs (alter (fun b => b <| b_prev := v |>) i bs) j = fset (pvs bs) i v j.
Proof.
  intros Hi. unfold pvs, fset. destruct (decide (i = j)) as [<-|Hj].
  - rewrite list_lookup_alter_eq. by destruct (lookup_lt_is_Some_2 bs i Hi) as [b ->].
  - by rewrite list_lookup_alter_ne.
Qed.
Lemma nxs_keep bs i f j : (forall b, b_next (f b) = b_next b) -> nxs (alter f i bs) j = nxs bs j.
Proof.
  intros Hf. unfold nxs. destruct (decide (i = j)) as [<-|Hj].
  - rewrite list_lookup_alter_eq. destruct (bs !! i); cbn; [apply Hf|done].
  - by rewrite list_lookup_alter_ne.
Qed.
Lemma pvs_keep bs i f j : (forall b, b_prev (f b) = b_prev b) -> pvs (alter f i bs) j = pvs bs j.
Proof.
  intros Hf. unfold pvs. destruct (decide (i = j)) as [<-|Hj].
  - rewrite list_lookup_alter_eq. destruct (bs !! i); cbn; [apply Hf|done].
  - by rewrite list_lookup_alter_ne.
Qed.

Definition bare (b : buf) : buf := b <| b_next := O |> <| b_prev := O |>.
Lemma bare_alter f (i : nat) (bs : list buf) : (forall b, bare (f b) = bare b) -> bare <$> alter f i bs = bare <$> bs.
Proof.
  intros Hf. apply list_eq. intros j. rewrite !list_lookup_fmap.
  destruct (decide (i = j)) as [<-|Hj].
  - rewrite list_lookup_alter_eq. destruct (bs !! i); cbn; [by rewrite Hf|done].
  - by rewrite list_lookup_alter_ne.
Qed.

(** The order of the buffers in the list of bcache: all of them, each once. *)
Definition ring (bs : list buf) : Prop :=
  length bs = S bhead /\
  exists o, o ≡ₚ seq 0 bhead /\ chain (nxs bs) (pvs bs) bhead o bhead.

Lemma ring_order o : o ≡ₚ seq 0 bhead -> NoDup (bhead :: o) /\ forall i, i ∈ o <-> (i < bhead)%nat.
Proof.
  intros Ho. assert (forall i, i ∈ o <-> (i < bhead)%nat) as Hin.
  { intros i. rewrite Ho, elem_of_seq. lia. }
  split; [|done]. apply NoDup_cons. split; [rewrite Hin; lia|]. rewrite Ho. apply NoDup_seq.
Qed.

Lemma ring_keep bs f i :
  (forall b, b_next (f b) = b_next b) -> (forall b, b_prev (f b) = b_prev b) ->
  ring bs -> ring (alter f i bs).
Proof.
  intros Hn Hp (Hl & o & Ho & Hc). split; [by rewrite length_alter|]. exists o. split; [done|].
  eapply chain_ext; [| |exact Hc]; intros; [by apply nxs_keep|by apply pvs_keep].
Qed.

(** What brelse and binit do to the links: take a buffer out, put it at the front. *)
Definition unlink (i : nat) (bs : list buf) : list buf :=
  alter (fun p => p <| b_next := nxs bs i |>) (pvs bs i)
    (alter (fun n => n <| b_prev := pvs bs i |>) (nxs bs i) bs).
Definition push_front (i : nat) (bs : list buf) : list buf :=
  alter (fun h => h <| b_next := i |>) bhead
    (alter (fun n => n <| b_prev := i |>) (nxs bs bhead)
      (alter (fun x => x <| b_prev := bhead |>) i
        (alter (fun x => x <| b_next := nxs bs bhead |>) i bs))).
Definition to_front (i : nat) (bs : list buf) : list buf := push_front i (unlink i bs).

Lemma to_front_bare i bs : bare <$> to_front i bs = bare <$> bs.
Proof. unfold to_front, push_front, unlink. by rewrite !bare_alter. Qed.
Lemma push_front_bare i bs : bare <$> push_front i bs = bare <$> bs.
Proof. unfold push_front. by rewrite !bare_alter. Qed.

Lemma push_chain bs i o :
  length bs = S bhead -> (i < bhead)%nat -> NoDup (bhead :: o) -> i ∉ o -> (forall j, j ∈ o -> (j < bhead)%nat) ->
  chain (nxs bs) (pvs bs) bhead o bhead ->
  chain (nxs (push_front i bs)) (pvs (push_front i bs)) bhead (i :: o) bhead.
Proof.
  intros Hl Hi Hd Hio Hin Hc.
  assert (nxs bs bhead < S bhead)%nat as Hn.
  { apply chain_nx in Hc as Hx. apply elem_of_app in Hx as [Hx|Hx]; [apply Hin in Hx; lia|].
    apply list_elem_of_singleton in Hx. lia. }
  pose proof (chain_insert (nxs bs) (pvs bs) bhead i o) as Hins.
  eapply chain_ext; [| |apply Hins; [done| |done]]; clear Hins.
  - intros j _. unfold push_front. rewrite nxs_set by (rewrite !length_alter; lia).
    unfold fset. destruct (decide (bhead = j)); [done|]. do 2 rewrite nxs_keep by done.
    by rewrite nxs_set by lia.
  - intros j _. unfold push_front. rewrite pvs_keep by done.
    rewrite pvs_set by (rewrite !length_alter; lia). unfold fset at 1 2. destruct (decide _); [done|].
    rewrite pvs_set by (rewrite !length_alter; lia). unfold fset. destruct (decide _); [done|].
    by apply pvs_keep.
  - rewrite not_elem_of_cons. split; [lia|done].
Qed.

Lemma ring_link_bounds bs i :
  ring bs -> (i <= bhead)%nat -> (nxs bs i < length bs)%nat /\ (pvs bs i < length bs)%nat.
Proof.
  intros (Hl & o & Ho & Hc) Hi. destruct (ring_order o Ho) as [Hd Hin]. rewrite Hl.
  assert (forall k, k ∈ bhead :: o \/ k ∈ o ++ [bhead] -> (k < S bhead)%nat) as Hb.
  { intros k Hk. assert (k = bhead \/ k ∈ o) as [-> | H] by set_solver; [lia|]. apply Hin in H. lia. }
  destruct (decide (i = bhead)) as [->|Hne].
  - split; apply Hb; [right; by eapply chain_nx|left; by eapply chain_pv].
  - assert (i ∈ o) as (o1 & o2 & E)%list_elem_of_split by (apply Hin; lia). subst o.
    apply chain_app in Hc as [H1 H2]. apply chain_pv in H1. apply chain_nx in H2.
    split; apply Hb; set_solver.
Qed.

Lemma ring_to_front bs i : ring bs -> (i < bhead)%nat -> ring (to_front i bs).
Proof.
  intros Hr Hi. destruct (ring_link_bounds bs i Hr ltac:(lia)) as [Hn Hp].
  destruct Hr as (Hl & o & Ho & Hc). destruct (ring_order o Ho) as [Hd Hin].
  assert (i ∈ o) as (o1 & o2 & E)%list_elem_of_split by (by apply Hin). subst o.
  assert (bhead ∉ o1 ++ i :: o2) as Hh by (apply NoDup_cons in Hd; tauto).
  pose proof (chain_unlink _ _ _ _ _ _ _ Hd Hh Hc) as Hu.
  split; [unfold to_front, push_front, unlink; by rewrite !length_alter|].
  exists (i :: o1 ++ o2). split; [by rewrite Permutation_middle|].
  assert (NoDup (bhead :: o1 ++ o2) /\ i ∉ o1 ++ o2) as [Hd' Hi'].
  { rewrite <-Permutation_middle in Hd, Hh. rewrite !NoDup_cons in *. set_solver. }
  apply push_chain; try done.
  - unfold unlink. by rewrite !length_alter.
  - intros j Hj. apply Hin. set_solver.
  - eapply chain_ext; [| |exact Hu]; intros j _; unfold unlink.
    + rewrite nxs_set by (by rewrite length_alter). unfold fset. destruct (decide _); [done|].
      by apply nxs_keep.
    + rewrite pvs_keep by done. by apply pvs_set.
Qed.

(** ** The invariant *)

Definition vset (V : Z -> list Z) (k : Z) (d : list Z) : Z -> list Z :=
  fun j => if decide (j = k) then d else V j.
Lemma vset_eq V k d : vset V k d k = d.
Proof. unfold vset. by rewrite decide_True. Qed.
Lemma vset_ne V k d j : j <> k -> vset V k d j = V j.
Proof. intros. unfold vset. by rewrite decide_False. Qed.

(** Buffer [b], held for block [o] if at all, whose sleep lock is [lk]. *)
Definition slot (pid nblk : Z) (V : Z -> list Z) (D : gset Z) (o : option Z) (lk : option Z) (b : buf) : Prop :=
  b_refcnt b = (if o then 1 else 0) /\ lk = (if o then Some pid else None) /\
  (b_dev b = 0 /\ b_flags b = 0 /\ o = None \/
   b_dev b = 1 /\ 0 <= b_blockno b < nblk /\ b_data b = V (b_blockno b) /\
   b_flags b = (if decide (b_blockno b ∈ D) then 6 else 2) /\
   (o = None \/ o = Some (b_blockno b))).

Record slots (pid nblk : Z) (lk : gmap sleepid Z) (bs : list buf) (V : Z -> list Z) (D : gset Z)
    (L : gmap nat Z) : Prop := {
  sl_slot : forall i, (i < bhead)%nat ->
    exists b, bs !! i = Some b /\ slot pid nblk V D (L !! i) (lk !! SL_buf i) b;
  sl_uniq : forall i j b b', (i < bhead)%nat -> (j < bhead)%nat -> bs !! i = Some b -> bs !! j = Some b' ->
    b_dev b = 1 -> b_dev b' = 1 -> b_blockno b = b_blockno b' -> i = j;
  sl_pinned : forall k, k ∈ D ->
    exists i b, (i < bhead)%nat /\ bs !! i = Some b /\ b_dev b = 1 /\ b_blockno b = k;
  sl_range : forall i k, L !! i = Some k -> (i < bhead)%nat
}.

Lemma slots_bare pid nblk lk bs bs' V D L :
  bare <$> bs' = bare <$> bs -> slots pid nblk lk bs V D L -> slots pid nblk lk bs' V D L.
Proof.
  intros E [H1 H2 H3 H4].
  assert (forall i b, bs !! i = Some b -> exists b', bs' !! i = Some b' /\ bare b' = bare b) as Hto.
  { intros i b Hb. assert ((bare <$> bs') !! i = Some (bare b)) as Hx by (rewrite E, list_lookup_fmap, Hb; done).
    rewrite list_lookup_fmap in Hx. destruct (bs' !! i) as [b'|]; [|done]. exists b'. split; [done|]. by apply (inj Some) in Hx. }
  assert (forall i b', bs' !! i = Some b' -> exists b, bs !! i = Some b /\ bare b' = bare b) as Hof.
  { intros i b' Hb. assert ((bare <$> bs) !! i = Some (bare b')) as Hx by (rewrite <-E, list_lookup_fmap, Hb; done).
    rewrite list_lookup_fmap in Hx. destruct (bs !! i) as [b|]; [|done]. exists b. split; [done|]. by apply (inj Some) in Hx. }
  assert (forall b b', bare b' = bare b -> b_flags b' = b_flags b /\ b_dev b' = b_dev b /\
    b_blockno b' = b_blockno b /\ b_refcnt b' = b_refcnt b /\ b_data b' = b_data b) as Hb.
  { intros [] [] Hb. injection Hb. by intros. }
  split; [| | |done].
  - intros i Hi. destruct (H1 i Hi) as (b & Hbi & Hs). destruct (Hto i b Hbi) as (b' & Hb' & Hx).
    exists b'. split; [done|]. destruct (Hb _ _ Hx) as (E1 & E2 & E3 & E4 & E5).
    unfold slot in *. by rewrite E1, E2, E3, E4, E5.
  - intros i j b b' Hi Hj Hbi Hbj E1 E2 E3. destruct (Hof i b Hbi) as (c & Hc & Hx).
    destruct (Hof j b' Hbj) as (c' & Hc' & Hx'). apply Hb in Hx, Hx'.
    apply (H2 i j c c'); intuition congruence.
  - intros k Hk. destruct (H3 k Hk) as (i & b & Hi & Hbi & E1 & E2).
    destruct (Hto i b Hbi) as (b' & Hb' & Hx). apply Hb in Hx. exists i, b'. intuition congruence.
Qed.

(** A change of one buffer, which then holds a block no other one holds. *)
Lemma slots_change pid nblk lk bs V D L lk' bs' V' D' L' i b b' :
  slots pid nblk lk bs V D L ->
  (i < bhead)%nat -> bs !! i = Some b -> bs' !! i = Some b' ->
  slot pid nblk V' D' (L' !! i) (lk' !! SL_buf i) b' ->
  (forall j, j <> i -> bs' !! j = bs !! j /\ L' !! j = L !! j /\ lk' !! SL_buf j = lk !! SL_buf j) ->
  b_dev b' = 1 ->
  (forall j c, j <> i -> (j < bhead)%nat -> bs !! j = Some c -> b_dev c = 1 -> b_blockno c <> b_blockno b') ->
  (forall k, k <> b_blockno b' -> V' k = V k /\ (k ∈ D' <-> k ∈ D)) ->
  (b_dev b = 1 -> b_blockno b ∈ D' -> b_blockno b = b_blockno b') ->
  slots pid nblk lk' bs' V' D' L'.
Proof.
  intros [H1 H2 H3 H4] Hi Hb Hb' Hs Hne Hdev Hu Hk Hold. split.
  - intros j Hj. destruct (decide (j = i)) as [->|Hji]; [by exists b'|].
    destruct (H1 j Hj) as (c & Hc & Hsc). destruct (Hne j Hji) as (E1 & E2 & E3).
    exists c. split; [by rewrite E1|]. rewrite E2, E3. unfold slot in *.
    destruct Hsc as (? & ? & Hd). split_and!; [done..|].
    destruct Hd as [Hd|(Hd1 & Hd2 & Hd3 & Hd4 & Hd5)]; [by left|right].
    destruct (Hk (b_blockno c) (Hu j c Hji Hj Hc Hd1)) as [-> Hiff].
    split_and!; try done; [lia..|]. rewrite Hd4. symmetry. by apply decide_ext.
  - intros j j' c c' Hj Hj' Hc Hc' E1 E2 E3.
    destruct (decide (j = i)) as [->|Hji], (decide (j' = i)) as [->|Hji']; [done|..].
    + rewrite (proj1 (Hne j' Hji')) in Hc'. simplify_eq. exfalso. by apply (Hu j' c').
    + rewrite (proj1 (Hne j Hji)) in Hc. simplify_eq. exfalso. by apply (Hu j c).
    + rewrite (proj1 (Hne j' Hji')) in Hc'. rewrite (proj1 (Hne j Hji)) in Hc. by apply (H2 j j' c c').
  - intros k Hk'. destruct (decide (k = b_blockno b')) as [->|Hkb]; [by exists i, b'|].
    apply (Hk k Hkb) in Hk' as Hkd. destruct (H3 k Hkd) as (j & c & Hj & Hc & E1 & E2).
    destruct (decide (j = i)) as [->|Hji].
    + simplify_eq. exfalso. apply Hkb. by apply Hold.
    + exists j, c. split_and!; try done. by rewrite (proj1 (Hne j Hji)).
  - intros j k Hj. destruct (decide (j = i)) as [->|Hji]; [done|].
    rewrite (proj1 (proj2 (Hne j Hji))) in Hj. by eapply H4.
Qed.

(** ** The drivers *)

Definition on_buf (i : nat) (f : buf -> buf) (x : fsys) : fsys :=
  x <| ff ::= fun y => y <| bufs ::= alter f i |> |>.

(** What a request for buffer [i] does: a dirty buffer goes to the disk, another one is filled. *)
Definition rw (i : nat) (b : buf) (x : fsys) : fsys :=
  if has (b_flags b) B_DIRTY
  then on_buf i (fun b => b <| b_flags := B_VALID |>)
         (x <| fd ::= write_disk 1 (b_blockno b) (b_data b) |>)
  else on_buf i (fun b' => b' <| b_data := read_disk (fd x) 1 (b_blockno b) |> <| b_flags := B_VALID |>) x.

(** iderw serves requests for the [nblk] blocks of disk 1 while the disk is [up]. *)
Class DriverOk (dv : BlockDriver) (nblk : Z) (up : diskst -> Prop) := {
  up_write : forall k data d, up d -> up (write_disk 1 k data d);
  iderw_run : forall p pr s0, calm p pr s0 -> forall i b x,
    bufs (ff x) !! i = Some b -> fl x !! SL_buf i = Some (p_pid pr) ->
    b_flags b ∈ [0; 4; 6] -> b_dev b = 1 -> 0 <= b_blockno b < nblk -> up (fd x) ->
    mrun s0 (iderw i) x tt (rw i b x)
}.

Lemma setb_st s0 i f x e : setb i f e (at_fs s0 x) = Ret tt e (at_fs s0 (on_buf i f x)).
Proof. reflexivity. Qed.
Lemma setb_locked s0 l i f x e : setb i f e (locked s0 l x) = Ret tt e (locked s0 l (on_buf i f x)).
Proof. reflexivity. Qed.
Lemma getb_at i b e s : bufs (fst_ s) !! i = Some b -> getb i e s = Ret b e s.
Proof. intros H. unfold getb. prim. by rewrite H. Qed.
Lemma getb_st s0 i b x e : bufs (ff x) !! i = Some b -> getb i e (at_fs s0 x) = Ret b e (at_fs s0 x).
Proof. intros H. by apply getb_at. Qed.
Lemma getb_locked s0 l i b x e :
  bufs (ff x) !! i = Some b -> getb i e (locked s0 l x) = Ret b e (locked s0 l x).
Proof. intros H. by apply getb_at. Qed.
Lemma setb_mrun s0 i f x : mrun s0 (setb i f) x tt (on_buf i f x).
Proof. apply mrun_exact. intros. apply setb_st. Qed.
Lemma getb_mrun s0 i b x : bufs (ff x) !! i = Some b -> mrun s0 (getb i) x b x.
Proof. intros. apply mrun_exact. intros. by apply getb_st. Qed.

Lemma setb_mrun_eq s0 i f x x' : x' = on_buf i f x -> mrun s0 (setb i f) x tt x'.
Proof. intros ->. apply setb_mrun. Qed.
Lemma set_dsk_mrun s0 g x : mrun s0 (set_dsk g) x tt (x <| fd ::= g |>).
Proof. apply mrun_exact. reflexivity. Qed.

(** Two changes of the list agree when they agree at every index. *)
Lemma alter_ext i (f g : buf -> buf) b (bs : list buf) :
  bs !! i = Some b -> f b = g b -> alter f i bs = alter g i bs.
Proof.
  intros Hb E. apply list_eq. intros j. destruct (decide (i = j)) as [<-|Hj].
  - rewrite !list_lookup_alter_eq, Hb. cbn. by rewrite E.
  - by rewrite !list_lookup_alter_ne.
Qed.
Lemma alter_alter i (f g : buf -> buf) (bs : list buf) :
  alter f i (alter g i bs) = alter (fun b => f (g b)) i bs.
Proof.
  apply list_eq. intros j. destruct (decide (i = j)) as [<-|Hj].
  - rewrite !list_lookup_alter_eq. by destruct (bs !! i).
  - by rewrite !list_lookup_alter_ne.
Qed.
Lemma on_buf_on_buf i f g x : on_buf i f (on_buf i g x) = on_buf i (fun b => f (g b)) x.
Proof. unfold on_buf, upd. destruct x as [l y d], y. cbn. by rewrite alter_alter. Qed.
Lemma on_buf_ext i f g b x :
  bufs (ff x) !! i = Some b -> f b = g b -> on_buf i f x = on_buf i g x.
Proof.
  intros Hb E. unfold on_buf, upd. destruct x as [l y d], y. cbn in *. by rewrite (alter_ext i f g b).
Qed.
Lemma on_buf_fd i f g x : on_buf i f (x <| fd ::= g |>) = (on_buf i f x) <| fd ::= g |>.
Proof. done. Qed.

#[export] Instance memide_ok size : DriverOk (memide_driver size) (size / BSIZE)
  (fun d => disksize d = size / BSIZE).
Proof.
  split; [done|]. intros p pr s0 Hc i b x Hb Hl Hf Hd Hk Hup. cbn [iderw memide_driver].
  unfold Memide.iderw. eapply mrun_bind; [by apply (holdingsleep_run p pr)|].
  rewrite bool_decide_true by done. cbn [negb]. eapply mrun_bind; [by apply getb_mrun|].
  rewrite Hd. cbn [Z.eqb negb Pos.eqb].
  assert (b_flags b = 0 \/ b_flags b = 4 \/ b_flags b = 6) as Hf' by set_solver. clear Hf.
  assert (Z.land (b_flags b) (Z.lor B_VALID B_DIRTY) =? B_VALID = false) as ->.
  { by destruct Hf' as [-> | [-> | ->]]. }
  eapply mrun_bind; [apply mrun_gets|]. cbn [dsk at_fs].
  replace (disksize _ <=? b_blockno b) with false by (symmetry; apply Z.leb_gt; cbn; rewrite Hup; lia).
  unfold rw. destruct (has (b_flags b) B_DIRTY) eqn:Hdirty.
  - eapply mrun_bind; [eapply mrun_bind; [apply setb_mrun|apply set_dsk_mrun]|].
    rewrite <-on_buf_fd. apply setb_mrun_eq.
    rewrite on_buf_on_buf. apply (on_buf_ext i _ _ b); [done|]. unfold upd. cbn. f_equal.
    by destruct Hf' as [E|[E|E]]; rewrite E in *.
  - eapply mrun_bind; [apply setb_mrun|]. apply setb_mrun_eq.
    rewrite on_buf_on_buf. apply (on_buf_ext i _ _ b); [done|]. unfold upd. cbn. f_equal.
    by destruct Hf' as [E|[E|E]]; rewrite E in *.
Qed.

(** ** The cache *)

Definition buf_lock (sl : sleepid) : bool := match sl with SL_buf _ => true | _ => false end.

(** Only the buffers and their sleep locks have changed. *)
Record bframe (x x' : fsys) : Prop := {
  bf_ff : ff x' = (ff x) <| bufs := bufs (ff x') |>;
  bf_fl : forall sl, buf_lock sl = false -> fl x' !! sl = fl x !! sl
}.
#[export] Instance bframe_po : PreOrder bframe.
Proof.
  split.
  - intros x. split; [|done]. by destruct x as [? [] ?].
  - intros x y z [H1 H2] [H3 H4]. split.
    + rewrite H3, H1. done.
    + intros sl Hsl. by rewrite H4, H2.
Qed.

Record cache (pid nblk : Z) (up : diskst -> Prop) (x : fsys) (V : Z -> list Z) (D W : gset Z)
    (L : gmap nat Z) : Prop := {
  ca_up : up (fd x);
  ca_ring : ring (bufs (ff x));
  ca_slots : slots pid nblk (fl x) (bufs (ff x)) V D L;
  ca_held : forall k, k ∈ W -> exists i, L !! i = Some k;
  ca_disk : forall k, 0 <= k < nblk -> k ∉ D -> k ∉ W -> read_disk (fd x) 1 k = V k;
  ca_size : forall k, 0 <= k < nblk -> length (V k) = Z.to_nat BSIZE;
  ca_blocks : forall k, 0 <= k < nblk -> length (read_disk (fd x) 1 k) = Z.to_nat BSIZE
}.

(** A buffer in use, and that it is the only one of its block. *)
Lemma slots_held pid nblk lk bs V D L i k :
  slots pid nblk lk bs V D L -> L !! i = Some k ->
  exists b, bs !! i = Some b /\ (i < bhead)%nat /\ lk !! SL_buf i = Some pid /\ b_refcnt b = 1 /\
    b_dev b = 1 /\ b_blockno b = k /\ 0 <= k < nblk /\ b_data b = V k /\
    b_flags b = (if decide (k ∈ D) then 6 else 2).
Proof.
  intros Hs Hl. pose proof (sl_range _ _ _ _ _ _ _ Hs i k Hl) as Hi.
  destruct (sl_slot _ _ _ _ _ _ _ Hs i Hi) as (b & Hb & Hr & Hlk & Hd). rewrite Hl in *.
  destruct Hd as [(_ & _ & ?)|(H1 & H2 & H3 & H4 & [?|H5])]; [done..|]. injection H5 as ->.
  exists b. split_and!; auto; lia.
Qed.
Lemma slots_others pid nblk lk bs V D L i b :
  slots pid nblk lk bs V D L -> (i < bhead)%nat -> bs !! i = Some b -> b_dev b = 1 ->
  forall j c, j <> i -> (j < bhead)%nat -> bs !! j = Some c -> b_dev c = 1 -> b_blockno c <> b_blockno b.
Proof. intros Hs Hi Hb Hd j c Hj Hjb Hc Hdc E. apply Hj. by apply (sl_uniq _ _ _ _ _ _ _ Hs j i c b). Qed.

(** The pinned buffers are as many as the pinned blocks at most. *)
Definition pinned (bs : list buf) (i : nat) : Prop :=
  match bs !! i with Some b => has (b_flags b) B_DIRTY = true | None => False end.
#[export] Instance pinned_dec bs i : Decision (pinned bs i).
Proof. unfold pinned. destruct (bs !! i); tc_solve. Defined.

Lemma slots_pinned pid nblk lk bs V D L i :
  slots pid nblk lk bs V D L -> (i < bhead)%nat -> pinned bs i ->
  exists b, bs !! i = Some b /\ b_dev b = 1 /\ b_blockno b ∈ D.
Proof.
  intros Hs Hi Hp. destruct (sl_slot _ _ _ _ _ _ _ Hs i Hi) as (b & Hb & _ & _ & Hd). exists b. split; [done|].
  unfold pinned in Hp. rewrite Hb in Hp. destruct Hd as [(_ & E & _)|(H1 & H2 & H3 & H4 & H5)].
  - by rewrite E in Hp.
  - split; [done|]. destruct (decide _); [done|]. by rewrite H4 in Hp.
Qed.
Lemma slots_pinned_count pid nblk lk bs V D L :
  slots pid nblk lk bs V D L -> (length (filter (pinned bs) (seq 0 bhead)) <= size D)%nat.
Proof.
  intros Hs. set (blk i := match bs !! i with Some b => b_blockno b | None => -1 end).
  assert (forall i, i ∈ filter (pinned bs) (seq 0 bhead) -> (i < bhead)%nat /\
    exists b, bs !! i = Some b /\ b_dev b = 1 /\ b_blockno b ∈ D) as HA.
  { intros i [Hp Hi%elem_of_seq]%list_elem_of_filter. split; [lia|].
    eapply slots_pinned; [done|lia|done]. }
  rewrite <-(length_fmap blk). change (size D) with (length (elements D)).
  apply submseteq_length, NoDup_submseteq.
  - apply NoDup_fmap_2_strong; [|apply NoDup_filter, NoDup_seq].
    intros i j (Hi & b & Hb & Hd & _)%HA (Hj & c & Hc & Hdc & _)%HA E. unfold blk in E. rewrite Hb, Hc in E.
    by apply (sl_uniq _ _ _ _ _ _ _ Hs i j b c).
  - intros k (i & -> & (_ & b & Hb & _ & Hk)%HA)%list_elem_of_fmap. unfold blk. rewrite Hb. set_solver.
Qed.

(** Locked and pinned blocks fill at most that many buffers, so one of the NBUF is free. *)
Lemma slots_unused pid nblk lk bs V D L :
  slots pid nblk lk bs V D L -> (size D + size L < bhead)%nat ->
  exists i b, (i < bhead)%nat /\ bs !! i = Some b /\ L !! i = None /\ has (b_flags b) B_DIRTY = false.
Proof.
  intros Hs Hsz. pose proof (slots_pinned_count _ _ _ _ _ _ _ Hs) as HA.
  destruct (decide (Forall (fun i => pinned bs i \/ is_Some (L !! i)) (seq 0 bhead))) as [Hall|Hnot].
  - exfalso. assert (length (seq 0 bhead) <= length (filter (pinned bs) (seq 0 bhead) ++ elements (dom L)))%nat as Hle.
    { apply submseteq_length, NoDup_submseteq; [apply NoDup_seq|]. intros i Hi.
      rewrite Forall_forall in Hall. rewrite elem_of_app, list_elem_of_filter, elem_of_elements, elem_of_dom.
      specialize (Hall i Hi). tauto. }
    rewrite length_seq, length_app in Hle. change (length (elements (dom L))) with (size (dom L)) in Hle.
    rewrite size_dom in Hle. lia.
  - apply not_Forall_Exists, Exists_exists in Hnot as (i & Hi & Hn); [|tc_solve]. cbn in Hn.
    assert (i < bhead)%nat as Hib by (apply elem_of_seq in Hi; lia).
    destruct (sl_slot _ _ _ _ _ _ _ Hs i Hib) as (b & Hb & _). exists i, b. split_and!; [done..| |].
    + apply eq_None_not_Some. tauto.
    + apply not_true_is_false. intros E. apply Hn. left. unfold pinned. by rewrite Hb.
Qed.

(** ** bget *)

Definition hit (dev k : Z) (bs : list buf) (i : nat) : bool :=
  match bs !! i with Some b => (b_dev b =? dev) && (b_blockno b =? k) | None => false end.
Definition idle (bs : list buf) (i : nat) : bool :=
  match bs !! i with Some b => (b_refcnt b =? 0) && negb (has (b_flags b) B_DIRTY) | None => false end.

Lemma find_cached_walk fuel dev k a o e s bs :
  bufs (fst_ s) = bs ->
  chain (nxs bs) (pvs bs) a o bhead -> bhead ∉ o -> (forall i, i ∈ o -> (i < length bs)%nat) ->
  (length o < fuel)%nat ->
  find_cached fuel dev k (nxs bs a) e s =
    match find (hit dev k bs) o with
    | Some b =>
        setb b (fun x => x <| b_refcnt := u32 (b_refcnt x + 1) |>) ;;
        release L_bcache ;;
        acquiresleep (SL_buf b) ;;
        ret (Some b)
    | None => ret None
    end e s.
Proof.
  intros <-. set (bs := bufs (fst_ s)). revert a fuel. induction o as [|b o IH]; intros a fuel Hc Hh Hlt Hf;
    (destruct fuel as [|fuel]; [lia|]); cbn [find_cached length find] in *.
  - destruct Hc as [-> _]. by rewrite bool_decide_true.
  - destruct Hc as (-> & _ & Hc). rewrite bool_decide_false by set_solver.
    destruct (lookup_lt_is_Some_2 bs b (Hlt b ltac:(by left))) as [y Hy].
    erewrite bind_Ret by (by apply getb_at). unfold hit at 1. rewrite Hy.
    destruct (_ && _); [done|]. rewrite <-(IH b fuel) by (done || lia || set_solver).
    unfold nxs. by rewrite Hy.
Qed.

Lemma find_unused_walk fuel dev k a o e s bs :
  bufs (fst_ s) = bs ->
  chain (pvs bs) (nxs bs) a o bhead -> bhead ∉ o -> (forall i, i ∈ o -> (i < length bs)%nat) ->
  (length o < fuel)%nat ->
  find_unused fuel dev k (pvs bs a) e s =
    match find (idle bs) o with
    | Some b =>
        setb b (fun x => x <| b_dev := dev |>) ;;
        setb b (fun x => x <| b_blockno := k |>) ;;
        setb b (fun x => x <| b_flags := 0 |>) ;;
        setb b (fun x => x <| b_refcnt := 1 |>) ;;
        release L_bcache ;;
        acquiresleep (SL_buf b) ;;
        ret (Some b)
    | None => ret None
    end e s.
Proof.
  intros <-. set (bs := bufs (fst_ s)). revert a fuel. induction o as [|b o IH]; intros a fuel Hc Hh Hlt Hf;
    (destruct fuel as [|fuel]; [lia|]); cbn [find_unused length find] in *.
  - destruct Hc as [-> _]. by rewrite bool_decide_true.
  - destruct Hc as (-> & _ & Hc). rewrite bool_decide_false by set_solver.
    destruct (lookup_lt_is_Some_2 bs b (Hlt b ltac:(by left))) as [y Hy].
    erewrite bind_Ret by (by apply getb_at). unfold idle at 1. rewrite Hy.
    destruct (_ && _); [done|]. rewrite <-(IH b fuel) by (done || lia || set_solver).
    unfold pvs. by rewrite Hy.
Qed.

Lemma find_some_in {A} (f : A -> bool) l x : find f l = Some x -> x ∈ l /\ f x = true.
Proof.
  induction l as [|y l IH]; cbn; [done|]. destruct (f y) eqn:E.
  - intros [= ->]. split; [by left|done].
  - intros [? ?]%IH. split; [by right|done].
Qed.
Lemma find_none_all {A} (f : A -> bool) l x : find f l = None -> x ∈ l -> f x = false.
Proof.
  induction l as [|y l IH]; cbn; [set_solver|]. destruct (f y) eqn:E; [done|].
  intros H [->|Hx]%elem_of_cons; [done|]. by apply IH.
Qed.

Section ops.
Context {dv : BlockDriver} {nblk : Z} {up : diskst -> Prop} {Hdrv : DriverOk dv nblk up}.
Context (p : nat) (pr : proc) (s0 : kstate) (Hcalm : calm p pr s0).
Notation st := (at_fs s0).
Notation run := (mrun s0).
Notation cached := (cache (p_pid pr) nblk up).

(** Steps under a spin lock, up to where it is free again. *)
Lemma mrun_step {A} (m k : M A) x x' a x'' :
  (forall e, m e (st x) = k e (st x')) -> run k x' a x'' -> run m x a x''.
Proof. intros H [pre Hk]. exists pre. intros e. by rewrite H, Hk. Qed.

Definition claimed (i : nat) (f : buf -> buf) (x : fsys) : fsys :=
  (on_buf i f x) <| fl ::= <[SL_buf i := p_pid pr]> |>.

Lemma bind_at {A B} (m m' : M A) (k : A -> M B) e s : m e s = m' e s -> bind m k e s = bind m' k e s.
Proof. unfold bind. by intros ->. Qed.
Lemma bind_cong {A B} (m : M A) (k k' : A -> M B) e s :
  (forall a e s, k a e s = k' a e s) -> bind m k e s = bind m k' e s.
Proof. intros H. unfold bind. by destruct (m e s). Qed.

(** bget up to the result of its first scan. *)
Lemma bget_scan k x o :
  length (bufs (ff x)) = S bhead -> o ≡ₚ seq 0 bhead ->
  chain (nxs (bufs (ff x))) (pvs (bufs (ff x))) bhead o bhead ->
  forall e, bget 1 k e (st x) =
    match find (hit 1 k (bufs (ff x))) o with
    | Some i =>
        setb i (fun x => x <| b_refcnt := u32 (b_refcnt x + 1) |>) ;;
        release L_bcache ;;
        acquiresleep (SL_buf i) ;;
        ret i
    | None =>
        match find (idle (bufs (ff x))) (reverse o) with
        | Some i =>
            setb i (fun x => x <| b_dev := 1 |>) ;;
            setb i (fun x => x <| b_blockno := k |>) ;;
            setb i (fun x => x <| b_flags := 0 |>) ;;
            setb i (fun x => x <| b_refcnt := 1 |>) ;;
            release L_bcache ;;
            acquiresleep (SL_buf i) ;;
            ret i
        | None => panic "bget: no buffers"
        end
    end e (locked s0 L_bcache x).
Proof.
  intros Hlen Ho Hc e. destruct (ring_order o Ho) as [Hd Hin].
  assert (bhead ∉ o) as Hho by (apply NoDup_cons in Hd; tauto).
  assert (length o < list_fuel)%nat as Hlo by (rewrite Ho, length_seq; unfold list_fuel, bhead; lia).
  destruct (lookup_lt_is_Some_2 (bufs (ff x)) bhead ltac:(lia)) as [h Hh].
  unfold bget. erewrite bind_Ret by (by eapply acquire_st). erewrite bind_Ret by (by apply getb_locked).
  replace (b_next h) with (nxs (bufs (ff x)) bhead) by (unfold nxs; by rewrite Hh).
  erewrite bind_at.
  2: { apply (find_cached_walk list_fuel 1 k bhead o e _ (bufs (ff x))); try done. intros j ?%Hin; lia. }
  destruct (find (hit _ _ _) o) as [i|]; [by repeat (rewrite bind_bind; apply bind_cong; intros)|].
  prim. erewrite bind_Ret by (by apply getb_locked).
  replace (b_prev h) with (pvs (bufs (ff x)) bhead) by (unfold pvs; by rewrite Hh).
  erewrite bind_at.
  2: { apply (find_unused_walk list_fuel 1 k bhead (reverse o) e _ (bufs (ff x))); try done.
       - by apply chain_rev.
       - by rewrite elem_of_reverse.
       - intros j Hj%elem_of_reverse%Hin. lia.
       - by rewrite length_reverse. }
  destruct (find (idle _) _) as [i|]; [by repeat (rewrite bind_bind; apply bind_cong; intros)|done].
Qed.

Lemma bget_hit k x o i :
  length (bufs (ff x)) = S bhead -> o ≡ₚ seq 0 bhead ->
  chain (nxs (bufs (ff x))) (pvs (bufs (ff x))) bhead o bhead ->
  find (hit 1 k (bufs (ff x))) o = Some i -> fl x !! SL_buf i = None ->
  run (bget 1 k) x i (claimed i (fun b => b <| b_refcnt := u32 (b_refcnt b + 1) |>) x).
Proof.
  intros Hlen Ho Hc Hf Hl.
  eapply (mrun_step _ (acquiresleep (SL_buf i) ;; ret i) _ (on_buf i _ x)).
  2: { eapply mrun_bind; [by eapply acquiresleep_run|apply mrun_ret]. }
  intros e. rewrite (bget_scan k x o) by done. rewrite Hf.
  erewrite bind_Ret by apply setb_locked. by erewrite bind_Ret by (by eapply release_st).
Qed.

Lemma bget_miss k x o i :
  length (bufs (ff x)) = S bhead -> o ≡ₚ seq 0 bhead ->
  chain (nxs (bufs (ff x))) (pvs (bufs (ff x))) bhead o bhead ->
  find (hit 1 k (bufs (ff x))) o = None -> find (idle (bufs (ff x))) (reverse o) = Some i ->
  fl x !! SL_buf i = None ->
  run (bget 1 k) x i
    (claimed i (fun b => b <| b_dev := 1 |> <| b_blockno := k |> <| b_flags := 0 |> <| b_refcnt := 1 |>) x).
Proof.
  intros Hlen Ho Hc Hf Hg Hl.
  eapply (mrun_step _ (acquiresleep (SL_buf i) ;; ret i) _ (on_buf i _ x)).
  2: { eapply mrun_bind; [by eapply acquiresleep_run|apply mrun_ret]. }
  intros e. rewrite (bget_scan k x o) by done. rewrite Hf, Hg.
  do 4 erewrite bind_Ret by apply setb_locked. rewrite !on_buf_on_buf.
  by erewrite bind_Ret by (by eapply release_st).
Qed.

Lemma on_buf_frame i f x : bframe x (on_buf i f x).
Proof. split; [|done]. by destruct x as [? [] ?]. Qed.
Lemma claimed_frame i f x : bframe x (claimed i f x).
Proof.
  split; [by destruct x as [? [] ?]|]. intros sl Hsl. cbn. apply lookup_insert_ne. by intros <-.
Qed.
Lemma lookup_claimed i f x j :
  bufs (ff (claimed i f x)) !! j = if decide (i = j) then f <$> bufs (ff x) !! j else bufs (ff x) !! j.
Proof. unfold on_buf, claimed. cbn. rewrite list_lookup_alter. by destruct (decide _) as [<-|]. Qed.
Lemma lookup_on_buf i f x j :
  bufs (ff (on_buf i f x)) !! j = if decide (i = j) then f <$> bufs (ff x) !! j else bufs (ff x) !! j.
Proof. unfold on_buf, claimed. cbn. rewrite list_lookup_alter. by destruct (decide _) as [<-|]. Qed.

(** [claimed] gives a buffer to its claimant. *)
Lemma claim_slots x V D L i f b b' k :
  slots (p_pid pr) nblk (fl x) (bufs (ff x)) V D L ->
  (i < bhead)%nat -> bufs (ff x) !! i = Some b -> f b = b' -> 0 <= k < nblk ->
  b_refcnt b' = 1 -> b_dev b' = 1 -> b_blockno b' = k -> b_data b' = V k ->
  b_flags b' = (if decide (k ∈ D) then 6 else 2) ->
  (forall j c, j <> i -> (j < bhead)%nat -> bufs (ff x) !! j = Some c -> b_dev c = 1 -> b_blockno c <> k) ->
  (b_dev b = 1 -> b_blockno b ∈ D -> b_blockno b = k) ->
  slots (p_pid pr) nblk (fl (claimed i f x)) (bufs (ff (claimed i f x))) V D (<[i := k]> L).
Proof.
  intros Hs Hi Hb <- Hk E1 E2 <- E3 E4 Hu Hold.
  eapply (slots_change _ _ _ _ _ _ _ _ _ _ _ _ i b (f b)); try done.
  - rewrite lookup_claimed, decide_True, Hb by done. done.
  - cbn. rewrite !lookup_insert_eq. split_and!; [done..|]. right. split_and!; auto; lia.
  - intros j Hj. rewrite lookup_claimed, decide_False by done. cbn.
    rewrite !lookup_insert_ne by congruence. done.
Qed.

Lemma claimed_ring i f x :
  (forall b, b_next (f b) = b_next b) -> (forall b, b_prev (f b) = b_prev b) ->
  ring (bufs (ff x)) -> ring (bufs (ff (claimed i f x))).
Proof. apply ring_keep. Qed.

(** The scans of bget are decided by the invariant. *)
Lemma scan_hit x V D W L o k i :
  cached x V D W L -> o ≡ₚ seq 0 bhead -> find (hit 1 k (bufs (ff x))) o = Some i ->
  (forall j, L !! j <> Some k) ->
  exists b, (i < bhead)%nat /\ bufs (ff x) !! i = Some b /\ L !! i = None /\ fl x !! SL_buf i = None /\
    b_refcnt b = 0 /\ b_dev b = 1 /\ b_blockno b = k /\ 0 <= k < nblk /\ b_data b = V k /\
    b_flags b = (if decide (k ∈ D) then 6 else 2).
Proof.
  intros Hc Ho [Hin Hh]%find_some_in Hk. apply (ring_order o Ho) in Hin.
  destruct (sl_slot _ _ _ _ _ _ _ (ca_slots _ _ _ _ _ _ _ _ Hc) i Hin) as (b & Hb & H1 & H2 & H3).
  unfold hit in Hh. rewrite Hb in Hh. apply andb_true_iff in Hh as [E1%Z.eqb_eq <-%Z.eqb_eq].
  exists b. destruct H3 as [[? _]|(_ & H3 & H4 & H5 & H6)]; [congruence|].
  destruct H6 as [H6|H6]; [|by apply Hk in H6]. rewrite H6 in *. split_and!; auto; lia.
Qed.

Lemma scan_miss x V D W L o k :
  cached x V D W L -> o ≡ₚ seq 0 bhead -> find (hit 1 k (bufs (ff x))) o = None ->
  k ∈ D \/ (size D + size L < bhead)%nat ->
  (forall j c, (j < bhead)%nat -> bufs (ff x) !! j = Some c -> b_dev c = 1 -> b_blockno c <> k) /\ k ∉ D /\
  exists i b, find (idle (bufs (ff x))) (reverse o) = Some i /\
    (i < bhead)%nat /\ bufs (ff x) !! i = Some b /\ L !! i = None /\ fl x !! SL_buf i = None /\
    (b_dev b = 1 -> b_blockno b ∉ D).
Proof.
  intros Hc Ho Hf Hsz. pose proof (ca_slots _ _ _ _ _ _ _ _ Hc) as Hs.
  assert (forall j c, (j < bhead)%nat -> bufs (ff x) !! j = Some c -> b_dev c = 1 -> b_blockno c <> k) as Hno.
  { intros j c Hj Hjc Hd <-. apply (find_none_all _ _ j) in Hf; [|by apply (ring_order o Ho)].
    unfold hit in Hf. by rewrite Hjc, Hd, !Z.eqb_refl in Hf. }
  assert (k ∉ D) as HkD.
  { intros (i & b & Hi & Hb & Hd & Hk)%(sl_pinned _ _ _ _ _ _ _ Hs). by apply (Hno i b). }
  destruct Hsz as [?|Hsz]; [done|]. split; [done|]. split; [done|].
  destruct (find (idle (bufs (ff x))) (reverse o)) as [i|] eqn:Hg.
  - apply find_some_in in Hg as [Hin Hidle]. apply elem_of_reverse, (ring_order o Ho) in Hin.
    destruct (sl_slot _ _ _ _ _ _ _ Hs i Hin) as (b & Hb & H1 & H2 & H3). exists i, b.
    unfold idle in Hidle. rewrite Hb in Hidle.
    apply andb_true_iff in Hidle as [E1%Z.eqb_eq E2%negb_true_iff].
    destruct (L !! i); [congruence|]. split_and!; try done.
    intros Hd. destruct H3 as [[? _]|(_ & _ & _ & H5 & _)]; [congruence|].
    intros Hp. rewrite decide_True in H5 by done. by rewrite H5 in E2.
  - exfalso. destruct (slots_unused _ _ _ _ _ _ _ Hs Hsz) as (i & b & Hi & Hb & Hl & Hd).
    apply (find_none_all _ _ i) in Hg; [|by apply elem_of_reverse, (ring_order o Ho)].
    destruct (sl_slot _ _ _ _ _ _ _ Hs i Hi) as (b' & Hb' & H1 & _). rewrite Hl in H1.
    assert (b' = b) as -> by congruence. unfold idle in Hg. by rewrite Hb, H1, Hd in Hg.
Qed.

Lemma on_buf_claimed i f g x : on_buf i g (claimed i f x) = claimed i (fun b => g (f b)) x.
Proof. unfold claimed. by rewrite <-(on_buf_on_buf i g f). Qed.

(** The cache after a buffer has been claimed for block [k]. *)
Lemma claim_cached x V D W L i f b k :
  cached x V D W L ->
  (forall b, b_next (f b) = b_next b) -> (forall b, b_prev (f b) = b_prev b) ->
  (i < bhead)%nat -> bufs (ff x) !! i = Some b -> L !! i = None -> 0 <= k < nblk ->
  b_refcnt (f b) = 1 -> b_dev (f b) = 1 -> b_blockno (f b) = k -> b_data (f b) = V k ->
  b_flags (f b) = (if decide (k ∈ D) then 6 else 2) ->
  (forall j c, j <> i -> (j < bhead)%nat -> bufs (ff x) !! j = Some c -> b_dev c = 1 -> b_blockno c <> k) ->
  (b_dev b = 1 -> b_blockno b ∈ D -> b_blockno b = k) ->
  cached (claimed i f x) V D W (<[i := k]> L).
Proof.
  intros [Hup Hr Hs Hh Hd Hz Hw] Hn Hp Hi Hb Hl Hk H1 H2 H3 H4 H5 H6 H7. split; try done.
  - by apply claimed_ring.
  - by eapply claim_slots.
  - intros k' (j & Hj)%Hh. exists j. rewrite lookup_insert_ne; [done|congruence].
Qed.

Lemma bread_run k x V D W L :
  cached x V D W L -> 0 <= k < nblk -> (forall j, L !! j <> Some k) ->
  k ∈ D \/ (size D + size L < bhead)%nat ->
  exists i x', run (bread 1 k) x i x' /\ L !! i = None /\ cached x' V D W (<[i := k]> L) /\
    bframe x x' /\ fd x' = fd x.
Proof.
  intros Hc Hk Hfree Hsz. destruct (ca_ring _ _ _ _ _ _ _ _ Hc) as (Hlen & o & Ho & Hch).
  destruct (find (hit 1 k (bufs (ff x))) o) as [i|] eqn:Hf.
  - destruct (scan_hit x V D W L o k i Hc Ho Hf Hfree) as (b & Hi & Hb & Hl & Hlk & E1 & E2 & E3 & _ & E4 & E5).
    set (f := fun b => b <| b_refcnt := u32 (b_refcnt b + 1) |>).
    exists i, (claimed i f x). split_and!; [|done| |apply claimed_frame|done].
    + unfold bread. eapply mrun_bind; [by apply (bget_hit k x o i)|].
      eapply mrun_bind; [apply getb_mrun; by rewrite lookup_claimed, decide_True, Hb|].
      eapply mrun_bind; [|apply mrun_ret]. apply mrun_when; [|done]. cbn. rewrite E5. by destruct (decide _).
    + eapply claim_cached; try done; [by cbn; rewrite E1|].
      rewrite <-E3. by eapply slots_others; [apply Hc|..].
  - destruct (scan_miss x V D W L o k Hc Ho Hf Hsz) as (Hno & HkD & i & b & Hg & Hi & Hb & Hl & Hlk & Hold).
    set (f := fun b => b <| b_dev := 1 |> <| b_blockno := k |> <| b_flags := 0 |> <| b_refcnt := 1 |>).
    exists i, (claimed i (fun b => (f b) <| b_data := read_disk (fd x) 1 k |> <| b_flags := B_VALID |>) x).
    split_and!; [|done| |apply claimed_frame|done].
    + unfold bread. eapply mrun_bind; [by apply (bget_miss k x o i)|].
      eapply mrun_bind; [apply getb_mrun; by rewrite lookup_claimed, decide_True, Hb|].
      eapply mrun_bind; [|apply mrun_ret]. apply mrun_when; [|done]. intros _.
      rewrite <-(on_buf_claimed i f (fun b => b <| b_data := read_disk (fd x) 1 k |> <| b_flags := B_VALID |>)).
      apply (iderw_run p pr s0 Hcalm i (f b)); try done.
      * by rewrite lookup_claimed, decide_True, Hb.
      * cbn. apply lookup_insert_eq.
      * by left.
      * apply Hc.
    + eapply claim_cached; try done.
      * cbn. apply Hc; [done..|]. intros (j & Hj)%(ca_held _ _ _ _ _ _ _ _ Hc). by apply Hfree in Hj.
      * cbn. by rewrite decide_False.
      * intros j c _. apply Hno.
      * intros H1 H2. by apply Hold in H1.
Qed.

(** ** Operations on a buffer in use *)

Lemma held_change x V D L i k f V' D' :
  slots (p_pid pr) nblk (fl x) (bufs (ff x)) V D L -> L !! i = Some k ->
  (forall b, b_refcnt (f b) = b_refcnt b /\ b_dev (f b) = b_dev b /\ b_blockno (f b) = b_blockno b) ->
  (forall b, bufs (ff x) !! i = Some b -> b_data b = V k -> b_flags b = (if decide (k ∈ D) then 6 else 2) ->
     b_data (f b) = V' k /\ b_flags (f b) = (if decide (k ∈ D') then 6 else 2)) ->
  (forall k', k' <> k -> V' k' = V k' /\ (k' ∈ D' <-> k' ∈ D)) ->
  slots (p_pid pr) nblk (fl x) (bufs (ff (on_buf i f x))) V' D' L.
Proof.
  intros Hs Hl Hf Hv Hk. destruct (slots_held _ _ _ _ _ _ _ i k Hs Hl)
    as (b & Hb & Hi & Hlk & E1 & E2 & E3 & E4 & E5 & E6).
  destruct (Hf b) as (F1 & F2 & F3). destruct (Hv b Hb E5 E6) as [G1 G2].
  eapply (slots_change _ _ _ _ _ _ _ _ _ _ _ _ i b (f b)); try done.
  - by rewrite lookup_on_buf, decide_True, Hb.
  - rewrite Hl. unfold slot. rewrite F1, F2, F3, E3. split_and!; [done..|]. right. split_and!; auto; lia.
  - intros j Hj. by rewrite lookup_on_buf, decide_False.
  - congruence.
  - rewrite F3. by eapply slots_others.
  - by rewrite F3, E3.
Qed.

Lemma getb_held x V D W L i k :
  cached x V D W L -> L !! i = Some k ->
  exists b, bufs (ff x) !! i = Some b /\ b_data b = V k /\ b_dev b = 1 /\ b_blockno b = k /\ 0 <= k < nblk.
Proof.
  intros Hc Hl. destruct (slots_held _ _ _ _ _ _ _ i k (ca_slots _ _ _ _ _ _ _ _ Hc) Hl)
    as (b & Hb & Hi & Hlk & E1 & E2 & E3 & E4 & E5 & E6). by exists b.
Qed.

Lemma set_data_run x V D W L i k g :
  cached x V D W L -> L !! i = Some k -> length (g (V k)) = Z.to_nat BSIZE ->
  exists x', run (setb i (fun b => b <| b_data ::= g |>)) x tt x' /\
    cached x' (vset V k (g (V k))) D (W ∪ {[k]}) L /\ bframe x x' /\ fd x' = fd x.
Proof.
  intros [Hup Hr Hs Hh Hd Hz Hw] Hl Hg. eexists. split_and!; [apply setb_mrun| |apply on_buf_frame|done].
  split; [done|by apply ring_keep| | | | |done].
  - apply (held_change x V D L i k); try done.
    + intros b _ E1 E2. cbn. by rewrite vset_eq, E1.
    + intros k' Hk'. by rewrite vset_ne.
  - intros k' [Hk'| ->%elem_of_singleton]%elem_of_union; [by apply Hh|by exists i].
  - intros k' Hk' H1 [H2 H3]%not_elem_of_union. rewrite vset_ne by set_solver. by apply Hd.
  - intros k' Hk'. destruct (decide (k' = k)) as [->|Hne]; [by rewrite vset_eq|].
    rewrite vset_ne by done. by apply Hz.
Qed.

Lemma read_write d k v j :
  read_disk (write_disk 1 k v d) 1 j = if decide (j = k) then v else read_disk d 1 j.
Proof.
  unfold read_disk, write_disk, disk, apply_writes. cbn. rewrite foldl_app. cbn.
  destruct (decide (j = k)) as [->|Hne]; [by rewrite lookup_insert_eq|].
  rewrite lookup_insert_ne; [done|congruence].
Qed.

Lemma bwrite_run x V D W L i k :
  cached x V D W L -> L !! i = Some k ->
  exists x', run (bwrite i) x tt x' /\ cached x' V (D ∖ {[k]}) (W ∖ {[k]}) L /\ bframe x x' /\
    fd x' = write_disk 1 k (V k) (fd x).
Proof.
  intros [Hup Hr Hs Hh Hd Hz Hw] Hl. destruct (slots_held _ _ _ _ _ _ _ i k Hs Hl)
    as (b & Hb & Hi & Hlk & E1 & E2 & E3 & E4 & E5 & E6).
  set (f := fun b => b <| b_flags ::= fun f => Z.lor f B_DIRTY |>).
  assert (b_flags (f b) = 6) as Ef by (cbn; rewrite E6; by destruct (decide _)).
  set (x1 := x <| fd ::= write_disk 1 k (V k) |>).
  exists (on_buf i (fun b => (f b) <| b_flags := B_VALID |>) x1).
  split_and!; [| |split; [by destruct x as [? [] ?]|done]|done].
  - unfold bwrite. eapply mrun_bind; [by eapply holdingsleep_run|]. rewrite bool_decide_true by done. cbn [negb].
    eapply mrun_bind; [apply setb_mrun|].
    pose proof (iderw_run p pr s0 Hcalm i (f b) (on_buf i f x)) as Hrw.
    unfold rw in Hrw. rewrite Ef in Hrw. change (has 6 B_DIRTY) with true in Hrw. cbv iota in Hrw.
    change (b_data (f b)) with (b_data b) in Hrw. rewrite E5 in Hrw.
    change (b_blockno (f b)) with (b_blockno b) in Hrw. rewrite E3 in Hrw.
    rewrite <-(on_buf_on_buf i (fun b => b <| b_flags := B_VALID |>) f). apply Hrw; try done.
    + by rewrite lookup_on_buf, decide_True, Hb.
    + set_solver.
  - split; [by apply up_write|by apply ring_keep| | | |done|].
    + apply (held_change x1 V D L i k); try done.
      * intros c Hc F1 F2. split; [done|]. rewrite decide_False by set_solver. done.
      * set_solver.
    + intros k' Hk'. apply Hh. set_solver.
    + intros k' Hk' H1 H2. cbn. rewrite read_write. destruct (decide (k' = k)) as [->|]; [done|]. apply Hd; set_solver.
    + intros k' Hk'. cbn. rewrite read_write. destruct (decide (k' = k)) as [->|]; [by apply Hz|by apply Hw].
Qed.

Definition unref (b : buf) : buf := b <| b_refcnt := u32 (b_refcnt b - 1) |>.
Definition released (i : nat) (x : fsys) : fsys :=
  (on_buf i unref (x <| fl ::= delete (SL_buf i) |>)) <| ff ::= fun y => y <| bufs ::= to_front i |> |>.

Lemma brelse_exec x i b :
  length (bufs (ff x)) = S bhead -> bufs (ff x) !! i = Some b -> b_refcnt b = 1 ->
  fl x !! SL_buf i = Some (p_pid pr) -> run (brelse i) x tt (released i x).
Proof.
  intros Hlen Hb E1 Hlk. set (x1 := x <| fl ::= delete (SL_buf i) |>). set (x2 := on_buf i unref x1).
  assert (bufs (ff x2) !! i = Some (unref b)) as Hb2.
  { unfold x2. rewrite lookup_on_buf, decide_True by done. unfold x1. cbn. by rewrite Hb. }
  unfold brelse. eapply mrun_bind; [by eapply holdingsleep_run|]. rewrite bool_decide_true by done. cbn [negb].
  eapply mrun_bind; [by eapply releasesleep_run|]. fold x1.
  apply mrun_exact. intros e. erewrite bind_Ret by (by eapply acquire_st).
  erewrite bind_Ret by apply setb_locked. fold unref x2.
  erewrite bind_Ret by (by apply getb_locked). change (b_refcnt (unref b)) with (u32 (b_refcnt b - 1)).
  rewrite E1. change (u32 (1 - 1) =? 0) with true. cbn [when].
  replace (b_next (unref b)) with (nxs (bufs (ff x2)) i) by (unfold nxs; by rewrite Hb2).
  replace (b_prev (unref b)) with (pvs (bufs (ff x2)) i) by (unfold pvs; by rewrite Hb2).
  do 2 (rewrite bind_bind; erewrite bind_Ret by apply setb_locked).
  set (x3 := on_buf _ _ (on_buf _ _ x2)).
  assert (bhead < length (bufs (ff x3)))%nat as [h Hh3]%lookup_lt_is_Some_2.
  { unfold x3, x2, x1. cbn. rewrite !length_alter. lia. }
  rewrite bind_bind. erewrite bind_Ret by (by apply getb_locked).
  replace (b_next h) with (nxs (bufs (ff x3)) bhead) by (unfold nxs; by rewrite Hh3).
  do 3 (rewrite bind_bind; erewrite bind_Ret by apply setb_locked).
  erewrite bind_Ret by apply setb_locked. etransitivity; [by eapply release_st|]. done.
Qed.

Lemma brelse_run x V D W L i k :
  cached x V D W L -> L !! i = Some k -> k ∉ W ->
  exists x', run (brelse i) x tt x' /\ cached x' V D W (delete i L) /\ bframe x x' /\ fd x' = fd x.
Proof.
  intros [Hup Hr Hs Hh Hd Hz Hw] Hl HkW. destruct (slots_held _ _ _ _ _ _ _ i k Hs Hl)
    as (b & Hb & Hi & Hlk & E1 & E2 & E3 & E4 & E5 & E6).
  set (x2 := on_buf i unref (x <| fl ::= delete (SL_buf i) |>)).
  exists (released i x). split_and!; [|split; [done|by apply ring_to_front; [apply ring_keep|]| |..]| |done].
  - eapply brelse_exec; [apply Hr|done..].
  - eapply slots_bare; [apply to_front_bare|].
    eapply (slots_change _ _ _ _ _ _ _ _ _ _ _ _ i b (unref b)); try done.
    + rewrite lookup_on_buf, decide_True by done. cbn. by rewrite Hb.
    + cbn. rewrite !lookup_delete_eq. unfold slot. cbn. rewrite E1, E2, E3. split_and!; [done..|].
      right. split_and!; auto; lia.
    + intros j Hj. rewrite lookup_on_buf, decide_False by done. cbn.
      rewrite !lookup_delete_ne by congruence. done.
    + change (b_blockno (unref b)) with (b_blockno b). by eapply slots_others.
  - intros k' Hk'. destruct (Hh k' Hk') as [j Hj]. exists j. rewrite lookup_delete_ne; [done|congruence].
  - done.
  - done.
  - done.
  - split; [by destruct x as [? [] ?]|]. intros sl Hsl. cbn. apply lookup_delete_ne. by intros <-.
Qed.

(** ** binit *)

Lemma initlock_st l x : run (initlock l) x tt x.
Proof.
  apply mrun_exact. intros e. unfold initlock, modify. f_equal.
  pose proof (st_free p pr s0 Hcalm l x) as Hf. unfold free in Hf. unfold at_fs, upd in *. cbn in *.
  do 2 f_equal. by apply delete_id.
Qed.

(** Before buffer [j] is linked: the earlier ones are, the last one first. *)
Record linked (x : fsys) (rest : list nat) (y : fsys) : Prop := {
  lk_upto : exists j, (j <= bhead)%nat /\ rest = seq j (bhead - j) /\
    chain (nxs (bufs (ff y))) (pvs (bufs (ff y))) bhead (reverse (seq 0 j)) bhead /\
    forall i, (i < j)%nat -> fl y !! SL_buf i = None;
  lk_bare : bare <$> bufs (ff y) = bare <$> bufs (ff x);
  lk_frame : bframe x y;
  lk_fd : fd y = fd x
}.

Lemma bare_length bs bs' : bare <$> bs = bare <$> bs' -> length bs = length bs'.
Proof. intros E%(f_equal length). by rewrite !length_fmap in E. Qed.

Lemma link_buffer x b rest y :
  length (bufs (ff x)) = S bhead -> linked x (b :: rest) y ->
  exists y', run (h ← getb bhead ;
    setb b (fun x => x <| b_next := b_next h |>) ;;
    setb b (fun x => x <| b_prev := bhead |>) ;;
    initsleeplock (SL_buf b) ;;
    setb (b_next h) (fun x => x <| b_prev := b |>) ;;
    setb bhead (fun x => x <| b_next := b |>)) y tt y' /\ linked x rest y'.
Proof.
  intros Hlen [(j & Hj & E & Hc & Hl) Hb Hf Hd].
  pose proof (bare_length _ _ Hb) as Hly.
  destruct (bhead - j)%nat as [|n] eqn:En; [done|]. injection E as -> ->.
  destruct (lookup_lt_is_Some_2 (bufs (ff y)) bhead ltac:(lia)) as [h Hh].
  exists (y <| ff ::= fun z => z <| bufs ::= push_front j |> |> <| fl ::= delete (SL_buf j) |>).
  split; [|split].
  - eapply mrun_bind; [by apply getb_mrun|].
    replace (b_next h) with (nxs (bufs (ff y)) bhead) by (unfold nxs; by rewrite Hh).
    do 2 (eapply mrun_bind; [apply setb_mrun|]). eapply mrun_bind; [by eapply initsleeplock_run|].
    eapply mrun_bind; [apply setb_mrun|]. by apply setb_mrun_eq.
  - exists (S j). split_and!; [lia|f_equal; lia| |].
    + rewrite seq_S, reverse_snoc. apply push_chain; try done; [lia|lia|..].
      * apply NoDup_cons. split; [|rewrite reverse_Permutation; apply NoDup_seq].
        rewrite elem_of_reverse, elem_of_seq. lia.
      * rewrite elem_of_reverse, elem_of_seq. lia.
      * intros i. rewrite elem_of_reverse, elem_of_seq. lia.
    + intros i Hi. cbn. destruct (decide (i = j)) as [->|Hne]; [apply lookup_delete_eq|].
      rewrite lookup_delete_ne by congruence. apply Hl. lia.
  - cbn. by rewrite push_front_bare.
  - etransitivity; [exact Hf|]. split; [by destruct y as [? [] ?]|].
    intros sl Hsl. cbn. apply lookup_delete_ne. by intros <-.
  - done.
Qed.

(** The state binit starts from: nothing cached. *)
Definition blank (bs : list buf) : Prop :=
  length bs = S bhead /\
  forall i b, (i < bhead)%nat -> bs !! i = Some b -> b_dev b = 0 /\ b_flags b = 0 /\ b_refcnt b = 0.

Lemma blank_slots lk bs V :
  blank bs -> (forall i, (i < bhead)%nat -> lk !! SL_buf i = None) -> slots (p_pid pr) nblk lk bs V ∅ ∅.
Proof.
  intros [Hl Hb] Hlk. split.
  - intros i Hi. destruct (lookup_lt_is_Some_2 bs i ltac:(lia)) as [b Hbi]. exists b. split; [done|].
    destruct (Hb i b Hi Hbi) as (E1 & E2 & E3). split_and!; [by rewrite lookup_empty|by rewrite lookup_empty, Hlk|].
    left. by rewrite lookup_empty.
  - intros i j b b' Hi Hj Hbi Hbj E. destruct (Hb i b Hi Hbi). congruence.
  - set_solver.
  - intros i k. by rewrite lookup_empty.
Qed.

Lemma binit_run x :
  blank (bufs (ff x)) -> up (fd x) ->
  (forall k, 0 <= k < nblk -> length (read_disk (fd x) 1 k) = Z.to_nat BSIZE) ->
  exists x', run binit x tt x' /\ cached x' (read_disk (fd x) 1) ∅ ∅ ∅ /\ bframe x x' /\ fd x' = fd x.
Proof.
  intros Hbl Hup Hsz. pose proof (proj1 Hbl) as Hlen.
  set (x1 := on_buf bhead (fun h => h <| b_next := bhead |>) (on_buf bhead (fun h => h <| b_prev := bhead |>) x)).
  assert (bare <$> bufs (ff x1) = bare <$> bufs (ff x)) as Hb1 by (cbn; by rewrite !bare_alter).
  assert (linked x (seq 0 bhead) x1) as Hl1.
  { split; [|done| |done].
    - exists O. split_and!; [lia|f_equal; lia| |lia]. cbn. split.
      + rewrite nxs_set by (rewrite length_alter; lia). apply fset_eq.
      + rewrite pvs_keep by done. rewrite pvs_set by lia. apply fset_eq.
    - split; [by destruct x as [? [] ?]|done]. }
  destruct (mrun_for_each s0 (linked x) _ _ _ Hl1 (fun b rest y => link_buffer x b rest y Hlen))
    as (x' & Hrun & [(j & Hj & E & Hc & Hl) Hb Hf Hd]).
  exists x'. split_and!; [|split|done|done].
  - unfold binit. eapply mrun_bind; [apply initlock_st|].
    do 2 (eapply mrun_bind; [apply setb_mrun|]). exact Hrun.
  - by rewrite Hd.
  - assert (bhead - j = 0)%nat as Ej by (by destruct (bhead - j)%nat).
    split; [rewrite <-Hlen; by apply bare_length|]. exists (reverse (seq 0 j)). split; [|done].
    rewrite reverse_Permutation. by replace j with bhead by lia.
  - eapply slots_bare; [exact Hb|]. apply blank_slots; [done|]. intros i Hi. apply Hl.
    assert (bhead - j = 0)%nat by (by destruct (bhead - j)%nat). lia.
  - set_solver.
  - intros k Hk _ _. by rewrite Hd.
  - done.
  - by rewrite Hd.
Qed.

End ops.
