(* ===== verification/Log.v ===== *)
(** * The log: log.c

    A transaction's blocks are copied to the log, committed by one write of the log header, and
    then installed at their home locations. *)

From stdpp Require Import base list gmap strings fin_maps.
From S2P Require Import Prelude State Monad Spinlock Console Kalloc Str Vm Sched Sleeplock Disk Bio.
Open Scope Z_scope.

(** ** Little-endian fields of a block *)

Definition rd8 (d : list Z) (o : Z) : Z := nthz 0 d o.
Definition rd16 (d : list Z) (o : Z) : Z := Z.lor (rd8 d o) (Z.shiftl (rd8 d (o + 1)) 8).
Definition rd32 (d : list Z) (o : Z) : Z :=
  Z.lor (Z.lor (Z.lor (rd8 d o) (Z.shiftl (rd8 d (o + 1)) 8)) (Z.shiftl (rd8 d (o + 2)) 16))
        (Z.shiftl (rd8 d (o + 3)) 24).

(** [bs] stored at offset [o]. *)
Fixpoint wr_bytes (d : list Z) (o : Z) (bs : list Z) : list Z :=
  match bs with
  | [] => d
  | b :: bs => wr_bytes (<[Z.to_nat o := u8 b]> d) (o + 1) bs
  end.
Definition bytes16 (v : Z) : list Z := [u8 v; u8 (Z.shiftr v 8)].
Definition bytes32 (v : Z) : list Z :=
  [u8 v; u8 (Z.shiftr v 8); u8 (Z.shiftr v 16); u8 (Z.shiftr v 24)].
Definition wr16 (d : list Z) (o v : Z) : list Z := wr_bytes d o (bytes16 v).
Definition wr32 (d : list Z) (o v : Z) : list Z := wr_bytes d o (bytes32 v).

(** ** The log *)

Definition set_log (f : logst -> logst) : M unit := set_fs (fun x => x <| logs ::= f |>).
Definition get_log : M logst := gets (fun s => logs (fst_ s)).

(** log.lh.block[i] *)
Definition log_block (i : Z) : M Z :=
  l ← get_log ;
  index "log.lh.block[i]" (lh_block l) i.
Definition set_log_block (i v : Z) : M unit :=
  log_block i ;; set_log (fun l => l <| lh_block ::= <[Z.to_nat i := v]> |>).

(** The fields of the super block in block 1. *)
Definition sb_of (d : list Z) : superblock :=
  mkSb (rd32 d 0) (rd32 d 4) (rd32 d 8) (rd32 d 12) (rd32 d 16) (rd32 d 20) (rd32 d 24).

(** [for(tail = 0; tail < log.lh.n; tail++) body(tail);]: every body below indexes
    log.lh.block[tail], which has LOGSIZE entries, so LOGSIZE + 1 turns are enough. *)
Fixpoint for_log (fuel : nat) (tail : Z) (body : Z -> M unit) : M unit :=
  match fuel with
  | O => nofuel
  | S fuel =>
      l ← get_log ;
      if tail <? lh_n l then body tail ;; for_log fuel (tail + 1) body else ret tt
  end.
Definition log_fuel : nat := S (S (Z.to_nat LOGSIZE)).

Section driver.
Context `{BlockDriver}.

(** fs.c *)
Definition readsb (dev : Z) : M superblock :=
  bp ← bread dev 1 ;
  b ← getb bp ;
  brelse bp ;;
  ret (sb_of (b_data b)).

Definition install_trans : M unit :=
  for_log log_fuel 0 (fun tail =>
    l ← get_log ;
    lbuf ← bread (lg_dev l) (u32 (lg_start l + tail + 1)) ;
    l ← get_log ;
    n ← log_block tail ;
    dbuf ← bread (lg_dev l) (u32 n) ;
    lb ← getb lbuf ;
    setb dbuf (fun b => b <| b_data := b_data lb |>) ;;
    bwrite dbuf ;;
    brelse lbuf ;;
    brelse dbuf).

Definition read_head : M unit :=
  l ← get_log ;
  buf ← bread (lg_dev l) (u32 (lg_start l)) ;
  b ← getb buf ;
  set_log (fun l => l <| lh_n := s32 (rd32 (b_data b) 0) |>) ;;
  for_log log_fuel 0 (fun i =>
    b ← getb buf ;
    set_log_block i (s32 (rd32 (b_data b) (4 + 4 * i)))) ;;
  brelse buf.

Definition write_head : M unit :=
  l ← get_log ;
  buf ← bread (lg_dev l) (u32 (lg_start l)) ;
  l ← get_log ;
  setb buf (fun b => b <| b_data ::= fun d => wr32 d 0 (lh_n l) |>) ;;
  for_log log_fuel 0 (fun i =>
    v ← log_block i ;
    setb buf (fun b => b <| b_data ::= fun d => wr32 d (4 + 4 * i) v |>)) ;;
  bwrite buf ;;
  brelse buf.

Definition recover_from_log : M unit :=
  read_head ;;
  install_trans ;;
  set_log (fun l => l <| lh_n := 0 |>) ;;
  write_head.

(** sizeof(struct logheader) is 4 * (1 + LOGSIZE). *)
Definition initlog (dev : Z) : M unit :=
  if BSIZE <=? 4 * (1 + LOGSIZE) then panic "initlog: too big logheader" else
  initlock L_log ;;
  sb ← readsb dev ;
  set_log (fun l => l <| lg_start := s32 (sb_logstart sb) |>) ;;
  set_log (fun l => l <| lg_size := s32 (sb_nlog sb) |>) ;;
  set_log (fun l => l <| lg_dev := dev |>) ;;
  recover_from_log.

(** The loop of begin_op: every turn but the last sleeps. *)
Fixpoint begin_op_loop (fuel : nat) : M unit :=
  match fuel with
  | O => nofuel
  | S fuel =>
      l ← get_log ;
      if negb (lg_committing l =? 0) then sleep Ch_log L_log ;; begin_op_loop fuel
      else if LOGSIZE <? lh_n l + (lg_outstanding l + 1) * MAXOPBLOCKS
      then sleep Ch_log L_log ;; begin_op_loop fuel
      else
        set_log (fun l => l <| lg_outstanding ::= Z.succ |>) ;;
        release L_log
  end.

Definition begin_op : M unit :=
  acquire L_log ;;
  (fun e => begin_op_loop (S (length e)) e).

Definition write_log : M unit :=
  for_log log_fuel 0 (fun tail =>
    l ← get_log ;
    to ← bread (lg_dev l) (u32 (lg_start l + tail + 1)) ;
    l ← get_log ;
    n ← log_block tail ;
    from ← bread (lg_dev l) (u32 n) ;
    fb ← getb from ;
    setb to (fun b => b <| b_data := b_data fb |>) ;;
    bwrite to ;;
    brelse from ;;
    brelse to).

Definition commit : M unit :=
  l ← get_log ;
  when (0 <? lh_n l)
    (write_log ;;
     write_head ;;
     install_trans ;;
     set_log (fun l => l <| lh_n := 0 |>) ;;
     write_head).

Definition end_op : M unit :=
  acquire L_log ;;
  set_log (fun l => l <| lg_outstanding ::= Z.pred |>) ;;
  l ← get_log ;
  if negb (lg_committing l =? 0) then panic "log.committing" else
  do_commit ← (if lg_outstanding l =? 0
               then set_log (fun l => l <| lg_committing := 1 |>) ;; ret true
               else wakeup Ch_log ;; ret false) ;
  release L_log ;;
  when do_commit
    (commit ;;
     acquire L_log ;;
     set_log (fun l => l <| lg_committing := 0 |>) ;;
     wakeup Ch_log ;;
     release L_log).

Definition log_write (b : nat) : M unit :=
  l ← get_log ;
  if (LOGSIZE <=? lh_n l) || (lg_size l - 1 <=? lh_n l) then panic "too big a transaction" else
  if lg_outstanding l <? 1 then panic "log_write outside of trans" else
  acquire L_log ;;
  x ← getb b ;
  l ← get_log ;
  let i := default (lh_n l) (Z.of_nat <$> findi (fun v => u32 v =? b_blockno x)
                                           (take (Z.to_nat (lh_n l)) (lh_block l))) in
  set_log_block i (s32 (b_blockno x)) ;;
  when (i =? lh_n l) (set_log (fun l => l <| lh_n ::= Z.succ |>)) ;;
  setb b (fun x => x <| b_flags ::= fun f => Z.lor f B_DIRTY |>) ;;
  release L_log.

End driver.
