(* ===== verification/LogLayout.v ===== *)
(** * The layout of the log

    Fields of a block, the header of the log and what is read back of it, the writes of a commit
    as a list, and what every prefix of them leaves on the disk. *)

From stdpp Require Import base list gmap strings fin_maps.
From S2P Require Import Prelude State Monad Spinlock Console Kalloc Str Vm Sched Sleeplock Calm Disk Bio.
From S2P Require Import BioProofs Log.
Open Scope Z_scope.

(** ** Fields of a block *)

Lemma wr_bytes_length bs d o : length (wr_bytes d o bs) = length d.
Proof. revert d o. induction bs as [|b bs IH]; intros d o; cbn; [done|]. by rewrite IH, length_insert. Qed.
Lemma wr32_length d o v : length (wr32 d o v) = length d.
Proof. apply wr_bytes_length. Qed.
Lemma wr16_length d o v : length (wr16 d o v) = length d.
Proof. apply wr_bytes_length. Qed.

Lemma rd8_insert d o v j :
  0 <= o < Z.of_nat (length d) -> rd8 (<[Z.to_nat o := v]> d) j = if decide (j = o) then v else rd8 d j.
Proof.
  intros Ho. unfold rd8, nthz. destruct (decide (j = o)) as [->|Hne].
  - destruct (Z.ltb_spec o 0); [lia|]. by rewrite list_lookup_insert_eq by lia.
  - destruct (Z.ltb_spec j 0); [done|]. by rewrite list_lookup_insert_ne by lia.
Qed.
Lemma rd8_wr_bytes bs d o j :
  0 <= o -> o + Z.of_nat (length bs) <= Z.of_nat (length d) ->
  rd8 (wr_bytes d o bs) j =
    if decide (o <= j < o + Z.of_nat (length bs)) then u8 (rd8 bs (j - o)) else rd8 d j.
Proof.
  revert d o. induction bs as [|b bs IH]; intros d o Ho Hlen; cbn [wr_bytes length] in *.
  { by rewrite decide_False by lia. }
  rewrite IH by (rewrite ?length_insert; lia). rewrite rd8_insert by lia.
  destruct (decide (j = o)) as [->|Hne].
  - rewrite decide_False, decide_True by lia. by rewrite Z.sub_diag.
  - destruct (decide (o + 1 <= j < _)); [rewrite decide_True by lia|rewrite decide_False by lia; done].
    f_equal. unfold rd8, nthz. destruct (Z.ltb_spec (j - (o + 1)) 0), (Z.ltb_spec (j - o) 0); try lia.
    replace (Z.to_nat (j - o)) with (S (Z.to_nat (j - (o + 1)))) by lia. done.
Qed.

Lemma lor_high a b n : 0 <= n -> 0 <= a < 2 ^ n -> Z.lor a (Z.shiftl b n) = a + b * 2 ^ n.
Proof. intros Hn Ha. rewrite Z.lor_comm, lor_shiftl_add by done. lia. Qed.

(** Four bytes read as one number, and a number split into four bytes. *)
Lemma join32 a b c d :
  is_u8 a -> is_u8 b -> is_u8 c -> is_u8 d ->
  Z.lor (Z.lor (Z.lor a (Z.shiftl b 8)) (Z.shiftl c 16)) (Z.shiftl d 24) =
    a + b * 2 ^ 8 + c * 2 ^ 16 + d * 2 ^ 24.
Proof.
  unfold is_u8. intros Ha Hb Hc Hd. rewrite (lor_high a b 8), (lor_high _ c 16), (lor_high _ d 24) by lia. lia.
Qed.
Lemma split32 v :
  u8 v + u8 (Z.shiftr v 8) * 2 ^ 8 + u8 (Z.shiftr v 16) * 2 ^ 16 + u8 (Z.shiftr v 24) * 2 ^ 24 = u32 v.
Proof.
  rewrite !Z.shiftr_div_pow2 by lia. unfold u8, u32.
  change (2 ^ 8) with 256. change (2 ^ 16) with 65536. change (2 ^ 24) with 16777216. change (2 ^ 32) with 4294967296.
  Z.to_euclidean_division_equations. lia.
Qed.
Lemma u8_idem v : u8 (u8 v) = u8 v.
Proof. apply u8_small, u8_range. Qed.

Lemma rd32_wr32 d o v :
  0 <= o -> o + 4 <= Z.of_nat (length d) -> rd32 (wr32 d o v) o = u32 v.
Proof.
  intros Ho Hl. unfold rd32, wr32. rewrite !rd8_wr_bytes by (cbn; lia). rewrite !decide_True by (cbn; lia).
  replace (o - o) with 0 by lia. replace (o + 1 - o) with 1 by lia.
  replace (o + 2 - o) with 2 by lia. replace (o + 3 - o) with 3 by lia.
  change (rd8 (bytes32 v) 0) with (u8 v). change (rd8 (bytes32 v) 1) with (u8 (Z.shiftr v 8)).
  change (rd8 (bytes32 v) 2) with (u8 (Z.shiftr v 16)). change (rd8 (bytes32 v) 3) with (u8 (Z.shiftr v 24)).
  rewrite !u8_idem.
  rewrite join32 by apply u8_range. apply split32.
Qed.
Lemma rd32_wr_other d o bs j :
  0 <= o -> o + Z.of_nat (length bs) <= Z.of_nat (length d) -> j + 4 <= o \/ o + Z.of_nat (length bs) <= j ->
  rd32 (wr_bytes d o bs) j = rd32 d j.
Proof. intros Ho Hl Hj. unfold rd32. rewrite !rd8_wr_bytes by lia. by rewrite !decide_False by lia. Qed.
Lemma rd32_wr32_ne d o v j :
  0 <= o -> o + 4 <= Z.of_nat (length d) -> j + 4 <= o \/ o + 4 <= j -> rd32 (wr32 d o v) j = rd32 d j.
Proof. intros. by apply rd32_wr_other. Qed.

(** ** The log header *)

(** The header with the block list [hs] from entry [i] on, written over [d]. *)
Fixpoint put_blocks (i : Z) (hs : list Z) (d : list Z) : list Z :=
  match hs with
  | [] => d
  | h :: hs => put_blocks (i + 1) hs (wr32 d (4 + 4 * i) h)
  end.
Definition put_head (hs : list Z) (d : list Z) : list Z :=
  put_blocks 0 hs (wr32 d 0 (Z.of_nat (length hs))).

Lemma put_blocks_length i hs d : length (put_blocks i hs d) = length d.
Proof. revert i d. induction hs as [|h hs IH]; intros i d; cbn [put_blocks]; [done|]. by rewrite IH, wr32_length. Qed.
Lemma put_head_length hs d : length (put_head hs d) = length d.
Proof. unfold put_head. by rewrite put_blocks_length, wr32_length. Qed.
Lemma put_blocks_snoc i hs h d :
  put_blocks i (hs ++ [h]) d = wr32 (put_blocks i hs d) (4 + 4 * (i + Z.of_nat (length hs))) h.
Proof.
  revert i d. induction hs as [|h' hs IH]; intros i d; cbn [put_blocks app length].
  - do 3 f_equal. cbn. lia.
  - rewrite IH. do 3 f_equal. lia.
Qed.

(** What is read back. *)
Lemma rd32_put_below i hs d j :
  0 <= i -> 4 + 4 * (i + Z.of_nat (length hs)) <= Z.of_nat (length d) -> j <= 4 * i ->
  rd32 (put_blocks i hs d) j = rd32 d j.
Proof.
  revert i d. induction hs as [|h hs IH]; intros i d Hi Hl Hj; cbn [put_blocks length] in *; [done|].
  rewrite IH by (rewrite ?wr32_length; lia). apply rd32_wr32_ne; lia.
Qed.
Lemma rd32_put_blocks i hs d t h :
  0 <= i -> 4 + 4 * (i + Z.of_nat (length hs)) <= Z.of_nat (length d) -> hs !! t = Some h ->
  rd32 (put_blocks i hs d) (4 + 4 * (i + Z.of_nat t)) = u32 h.
Proof.
  revert i d t. induction hs as [|h' hs IH]; intros i d t Hi Hl Ht; cbn [put_blocks length] in *; [done|].
  destruct t as [|t]; cbn in Ht.
  - injection Ht as ->. rewrite rd32_put_below by (rewrite ?wr32_length; lia).
    replace (i + Z.of_nat 0) with i by lia. apply rd32_wr32; lia.
  - replace (i + Z.of_nat (S t)) with (i + 1 + Z.of_nat t) by lia. apply IH; rewrite ?wr32_length; [lia..|done].
Qed.

(** ** Writes and views *)

(** The contents of disk 1 after the writes [ws], from the contents [V]. *)
Definition wview (ws : list (Z * Z * list Z)) (V : Z -> list Z) : Z -> list Z :=
  foldl (fun V w => vset V w.1.2 w.2) V ws.
Definition wrote (ws : list (Z * Z * list Z)) (d : diskst) : diskst := d <| writes ::= fun l => l ++ ws |>.

Lemma wview_app ws ws' V : wview (ws ++ ws') V = wview ws' (wview ws V).
Proof. apply foldl_app. Qed.
Lemma wview_other ws V k : (forall w, w ∈ ws -> w.1.2 <> k) -> wview ws V k = V k.
Proof.
  revert V. induction ws as [|w ws IH]; intros V H; cbn; [done|].
  change (wview ws (vset V w.1.2 w.2) k = V k).
  rewrite IH by (intros w' Hw'; apply H; by right). apply vset_ne. apply not_eq_sym, H. by left.
Qed.
Lemma wview_agree ws V k v : V k = v -> (forall w, w ∈ ws -> w.1.2 = k -> w.2 = v) -> wview ws V k = v.
Proof.
  revert V. induction ws as [|w ws IH]; intros V Hv H; cbn; [done|].
  apply IH; [|intros w' Hw'; apply H; by right]. unfold vset. destruct (decide _) as [->|]; [|done]. by apply H; [left|].
Qed.
(** The last write of a block decides. *)
Lemma wview_in ws V w :
  NoDup (map (fun w => w.1.2) ws) -> w ∈ ws -> wview ws V w.1.2 = w.2.
Proof.
  revert V. induction ws as [|v ws IH]; intros V Hd Hw; [set_solver|]. cbn in Hd. apply NoDup_cons in Hd as [Hv Hd].
  apply elem_of_cons in Hw as [->|Hw].
  - change (wview ws (vset V v.1.2 v.2) v.1.2 = v.2). rewrite wview_other; [apply vset_eq|].
    intros w' Hw' E. apply Hv. apply list_elem_of_fmap. by exists w'.
  - by apply IH.
Qed.
Lemma wview_ext ws V V' k : V k = V' k -> wview ws V k = wview ws V' k.
Proof.
  revert V V'. induction ws as [|w ws IH]; intros V V' H; cbn; [done|]. apply IH. unfold vset. by destruct (decide _).
Qed.

Lemma wrote_wrote ws ws' d : wrote ws' (wrote ws d) = wrote (ws ++ ws') d.
Proof. destruct d. unfold wrote, upd. cbn. by rewrite app_assoc. Qed.
Lemma wrote_nil d : wrote [] d = d.
Proof. destruct d. unfold wrote, upd. cbn. by rewrite app_nil_r. Qed.
Lemma write_wrote k v d : write_disk 1 k v d = wrote [(1, k, v)] d.
Proof. done. Qed.
Lemma read_wrote ws d k :
  (forall w, w ∈ ws -> w.1.1 = 1) -> read_disk (wrote ws d) 1 k = wview ws (read_disk d 1) k.
Proof.
  revert d. induction ws as [|[[dr b] v] ws IH]; intros d H; [by rewrite wrote_nil|].
  assert (dr = 1) as -> by (apply (H (dr, b, v)); by left).
  change ((1, b, v) :: ws) with ([(1, b, v)] ++ ws). rewrite <-wrote_wrote, <-write_wrote, IH, wview_app.
  - apply wview_ext. cbn. by rewrite read_write.
  - intros w Hw. apply H. by right.
Qed.

Lemma wview_length ws V k n :
  (forall w, w ∈ ws -> length w.2 = n) -> length (V k) = n -> length (wview ws V k) = n.
Proof.
  revert V. induction ws as [|w ws IH]; intros V Hw Hk; cbn; [done|].
  apply (IH (vset V w.1.2 w.2)); [intros w' Hw'; apply Hw; by right|].
  unfold vset. destruct (decide _); [apply Hw; by left|done].
Qed.
Lemma up_wrote {dv nblk up} {Hdrv : DriverOk dv nblk up} ws d :
  (forall w, w ∈ ws -> w.1.1 = 1) -> up d -> up (wrote ws d).
Proof.
  revert d. induction ws as [|[[dr b] v] ws IH]; intros d H Hd; [by rewrite wrote_nil|].
  assert (dr = 1) as -> by (apply (H (dr, b, v)); by left).
  change ((1, b, v) :: ws) with ([(1, b, v)] ++ ws). rewrite <-wrote_wrote. apply IH.
  - intros w Hw. apply H. by right.
  - by apply up_write.
Qed.

Lemma slots_ext pid nblk lk bs V V' D L :
  (forall k, 0 <= k < nblk -> V k = V' k) -> slots pid nblk lk bs V D L -> slots pid nblk lk bs V' D L.
Proof.
  intros E [H1 H2 H3 H4]. split; try done. intros i Hi. destruct (H1 i Hi) as (b & Hb & Hr & Hl & Hd).
  exists b. split; [done|]. unfold slot. split_and!; [done..|]. destruct Hd as [Hd|(Hd & Hk & Hv & Hf)]; [by left|right].
  rewrite <-E by done. tauto.
Qed.
Lemma cache_ext pid nblk up x V V' D W L :
  (forall k, 0 <= k < nblk -> V k = V' k) -> cache pid nblk up x V D W L -> cache pid nblk up x V' D W L.
Proof.
  intros E [H1 H2 H3 H4 H5 H6 H7]. split; try done.
  - by eapply slots_ext.
  - intros k Hk ? ?. rewrite <-E by done. by apply H5.
  - intros k Hk. rewrite <-E by done. by apply H6.
Qed.

(** ** The state of the log *)

Record log_at (x : fsys) (start sz : Z) (hs : list Z) : Prop := {
  lo_dev : lg_dev (logs (ff x)) = 1;
  lo_start : lg_start (logs (ff x)) = start;
  lo_size : lg_size (logs (ff x)) = sz;
  lo_n : lh_n (logs (ff x)) = Z.of_nat (length hs);
  lo_len : length (lh_block (logs (ff x))) = Z.to_nat LOGSIZE;
  lo_hs : forall t h, hs !! t = Some h -> lh_block (logs (ff x)) !! t = Some h
}.
Lemma log_at_frame x x' start sz hs : bframe x x' -> log_at x start sz hs -> log_at x' start sz hs.
Proof. intros [E _] [H1 H2 H3 H4 H5 H6]. split; rewrite E; try done. Qed.

(** Only the buffers, their sleep locks and the log have changed. *)
Record lframe (x x' : fsys) : Prop := {
  lf_ff : ff x' = (ff x) <| bufs := bufs (ff x') |> <| logs := logs (ff x') |>;
  lf_fl : forall sl, buf_lock sl = false -> fl x' !! sl = fl x !! sl
}.
#[export] Instance lframe_po : PreOrder lframe.
Proof.
  split.
  - intros x. split; [|done]. by destruct x as [? [] ?].
  - intros x y z [H1 H2] [H3 H4]. split.
    + rewrite H3, H1. done.
    + intros sl Hsl. by rewrite H4, H2.
Qed.
Lemma bframe_lframe x x' : bframe x x' -> lframe x x'.
Proof. intros [H1 H2]. split; [|done]. rewrite H1. by destruct x as [? [] ?]. Qed.
Lemma logs_lframe f x : lframe x (x <| ff ::= fun y => y <| logs ::= f |> |>).
Proof. split; [|done]. by destruct x as [? [] ?]. Qed.

(** ... and it has no operation more or less. *)
Record rframe (x x' : fsys) : Prop := {
  rf_lframe : lframe x x';
  rf_outstanding : lg_outstanding (logs (ff x')) = lg_outstanding (logs (ff x));
  rf_committing : lg_committing (logs (ff x')) = lg_committing (logs (ff x))
}.
#[export] Instance rframe_po : PreOrder rframe.
Proof.
  split.
  - intros x. by split.
  - intros x y z [H1 H2 H3] [H4 H5 H6]. split; [by etransitivity|congruence..].
Qed.
Lemma bframe_rframe x x' : bframe x x' -> rframe x x'.
Proof. intros H. split; [by apply bframe_lframe| |]; by rewrite (bf_ff _ _ H). Qed.
Lemma logs_rframe f x :
  (forall l, lg_outstanding (f l) = lg_outstanding l /\ lg_committing (f l) = lg_committing l) ->
  rframe x (x <| ff ::= fun y => y <| logs ::= f |> |>).
Proof. intros H. split; [apply logs_lframe|apply H..]. Qed.

(** Header block [d] lists the blocks [hs]. *)
Definition head_of (d : list Z) (hs : list Z) : Prop :=
  s32 (rd32 d 0) = Z.of_nat (length hs) /\
  forall t h, hs !! t = Some h -> s32 (rd32 d (4 + 4 * Z.of_nat t)) = h.

Lemma head_of_put hs d :
  length d = Z.to_nat BSIZE -> Z.of_nat (length hs) <= LOGSIZE -> (forall h, h ∈ hs -> 0 <= h < 2 ^ 31) ->
  head_of (put_head hs d) hs.
Proof.
  change BSIZE with 512. change LOGSIZE with 30. intros Hd Hl Hh. unfold put_head. split.
  - rewrite rd32_put_below by (rewrite ?wr32_length; lia). rewrite rd32_wr32 by lia.
    rewrite s32_u32. apply s32_small. cint.
  - intros t h Ht. replace (4 + 4 * Z.of_nat t) with (4 + 4 * (0 + Z.of_nat t)) by lia.
    erewrite rd32_put_blocks; [|lia|rewrite wr32_length; lia|done]. rewrite s32_u32.
    apply list_elem_of_lookup_2, Hh in Ht. apply s32_small. cint.
Qed.

(** ** The transaction *)

Section layout.
Context {nblk start sz : Z}.

(** The log occupies blocks [start, start + sz) of the disk. *)
Definition geometry : Prop := 0 <= start /\ 1 < sz <= LOGSIZE /\ start + sz <= nblk /\ nblk <= 2 ^ 31.

Definition home (h : Z) : Prop := 0 <= h < nblk /\ ~ (start <= h < start + sz).

(** The blocks of a transaction. *)
Definition txn (hs : list Z) : Prop := NoDup hs /\ (forall h, h ∈ hs -> home h) /\ Z.of_nat (length hs) < sz.

Definition log_slot (t : nat) : Z := start + Z.of_nat t + 1.
Definition log_writes (V : Z -> list Z) (hs : list Z) : list (Z * Z * list Z) :=
  imap (fun t h => (1, log_slot t, V h)) hs.

Definition home_writes (V : Z -> list Z) (hs : list Z) : list (Z * Z * list Z) :=
  imap (fun t h => (1, h, V (log_slot t))) hs.

Lemma log_slot_bounds t : geometry -> (Z.of_nat t + 1 < sz) -> 0 <= log_slot t < nblk /\ start < log_slot t < start + sz.
Proof. unfold geometry, log_slot. lia. Qed.

Lemma u32_block k : geometry -> 0 <= k < nblk -> u32 k = k.
Proof. unfold geometry. intros. apply u32_small. cint. Qed.

Lemma txn_lookup hs t h :
  geometry -> txn hs -> hs !! t = Some h -> home h /\ Z.of_nat t + 1 < sz.
Proof.
  intros Hg (Hd & Hh & Hl) Ht. split; [apply Hh; by eapply list_elem_of_lookup_2|].
  apply lookup_lt_Some in Ht. lia.
Qed.

Lemma log_writes_take V hs t h :
  hs !! t = Some h -> log_writes V (take (S t) hs) = log_writes V (take t hs) ++ [(1, log_slot t, V h)].
Proof.
  intros Ht. rewrite (take_S_r _ _ h) by done. unfold log_writes. rewrite imap_app. cbn.
  rewrite length_take_le; [by rewrite Nat.add_0_r|]. apply lookup_lt_Some in Ht. lia.
Qed.

Lemma home_writes_take V hs t h :
  hs !! t = Some h -> home_writes V (take (S t) hs) = home_writes V (take t hs) ++ [(1, h, V (log_slot t))].
Proof.
  intros Ht. rewrite (take_S_r _ _ h) by done. unfold home_writes. rewrite imap_app. cbn.
  rewrite length_take_le; [by rewrite Nat.add_0_r|]. apply lookup_lt_Some in Ht. lia.
Qed.

Lemma log_writes_elem V hs w :
  w ∈ log_writes V hs -> exists t h, hs !! t = Some h /\ w = (1, log_slot t, V h).
Proof. intros (t & h & -> & Hh)%elem_of_lookup_imap. by exists t, h. Qed.

Lemma home_writes_elem V hs w :
  w ∈ home_writes V hs -> exists t h, hs !! t = Some h /\ w = (1, h, V (log_slot t)).
Proof. intros (t & h & -> & Hh)%elem_of_lookup_imap. by exists t, h. Qed.

(** The log does not change what is read at home, and conversely. *)
Lemma log_writes_home V hs V' k :
  (start < k < start + sz -> False) -> geometry -> txn hs -> wview (log_writes V hs) V' k = V' k.
Proof.
  intros Hk Hg Ht. apply wview_other. intros w (t & h & Hh & ->)%log_writes_elem. cbn. intros <-. apply Hk.
  apply log_slot_bounds; [done|]. by eapply txn_lookup.
Qed.

Lemma home_writes_log V hs V' k :
  (start <= k < start + sz) -> txn hs -> wview (home_writes V hs) V' k = V' k.
Proof.
  intros Hk (_ & Ht & _). apply wview_other. intros w (t & h & Hh & ->)%home_writes_elem. cbn. intros <-.
  apply list_elem_of_lookup_2, Ht in Hh. destruct Hh. tauto.
Qed.

Lemma txn_take t hs : txn hs -> txn (take t hs).
Proof.
  intros (H1 & H2 & H3). split_and!.
  - eapply sublist_NoDup; [done|apply sublist_take].
  - intros h Hh. apply H2. by eapply subseteq_take.
  - rewrite length_take. lia.
Qed.

Lemma txn_fits hs : geometry -> txn hs -> (length hs < bhead)%nat.
Proof. unfold geometry, txn, bhead. change LOGSIZE with 30. change NBUF with 30. lia. Qed.

Lemma slot_not_home hs t : geometry -> txn hs -> Z.of_nat t + 1 < sz -> log_slot t ∉ (list_to_set hs : gset Z).
Proof.
  intros Hg (_ & Hh & _) Ht Hin. apply elem_of_list_to_set, Hh in Hin as [_ Hin]. apply Hin.
  destruct (log_slot_bounds t Hg Ht). lia.
Qed.

Lemma swap_pair (i j : nat) (a b : Z) :
  i <> j -> ({[i := a; j := b]} : gmap nat Z) = {[j := b; i := a]}.
Proof. intros. rewrite <-!insert_empty. by apply insert_insert_ne. Qed.

(** ** The writes of a commit *)

(** The writes of a commit of [hs], in order. *)
Definition commit_writes (V : Z -> list Z) (hs : list Z) : list (Z * Z * list Z) :=
  log_writes V hs ++ [(1, start, put_head hs (V start))] ++
  map (fun h => (1, h, V h)) hs ++ [(1, start, put_head [] (put_head hs (V start)))].

Lemma log_view_slot V V' hs t h :
  geometry -> txn hs -> hs !! t = Some h -> wview (log_writes V hs) V' (log_slot t) = V h.
Proof.
  intros Hg Ht Hh. apply (wview_in (log_writes V hs) V' (1, log_slot t, V h)).
  - change (map (fun w => w.1.2) (log_writes V hs)) with ((fun w => w.1.2) <$> log_writes V hs).
    unfold log_writes. rewrite fmap_imap. apply NoDup_alt. intros i j k Hi Hj.
    rewrite list_lookup_imap in Hi, Hj. destruct (hs !! i); [|done]. destruct (hs !! j); [|done].
    cbn in Hi, Hj. unfold log_slot in *. simplify_eq. lia.
  - apply elem_of_lookup_imap. by exists t, h.
Qed.

Lemma home_writes_committed V V2 hs :
  (forall t h, hs !! t = Some h -> V2 (log_slot t) = V h) -> home_writes V2 hs = map (fun h => (1, h, V h)) hs.
Proof.
  intros H. apply list_eq. intros t. unfold home_writes. rewrite list_lookup_imap.
  change (map (fun h => (1, h, V h)) hs) with ((fun h => (1, h, V h)) <$> hs). rewrite list_lookup_fmap.
  destruct (hs !! t) as [h|] eqn:Hh; [|done]. cbn. by rewrite (H t h).
Qed.

(** ** Crashes

    A crash leaves a prefix [ws1] of the writes of commit on the disk. *)

Lemma prefix_cases {A} (a : list A) (h : A) (b : list A) (c : A) ws1 ws2 :
  a ++ [h] ++ b ++ [c] = ws1 ++ ws2 ->
  (exists m, a = ws1 ++ m) \/ (exists m1 m2, ws1 = a ++ [h] ++ m1 /\ b = m1 ++ m2) \/ ws1 = a ++ [h] ++ b ++ [c].
Proof.
  intros E. apply app_eq_inv in E as [(m & E1 & E2)|(m & E1 & E2)]; [left; by exists m|].
  destruct m as [|h' m]; [left; exists []; by rewrite app_nil_r in *|]. right. injection E2 as <- E2.
  apply app_eq_inv in E2 as [(m' & E3 & E4)|(m' & E3 & E4)].
  - left. exists m, m'. by subst.
  - destruct m' as [|c' m'].
    + left. exists b, []. subst. by rewrite !app_nil_r.
    + right. injection E4 as <- E4. symmetry in E4. apply app_eq_nil in E4 as [-> ->]. by subst.
Qed.

Lemma put_empty_head d : length d = Z.to_nat BSIZE -> head_of (put_head [] d) [].
Proof. intros Hd. apply head_of_put; [done|done|set_solver]. Qed.

Lemma installed V V' hs k :
  txn hs -> (k ∉ hs -> V' k = V k) -> wview (map (fun h => (1, h, V h)) hs) V' k = V k.
Proof.
  intros (Hd & _) Hk. destruct (decide (k ∈ hs)) as [Hin|Hni].
  - apply (wview_in _ V' (1, k, V k)).
    + rewrite map_map. cbn. by rewrite map_id.
    + apply list_elem_of_fmap. by exists k.
  - rewrite wview_other; [by apply Hk|]. intros w (h & -> & Hh)%list_elem_of_fmap. cbn. by intros ->.
Qed.

Section crash.
Context (old V : Z -> list Z) (hs : list Z) (Hg : geometry) (Ht : txn hs).
Context (Hold : forall k, 0 <= k < nblk -> k ∉ hs -> old k = V k).
Context (Hsz : forall k, 0 <= k < nblk -> length (V k) = Z.to_nat BSIZE).

Lemma start_bounds : 0 <= start < nblk /\ start ∉ hs.
Proof.
  unfold geometry in Hg. split; [lia|]. destruct Ht as (_ & Hh & _). intros [_ Hn]%Hh. lia.
Qed.

Lemma home_off_start k : home k -> k <> start /\ 0 <= k < nblk.
Proof. unfold geometry in Hg. intros [H1 H2]. split; [lia|done]. Qed.

(** Before the header is written. *)
Lemma crash_before ws1 m k :
  log_writes V hs = ws1 ++ m -> (start < k < start + sz -> False) -> wview ws1 old k = old k.
Proof.
  intros Em Hk. apply wview_other. intros w Hw. assert (w ∈ log_writes V hs) as Hw' by (rewrite Em; set_solver).
  apply log_writes_elem in Hw' as (t & h & Hh & ->). cbn. intros <-. apply Hk, log_slot_bounds; [done|].
  by destruct (txn_lookup hs t h Hg Ht Hh).
Qed.

(** After that, and before it is cleared: installing again gives the new contents. *)
Lemma crash_logged m1 m2 :
  map (fun h => (1, h, V h)) hs = m1 ++ m2 ->
  let V' := wview (log_writes V hs ++ [(1, start, put_head hs (V start))] ++ m1) old in
  head_of (V' start) hs /\ forall k, home k -> wview (home_writes V' hs) V' k = V k.
Proof.
  intros Em V'. destruct start_bounds as [Hs Hsh]. assert (forall h, h ∈ hs -> home h) as Hhome by apply Ht.
  assert (forall k, k ∉ hs -> V' k = vset (wview (log_writes V hs) old) start (put_head hs (V start)) k) as Hv.
  { intros k Hk. unfold V'. rewrite app_assoc, !wview_app. apply wview_other.
    intros w Hw. assert (w ∈ map (fun h => (1, h, V h)) hs) as Hw' by (rewrite Em; set_solver).
    apply list_elem_of_fmap in Hw' as (h & -> & Hh). cbn. by intros ->. }
  split.
  - rewrite Hv, vset_eq by done. apply head_of_put; [by apply Hsz| |].
    + destruct Ht as (_ & _ & ?). unfold geometry in Hg. lia.
    + intros h [Hh _]%Hhome. unfold geometry in Hg. lia.
  - intros k Hk. destruct (home_off_start k Hk) as [Hks Hkn]. rewrite (home_writes_committed V).
    + apply installed; [done|]. intros Hk'. rewrite Hv, vset_ne by done.
      rewrite log_writes_home by (done || (destruct Hk; lia)). by apply Hold.
    + intros t h Hh. destruct (txn_lookup hs t h Hg Ht Hh) as [_ Htz]. destruct (log_slot_bounds t Hg Htz).
      rewrite Hv, vset_ne by (lia || intros [_ Hn]%Hhome; lia). by apply log_view_slot.
Qed.

(** When all is written. *)
Lemma crash_done :
  let V' := wview (commit_writes V hs) old in
  head_of (V' start) [] /\ forall k, home k -> V' k = V k.
Proof.
  unfold commit_writes. rewrite !wview_app. cbn. split.
  - rewrite vset_eq. apply put_empty_head. rewrite put_head_length. apply Hsz, start_bounds.
  - intros k Hk. destruct (home_off_start k Hk) as [Hks Hkn].
    rewrite vset_ne by done. apply installed; [done|]. intros Hk'. rewrite vset_ne by done.
    rewrite log_writes_home by (done || (destruct Hk; lia)). by apply Hold.
Qed.

(** What is on the disk is a log that recovery turns into the old contents of all blocks, or
    into the new contents of all blocks. *)
Lemma crash_view ws1 ws2 :
  head_of (V start) [] -> commit_writes V hs = ws1 ++ ws2 ->
  let V' := wview ws1 old in
  exists hs', txn hs' /\ head_of (V' start) hs' /\
    ((forall k, home k -> wview (home_writes V' hs') V' k = old k) \/
     (forall k, home k -> wview (home_writes V' hs') V' k = V k)).
Proof.
  intros Hhd Hws V'. destruct start_bounds as [Hs Hsh].
  assert (txn []) as Ht0 by (split_and!; [apply NoDup_nil_2|set_solver|unfold geometry in Hg; cbn; lia]).
  apply prefix_cases in Hws as [[m Em]|[(m1 & m2 & -> & Em)| ->]].
  - exists []. split_and!; [done| |left; intros k [_ Hk]; by apply (crash_before ws1 m); [|lia]].
    unfold V'. rewrite (crash_before ws1 m) by (done || lia). by rewrite Hold.
  - exists hs. destruct (crash_logged m1 m2 Em). split_and!; [done..|by right].
  - exists []. destruct crash_done. split_and!; [done..|by right].
Qed.

End crash.

Lemma commit_writes_drive V hs w : w ∈ commit_writes V hs -> w.1.1 = 1.
Proof.
  unfold commit_writes. rewrite !elem_of_app, !list_elem_of_singleton.
  intros [(t & h & _ & ->)%log_writes_elem|[->|[(h & -> & _)%list_elem_of_fmap| ->]]]; done.
Qed.
Lemma commit_writes_length V hs w :
  geometry -> txn hs -> (forall k, 0 <= k < nblk -> length (V k) = Z.to_nat BSIZE) ->
  w ∈ commit_writes V hs -> length w.2 = Z.to_nat BSIZE.
Proof.
  intros Hg (_ & Hh & _) Hsz. assert (0 <= start < nblk) as Hs by (unfold geometry in Hg; lia).
  unfold commit_writes. rewrite !elem_of_app, !list_elem_of_singleton.
  intros [(t & h & Hth & ->)%log_writes_elem|[->|[(h & -> & Hin)%list_elem_of_fmap| ->]]]; cbn -[put_head].
  - apply Hsz, Hh. by eapply list_elem_of_lookup_2.
  - rewrite put_head_length. by apply Hsz.
  - by apply Hsz, Hh.
  - rewrite !put_head_length. by apply Hsz.
Qed.

(** A block that the transaction does not change keeps its contents throughout. *)
Lemma commit_writes_same V hs ws1 old k :
  geometry -> txn hs -> home k -> old k = V k -> (forall w, w ∈ ws1 -> w ∈ commit_writes V hs) ->
  wview ws1 old k = V k.
Proof.
  intros Hg Ht Hk Hold Hin. destruct (home_off_start Hg k Hk) as [Hks _].
  apply wview_agree; [done|]. intros w Hw%Hin. revert Hw. unfold commit_writes. rewrite !elem_of_app, !list_elem_of_singleton.
  intros [(t & h & Hth & ->)%log_writes_elem|[->|[(h & -> & Hh)%list_elem_of_fmap| ->]]]; cbn; try congruence.
  intros <-. exfalso. destruct Hk as [_ Hk]. apply Hk. destruct (txn_lookup hs t h Hg Ht Hth) as [_ Htz].
  destruct (log_slot_bounds t Hg Htz). lia.
Qed.

(** ** The block list *)

(** The block list after a write of block [k]: a block already in it is absorbed. *)
Definition absorb (k : Z) (hs : list Z) : list Z := if decide (k ∈ hs) then hs else hs ++ [k].

(** The entry log_write uses for block [k]. *)
Definition log_entry (k : Z) (hs : list Z) : nat := default (length hs) (findi (fun v => u32 v =? k) hs).

Lemma log_entry_spec k hs :
  geometry -> txn hs -> 0 <= k < nblk ->
  (k ∈ hs /\ hs !! log_entry k hs = Some k) \/ (k ∉ hs /\ log_entry k hs = length hs).
Proof.
  intros Hg (_ & Hh & _) Hk. unfold log_entry. destruct (findi _ hs) as [t|] eqn:Hf; cbn.
  - apply findi_Some in Hf as [(v & Ht & Ev) _]. apply Z.eqb_eq in Ev.
    rewrite u32_block in Ev by (done || by apply Hh; eapply list_elem_of_lookup_2). subst v.
    left. split; [by eapply list_elem_of_lookup_2|done].
  - right. split; [|done]. intros [t Hin]%list_elem_of_lookup. rewrite findi_None in Hf. apply Hf in Hin as Hx.
    rewrite u32_block, Z.eqb_refl in Hx by done. done.
Qed.

Lemma txn_absorb k hs :
  txn hs -> home k -> Z.of_nat (length hs) + 1 < sz -> txn (absorb k hs).
Proof.
  intros (H1 & H2 & H3) Hk Hlt. unfold absorb. destruct (decide (k ∈ hs)) as [Hin|Hni]; [by split_and!|].
  split_and!.
  - apply NoDup_app. split_and!; [done|set_solver|apply NoDup_singleton].
  - intros h [Hh| ->%list_elem_of_singleton]%elem_of_app; [by apply H2|done].
  - rewrite length_app. cbn. lia.
Qed.

Lemma absorb_set k hs : (list_to_set (absorb k hs) : gset Z) = list_to_set hs ∪ {[k]}.
Proof. unfold absorb. destruct (decide (k ∈ hs)); [|rewrite list_to_set_app_L; cbn]; set_solver. Qed.

Definition end_writes (V : Z -> list Z) (hs : list Z) : list (Z * Z * list Z) :=
  match hs with [] => [] | _ => commit_writes V hs end.

(** What the writes of a commit leave at home is the new contents. *)
Lemma end_writes_home V hs k :
  geometry -> txn hs -> (forall k, 0 <= k < nblk -> length (V k) = Z.to_nat BSIZE) -> home k ->
  wview (end_writes V hs) V k = V k.
Proof.
  intros Hg Ht Hsz Hk. destruct hs as [|h hs]; [done|].
  by apply (crash_done V V (h :: hs) Hg Ht).
Qed.

End layout.

Arguments geometry nblk start sz : clear implicits.
Arguments home nblk start sz h : clear implicits.
Arguments txn nblk start sz hs : clear implicits.
Arguments log_slot start t : clear implicits.
Arguments log_writes start V hs : clear implicits.
Arguments home_writes start V hs : clear implicits.
Arguments commit_writes start V hs : clear implicits.
Arguments end_writes start V hs : clear implicits.
