(* ===== verification/LogProofs.v ===== *)
(** * The log makes a transaction atomic

    The blocks a transaction has modified are pinned in the buffer cache; commit copies them to
    the log, writes the header, copies them home and clears the header.  The file gives the
    writes of each step on the disk, what recovery makes of a disk on which any number of them
    has been done, and the state of the log across begin_op, log_write and end_op. *)

From stdpp Require Import base list gmap strings fin_maps.
From S2P Require Import Prelude State Monad Spinlock Console Kalloc Str Vm Sched Sleeplock Calm Disk Bio.
From S2P Require Import BioProofs Log LogLayout.
Open Scope Z_scope.

(** No buffer is in use: it does not matter which process looks at the cache. *)
Lemma cache_pid pid pid' nblk up x V D W : cache pid nblk up x V D W ∅ -> cache pid' nblk up x V D W ∅.
Proof. intros [H1 H2 [S1 S2 S3 S4] H4 H5 H6 H7]. by do 2 (split; try done). Qed.

Section ops.

Context {dv : BlockDriver} {nblk : Z} {up : diskst -> Prop} {Hdrv : DriverOk dv nblk up}.

Context (p : nat) (pr : proc) (s0 : kstate) (Hcalm : calm p pr s0).

Context (start sz : Z).

Notation st := (at_fs s0).

Notation run := (mrun s0).

Notation cached := (cache (p_pid pr) nblk up).
Notation geometry := (geometry nblk start sz).
Notation home := (home nblk start sz).
Notation txn := (txn nblk start sz).
Notation log_slot := (log_slot start).
Notation log_writes := (log_writes start).
Notation home_writes := (home_writes start).
Notation commit_writes := (commit_writes start).
Notation end_writes := (end_writes start).

Lemma mrun_get_log x : run get_log x (logs (ff x)) x.
Proof. apply mrun_gets. Qed.

Lemma set_log_mrun f x : run (set_log f) x tt (x <| ff ::= fun y => y <| logs ::= f |> |>).
Proof. apply mrun_exact. reflexivity. Qed.

Lemma log_block_run x hs t h :
  log_at x start sz hs -> hs !! t = Some h -> run (log_block (Z.of_nat t)) x h x.
Proof.
  intros Hl Ht. unfold log_block. eapply mrun_bind; [apply mrun_get_log|]. unfold index.
  assert (lookupz (lh_block (logs (ff x))) (Z.of_nat t) = Some h) as ->; [|apply mrun_ret].
  unfold lookupz. destruct (Z.ltb_spec (Z.of_nat t) 0); [lia|]. rewrite Nat2Z.id. by apply Hl.
Qed.

Lemma set_log_block_run x t v :
  (t < length (lh_block (logs (ff x))))%nat ->
  run (set_log_block (Z.of_nat t) v) x tt
    (x <| ff ::= fun y => y <| logs ::= fun l => l <| lh_block ::= <[t := v]> |> |> |>).
Proof.
  intros [w Hw]%lookup_lt_is_Some_2. unfold set_log_block, log_block.
  eapply mrun_bind with (a := w) (x1 := x).
  - eapply mrun_bind; [apply mrun_get_log|]. unfold index, lookupz.
    destruct (Z.ltb_spec (Z.of_nat t) 0); [lia|]. rewrite Nat2Z.id, Hw. apply mrun_ret.
  - rewrite Nat2Z.id. apply set_log_mrun.
Qed.

Lemma for_log_run (I : nat -> fsys -> Prop) (body : Z -> M unit) n fuel t x :
  (forall t y, I t y -> lh_n (logs (ff y)) = Z.of_nat n) ->
  (forall t y, (t < n)%nat -> I t y -> exists y', run (body (Z.of_nat t)) y tt y' /\ I (S t) y') ->
  (t <= n)%nat -> (n - t < fuel)%nat -> I t x ->
  exists x', run (for_log fuel (Z.of_nat t) body) x tt x' /\ I n x'.
Proof.
  intros Hn Hb. revert t x. induction fuel as [|fuel IH]; intros t x Ht Hf HI; [lia|]. cbn [for_log].
  destruct (decide (t = n)) as [->|Hne].
  - exists x. split; [|done]. eapply mrun_bind; [apply mrun_get_log|].
    destruct (Z.ltb_spec (Z.of_nat n) (lh_n (logs (ff x)))); [rewrite (Hn _ _ HI) in *; lia|apply mrun_ret].
  - destruct (Hb t x ltac:(lia) HI) as (y & Hy & HIy). destruct (IH (S t) y) as (x' & Hx & HIx); [lia..|done|].
    exists x'. split; [|done]. eapply mrun_bind; [apply mrun_get_log|].
    destruct (Z.ltb_spec (Z.of_nat t) (lh_n (logs (ff x)))); [|rewrite (Hn _ _ HI) in *; lia].
    eapply mrun_bind; [exact Hy|]. by replace (Z.of_nat t + 1) with (Z.of_nat (S t)) by lia.
Qed.

(** Two blocks read, the contents of one moved to the other and written: the steps shared by
    write_log and install_trans.  [src] and [dst] say which of the two is copied to which. *)
Lemma copy_run x V D a b :
  cached x V D ∅ ∅ -> 0 <= a < nblk -> 0 <= b < nblk -> a <> b ->
  a ∈ D \/ (size D < bhead)%nat -> b ∈ D \/ (size D + 1 < bhead)%nat ->
  exists i j x2, (exists x1, run (bread 1 a) x i x1 /\ bframe x x1 /\ run (bread 1 b) x1 j x2) /\
    i <> j /\ cached x2 V D ∅ {[i := a; j := b]} /\ bframe x x2 /\ fd x2 = fd x.
Proof.
  intros Hc Ha Hb Hab Ha' Hb'.
  destruct (bread_run p pr s0 Hcalm a x V D ∅ ∅) as (i & x1 & R1 & _ & C1 & F1 & E1);
    [done|done|by intros j; rewrite lookup_empty|rewrite map_size_empty; destruct Ha'; [by left|right; lia]|].
  rewrite insert_empty in C1.
  destruct (bread_run p pr s0 Hcalm b x1 V D ∅ {[i := a]}) as (j & x2 & R2 & N2 & C2 & F2 & E2); [done|done|..].
  { intros j. destruct (decide (j = i)) as [->|]; [rewrite lookup_singleton_eq; congruence|].
    by rewrite lookup_singleton_ne. }
  { rewrite map_size_singleton. destruct Hb'; [by left|right; lia]. }
  assert (i <> j) as Hij by (intros <-; by rewrite lookup_singleton_eq in N2).
  exists i, j, x2. split_and!; [exists x1; done|done| |by etransitivity|congruence].
  replace ({[i := a; j := b]} : gmap nat Z) with ({[j := b; i := a]} : gmap nat Z); [done|].
  rewrite <-!insert_empty. by apply insert_insert_ne.
Qed.

Lemma move_run x V D L i j a b :
  cached x V D ∅ L -> L !! i = Some a -> L !! j = Some b ->
  exists s x1 x2, bufs (ff x) !! i = Some s /\ run (setb j (fun y => y <| b_data := b_data s |>)) x tt x1 /\
    run (bwrite j) x1 tt x2 /\ cached x2 (vset V b (V a)) (D ∖ {[b]}) ∅ L /\ bframe x x2 /\
    fd x2 = wrote [(1, b, V a)] (fd x).
Proof.
  intros Hc Hi Hj. destruct (getb_held pr x V D ∅ L i a Hc Hi) as (s & Hs & Ed & _ & _ & Ha).
  destruct (set_data_run p pr s0 Hcalm x V D ∅ L j b (fun _ => b_data s) Hc Hj) as (x1 & R1 & C1 & F1 & E1).
  { rewrite Ed. by eapply ca_size. }
  destruct (bwrite_run p pr s0 Hcalm x1 _ _ _ L j b C1 Hj) as (x2 & R2 & C2 & F2 & E2).
  exists s, x1, x2. split_and!; [done..| |by etransitivity|].
  - rewrite Ed in C2. by replace ((∅ ∪ {[b]}) ∖ {[b]}) with (∅ : gset Z) in C2 by set_solver.
  - rewrite E2, E1, vset_eq, Ed. done.
Qed.

Lemma release_two x V D i j a b :
  cached x V D ∅ {[i := a; j := b]} -> i <> j ->
  exists x1 x2, run (brelse i) x tt x1 /\ run (brelse j) x1 tt x2 /\ cached x2 V D ∅ ∅ /\ bframe x x2 /\
    fd x2 = fd x.
Proof.
  intros Hc Hij.
  destruct (brelse_run p pr s0 Hcalm x V D ∅ _ i a Hc) as (x1 & R1 & C1 & F1 & E1);
    [by rewrite lookup_insert_eq|set_solver|].
  rewrite delete_insert_id in C1 by (by rewrite lookup_singleton_ne).
  destruct (brelse_run p pr s0 Hcalm x1 V D ∅ _ j b C1) as (x2 & R2 & C2 & F2 & E2);
    [by rewrite lookup_singleton_eq|set_solver|].
  rewrite delete_singleton_eq in C2.
  exists x1, x2. split_and!; [done..|by etransitivity|congruence].
Qed.

(** The bodies of the two loops. *)
Definition write_log_body (tail : Z) : M unit :=
  l ← get_log ;
  to ← bread (lg_dev l) (u32 (lg_start l + tail + 1)) ;
  l ← get_log ;
  n ← log_block tail ;
  from ← bread (lg_dev l) (u32 n) ;
  fb ← getb from ;
  setb to (fun b => b <| b_data := b_data fb |>) ;;
  bwrite to ;;
  brelse from ;;
  brelse to.

Definition install_body (tail : Z) : M unit :=
  l ← get_log ;
  lbuf ← bread (lg_dev l) (u32 (lg_start l + tail + 1)) ;
  l ← get_log ;
  n ← log_block tail ;
  dbuf ← bread (lg_dev l) (u32 n) ;
  lb ← getb lbuf ;
  setb dbuf (fun b => b <| b_data := b_data lb |>) ;;
  bwrite dbuf ;;
  brelse lbuf ;;
  brelse dbuf.

Lemma write_log_step x V hs t h :
  geometry -> txn hs -> log_at x start sz hs -> hs !! t = Some h -> cached x V (list_to_set hs) ∅ ∅ ->
  exists x', run (write_log_body (Z.of_nat t)) x tt x' /\
    cached x' (vset V (log_slot t) (V h)) (list_to_set hs) ∅ ∅ /\
    bframe x x' /\ fd x' = wrote [(1, log_slot t, V h)] (fd x).
Proof.
  intros Hg Ht Hl Hh C. pose proof (txn_fits hs Hg Ht) as Hfit. set (D := list_to_set hs : gset Z) in *.
  assert (size D = length hs) as Hsz by (apply size_list_to_set, Ht).
  destruct (txn_lookup hs t h Hg Ht Hh) as [Hhome Htz].
  destruct (log_slot_bounds t Hg Htz) as [Hs1 Hs2]. pose proof (slot_not_home hs t Hg Ht Htz) as HnD. fold D in HnD.
  assert (h ∈ D) as HhD by (apply elem_of_list_to_set; by eapply list_elem_of_lookup_2).
  assert (log_slot t <> h) as Hne by congruence.
  destruct (copy_run x V D (log_slot t) h C) as (i & j & y2 & (y1 & R1 & F1 & R2) & Hij & C2 & F2 & E2);
    [done|apply Hhome|done|right; lia|by left|].
  destruct (move_run y2 _ D _ j i h (log_slot t) C2) as (s & y3 & y4 & Hs & R3 & R4 & C4 & F4 & E4);
    [by rewrite lookup_insert_ne, lookup_singleton_eq|by rewrite lookup_insert_eq|].
  rewrite swap_pair in C4 by done.
  destruct (release_two y4 _ _ j i h (log_slot t) C4) as (y5 & y6 & R5 & R6 & C6 & F6 & E6); [done|].
  exists y6. split_and!.
  - unfold write_log_body. eapply mrun_bind; [apply mrun_get_log|].
    rewrite (lo_dev _ _ _ _ Hl), (lo_start _ _ _ _ Hl), u32_block by done. eapply mrun_bind; [exact R1|].
    pose proof (log_at_frame _ _ _ _ _ F1 Hl) as Hl1.
    eapply mrun_bind; [apply mrun_get_log|]. eapply mrun_bind; [by eapply log_block_run|].
    rewrite (lo_dev _ _ _ _ Hl1), u32_block by (done || apply Hhome).
    eapply mrun_bind; [exact R2|]. eapply mrun_bind; [by apply getb_mrun|].
    eapply mrun_bind; [exact R3|]. eapply mrun_bind; [exact R4|]. eapply mrun_bind; [exact R5|exact R6].
  - by replace (D ∖ {[log_slot t]}) with D in C6 by set_solver.
  - etransitivity; [exact F2|]. by etransitivity.
  - by rewrite E6, E4, E2.
Qed.

Lemma write_log_run x V hs :
  geometry -> txn hs -> log_at x start sz hs -> cached x V (list_to_set hs) ∅ ∅ ->
  exists x', run write_log x tt x' /\ cached x' (wview (log_writes V hs) V) (list_to_set hs) ∅ ∅ /\
    bframe x x' /\ fd x' = wrote (log_writes V hs) (fd x).
Proof.
  intros Hg Ht Hl Hc. pose proof (txn_fits hs Hg Ht) as Hfit.
  set (I t y := cached y (wview (log_writes V (take t hs)) V) (list_to_set hs) ∅ ∅ /\ bframe x y /\
                fd y = wrote (log_writes V (take t hs)) (fd x)).
  destruct (for_log_run I write_log_body (length hs) log_fuel 0 x) as (x' & R & C & F & E).
  - intros t y (_ & F & _). apply (log_at_frame _ _ _ _ _ F Hl).
  - intros t y Hlt (C & F & E). destruct (lookup_lt_is_Some_2 hs t Hlt) as [h Hh].
    destruct (txn_lookup hs t h Hg Ht Hh) as [Hhome Htz].
    destruct (write_log_step y _ hs t h Hg Ht (log_at_frame _ _ _ _ _ F Hl) Hh C) as (y' & R & C' & F' & E').
    rewrite (log_writes_home (nblk := nblk) (sz := sz)) in C', E' by (done || by apply txn_take || (destruct Hhome; lia)).
    exists y'. split; [exact R|]. unfold I. rewrite (log_writes_take V hs t h), wview_app by done.
    split_and!; [exact C'|by etransitivity|]. by rewrite E', E, wrote_wrote.
  - lia.
  - unfold log_fuel. change LOGSIZE with 30. change bhead with 30%nat in Hfit. lia.
  - split_and!; [done..|]. by rewrite wrote_nil.
  - rewrite take_ge in C, E by done. by exists x'.
Qed.

(** install_trans copies the log home: after a commit from pinned blocks, in recovery from
    blocks that are not in the cache. *)
Lemma install_step x V D hs t h :
  geometry -> txn hs -> log_at x start sz hs -> hs !! t = Some h -> cached x V D ∅ ∅ ->
  (size D < bhead)%nat -> h ∈ D \/ (size D + 1 < bhead)%nat ->
  exists x', run (install_body (Z.of_nat t)) x tt x' /\
    cached x' (vset V h (V (log_slot t))) (D ∖ {[h]}) ∅ ∅ /\
    bframe x x' /\ fd x' = wrote [(1, h, V (log_slot t))] (fd x).
Proof.
  intros Hg Ht Hl Hh C HD HhD. destruct (txn_lookup hs t h Hg Ht Hh) as [Hhome Htz].
  destruct (log_slot_bounds t Hg Htz) as [Hs1 Hs2].
  assert (log_slot t <> h) as Hne by (intros <-; destruct Hhome; lia).
  destruct (copy_run x V D (log_slot t) h C) as (i & j & y2 & (y1 & R1 & F1 & R2) & Hij & C2 & F2 & E2);
    [done|apply Hhome|done|by right|done|].
  destruct (move_run y2 _ D _ i j (log_slot t) h C2) as (s & y3 & y4 & Hs & R3 & R4 & C4 & F4 & E4);
    [by rewrite lookup_insert_eq|by rewrite lookup_insert_ne, lookup_singleton_eq|].
  destruct (release_two y4 _ _ i j (log_slot t) h C4) as (y5 & y6 & R5 & R6 & C6 & F6 & E6); [done|].
  exists y6. split_and!; [|done| |].
  - unfold install_body. eapply mrun_bind; [apply mrun_get_log|].
    rewrite (lo_dev _ _ _ _ Hl), (lo_start _ _ _ _ Hl), u32_block by done. eapply mrun_bind; [exact R1|].
    pose proof (log_at_frame _ _ _ _ _ F1 Hl) as Hl1.
    eapply mrun_bind; [apply mrun_get_log|]. eapply mrun_bind; [by eapply log_block_run|].
    rewrite (lo_dev _ _ _ _ Hl1), u32_block by (done || apply Hhome).
    eapply mrun_bind; [exact R2|]. eapply mrun_bind; [by apply getb_mrun|].
    eapply mrun_bind; [exact R3|]. eapply mrun_bind; [exact R4|]. eapply mrun_bind; [exact R5|exact R6].
  - etransitivity; [exact F2|]. by etransitivity.
  - by rewrite E6, E4, E2.
Qed.

Lemma install_trans_run x V D hs :
  geometry -> txn hs -> log_at x start sz hs -> cached x V D ∅ ∅ -> D = ∅ \/ D = list_to_set hs ->
  exists x', run install_trans x tt x' /\ cached x' (wview (home_writes V hs) V) ∅ ∅ ∅ /\
    bframe x x' /\ fd x' = wrote (home_writes V hs) (fd x).
Proof.
  intros Hg Ht Hl Hc HD. pose proof (txn_fits hs Hg Ht) as Hfit.
  set (I t y := cached y (wview (home_writes V (take t hs)) V) (D ∖ list_to_set (take t hs)) ∅ ∅ /\ bframe x y /\
                fd y = wrote (home_writes V (take t hs)) (fd x)).
  destruct (for_log_run I install_body (length hs) log_fuel 0 x) as (x' & R & C & F & E).
  - intros t y (_ & F & _). apply (log_at_frame _ _ _ _ _ F Hl).
  - intros t y Hlt (C & F & E). destruct (lookup_lt_is_Some_2 hs t Hlt) as [h Hh].
    destruct (txn_lookup hs t h Hg Ht Hh) as [Hhome Htz]. destruct (log_slot_bounds t Hg Htz) as [Hs1 Hs2].
    assert (size (D ∖ list_to_set (take t hs)) <= size D)%nat as Hle by (apply subseteq_size; set_solver).
    assert (size D <= length hs)%nat as HDl.
    { destruct HD as [-> | ->]; [rewrite size_empty; lia|]. rewrite size_list_to_set; [done|apply Ht]. }
    destruct (install_step y _ _ hs t h Hg Ht (log_at_frame _ _ _ _ _ F Hl) Hh C) as (y' & R & C' & F' & E').
    { lia. }
    { destruct HD as [-> | ->]; [right; rewrite size_empty in Hle; change bhead with 30%nat; lia|left].
      apply elem_of_difference. rewrite !elem_of_list_to_set. split; [by eapply list_elem_of_lookup_2|].
      intros (t' & Ht')%list_elem_of_lookup. apply lookup_take_Some in Ht' as [Ht' Hlt'].
      destruct Ht as (Hnd & _). pose proof (NoDup_lookup _ _ _ _ Hnd Hh Ht'). lia. }
    rewrite (home_writes_log (nblk := nblk) (sz := sz)) in C', E' by (by apply txn_take || lia).
    exists y'. split; [exact R|]. unfold I. rewrite (home_writes_take V hs t h), wview_app by done.
    split_and!; [|by etransitivity|by rewrite E', E, wrote_wrote].
    rewrite (take_S_r _ _ h) by done. rewrite list_to_set_app_L. cbn [list_to_set foldr].
    by replace (D ∖ (list_to_set (take t hs) ∪ ({[h]} ∪ ∅))) with (D ∖ list_to_set (take t hs) ∖ {[h]}) by set_solver.
  - lia.
  - unfold log_fuel. change LOGSIZE with 30. change bhead with 30%nat in Hfit. lia.
  - unfold I. rewrite take_0. split_and!; [|done|by rewrite wrote_nil].
    by replace (D ∖ list_to_set []) with D by set_solver.
  - rewrite take_ge in C, E by done. exists x'. split_and!; try done.
    replace (D ∖ list_to_set hs) with (∅ : gset Z) in C; [done|]. destruct HD as [-> | ->]; set_solver.
Qed.

(** ** The header *)

Lemma write_head_loop x V D i d n hs :
  geometry -> Z.of_nat (length hs) <= LOGSIZE -> log_at x start sz hs -> cached x V D {[start]} {[i := start]} ->
  V start = wr32 d 0 n ->
  exists x', run (for_log log_fuel 0 (fun t => v ← log_block t ;
      setb i (fun b => b <| b_data ::= fun d => wr32 d (4 + 4 * t) v |>))) x tt x' /\
    cached x' (vset V start (put_blocks 0 hs (wr32 d 0 n))) D {[start]} {[i := start]} /\ bframe x x' /\
    fd x' = fd x.
Proof.
  intros Hg Hlen Hl Hc Hv.
  set (I t y := cached y (vset V start (put_blocks 0 (take t hs) (wr32 d 0 n))) D {[start]} {[i := start]} /\
                bframe x y /\ fd y = fd x).
  destruct (for_log_run I (fun t => v ← log_block t ;
      setb i (fun b => b <| b_data ::= fun d => wr32 d (4 + 4 * t) v |>)) (length hs) log_fuel 0 x)
    as (x' & R & C & F & E).
  - intros t y (_ & F & _). apply (log_at_frame _ _ _ _ _ F Hl).
  - intros t y Hlt (C & F & E). destruct (lookup_lt_is_Some_2 hs t Hlt) as [h Hh].
    pose proof (log_at_frame _ _ _ _ _ F Hl) as Hly.
    destruct (set_data_run p pr s0 Hcalm y _ D _ _ i start (fun d => wr32 d (4 + 4 * Z.of_nat t) h) C)
      as (y' & R & C' & F' & E').
    { apply lookup_singleton_eq. }
    { rewrite wr32_length. eapply (ca_size _ _ _ _ _ _ _ _ C). unfold geometry in Hg. lia. }
    exists y'. split; [eapply mrun_bind; [by eapply log_block_run|exact R]|].
    split_and!; [|by etransitivity|congruence].
    rewrite union_idemp_L in C'. eapply cache_ext; [|exact C']. intros k Hk. unfold vset.
    destruct (decide (k = start)); [|done]. rewrite decide_True by done.
    rewrite (take_S_r _ _ h), put_blocks_snoc, length_take_le by (done || lia). done.
  - lia.
  - unfold log_fuel. lia.
  - unfold I. cbn [take put_blocks]. split_and!; [|done|done]. eapply cache_ext; [|exact Hc]. intros k Hk.
    unfold vset. destruct (decide (k = start)) as [->|]; done.
  - rewrite take_ge in C by done. by exists x'.
Qed.

Lemma write_head_run x V D hs :
  geometry -> Z.of_nat (length hs) <= LOGSIZE -> log_at x start sz hs -> cached x V D ∅ ∅ ->
  start ∉ D -> (size D < bhead)%nat ->
  exists x', run write_head x tt x' /\ cached x' (vset V start (put_head hs (V start))) D ∅ ∅ /\
    bframe x x' /\ fd x' = wrote [(1, start, put_head hs (V start))] (fd x).
Proof.
  intros Hg Hlen Hl Hc HsD HD. assert (0 <= start < nblk) as Hs by (unfold geometry in Hg; lia).
  destruct (bread_run p pr s0 Hcalm start x V D ∅ ∅ Hc Hs) as (i & x1 & R1 & _ & C1 & F1 & E1).
  { intros j. by rewrite lookup_empty. }
  { right. rewrite map_size_empty. lia. }
  rewrite insert_empty in C1. pose proof (log_at_frame _ _ _ _ _ F1 Hl) as Hl1.
  destruct (set_data_run p pr s0 Hcalm x1 V D ∅ _ i start (fun d => wr32 d 0 (lh_n (logs (ff x1)))) C1)
    as (x2 & R2 & C2 & F2 & E2).
  { apply lookup_singleton_eq. }
  { rewrite wr32_length. by apply (ca_size _ _ _ _ _ _ _ _ C1). }
  rewrite union_empty_l_L in C2.
  destruct (write_head_loop x2 _ D i (V start) (lh_n (logs (ff x1))) hs Hg Hlen (log_at_frame _ _ _ _ _ F2 Hl1) C2)
    as (x3 & R3 & C3 & F3 & E3); [by rewrite vset_eq|].
  destruct (bwrite_run p pr s0 Hcalm x3 _ _ _ _ i start C3) as (x4 & R4 & C4 & F4 & E4);
    [apply lookup_singleton_eq|].
  destruct (brelse_run p pr s0 Hcalm x4 _ _ _ _ i start C4) as (x5 & R5 & C5 & F5 & E5);
    [apply lookup_singleton_eq|set_solver|].
  rewrite (lo_n _ _ _ _ Hl1) in *. fold (put_head hs (V start)) in *.
  rewrite vset_eq in E4. rewrite delete_singleton_eq in C5.
  exists x5. split_and!.
  - unfold write_head. eapply mrun_bind; [apply mrun_get_log|].
    rewrite (lo_dev _ _ _ _ Hl), (lo_start _ _ _ _ Hl), u32_block by done. eapply mrun_bind; [exact R1|].
    eapply mrun_bind; [apply mrun_get_log|]. rewrite (lo_n _ _ _ _ Hl1).
    eapply mrun_bind; [exact R2|]. eapply mrun_bind; [exact R3|]. eapply mrun_bind; [exact R4|exact R5].
  - replace (D ∖ {[start]}) with D in C5 by set_solver.
    replace ({[start]} ∖ {[start]}) with (∅ : gset Z) in C5 by set_solver.
    eapply cache_ext; [|exact C5]. intros k Hk. unfold vset. by destruct (decide (k = start)).
  - do 4 (etransitivity; [|eassumption]). done.
  - rewrite E5, E4, E3, E2, E1. done.
Qed.

(** ** commit *)

Lemma cache_logs f x V D W L :
  cached x V D W L -> cached (x <| ff ::= fun y => y <| logs ::= f |> |>) V D W L.
Proof. intros []. by split. Qed.

Definition no_blocks (l : logst) : logst := l <| lh_n := 0 |>.

Lemma log_at_none x hs : log_at x start sz hs -> log_at (x <| ff ::= fun y => y <| logs ::= no_blocks |> |>) start sz [].
Proof. intros []. by split. Qed.

Definition cleared (x : fsys) : fsys := x <| ff ::= fun y => y <| logs ::= no_blocks |> |>.

Lemma clear_head_run x V hs :
  geometry -> log_at x start sz hs -> cached x V ∅ ∅ ∅ ->
  exists x', run (set_log (fun l => l <| lh_n := 0 |>) ;; write_head) x tt x' /\
    cached x' (vset V start (put_head [] (V start))) ∅ ∅ ∅ /\ bframe (cleared x) x' /\
    fd x' = wrote [(1, start, put_head [] (V start))] (fd x).
Proof.
  intros Hg Hl Hc.
  destruct (write_head_run (cleared x) V ∅ [] Hg) as (x' & R & C & F & E).
  - done.
  - by eapply log_at_none.
  - by apply cache_logs.
  - set_solver.
  - rewrite size_empty. change bhead with 30%nat. lia.
  - exists x'. split_and!; [|done..]. eapply mrun_bind; [apply set_log_mrun|exact R].
Qed.

Lemma commit_run x V hs :
  geometry -> txn hs -> hs <> [] -> log_at x start sz hs -> cached x V (list_to_set hs) ∅ ∅ ->
  exists x', run commit x tt x' /\ cached x' (wview (commit_writes V hs) V) ∅ ∅ ∅ /\
    bframe (cleared x) x' /\ fd x' = wrote (commit_writes V hs) (fd x).
Proof.
  intros Hg Ht Hne Hl Hc. pose proof (txn_fits hs Hg Ht) as Hfit.
  assert (start ∉ (list_to_set hs : gset Z)) as Hs.
  { intros Hin. destruct Ht as (_ & Hh & _). apply elem_of_list_to_set, Hh in Hin as [_ Hin]. unfold geometry in Hg. lia. }
  assert (Z.of_nat (length hs) <= LOGSIZE) as Hlen by (destruct Ht as (_ & _ & ?); unfold geometry in Hg; lia).
  destruct (write_log_run x V hs Hg Ht Hl Hc) as (x1 & R1 & C1 & F1 & E1).
  pose proof (log_at_frame _ _ _ _ _ F1 Hl) as Hl1.
  destruct (write_head_run x1 _ _ hs Hg Hlen Hl1 C1 Hs) as (x2 & R2 & C2 & F2 & E2).
  { by rewrite size_list_to_set by apply Ht. }
  rewrite (log_writes_home (nblk := nblk) (sz := sz)) in C2, E2 by (done || lia).
  destruct (install_trans_run x2 _ _ hs Hg Ht (log_at_frame _ _ _ _ _ F2 Hl1) C2) as (x3 & R3 & C3 & F3 & E3);
    [by right|].
  set (V2 := vset _ start _) in C3, E3.
  assert (home_writes V2 hs = map (fun h => (1, h, V h)) hs) as Eh.
  { apply home_writes_committed. intros t h Hh. destruct (txn_lookup hs t h Hg Ht Hh) as [_ Htz].
    destruct (log_slot_bounds t Hg Htz). unfold V2. rewrite vset_ne by lia. by eapply log_view_slot. }
  rewrite Eh in C3, E3.
  pose proof (log_at_frame _ _ _ _ _ F3 (log_at_frame _ _ _ _ _ F2 Hl1)) as Hl3.
  destruct (clear_head_run x3 _ hs Hg Hl3 C3) as (x4 & R4 & C4 & F4 & E4).
  assert (wview (map (fun h => (1, h, V h)) hs) V2 start = put_head hs (V start)) as Es.
  { rewrite wview_other; [apply vset_eq|].
    intros w (h & -> & Hh)%list_elem_of_fmap. cbn. intros ->. by apply Hs, elem_of_list_to_set. }
  rewrite Es in C4, E4.
  exists x4. split_and!.
  - unfold commit. eapply mrun_bind; [apply mrun_get_log|]. rewrite (lo_n _ _ _ _ Hl).
    destruct (Z.ltb_spec 0 (Z.of_nat (length hs))); [|destruct hs; [done|cbn in *; lia]]. cbn [when].
    eapply mrun_bind; [exact R1|]. eapply mrun_bind; [exact R2|]. eapply mrun_bind; [exact R3|].
    exact R4.
  - unfold commit_writes. rewrite !wview_app. exact C4.
  - etransitivity; [|exact F4]. destruct (transitivity (transitivity F1 F2) F3) as [G1 G2]. split; [|done].
    cbn. rewrite G1. done.
  - rewrite E4, E3, E2, E1, !wrote_wrote. done.
Qed.

(** ** Recovery *)

(** A log whose list has its first [t] entries. *)
Record log_upto (y : fsys) (hs : list Z) (t : nat) : Prop := {
  lu_dev : lg_dev (logs (ff y)) = 1;
  lu_start : lg_start (logs (ff y)) = start;
  lu_size : lg_size (logs (ff y)) = sz;
  lu_n : lh_n (logs (ff y)) = Z.of_nat (length hs);
  lu_len : length (lh_block (logs (ff y))) = Z.to_nat LOGSIZE;
  lu_hs : forall t' h, (t' < t)%nat -> hs !! t' = Some h -> lh_block (logs (ff y)) !! t' = Some h
}.

Lemma read_head_run x V l0 hs :
  geometry -> Z.of_nat (length hs) <= LOGSIZE -> log_at x start sz l0 -> cached x V ∅ ∅ ∅ ->
  head_of (V start) hs ->
  exists x', run read_head x tt x' /\ cached x' V ∅ ∅ ∅ /\ log_at x' start sz hs /\ rframe x x' /\ fd x' = fd x.
Proof.
  intros Hg Hlen Hl Hc [Hn Hh]. assert (0 <= start < nblk) as Hs by (unfold geometry in Hg; lia).
  destruct (bread_run p pr s0 Hcalm start x V ∅ ∅ ∅ Hc Hs) as (i & x1 & R1 & _ & C1 & F1 & E1).
  { intros j. by rewrite lookup_empty. }
  { right. rewrite map_size_empty, size_empty. change bhead with 30%nat. lia. }
  rewrite insert_empty in C1. pose proof (log_at_frame _ _ _ _ _ F1 Hl) as Hl1.
  destruct (getb_held pr x1 V ∅ ∅ _ i start C1 ltac:(apply lookup_singleton_eq)) as (b & Hb & Eb & _).
  set (x2 := x1 <| ff ::= fun y => y <| logs ::= fun l => l <| lh_n := s32 (rd32 (b_data b) 0) |> |> |>).
  set (I t y := cached y V ∅ ∅ {[i := start]} /\ log_upto y hs t /\ rframe x y /\ fd y = fd x).
  destruct (for_log_run I (fun t => b ← getb i ; set_log_block t (s32 (rd32 (b_data b) (4 + 4 * t))))
    (length hs) log_fuel 0 x2) as (x3 & R3 & C3 & U3 & F3 & E3).
  - intros t y (_ & U & _). apply U.
  - intros t y Hlt (C & U & F & E). destruct (lookup_lt_is_Some_2 hs t Hlt) as [h Hht].
    destruct (getb_held pr y V ∅ ∅ _ i start C ltac:(apply lookup_singleton_eq)) as (b' & Hb' & Eb' & _).
    eexists. split.
    { eapply mrun_bind; [by apply getb_mrun|]. rewrite Eb', (Hh t h Hht). apply set_log_block_run.
      rewrite (lu_len _ _ _ U). lia. }
    split_and!; [by apply cache_logs| |by etransitivity; [|apply logs_rframe]|done].
    destruct U as [U1 U2 U3 U4 U5 U6]. split; try done.
    + cbn. by rewrite length_insert.
    + intros t' h' Ht' Hh'. cbn. destruct (decide (t' = t)) as [->|Hne].
      * rewrite list_lookup_insert_eq by (rewrite U5; lia). congruence.
      * rewrite list_lookup_insert_ne by done. apply U6; [lia|done].
  - lia.
  - unfold log_fuel. lia.
  - split_and!; [by apply cache_logs| |etransitivity; [by apply bframe_rframe|by apply logs_rframe]|done].
    destruct Hl1 as [U1 U2 U3 U4 U5 U6]. split; try done; [|lia]. cbn. by rewrite Eb.
  - destruct (brelse_run p pr s0 Hcalm x3 _ _ _ _ i start C3) as (x4 & R4 & C4 & F4 & E4);
      [apply lookup_singleton_eq|set_solver|].
    rewrite delete_singleton_eq in C4. exists x4. split_and!; [|done| |..].
    + unfold read_head. eapply mrun_bind; [apply mrun_get_log|].
      rewrite (lo_dev _ _ _ _ Hl), (lo_start _ _ _ _ Hl), u32_block by done. eapply mrun_bind; [exact R1|].
      eapply mrun_bind; [by apply getb_mrun|]. eapply mrun_bind; [apply set_log_mrun|].
      eapply mrun_bind; [exact R3|exact R4].
    + apply (log_at_frame _ _ _ _ _ F4). destruct U3 as [U1 U2 U3 U4 U5 U6]. split; try done.
      intros t h Ht. apply U6; [by eapply lookup_lt_Some|done].
    + etransitivity; [exact F3|by apply bframe_rframe].
    + congruence.
Qed.

Lemma recover_run x V l0 hs :
  geometry -> txn hs -> log_at x start sz l0 -> cached x V ∅ ∅ ∅ -> head_of (V start) hs ->
  let ws := home_writes V hs ++ [(1, start, put_head [] (V start))] in
  exists x', run recover_from_log x tt x' /\ cached x' (wview ws V) ∅ ∅ ∅ /\ log_at x' start sz [] /\
    rframe x x' /\ fd x' = wrote ws (fd x).
Proof.
  intros Hg Ht Hl Hc Hh ws.
  assert (Z.of_nat (length hs) <= LOGSIZE) as Hlen by (destruct Ht as (_ & _ & ?); unfold geometry in Hg; lia).
  destruct (read_head_run x V l0 hs Hg Hlen Hl Hc Hh) as (x1 & R1 & C1 & L1 & F1 & E1).
  destruct (install_trans_run x1 V ∅ hs Hg Ht L1 C1) as (x2 & R2 & C2 & F2 & E2); [by left|].
  pose proof (log_at_frame _ _ _ _ _ F2 L1) as L2.
  destruct (clear_head_run x2 _ hs Hg L2 C2) as (x3 & R3 & C3 & F3 & E3).
  assert (wview (home_writes V hs) V start = V start) as Es.
  { apply (home_writes_log (nblk := nblk) (sz := sz)); [unfold geometry in Hg; lia|done]. }
  rewrite Es in C3, E3. exists x3. split_and!.
  - unfold recover_from_log. eapply mrun_bind; [exact R1|]. eapply mrun_bind; [exact R2|exact R3].
  - unfold ws. rewrite wview_app. exact C3.
  - apply (log_at_frame _ _ _ _ _ F3). by eapply log_at_none.
  - etransitivity; [exact F1|]. etransitivity; [by apply bframe_rframe|].
    etransitivity; [by apply (logs_rframe no_blocks)|by apply bframe_rframe].
  - rewrite E3, E2, E1, wrote_wrote. done.
Qed.

(** ** initlog *)

Lemma readsb_run x V D :
  cached x V D ∅ ∅ -> 1 < nblk -> (size D < bhead)%nat ->
  exists x', run (readsb 1) x (sb_of (V 1)) x' /\ cached x' V D ∅ ∅ /\ bframe x x' /\ fd x' = fd x.
Proof.
  intros Hc Hn HD.
  destruct (bread_run p pr s0 Hcalm 1 x V D ∅ ∅ Hc) as (i & x1 & R1 & _ & C1 & F1 & E1).
  { lia. } { intros j. by rewrite lookup_empty. } { right. rewrite map_size_empty. lia. }
  rewrite insert_empty in C1.
  destruct (getb_held pr x1 V D ∅ _ i 1 C1 ltac:(apply lookup_singleton_eq)) as (b & Hb & Eb & _).
  destruct (brelse_run p pr s0 Hcalm x1 _ _ _ _ i 1 C1) as (x2 & R2 & C2 & F2 & E2);
    [apply lookup_singleton_eq|set_solver|].
  rewrite delete_singleton_eq in C2. exists x2. split_and!; [|done|by etransitivity|congruence].
  unfold readsb. eapply mrun_bind; [exact R1|]. eapply mrun_bind; [by apply getb_mrun|].
  eapply mrun_bind; [exact R2|]. rewrite Eb. apply mrun_ret.
Qed.

(** The log as the loader leaves it. *)
Definition log_boot (x : fsys) : Prop :=
  lh_n (logs (ff x)) = 0 /\ length (lh_block (logs (ff x))) = Z.to_nat LOGSIZE.

(** The super block places the log. *)
Definition sb_places (d : list Z) : Prop :=
  s32 (sb_logstart (sb_of d)) = start /\ s32 (sb_nlog (sb_of d)) = sz.

Lemma initlog_run x V hs :
  geometry -> txn hs -> log_boot x -> cached x V ∅ ∅ ∅ -> 1 < nblk -> sb_places (V 1) -> head_of (V start) hs ->
  let ws := home_writes V hs ++ [(1, start, put_head [] (V start))] in
  exists x', run (initlog 1) x tt x' /\ cached x' (wview ws V) ∅ ∅ ∅ /\ log_at x' start sz [] /\
    rframe x x' /\ fd x' = wrote ws (fd x).
Proof.
  intros Hg Ht [Hb1 Hb2] Hc Hn [Hs1 Hs2] Hh ws.
  destruct (readsb_run x V ∅ Hc Hn) as (x1 & R1 & C1 & F1 & E1); [rewrite size_empty; change bhead with 30%nat; lia|].
  set (x2 := x1 <| ff ::= fun y => y <| logs ::= fun l => l <| lg_start := start |> |> |>
                <| ff ::= fun y => y <| logs ::= fun l => l <| lg_size := sz |> |> |>
                <| ff ::= fun y => y <| logs ::= fun l => l <| lg_dev := 1 |> |> |>).
  assert (logs (ff x1) = logs (ff x)) as El by (rewrite (bf_ff _ _ F1); done).
  destruct (recover_run x2 V [] hs Hg Ht) as (x3 & R3 & C3 & L3 & F3 & E3).
  - split; unfold x2; cbn; rewrite ?El; done.
  - by do 3 apply cache_logs.
  - done.
  - exists x3. split_and!; try done.
    + unfold initlog. change (BSIZE <=? 4 * (1 + LOGSIZE)) with false. cbv iota.
      eapply mrun_bind; [by apply (initlock_st p pr)|]. eapply mrun_bind; [exact R1|].
      rewrite Hs1, Hs2. do 3 (eapply mrun_bind; [apply set_log_mrun|]). exact R3.
    + etransitivity; [by apply bframe_rframe|]. etransitivity; [|exact F3].
      do 3 (etransitivity; [|by apply logs_rframe]). done.
    + rewrite E3. unfold x2. cbn. by rewrite E1.
Qed.

(** ** begin_op, log_write, end_op *)

Notation on_log f x := (x <| ff ::= fun y => y <| logs ::= f |> |>).

Lemma set_log_locked f l x e : set_log f e (locked s0 l x) = Ret tt e (locked s0 l (on_log f x)).
Proof. reflexivity. Qed.

Lemma get_log_locked l x e : get_log e (locked s0 l x) = Ret (logs (ff x)) e (locked s0 l x).
Proof. reflexivity. Qed.

Lemma begin_op_run x :
  lg_committing (logs (ff x)) = 0 ->
  lh_n (logs (ff x)) + (lg_outstanding (logs (ff x)) + 1) * MAXOPBLOCKS <= LOGSIZE ->
  run begin_op x tt (on_log (fun l => l <| lg_outstanding ::= Z.succ |>) x).
Proof.
  intros Hcm Hn. apply mrun_exact. intros e. unfold begin_op. erewrite bind_Ret by (by eapply acquire_st).
  cbn [begin_op_loop]. erewrite bind_Ret by apply get_log_locked. rewrite Hcm. cbn [Z.eqb negb].
  destruct (Z.ltb_spec LOGSIZE (lh_n (logs (ff x)) + (lg_outstanding (logs (ff x)) + 1) * MAXOPBLOCKS)); [lia|].
  erewrite bind_Ret by apply set_log_locked. by eapply release_st.
Qed.

Lemma log_at_take x hs : log_at x start sz hs -> take (length hs) (lh_block (logs (ff x))) = hs.
Proof.
  intros [H1 H2 H3 H4 H5 H6]. apply list_eq. intros t. destruct (decide (t < length hs)%nat) as [Hlt|Hge].
  - rewrite lookup_take_lt by done. destruct (lookup_lt_is_Some_2 hs t Hlt) as [h Hh]. rewrite Hh. by apply H6.
  - rewrite lookup_take_ge by lia. symmetry. apply lookup_ge_None. lia.
Qed.

Lemma set_log_block_locked l x t v e :
  (t < length (lh_block (logs (ff x))))%nat ->
  set_log_block (Z.of_nat t) v e (locked s0 l x) =
    Ret tt e (locked s0 l (on_log (fun l => l <| lh_block ::= <[t := v]> |>) x)).
Proof.
  intros [w Hw]%lookup_lt_is_Some_2. unfold set_log_block, log_block. rewrite bind_bind.
  erewrite bind_Ret by apply get_log_locked. unfold index, lookupz.
  destruct (Z.ltb_spec (Z.of_nat t) 0); [lia|]. rewrite Nat2Z.id, Hw. prim. done.
Qed.

Definition log_entered (k : Z) (hs : list Z) : logst -> logst :=
  if decide (k ∈ hs) then fun l => l <| lh_block ::= <[log_entry k hs := k]> |>
  else fun l => l <| lh_block ::= <[log_entry k hs := k]> |> <| lh_n ::= Z.succ |>.

Lemma log_at_entered x hs k :
  geometry -> txn hs -> log_at x start sz hs -> home k -> Z.of_nat (length hs) < LOGSIZE ->
  log_at (on_log (log_entered k hs) x) start sz (absorb k hs).
Proof.
  intros Hg Ht Hl [Hk _] Hlen. destruct (log_entry_spec k hs Hg Ht Hk) as [[Hin He]|[Hni He]];
    destruct Hl as [H1 H2 H3 H4 H5 H6]; unfold absorb; set (l := logs (ff x)) in *.
  - assert (log_entered k hs l = l <| lh_block ::= <[log_entry k hs := k]> |>) as El
      by (unfold log_entered; by rewrite decide_True).
    rewrite decide_True by done. split; cbn; fold l; rewrite El; cbn; try done; [by rewrite length_insert|].
    intros t h Hth. destruct (decide (t = log_entry k hs)) as [->|Hne].
    + rewrite list_lookup_insert_eq by (rewrite H5; apply lookup_lt_Some in Hth; lia). congruence.
    + rewrite list_lookup_insert_ne by done. by apply H6.
  - assert (log_entered k hs l = l <| lh_block ::= <[length hs := k]> |> <| lh_n ::= Z.succ |>) as El
      by (unfold log_entered; by rewrite decide_False, He).
    rewrite decide_False by done. split; cbn; fold l; rewrite El; cbn; try done.
    + rewrite H4, length_app. cbn. lia.
    + by rewrite length_insert.
    + intros t h [Hth|[Hge Hth]]%lookup_app_Some.
      * apply lookup_lt_Some in Hth as Hlt. rewrite list_lookup_insert_ne by lia. by apply H6.
      * apply list_lookup_singleton_Some in Hth as [Ht0 <-].
        replace t with (length hs) by lia. apply list_lookup_insert_eq. rewrite H5. lia.
Qed.

(** log_write up to the state it leaves. *)
Lemma log_write_exec x hs i b k :
  geometry -> txn hs -> 0 <= k < nblk -> log_at x start sz hs -> 1 <= lg_outstanding (logs (ff x)) ->
  Z.of_nat (length hs) + 1 < sz -> bufs (ff x) !! i = Some b -> b_blockno b = k ->
  run (log_write i) x tt
    (on_buf i (fun b => b <| b_flags ::= fun f => Z.lor f B_DIRTY |>) (on_log (log_entered k hs) x)).
Proof.
  intros Hg Ht Hk Hl Ho Hn Hb E3. assert (Z.of_nat (length hs) < LOGSIZE) as Hlen by (unfold geometry in Hg; lia).
  unfold log_write. eapply mrun_bind; [apply mrun_get_log|].
  rewrite (lo_n _ _ _ _ Hl), (lo_size _ _ _ _ Hl).
  destruct (Z.leb_spec LOGSIZE (Z.of_nat (length hs))); [lia|].
  destruct (Z.leb_spec (sz - 1) (Z.of_nat (length hs))); [lia|]. cbn [orb].
  destruct (Z.ltb_spec (lg_outstanding (logs (ff x))) 1); [lia|].
  apply mrun_exact. intros e. erewrite bind_Ret by (by eapply acquire_st).
  erewrite bind_Ret by (by apply getb_locked). erewrite bind_Ret by apply get_log_locked.
  rewrite (lo_n _ _ _ _ Hl), Nat2Z.id, (log_at_take x hs Hl), E3.
  assert (default (Z.of_nat (length hs)) (Z.of_nat <$> findi (fun v => u32 v =? k) hs) = Z.of_nat (log_entry k hs)) as ->.
  { unfold log_entry. by destruct (findi _ hs). }
  rewrite s32_small by (unfold geometry in Hg; cint).
  pose proof (log_entry_spec k hs Hg Ht Hk) as He.
  erewrite bind_Ret.
  2: { apply set_log_block_locked. rewrite (lo_len _ _ _ _ Hl).
       destruct He as [[_ He]|[_ He]]; [apply lookup_lt_Some in He|]; lia. }
  set (x2 := on_log _ x). erewrite (bind_Ret (when _ _) _ _ _ tt _ (locked s0 L_log (on_log (log_entered k hs) x))).
  - erewrite bind_Ret by apply setb_locked. by eapply release_st.
  - unfold log_entered. destruct He as [[Hin He]|[Hni He]].
    + apply lookup_lt_Some in He. destruct (Z.eqb_spec (Z.of_nat (log_entry k hs)) (Z.of_nat (length hs))); [lia|].
      cbn [when]. unfold ret. do 2 f_equal. unfold x2. by rewrite decide_True.
    + rewrite He, Z.eqb_refl. cbn [when]. etransitivity; [apply set_log_locked|]. do 2 f_equal. unfold x2.
      rewrite decide_False, He by done. done.
Qed.

Lemma log_write_run x V W L i k hs :
  geometry -> txn hs -> home k -> log_at x start sz hs -> 1 <= lg_outstanding (logs (ff x)) ->
  Z.of_nat (length hs) + 1 < sz -> cached x V (list_to_set hs) W L -> L !! i = Some k ->
  exists x', run (log_write i) x tt x' /\ cached x' V (list_to_set (absorb k hs)) (W ∖ {[k]}) L /\
    log_at x' start sz (absorb k hs) /\ bframe (on_log (log_entered k hs) x) x' /\ fd x' = fd x.
Proof.
  intros Hg Ht Hk Hl Ho Hn Hc Hi.
  pose proof (slots_held _ _ _ _ _ _ _ i k (ca_slots _ _ _ _ _ _ _ _ Hc) Hi)
    as (b & Hb & _ & _ & E1 & E2 & E3 & E4 & E5 & E6).
  pose proof (log_write_exec x hs i b k Hg Ht E4 Hl Ho Hn Hb E3) as Hrun.
  set (x1 := on_log (log_entered k hs) x) in *.
  assert (log_at x1 start sz (absorb k hs)) as Hl1 by (apply log_at_entered; try done; unfold geometry in Hg; lia).
  eexists. split_and!; [exact Hrun| |eapply log_at_frame; [apply on_buf_frame|done]|apply on_buf_frame|done].
  destruct Hc as [H1 H2 H3 H4 H5 H6 H7]. rewrite absorb_set. split; [done|by apply ring_keep| | | |done|done].
  - apply (held_change pr x1 V (list_to_set hs) L i k); try done.
    + intros b' Hb' F1 F2. split; [done|]. cbn. rewrite F2.
      rewrite (decide_True (P := k ∈ list_to_set hs ∪ {[k]})) by set_solver. by destruct (decide _).
    + set_solver.
  - intros k' Hk'. apply H4. set_solver.
  - intros k' Hk' Hn1 Hn2. cbn. apply H5; set_solver.
Qed.

(** end_op of an operation that is not the last leaves the commit to a later one. *)
Lemma end_op_wait x :
  lg_committing (logs (ff x)) = 0 -> lg_outstanding (logs (ff x)) <> 1 ->
  run end_op x tt (on_log (fun l => l <| lg_outstanding ::= Z.pred |>) x).
Proof.
  intros Hcm Ho. apply mrun_exact. intros e. unfold end_op. erewrite bind_Ret by (by eapply acquire_st).
  erewrite bind_Ret by apply set_log_locked. erewrite bind_Ret by apply get_log_locked. cbn -[locked].
  rewrite Hcm. cbn [Z.eqb negb].
  destruct (Z.eqb_spec (Z.pred (lg_outstanding (logs (ff x)))) 0); [lia|].
  rewrite bind_bind. erewrite bind_Ret by (by eapply wakeup_locked). prim.
  erewrite bind_Ret by (by eapply release_st). done.
Qed.

(** The last operation commits. *)
Definition committing (l : logst) : logst := l <| lg_outstanding := 0 |> <| lg_committing := 1 |>.

Definition closed (l : logst) : logst := l <| lg_outstanding := 0 |> <| lg_committing := 0 |>.

Lemma end_op_last x x' :
  lg_committing (logs (ff x)) = 0 -> lg_outstanding (logs (ff x)) = 1 ->
  run commit (on_log committing x) tt x' ->
  run end_op x tt (on_log (fun l => l <| lg_committing := 0 |>) x').
Proof.
  intros Hcm Ho Hrun.
  eapply (mrun_step _ _ (commit ;; (acquire L_log ;; set_log (fun l => l <| lg_committing := 0 |>) ;;
    wakeup Ch_log ;; release L_log)) _ (on_log committing x)).
  - intros e. unfold end_op. erewrite bind_Ret by (by eapply acquire_st).
    erewrite bind_Ret by apply set_log_locked. erewrite bind_Ret by apply get_log_locked.
    cbn -[locked committing]. rewrite Hcm, Ho. change (Z.pred 1 =? 0) with true. cbn [Z.eqb negb].
    rewrite bind_bind. erewrite bind_Ret by apply set_log_locked. prim.
    erewrite bind_Ret by (by eapply release_st). cbn [when]. f_equal. unfold at_fs, upd. cbn. unfold upd. cbn. by rewrite Ho.
  - eapply mrun_bind; [exact Hrun|]. apply mrun_exact. intros e.
    erewrite bind_Ret by (by eapply acquire_st). erewrite bind_Ret by apply set_log_locked.
    erewrite bind_Ret by (by eapply wakeup_locked). by eapply release_st.
Qed.

Definition idle_log (x : fsys) : Prop := lg_outstanding (logs (ff x)) = 0 /\ lg_committing (logs (ff x)) = 0.

Lemma end_op_run x V hs :
  geometry -> txn hs -> log_at x start sz hs -> cached x V (list_to_set hs) ∅ ∅ ->
  lg_outstanding (logs (ff x)) = 1 -> lg_committing (logs (ff x)) = 0 ->
  exists x', run end_op x tt x' /\ cached x' (wview (end_writes V hs) V) ∅ ∅ ∅ /\ log_at x' start sz [] /\
    idle_log x' /\ lframe x x' /\ fd x' = wrote (end_writes V hs) (fd x).
Proof.
  intros Hg Ht Hl Hc Ho Hcm.
  assert (log_at (on_log committing x) start sz hs) as Hl1 by (destruct Hl; by split).
  assert (cached (on_log committing x) V (list_to_set hs) ∅ ∅) as Hc1 by (by apply cache_logs).
  destruct hs as [|h hs].
  - exists (on_log (fun l => l <| lg_committing := 0 |>) (on_log committing x)). split_and!.
    + apply end_op_last; [done..|]. unfold commit. eapply mrun_bind; [apply mrun_get_log|].
      rewrite (lo_n _ _ _ _ Hl1). apply mrun_ret.
    + by apply cache_logs.
    + destruct Hl. by split.
    + done.
    + etransitivity; apply logs_lframe.
    + cbn. by rewrite wrote_nil.
  - destruct (commit_run _ V (h :: hs) Hg Ht ltac:(done) Hl1 Hc1) as (x' & R & C & F & E).
    exists (on_log (fun l => l <| lg_committing := 0 |>) x'). split_and!.
    + by apply end_op_last.
    + by apply cache_logs.
    + pose proof (log_at_frame _ _ _ _ _ F (log_at_none _ _ Hl1)) as []. by split.
    + unfold idle_log. cbn. rewrite (bf_ff _ _ F). done.
    + etransitivity; [|apply logs_lframe]. etransitivity; [|by apply bframe_lframe].
      etransitivity; apply logs_lframe.
    + change (fd (on_log _ x')) with (fd x'). rewrite E. done.
Qed.

(** ** Writing blocks in a transaction *)

Definition log_one (k : Z) (d : list Z) : M unit :=
  i ← bread 1 k ;
  setb i (fun b => b <| b_data := d |>) ;;
  log_write i ;;
  brelse i.

Definition write_one (k : Z) (d : list Z) : M unit := begin_op ;; log_one k d.

(** A block that the transaction has not written yet. *)
Lemma log_one_run x V hs k d :
  geometry -> txn hs -> home k -> k ∉ hs -> Z.of_nat (length hs) + 1 < sz ->
  log_at x start sz hs -> 1 <= lg_outstanding (logs (ff x)) -> cached x V (list_to_set hs) ∅ ∅ ->
  length d = Z.to_nat BSIZE ->
  exists x', run (log_one k d) x tt x' /\ cached x' (vset V k d) (list_to_set (hs ++ [k])) ∅ ∅ /\
    log_at x' start sz (hs ++ [k]) /\ lg_outstanding (logs (ff x')) = lg_outstanding (logs (ff x)) /\
    lg_committing (logs (ff x')) = lg_committing (logs (ff x)) /\ fd x' = fd x.
Proof.
  intros Hg Ht Hk Hni Hlen L O C Hd.
  destruct (bread_run p pr s0 Hcalm k x V (list_to_set hs) ∅ ∅ C (proj1 Hk)) as (i & x2 & R2 & _ & C2 & F2 & E2).
  { by intros j; rewrite lookup_empty. }
  { right. rewrite size_list_to_set, map_size_empty by apply Ht. change bhead with (Z.to_nat LOGSIZE).
    unfold geometry in Hg. lia. }
  rewrite insert_empty in C2.
  destruct (set_data_run p pr s0 Hcalm x2 V _ ∅ _ i k (fun _ => d) C2) as (x3 & R3 & C3 & F3 & E3);
    [apply lookup_singleton_eq|done|].
  pose proof (transitivity F2 F3) as F13.
  assert (logs (ff x3) = logs (ff x)) as O3 by (by rewrite (bf_ff _ _ F13)).
  destruct (log_write_run x3 (vset V k d) (∅ ∪ {[k]}) {[i := k]} i k hs Hg Ht Hk)
    as (x4 & R4 & C4 & L4 & F4 & E4); [by eapply log_at_frame|by rewrite O3|done|done|apply lookup_singleton_eq|].
  destruct (brelse_run p pr s0 Hcalm x4 _ _ _ _ i k C4) as (x5 & R5 & C5 & F5 & E5);
    [apply lookup_singleton_eq|set_solver|].
  assert (absorb k hs = hs ++ [k]) as Eab by (unfold absorb; by rewrite decide_False).
  assert (logs (ff x5) = log_entered k hs (logs (ff x))) as O5.
  { rewrite (bf_ff _ _ F5). cbn. rewrite (bf_ff _ _ F4). cbn. by rewrite O3. }
  exists x5. rewrite <-Eab. split_and!.
  - unfold log_one. eapply mrun_bind; [exact R2|]. eapply mrun_bind; [exact R3|].
    eapply mrun_bind; [exact R4|exact R5].
  - rewrite delete_singleton_eq in C5.
    by replace ((∅ ∪ {[k]}) ∖ {[k]}) with (∅ : gset Z) in C5 by set_solver.
  - by apply (log_at_frame _ _ _ _ _ F5).
  - rewrite O5. unfold log_entered. by rewrite decide_False.
  - rewrite O5. unfold log_entered. by rewrite decide_False.
  - by rewrite E5, E4, E3, E2.
Qed.

Lemma txn_nil : geometry -> txn [].
Proof. intros Hg. split_and!; [apply NoDup_nil_2|set_solver|unfold geometry in Hg; cbn; lia]. Qed.

Lemma write_one_run x V k d :
  geometry -> 2 < sz -> home k -> log_at x start sz [] -> idle_log x -> cached x V ∅ ∅ ∅ ->
  length d = Z.to_nat BSIZE ->
  exists x', run (write_one k d) x tt x' /\ cached x' (vset V k d) {[k]} ∅ ∅ /\ log_at x' start sz [k] /\
    lg_outstanding (logs (ff x')) = 1 /\ lg_committing (logs (ff x')) = 0 /\ fd x' = fd x.
Proof.
  intros Hg Hsz Hk L [I1 I2] C Hd.
  pose proof (begin_op_run x I2 ltac:(rewrite (lo_n _ _ _ _ L), I1; done)) as R1.
  destruct (log_one_run (on_log (fun l => l <| lg_outstanding ::= Z.succ |>) x) V [] k d Hg (txn_nil Hg) Hk) as (x2 & R2 & C2 & L2 & O1 & O2 & E);
    [set_solver|cbn; lia|destruct L; by split|cbn; lia|by apply cache_logs|done|].
  cbn in C2. rewrite union_empty_r_L in C2.
  exists x2. split_and!; try done; [by eapply mrun_bind|rewrite O1; cbn; by rewrite I1|by rewrite O2].
Qed.

(** Several blocks, one after the other. *)
Fixpoint log_all (d : Z -> list Z) (ks : list Z) : M unit :=
  match ks with
  | [] => ret tt
  | k :: ks => log_one k (d k) ;; log_all d ks
  end.

Definition vsets (V : Z -> list Z) (d : Z -> list Z) (ks : list Z) : Z -> list Z :=
  foldl (fun V k => vset V k (d k)) V ks.

Lemma log_all_run d ks x V hs :
  geometry -> txn (hs ++ ks) -> (forall k, length (d k) = Z.to_nat BSIZE) -> log_at x start sz hs ->
  1 <= lg_outstanding (logs (ff x)) -> cached x V (list_to_set hs) ∅ ∅ ->
  exists x', run (log_all d ks) x tt x' /\ cached x' (vsets V d ks) (list_to_set (hs ++ ks)) ∅ ∅ /\
    log_at x' start sz (hs ++ ks) /\ lg_outstanding (logs (ff x')) = lg_outstanding (logs (ff x)) /\ fd x' = fd x.
Proof.
  intros Hg Ht Hd. revert x V hs Ht. induction ks as [|k ks IH]; intros x V hs Ht L O C; cbn [log_all].
  - exists x. rewrite app_nil_r. split_and!; try done. apply mrun_ret.
  - destruct Ht as ((H1 & H2 & H3)%NoDup_app & H4 & H5). rewrite length_app in H5. cbn in H5.
    destruct (log_one_run x V hs k (d k) Hg) as (x1 & R1 & C1 & L1 & O1 & _ & E1);
      [split_and!; [done|set_solver|lia]|apply H4; set_solver|set_solver|lia|done..|].
    assert (hs ++ k :: ks = (hs ++ [k]) ++ ks) as Eks by (by rewrite <-app_assoc). rewrite Eks in *.
    destruct (IH x1 (vset V k (d k)) (hs ++ [k])) as (x2 & R2 & C2 & L2 & O2 & E2); try done.
    + split_and!; [|done|rewrite !length_app; cbn; lia]. rewrite <-app_assoc. apply NoDup_app. done.
    + by rewrite O1.
    + exists x2. split_and!; try done; [by eapply mrun_bind|by rewrite O2, O1|by rewrite E2, E1].
Qed.

(** A full log: log_write panics before it looks at the buffer. *)
Lemma log_write_full x hs i e :
  log_at x start sz hs -> sz <= Z.of_nat (length hs) + 1 ->
  log_write i e (st x) = Panic "too big a transaction" (st x).
Proof.
  intros L Hn. unfold log_write. erewrite bind_Ret by reflexivity. cbn -[LOGSIZE].
  rewrite (lo_n _ _ _ _ L), (lo_size _ _ _ _ L).
  by rewrite (proj2 (Z.leb_le (sz - 1) (Z.of_nat (length hs)))), orb_true_r by lia.
Qed.

(** ** A reboot *)

Lemma reboot_run y V hs :
  geometry -> home 1 -> txn hs -> blank (bufs (ff y)) -> log_boot y -> up (fd y) ->
  (forall k, read_disk (fd y) 1 k = V k) -> (forall k, 0 <= k < nblk -> length (V k) = Z.to_nat BSIZE) ->
  sb_places (V 1) -> head_of (V start) hs ->
  exists y', run (binit ;; initlog 1) y tt y' /\ log_at y' start sz [] /\
    forall k, home k -> read_disk (fd y') 1 k = wview (home_writes V hs) V k.
Proof.
  intros Hg H1 Ht Hb Hlb Hup Hv Hsz Hs Hh.
  destruct (binit_run p pr s0 Hcalm y Hb Hup) as (y1 & R1 & C1 & F1 & E1).
  { intros k Hk. rewrite Hv. by apply Hsz. }
  destruct (initlog_run y1 V hs Hg Ht) as (y2 & R2 & C2 & L2 & F2 & E2); try done.
  { unfold log_boot. by rewrite (bf_ff _ _ F1). }
  { by eapply cache_ext; [|exact C1]. }
  { destruct H1. lia. }
  exists y2. split_and!; [by eapply mrun_bind|done|].
  intros k Hk. pose proof (ca_disk _ _ _ _ _ _ _ _ C2 k (proj1 Hk)) as ->; [|set_solver..].
  rewrite wview_app. cbn. apply vset_ne. apply (home_off_start Hg k Hk).
Qed.

(** The machine stops after some of the writes of the last end_op, and is started again. *)
Lemma crash_run pid x V hs ws1 ws2 y :
  geometry -> home 1 -> txn hs -> cache pid nblk up x V (list_to_set hs) ∅ ∅ -> head_of (V start) [] ->
  sb_places (V 1) -> read_disk (fd x) 1 1 = V 1 -> end_writes V hs = ws1 ++ ws2 ->
  blank (bufs (ff y)) -> log_boot y -> fd y = wrote ws1 (fd x) ->
  exists y', run (binit ;; initlog 1) y tt y' /\ log_at y' start sz [] /\
    ((forall k, home k -> read_disk (fd y') 1 k = read_disk (fd x) 1 k) \/
     (forall k, home k -> read_disk (fd y') 1 k = V k)).
Proof.
  intros Hg H1 Ht Hc Hh Hsb Hsame Hws Hb Hlb Hy. set (old := read_disk (fd x) 1).
  assert (forall k, 0 <= k < nblk -> k ∉ hs -> old k = V k) as Hold.
  { intros k Hk Hni. eapply ca_disk; [done|done|by rewrite elem_of_list_to_set|set_solver]. }
  destruct (decide (hs = [])) as [->|Hne].
  { symmetry in Hws. apply app_eq_nil in Hws as [-> ->].
    assert (0 <= start < nblk) as Hs by (unfold LogLayout.geometry in Hg; lia).
    destruct (reboot_run y old []) as (y' & R & L & Hr); try done.
    + rewrite Hy. apply up_wrote; [set_solver|apply Hc].
    + intros k. rewrite Hy. apply read_wrote. set_solver.
    + apply Hc.
    + unfold old. by rewrite Hsame.
    + rewrite Hold; [done|done|set_solver].
    + exists y'. split_and!; [done..|]. left. exact Hr. }
  assert (end_writes V hs = commit_writes V hs) as E by (by destruct hs). rewrite E in Hws.
  assert (forall w, w ∈ ws1 -> w ∈ commit_writes V hs) as Hin by (rewrite Hws; set_solver).
  destruct (crash_view old V hs Hg Ht Hold (ca_size _ _ _ _ _ _ _ _ Hc) ws1 ws2 Hh Hws) as (hs' & Ht' & Hh' & Hor).
  destruct (reboot_run y (wview ws1 old) hs') as (y2 & R2 & L2 & Hr); try done.
  + rewrite Hy. apply up_wrote; [|apply Hc]. intros w Hw. by eapply commit_writes_drive, Hin.
  + intros k. rewrite Hy. apply read_wrote. intros w Hw. by eapply commit_writes_drive, Hin.
  + intros k Hk. apply wview_length; [|by apply (ca_blocks _ _ _ _ _ _ _ _ Hc)].
    intros w Hw%Hin. eapply commit_writes_length; [exact Hg|exact Ht|apply (ca_size _ _ _ _ _ _ _ _ Hc)|done].
  + by rewrite (commit_writes_same V hs ws1 old 1 Hg Ht H1 Hsame Hin).
  + exists y2. split_and!; [done..|].
    destruct Hor as [Hor|Hor]; [left|right]; intros k Hk; rewrite Hr by done; by apply Hor.
Qed.

End ops.


