(* ===== verification/Inode.v ===== *)
(** * Blocks and inodes: the lower half of fs.c

    The free-block bitmap, the inodes on disk, and the cache of inodes in memory with its
    reference counts and locks. *)

From stdpp Require Import base list gmap strings fin_maps.
From S2P Require Import Prelude State Monad Spinlock Console Kalloc Str Vm Sched Sleeplock Disk Bio Log.
Open Scope Z_scope.

(** ** fs.h *)

Definition BPB : Z := BSIZE * 8.
Definition dinode_size : Z := 64.
Definition IPB : Z := BSIZE / dinode_size.
Definition IBLOCK (i : Z) (sb : superblock) : Z := u32 (i / IPB + sb_inodestart sb).
Definition BBLOCK (b : Z) (sb : superblock) : Z := u32 (b / BPB + sb_bmapstart sb).

Definition T_DIR : Z := 1.
Definition T_FILE : Z := 2.
Definition T_DEV : Z := 3.

(** Offset of the inode [inum] in its block, and of the fields of struct dinode. *)
Definition dip_off (inum : Z) : Z := inum mod IPB * dinode_size.

Definition get_dtype (d : list Z) (o : Z) : Z := s16 (rd16 d o).

(** The cached copy of the dinode at offset [o]. *)
Definition load_dinode (d : list Z) (o : Z) (ip : inode) : inode :=
  ip <| i_type := s16 (rd16 d o) |>
     <| i_major := s16 (rd16 d (o + 2)) |>
     <| i_minor := s16 (rd16 d (o + 4)) |>
     <| i_nlink := s16 (rd16 d (o + 6)) |>
     <| i_size := rd32 d (o + 8) |>
     <| i_addrs := (fun k => rd32 d (o + 12 + 4 * k)) <$> range 0 (NDIRECT + 1) |>.

Fixpoint wr_words (d : list Z) (o : Z) (ws : list Z) : list Z :=
  match ws with
  | [] => d
  | w :: ws => wr_words (wr32 d o w) (o + 4) ws
  end.

Definition store_dinode (d : list Z) (o : Z) (ip : inode) : list Z :=
  let d := wr16 d o (i_type ip) in
  let d := wr16 d (o + 2) (i_major ip) in
  let d := wr16 d (o + 4) (i_minor ip) in
  let d := wr16 d (o + 6) (i_nlink ip) in
  let d := wr32 d (o + 8) (i_size ip) in
  wr_words d (o + 12) (i_addrs ip).

(** memset(dip, 0, sizeof( *dip)); dip->type = type; *)
Definition fresh_dinode (d : list Z) (o type : Z) : list Z :=
  wr16 (wr_bytes d o (replicate (Z.to_nat dinode_size) 0)) o type.

(** ** Access to the caches *)

Definition geti (i : nat) : M inode :=
  l ← gets (fun s => icache (fst_ s)) ;
  match l !! i with Some ip => ret ip | None => undef "icache.inode[i]" end.
Definition seti (i : nat) (f : inode -> inode) : M unit :=
  set_fs (fun x => x <| icache ::= alter f i |>).
Definition get_sb : M superblock := gets (fun s => sb (fst_ s)).

(** A dereference of an inode pointer that may be null. *)
Definition the_inode (ip : option nat) : M nat :=
  match ip with Some i => ret i | None => undef "null inode" end.

Definition set_data (b : nat) (f : list Z -> list Z) : M unit :=
  setb b (fun x => x <| b_data ::= f |>).

(** ** Blocks *)

Section driver.
Context `{BlockDriver}.

Definition bzero (dev bno : Z) : M unit :=
  bp ← bread dev bno ;
  set_data bp (fun _ => zero_block) ;;
  log_write bp ;;
  brelse bp.

(** The inner loop of balloc, over the bits of one bitmap block. *)
Definition balloc_scan (dev b : Z) (bp : nat) (n : Z) : M (option Z) :=
  for_until (range 0 n) (fun bi =>
    let m := Z.shiftl 1 (bi mod 8) in
    x ← getb bp ;
    if Z.land (rd8 (b_data x) (bi / 8)) m =? 0 then
      set_data bp (fun d => <[Z.to_nat (bi / 8) := u8 (Z.lor (rd8 d (bi / 8)) m)]> d) ;;
      log_write bp ;;
      brelse bp ;;
      bzero dev (b + bi) ;;
      ret (Some (b + bi))
    else ret None).

Fixpoint balloc_loop (fuel : nat) (dev b : Z) : M Z :=
  match fuel with
  | O => nofuel
  | S fuel =>
      sb ← get_sb ;
      if b <? sb_size sb then
        bp ← bread dev (BBLOCK b sb) ;
        r ← balloc_scan dev b bp (Z.min BPB (sb_size sb - b)) ;
        match r with
        | Some v => ret v
        | None =>
            brelse bp ;;
            if 2 ^ 31 <=? b + BPB then undef "b += BPB" else balloc_loop fuel dev (b + BPB)
        end
      else panic "balloc: out of blocks"
  end.

(** One turn per bitmap block, and the last test. *)
Definition balloc (dev : Z) : M Z :=
  sb ← get_sb ;
  balloc_loop (S (Z.to_nat (sb_size sb / BPB + 1))) dev 0.

Definition bfree (dev b : Z) : M unit :=
  sb ← readsb dev ;
  set_fs (fun x => x <| State.sb := sb |>) ;;
  bp ← bread dev (BBLOCK b sb) ;
  let bi := b mod BPB in
  let m := Z.shiftl 1 (bi mod 8) in
  x ← getb bp ;
  if Z.land (rd8 (b_data x) (bi / 8)) m =? 0 then panic "freeing free block" else
  set_data bp (fun d => <[Z.to_nat (bi / 8) := u8 (Z.land (rd8 d (bi / 8)) (Z.lnot m))]> d) ;;
  log_write bp ;;
  brelse bp.

(** ** Inodes *)

Definition iinit (dev : Z) : M unit :=
  initlock L_icache ;;
  for_each (seq 0 (Z.to_nat NINODE)) (fun i => initsleeplock (SL_inode i)) ;;
  sb ← readsb dev ;
  set_fs (fun x => x <| State.sb := sb |>) ;;
  cprintf "sb: size %d nblocks %d ninodes %d nlog %d logstart %d inodestart %d bmap start %d
" [AInt (sb_size sb); AInt (sb_nblocks sb); AInt (sb_ninodes sb); AInt (sb_nlog sb);
   AInt (sb_logstart sb); AInt (sb_inodestart sb); AInt (sb_bmapstart sb)].

(** The cached inode, or the first entry that is not in use. *)
Definition iget (dev inum : Z) : M nat :=
  acquire L_icache ;;
  l ← gets (fun s => icache (fst_ s)) ;
  match findi (fun ip => (0 <? i_ref ip) && (i_dev ip =? dev) && (i_inum ip =? inum)) l with
  | Some i =>
      seti i (fun ip => ip <| i_ref ::= Z.succ |>) ;;
      release L_icache ;;
      ret i
  | None =>
      match findi (fun ip => i_ref ip =? 0) l with
      | None => panic "iget: no inodes"
      | Some i =>
          seti i (fun ip => ip <| i_dev := dev |>) ;;
          seti i (fun ip => ip <| i_inum := inum |>) ;;
          seti i (fun ip => ip <| i_ref := 1 |>) ;;
          seti i (fun ip => ip <| i_valid := 0 |>) ;;
          release L_icache ;;
          ret i
      end
  end.

Definition ialloc (dev type : Z) : M nat :=
  sb ← get_sb ;
  r ← for_until (range 1 (sb_ninodes sb)) (fun inum =>
        bp ← bread dev (IBLOCK inum sb) ;
        x ← getb bp ;
        if get_dtype (b_data x) (dip_off inum) =? 0 then
          set_data bp (fun d => fresh_dinode d (dip_off inum) type) ;;
          log_write bp ;;
          brelse bp ;;
          i ← iget dev inum ;
          ret (Some i)
        else brelse bp ;; ret None) ;
  match r with
  | Some i => ret i
  | None => panic "ialloc: no inodes"
  end.

Definition iupdate (i : nat) : M unit :=
  ip ← geti i ;
  sb ← get_sb ;
  bp ← bread (i_dev ip) (IBLOCK (i_inum ip) sb) ;
  ip ← geti i ;
  set_data bp (fun d => store_dinode d (dip_off (i_inum ip)) ip) ;;
  log_write bp ;;
  brelse bp.

Definition idup (i : nat) : M nat :=
  acquire L_icache ;;
  geti i ;;
  seti i (fun ip => ip <| i_ref ::= Z.succ |>) ;;
  release L_icache ;;
  ret i.

Definition ilock (i : nat) : M unit :=
  ip ← geti i ;
  if i_ref ip <? 1 then panic "ilock" else
  acquiresleep (SL_inode i) ;;
  ip ← geti i ;
  when (i_valid ip =? 0)
    (sb ← get_sb ;
     bp ← bread (i_dev ip) (IBLOCK (i_inum ip) sb) ;
     x ← getb bp ;
     seti i (load_dinode (b_data x) (dip_off (i_inum ip))) ;;
     brelse bp ;;
     seti i (fun ip => ip <| i_valid := 1 |>) ;;
     ip ← geti i ;
     if i_type ip =? 0 then panic "ilock: no type" else ret tt).

Definition iunlock (i : nat) : M unit :=
  h ← holdingsleep (SL_inode i) ;
  if negb h then panic "iunlock" else
  ip ← geti i ;
  if i_ref ip <? 1 then panic "iunlock" else
  releasesleep (SL_inode i).

(** ** Content *)

(** ip->addrs[k] *)
Definition get_addr (i : nat) (k : Z) : M Z :=
  ip ← geti i ;
  index "ip->addrs[k]" (i_addrs ip) k.
Definition set_addr (i : nat) (k v : Z) : M unit :=
  seti i (fun ip => ip <| i_addrs ::= <[Z.to_nat k := v]> |>).

Definition bmap (i : nat) (bn : Z) : M Z :=
  ip ← geti i ;
  if bn <? NDIRECT then
    addr ← get_addr i bn ;
    if addr =? 0 then
      addr ← balloc (i_dev ip) ;
      set_addr i bn addr ;;
      ret addr
    else ret addr
  else
    let bn := bn - NDIRECT in
    if bn <? NINDIRECT then
      addr ← get_addr i NDIRECT ;
      addr ← (if addr =? 0 then
                addr ← balloc (i_dev ip) ;
                set_addr i NDIRECT addr ;;
                ret addr
              else ret addr) ;
      bp ← bread (i_dev ip) addr ;
      x ← getb bp ;
      let addr := rd32 (b_data x) (4 * bn) in
      addr ← (if addr =? 0 then
                addr ← balloc (i_dev ip) ;
                set_data bp (fun d => wr32 d (4 * bn) addr) ;;
                log_write bp ;;
                ret addr
              else ret addr) ;
      brelse bp ;;
      ret addr
    else panic "bmap: out of range".

Definition itrunc (i : nat) : M unit :=
  for_each (range 0 NDIRECT) (fun k =>
    ip ← geti i ;
    addr ← get_addr i k ;
    when (negb (addr =? 0))
      (bfree (i_dev ip) addr ;;
       set_addr i k 0)) ;;
  ip ← geti i ;
  addr ← get_addr i NDIRECT ;
  when (negb (addr =? 0))
    (bp ← bread (i_dev ip) addr ;
     for_each (range 0 NINDIRECT) (fun j =>
       x ← getb bp ;
       let a := rd32 (b_data x) (4 * j) in
       when (negb (a =? 0)) (bfree (i_dev ip) a)) ;;
     brelse bp ;;
     bfree (i_dev ip) addr ;;
     set_addr i NDIRECT 0) ;;
  seti i (fun ip => ip <| i_size := 0 |>) ;;
  iupdate i.

Definition iput (i : nat) : M unit :=
  acquiresleep (SL_inode i) ;;
  ip ← geti i ;
  when (negb (i_valid ip =? 0) && (i_nlink ip =? 0))
    (acquire L_icache ;;
     ip ← geti i ;
     let r := i_ref ip in
     release L_icache ;;
     when (r =? 1)
       (itrunc i ;;
        seti i (fun ip => ip <| i_type := 0 |>) ;;
        iupdate i ;;
        seti i (fun ip => ip <| i_valid := 0 |>))) ;;
  releasesleep (SL_inode i) ;;
  acquire L_icache ;;
  seti i (fun ip => ip <| i_ref ::= Z.pred |>) ;;
  release L_icache.

Definition iunlockput (i : nat) : M unit :=
  iunlock i ;;
  iput i.

(** struct stat of an inode. *)
Record stat := mkStat { st_type : Z; st_dev : Z; st_ino : Z; st_nlink : Z; st_size : Z }.
Definition stati (i : nat) : M stat :=
  ip ← geti i ;
  ret (mkStat (i_type ip) (s32 (i_dev ip)) (i_inum ip) (i_nlink ip) (i_size ip)).

End driver.
