(* ===== verification/BlockProofs.v ===== *)
(** * Blocks: the free-block bitmap

    Within a file-system operation, [in_op x V hs L] says that the disk has the contents [V], of
    which the blocks [hs] are logged and the buffers [L] are in use.  The bitmap represents a set
    of allocated blocks; balloc adds a block to it, zeroed, and bfree removes one. *)

From stdpp Require Import base list gmap strings fin_maps.
From S2P Require Import Prelude State Monad Spinlock Console Kalloc Str Vm Sched Sleeplock Calm Disk Bio.
From S2P Require Import BioProofs Log LogLayout LogProofs Inode.
Open Scope Z_scope.

(** ** Loops that stop at a hit *)

Lemma mrun_until_hit {B R} s0 (f : B -> M (option R)) l1 b l2 x r x' :
  (forall a, a ∈ l1 -> mrun s0 (f a) x None x) -> mrun s0 (f b) x (Some r) x' ->
  mrun s0 (for_until (l1 ++ b :: l2) f) x (Some r) x'.
Proof.
  intros H1 Hb. induction l1 as [|a l1 IH]; cbn.
  - eapply mrun_bind; [exact Hb|apply mrun_ret].
  - eapply mrun_bind; [apply H1; by left|]. apply IH. intros c Hc. apply H1. by right.
Qed.
Lemma mrun_until_none {B R} s0 (f : B -> M (option R)) l x :
  (forall a, a ∈ l -> mrun s0 (f a) x None x) -> mrun s0 (for_until l f) x None x.
Proof.
  intros H1. induction l as [|a l IH]; cbn; [apply mrun_ret|].
  eapply mrun_bind; [apply H1; by left|]. apply IH. intros c Hc. apply H1. by right.
Qed.

Lemma find_split {A} (f : A -> bool) l :
  match find f l with
  | Some b => exists l1 l2, l = l1 ++ b :: l2 /\ f b = true /\ forall a, a ∈ l1 -> f a = false
  | None => forall a, a ∈ l -> f a = false
  end.
Proof.
  induction l as [|a l IH]; cbn; [set_solver|]. destruct (f a) eqn:Ea.
  - exists [], l. split_and!; [done|done|set_solver].
  - destruct (find f l) as [b|].
    + destruct IH as (l1 & l2 & -> & Hb & Hl). exists (a :: l1), l2. split_and!; [done|done|].
      intros c [->|Hc]%elem_of_cons; [done|by apply Hl].
    + intros c [->|Hc]%elem_of_cons; [done|by apply IH].
Qed.

(** ** The bitmap *)

(** Block [b] is marked in use. *)
Definition bit (V : Z -> list Z) (sb : superblock) (b : Z) : bool :=
  Z.testbit (rd8 (V (BBLOCK b sb)) (b mod BPB / 8)) (b mod 8).

Lemma land_bit a n : 0 <= n -> (Z.land a (Z.shiftl 1 n) =? 0) = negb (Z.testbit a n).
Proof.
  intros Hn. rewrite Z.shiftl_1_l. destruct (Z.testbit a n) eqn:Ht; cbn.
  - apply Z.eqb_neq. intros E. assert (Z.testbit (Z.land a (2 ^ n)) n = false) as Hf by (rewrite E; apply Z.bits_0).
    rewrite Z.land_spec, Ht, Z.pow2_bits_true in Hf by done. done.
  - apply Z.eqb_eq, Z.bits_inj'. intros m Hm. rewrite Z.land_spec, Z.bits_0.
    destruct (decide (m = n)) as [->|Hne]; [by rewrite Ht|]. rewrite Z.pow2_bits_false by lia. apply andb_false_r.
Qed.
Lemma u8_testbit a n : 0 <= n < 8 -> Z.testbit (u8 a) n = Z.testbit a n.
Proof. intros Hn. unfold u8. apply Z.mod_pow2_bits_low. lia. Qed.

Definition set_bit (bi : Z) (d : list Z) : list Z :=
  <[Z.to_nat (bi / 8) := u8 (Z.lor (rd8 d (bi / 8)) (Z.shiftl 1 (bi mod 8)))]> d.
Definition clear_bit (bi : Z) (d : list Z) : list Z :=
  <[Z.to_nat (bi / 8) := u8 (Z.land (rd8 d (bi / 8)) (Z.lnot (Z.shiftl 1 (bi mod 8))))]> d.

Lemma set_bit_length bi d : length (set_bit bi d) = length d.
Proof. apply length_insert. Qed.
Lemma clear_bit_length bi d : length (clear_bit bi d) = length d.
Proof. apply length_insert. Qed.

Lemma testbit_set a n m : 0 <= n < 8 -> 0 <= m < 8 ->
  Z.testbit (u8 (Z.lor a (Z.shiftl 1 n))) m = (n =? m) || Z.testbit a m.
Proof.
  intros Hn Hm. rewrite u8_testbit, Z.lor_spec, Z.shiftl_1_l by done. rewrite orb_comm. f_equal.
  destruct (Z.eqb_spec n m) as [->|Hne]; [by rewrite Z.pow2_bits_true by lia|by rewrite Z.pow2_bits_false by lia].
Qed.
Lemma testbit_clear a n m : 0 <= n < 8 -> 0 <= m < 8 ->
  Z.testbit (u8 (Z.land a (Z.lnot (Z.shiftl 1 n)))) m = negb (n =? m) && Z.testbit a m.
Proof.
  intros Hn Hm. rewrite u8_testbit, Z.land_spec, Z.lnot_spec, Z.shiftl_1_l by lia. rewrite andb_comm. do 2 f_equal.
  destruct (Z.eqb_spec n m) as [->|Hne]; [by rewrite Z.pow2_bits_true by lia|by rewrite Z.pow2_bits_false by lia].
Qed.

(** Reading bit [bj] of a bitmap block after bit [bi] has been set or cleared. *)
Definition bit_of (d : list Z) (bi : Z) : bool := Z.testbit (rd8 d (bi / 8)) (bi mod 8).
Lemma bit_of_insert d bi v bj :
  0 <= bi < BPB -> 0 <= bj < BPB -> length d = Z.to_nat BSIZE ->
  bit_of (<[Z.to_nat (bi / 8) := v]> d) bj =
    if decide (bj / 8 = bi / 8) then Z.testbit v (bj mod 8) else bit_of d bj.
Proof.
  unfold BPB, bit_of. change BSIZE with 512. intros Hi Hj Hd. 
  assert (0 <= bi / 8 < 512) by (split; [apply Z.div_pos; lia|apply Z.div_lt_upper_bound; lia]).
  rewrite rd8_insert by (rewrite Hd; lia). by destruct (decide _).
Qed.
Lemma bit_of_set d bi bj :
  0 <= bi < BPB -> 0 <= bj < BPB -> length d = Z.to_nat BSIZE -> bit_of (set_bit bi d) bj = (bi =? bj) || bit_of d bj.
Proof.
  intros Hi Hj Hd. unfold set_bit. rewrite bit_of_insert by done. unfold bit_of.
  destruct (decide (bj / 8 = bi / 8)) as [E|E].
  - rewrite testbit_set, E by (apply Z.mod_pos_bound; lia). f_equal.
    destruct (Z.eqb_spec bi bj), (Z.eqb_spec (bi mod 8) (bj mod 8)); try done; subst; [done|].
    pose proof (Z.div_mod bi 8). pose proof (Z.div_mod bj 8). lia.
  - destruct (Z.eqb_spec bi bj) as [->|]; [done|]. done.
Qed.
Lemma bit_of_clear d bi bj :
  0 <= bi < BPB -> 0 <= bj < BPB -> length d = Z.to_nat BSIZE ->
  bit_of (clear_bit bi d) bj = negb (bi =? bj) && bit_of d bj.
Proof.
  intros Hi Hj Hd. unfold clear_bit. rewrite bit_of_insert by done. unfold bit_of.
  destruct (decide (bj / 8 = bi / 8)) as [E|E].
  - rewrite testbit_clear, E by (apply Z.mod_pos_bound; lia). do 2 f_equal.
    destruct (Z.eqb_spec bi bj), (Z.eqb_spec (bi mod 8) (bj mod 8)); try done; subst; [done|].
    pose proof (Z.div_mod bi 8). pose proof (Z.div_mod bj 8). lia.
  - destruct (Z.eqb_spec bi bj) as [->|]; [done|]. done.
Qed.

Section ops.
Context {dv : BlockDriver} {nblk : Z} {up : diskst -> Prop} {Hdrv : DriverOk dv nblk up}.
Context (p : nat) (pr : proc) (s0 : kstate) (Hcalm : calm p pr s0).
Context (start sz : Z) (Hg : geometry nblk start sz).
Notation st := (at_fs s0).
Notation run := (mrun s0).
Notation cached := (cache (p_pid pr) nblk up).
Notation home := (home nblk start sz).
Notation txn := (txn nblk start sz).

(** ** Inside an operation *)

Record in_op (x : fsys) (V : Z -> list Z) (hs : list Z) (L : gmap nat Z) : Prop := {
  op_txn : txn hs;
  op_log : log_at x start sz hs;
  op_out : 1 <= lg_outstanding (logs (ff x));
  op_cache : cached x V (list_to_set hs) ∅ L
}.

(** [n] more blocks fit into the log. *)
Definition room (n : nat) (hs : list Z) : Prop := Z.of_nat (length hs + n) < sz.

Lemma absorb_length k hs : (length hs <= length (absorb k hs) <= S (length hs))%nat.
Proof. unfold absorb. destruct (decide _); [lia|]. rewrite length_app. cbn. lia. Qed.
Lemma room_absorb n k hs : room (S n) hs -> room n (absorb k hs).
Proof. unfold room. pose proof (absorb_length k hs). lia. Qed.

Lemma in_op_ext x V V' hs L :
  (forall k, 0 <= k < nblk -> V k = V' k) -> in_op x V hs L -> in_op x V' hs L.
Proof. intros E []. split; try done. by eapply cache_ext. Qed.
Lemma in_op_size x V hs L k : in_op x V hs L -> 0 <= k < nblk -> length (V k) = Z.to_nat BSIZE.
Proof. intros [] Hk. by eapply ca_size. Qed.

(** Only buffers, their locks and the log have changed, and nothing has been written. *)
Record oframe (x x' : fsys) : Prop := {
  of_frame : rframe x x';
  of_fd : fd x' = fd x
}.
#[export] Instance oframe_po : PreOrder oframe.
Proof.
  split; [by split|]. intros x y z [A1 A2] [B1 B2]. split; [by etransitivity|congruence].
Qed.
Lemma bframe_oframe x x' : bframe x x' -> fd x' = fd x -> oframe x x'.
Proof. intros H E. split; [by apply bframe_rframe|done]. Qed.
Lemma oframe_sb x x' : oframe x x' -> sb (ff x') = sb (ff x).
Proof. intros [[[E _] _ _] _]. by rewrite E. Qed.
Lemma oframe_icache x x' : oframe x x' -> icache (ff x') = icache (ff x).
Proof. intros [[[E _] _ _] _]. by rewrite E. Qed.

Lemma op_bread x V hs L k :
  in_op x V hs L -> 0 <= k < nblk -> (forall j, L !! j <> Some k) ->
  k ∈ hs \/ (length hs + size L < bhead)%nat ->
  exists i x', run (bread 1 k) x i x' /\ L !! i = None /\ in_op x' V hs (<[i := k]> L) /\ oframe x x'.
Proof.
  intros [Ht Hl Ho Hc] Hk Hfree Hsz.
  destruct (bread_run p pr s0 Hcalm k x V (list_to_set hs) ∅ L Hc Hk Hfree) as (i & x' & R & Hi & C & F & E).
  { rewrite elem_of_list_to_set, size_list_to_set by apply Ht. done. }
  exists i, x'. split_and!; try done; [|by apply bframe_oframe]. split; try done.
  - by eapply log_at_frame.
  - by rewrite (bf_ff _ _ F).
Qed.
Lemma op_getb x V hs L i k :
  in_op x V hs L -> L !! i = Some k -> exists b, bufs (ff x) !! i = Some b /\ b_data b = V k.
Proof. intros [] Hi. destruct (getb_held pr x V _ _ L i k op_cache0 Hi) as (b & Hb & Ed & _). by exists b. Qed.
Lemma op_brelse x V hs L i k :
  in_op x V hs L -> L !! i = Some k ->
  exists x', run (brelse i) x tt x' /\ in_op x' V hs (delete i L) /\ oframe x x'.
Proof.
  intros [Ht Hl Ho Hc] Hi.
  destruct (brelse_run p pr s0 Hcalm x V _ _ L i k Hc Hi) as (x' & R & C & F & E); [set_solver|].
  exists x'. split_and!; try done; [|by apply bframe_oframe]. split; try done.
  - by eapply log_at_frame.
  - by rewrite (bf_ff _ _ F).
Qed.

(** A change of a block in use, and its log_write. *)
Lemma op_write x V hs L i k g :
  in_op x V hs L -> L !! i = Some k -> home k -> room 1 hs -> length (g (V k)) = Z.to_nat BSIZE ->
  exists x1 x2, run (set_data i g) x tt x1 /\ run (log_write i) x1 tt x2 /\
    in_op x2 (vset V k (g (V k))) (absorb k hs) L /\ oframe x x2.
Proof.
  intros [Ht Hl Ho Hc] Hi Hk Hr Hgz.
  destruct (set_data_run p pr s0 Hcalm x V _ ∅ L i k g Hc Hi Hgz) as (x1 & R1 & C1 & F1 & E1).
  destruct (log_write_run p pr s0 Hcalm start sz x1 (vset V k (g (V k))) (∅ ∪ {[k]}) L i k hs Hg Ht Hk) as (x2 & R2 & C2 & L2 & F2 & E2).
  { by eapply log_at_frame. }
  { by rewrite (bf_ff _ _ F1). }
  { unfold room in Hr. lia. }
  { done. }
  { done. }
  exists x1, x2. split_and!; [done|done| |].
  - split; [by apply txn_absorb; [..|unfold room in Hr; lia]|done| |].
    + rewrite (bf_ff _ _ F2). cbn. unfold log_entered. destruct (decide _); cbn; by rewrite (bf_ff _ _ F1).
    + by replace ((∅ ∪ {[k]}) ∖ {[k]}) with (∅ : gset Z) in C2 by set_solver.
  - split; [|congruence]. etransitivity; [by apply bframe_rframe|].
    etransitivity; [apply (logs_rframe (log_entered k hs))|by apply bframe_rframe].
    intros l. unfold log_entered. by destruct (decide _).
Qed.

(** ** The file system on the disk *)

(** Blocks of the bitmap and of inodes, the boot block and the super block. *)
Definition meta (sb : superblock) (k : Z) : Prop :=
  (exists b, 0 <= b < sb_size sb /\ BBLOCK b sb = k) \/ (exists n, 0 <= n < sb_ninodes sb /\ IBLOCK n sb = k) \/
  k <= 1.

Record fs_geom (sb : superblock) : Prop := {
  fg_size : 0 <= sb_size sb <= nblk;
  fg_start : 1 < sb_bmapstart sb /\ 1 < sb_inodestart sb;
  fg_log : 1 < start;
  fg_bmap : forall b, 0 <= b < sb_size sb -> home (b / BPB + sb_bmapstart sb);
  fg_ino : forall n, 0 <= n < sb_ninodes sb -> home (n / IPB + sb_inodestart sb);
  fg_apart : forall b n, 0 <= b < sb_size sb -> 0 <= n < sb_ninodes sb ->
    b / BPB + sb_bmapstart sb <> n / IPB + sb_inodestart sb
}.
(** Every block that is not a data block is marked. *)
Definition marked (sb : superblock) (V : Z -> list Z) : Prop :=
  forall b, 0 <= b < sb_size sb -> bit V sb b = false -> 1 < b /\ home b /\ ~ meta sb b.

Lemma BBLOCK_eq sb b : fs_geom sb -> 0 <= b < sb_size sb -> BBLOCK b sb = b / BPB + sb_bmapstart sb /\ home (BBLOCK b sb).
Proof.
  intros Hf Hb. pose proof (fg_bmap sb Hf b Hb) as Hh. unfold BBLOCK. rewrite u32_small; [done|].
  destruct Hh as [Hk _]. unfold geometry in Hg. cint.
Qed.
Lemma IBLOCK_eq sb n : fs_geom sb -> 0 <= n < sb_ninodes sb -> IBLOCK n sb = n / IPB + sb_inodestart sb /\ home (IBLOCK n sb).
Proof.
  intros Hf Hb. pose proof (fg_ino sb Hf n Hb) as Hh. unfold IBLOCK. rewrite u32_small; [done|].
  destruct Hh as [Hk _]. unfold geometry in Hg. cint.
Qed.

Lemma bit_split V sb q bi :
  fs_geom sb -> 0 <= q -> 0 <= bi < BPB -> BPB * q + bi < sb_size sb ->
  BBLOCK (BPB * q + bi) sb = BBLOCK (BPB * q) sb /\
  bit V sb (BPB * q + bi) = bit_of (V (BBLOCK (BPB * q) sb)) bi.
Proof.
  intros Hf Hq Hbi Hlt. assert (0 < BPB) as HB by done.
  assert ((BPB * q + bi) / BPB = q) as E1 by (symmetry; apply (Z.div_unique _ _ _ bi); lia).
  assert ((BPB * q + bi) mod BPB = bi) as E2 by (symmetry; apply (Z.mod_unique _ _ q); lia).
  assert (BPB * q / BPB = q) as E3 by (symmetry; apply (Z.div_unique _ _ _ 0); lia).
  assert (BBLOCK (BPB * q + bi) sb = BBLOCK (BPB * q) sb) as E4 by (unfold BBLOCK; by rewrite E1, E3).
  split; [done|]. unfold bit, bit_of. rewrite E4, E2. f_equal.
  change BPB with (8 * 512). replace (8 * 512 * q + bi) with (bi + 512 * q * 8) by lia. apply Z.mod_add. lia.
Qed.

(** The contents after block [b] has been marked. *)
Definition mark (sb : superblock) (V : Z -> list Z) (b : Z) : Z -> list Z :=
  vset V (BBLOCK b sb) (set_bit (b mod BPB) (V (BBLOCK b sb))).
Definition unmark (sb : superblock) (V : Z -> list Z) (b : Z) : Z -> list Z :=
  vset V (BBLOCK b sb) (clear_bit (b mod BPB) (V (BBLOCK b sb))).

Lemma block_pos b sb : 0 <= b < sb_size sb -> 0 <= b mod BPB < BPB /\ b = BPB * (b / BPB) + b mod BPB /\ 0 <= b / BPB.
Proof.
  intros Hb. assert (0 < BPB) as HB by done. split; [apply Z.mod_pos_bound; lia|].
  split; [apply Z.div_mod; lia|apply Z.div_pos; lia].
Qed.
Lemma bit_as_of V sb b : fs_geom sb -> 0 <= b < sb_size sb -> bit V sb b = bit_of (V (BBLOCK b sb)) (b mod BPB).
Proof.
  intros Hf Hb. destruct (block_pos b sb Hb) as (H1 & H2 & H3).
  destruct (bit_split V sb (b / BPB) (b mod BPB) Hf H3 H1) as [E1 E2]; [lia|]. rewrite <-H2 in E1, E2.
  by rewrite E2, E1.
Qed.

Lemma bit_mark V sb b j :
  fs_geom sb -> 0 <= b < sb_size sb -> 0 <= j < sb_size sb -> length (V (BBLOCK b sb)) = Z.to_nat BSIZE ->
  bit (mark sb V b) sb j = (b =? j) || bit V sb j.
Proof.
  intros Hf Hb Hj Hl. rewrite !bit_as_of by done. destruct (block_pos b sb Hb) as (H1 & H2 & _).
  destruct (block_pos j sb Hj) as (H3 & H4 & _). unfold mark, vset. destruct (decide (BBLOCK j sb = BBLOCK b sb)) as [E|E].
  - rewrite bit_of_set, E by done. f_equal. destruct (BBLOCK_eq sb b Hf Hb) as [E1 _], (BBLOCK_eq sb j Hf Hj) as [E2 _].
    destruct (Z.eqb_spec (b mod BPB) (j mod BPB)), (Z.eqb_spec b j); try done; subst; [|done].
    exfalso. assert (b / BPB = j / BPB) by lia. congruence.
  - destruct (Z.eqb_spec b j) as [->|]; [done|done].
Qed.
Lemma bit_unmark V sb b j :
  fs_geom sb -> 0 <= b < sb_size sb -> 0 <= j < sb_size sb -> length (V (BBLOCK b sb)) = Z.to_nat BSIZE ->
  bit (unmark sb V b) sb j = negb (b =? j) && bit V sb j.
Proof.
  intros Hf Hb Hj Hl. rewrite !bit_as_of by done. destruct (block_pos b sb Hb) as (H1 & H2 & _).
  destruct (block_pos j sb Hj) as (H3 & H4 & _). unfold unmark, vset. destruct (decide (BBLOCK j sb = BBLOCK b sb)) as [E|E].
  - rewrite bit_of_clear, E by done. do 2 f_equal. destruct (BBLOCK_eq sb b Hf Hb) as [E1 _], (BBLOCK_eq sb j Hf Hj) as [E2 _].
    destruct (Z.eqb_spec (b mod BPB) (j mod BPB)), (Z.eqb_spec b j); try done; subst; [|done].
    exfalso. assert (b / BPB = j / BPB) by lia. congruence.
  - destruct (Z.eqb_spec b j) as [->|]; [done|done].
Qed.

(** ** bzero and balloc *)

Lemma bzero_run x V hs L k :
  in_op x V hs L -> home k -> (forall j, L !! j <> Some k) -> room 1 hs -> (length hs + size L < bhead)%nat ->
  exists x', run (bzero 1 k) x tt x' /\ in_op x' (vset V k zero_block) (absorb k hs) L /\ oframe x x'.
Proof.
  intros Ho Hk Hf Hr Hs.
  destruct (op_bread x V hs L k Ho (proj1 Hk) Hf) as (i & x1 & R1 & Hi & O1 & F1); [by right|].
  destruct (op_write x1 V hs _ i k (fun _ => zero_block) O1) as (x2 & x3 & R2 & R3 & O3 & F3);
    [apply lookup_insert_eq|done|done|done|].
  destruct (op_brelse x3 _ _ _ i k O3) as (x4 & R4 & O4 & F4); [apply lookup_insert_eq|].
  rewrite delete_insert_id in O4 by done. exists x4. split_and!; [|done|].
  - unfold bzero. eapply mrun_bind; [exact R1|]. eapply mrun_bind; [exact R2|]. eapply mrun_bind; [exact R3|exact R4].
  - etransitivity; [eassumption|]. etransitivity; [exact F3|eassumption].
Qed.

(** The contents after [b] has been allocated. *)
Definition allocated (sb : superblock) (V : Z -> list Z) (b : Z) : Z -> list Z := vset (mark sb V b) b zero_block.
Definition alloc_log (sb : superblock) (b : Z) (hs : list Z) : list Z := absorb b (absorb (BBLOCK b sb) hs).

Lemma size_delete (L : gmap nat Z) i k : L !! i = Some k -> size L = S (size (delete i L)).
Proof.
  intros H. rewrite <-(insert_delete_id L i k H) at 1. apply map_size_insert_None, lookup_delete_eq.
Qed.

(** Blocks in use elsewhere are allocated data blocks. *)
Definition held_marked (sb : superblock) (V : Z -> list Z) (L : gmap nat Z) : Prop :=
  forall j k, L !! j = Some k -> 0 <= k < sb_size sb /\ bit V sb k = true /\ ~ meta sb k.

(** The branch of the scan that has found a free block. *)
Lemma balloc_take x V hs L sb b bp :
  in_op x V hs L -> fs_geom sb -> marked sb V -> 0 <= b < sb_size sb -> bit V sb b = false ->
  L !! bp = Some (BBLOCK b sb) -> held_marked sb V (delete bp L) ->
  room 2 hs -> (length hs + 1 + size L <= bhead)%nat ->
  exists x', run (set_data bp (set_bit (b mod BPB)) ;; log_write bp ;; brelse bp ;; bzero 1 b ;; ret (Some b))
               x (Some b) x' /\
    in_op x' (allocated sb V b) (alloc_log sb b hs) (delete bp L) /\ oframe x x'.
Proof.
  intros Ho Hf Hm Hb Hbit Hbp HL Hr Hs.
  destruct (BBLOCK_eq sb b Hf Hb) as [_ Hhome]. destruct (Hm b Hb Hbit) as (_ & Hbh & Hbm).
  destruct (op_write x V hs L bp (BBLOCK b sb) (set_bit (b mod BPB)) Ho) as (x1 & x2 & R1 & R2 & O2 & F2);
    [done|done|unfold room in *; lia|rewrite set_bit_length; eapply in_op_size; [done|apply Hhome]|].
  destruct (op_brelse x2 _ _ L bp (BBLOCK b sb) O2) as (x3 & R3 & O3 & F3); [done|].
  pose proof (absorb_length (BBLOCK b sb) hs). pose proof (size_delete L bp _ Hbp).
  destruct (bzero_run x3 _ _ _ b O3 Hbh) as (x4 & R4 & O4 & F4).
  { intros j Hj. destruct (HL j b Hj) as (_ & ? & _). congruence. }
  { by apply room_absorb. }
  { lia. }
  exists x4. split_and!; [|done|].
  - eapply mrun_bind; [exact R1|]. eapply mrun_bind; [exact R2|]. eapply mrun_bind; [exact R3|].
    eapply mrun_bind; [exact R4|apply mrun_ret].
  - etransitivity; [exact F2|]. etransitivity; [eassumption|exact F4].
Qed.

Lemma balloc_scan_run x V hs L sb q bp n :
  in_op x V hs L -> fs_geom sb -> marked sb V -> 0 <= q -> n <= BPB -> BPB * q + n <= sb_size sb ->
  L !! bp = Some (BBLOCK (BPB * q) sb) -> held_marked sb V (delete bp L) ->
  room 2 hs -> (length hs + 1 + size L <= bhead)%nat ->
  (exists b x', run (balloc_scan 1 (BPB * q) bp n) x (Some b) x' /\ BPB * q <= b < BPB * q + n /\
    bit V sb b = false /\ in_op x' (allocated sb V b) (alloc_log sb b hs) (delete bp L) /\ oframe x x') \/
  (run (balloc_scan 1 (BPB * q) bp n) x None x /\ forall b, BPB * q <= b < BPB * q + n -> bit V sb b = true).
Proof.
  intros Ho Hf Hm Hq Hn Hlt Hbp HL Hr Hs. assert (0 <= BPB * q) as Hpos by (unfold BPB; change BSIZE with 512; lia).
  destruct (op_getb x V hs L bp _ Ho Hbp) as (x0 & Hx0 & Ed).
  pose proof (find_split (fun bi => negb (bit V sb (BPB * q + bi))) (range 0 n)) as Hfind.
  assert (forall bi, bi ∈ range 0 n -> 0 <= bi < n) as Hin.
  { intros bi Hbi. unfold range in Hbi. apply elem_of_seqZ in Hbi. lia. }
  assert (forall bi, bi ∈ range 0 n -> Z.land (rd8 (b_data x0) (bi / 8)) (Z.shiftl 1 (bi mod 8)) =? 0 =
            negb (bit V sb (BPB * q + bi))) as Htest.
  { intros bi Hbi%Hin. rewrite land_bit by (apply Z.mod_pos_bound; lia). f_equal.
    destruct (bit_split V sb q bi Hf Hq) as [_ ->]; [lia|lia|]. by rewrite Ed. }
  assert (forall a, a ∈ range 0 n -> negb (bit V sb (BPB * q + a)) = false ->
    run (x ← getb bp ;
         if Z.land (rd8 (b_data x) (a / 8)) (Z.shiftl 1 (a mod 8)) =? 0 then
           set_data bp (set_bit a) ;; log_write bp ;; brelse bp ;; bzero 1 (BPB * q + a) ;; ret (Some (BPB * q + a))
         else ret None) x None x) as Hskip.
  { intros a Ha Hbit. eapply mrun_bind; [by apply getb_mrun|]. rewrite Htest, Hbit by done. apply mrun_ret. }
  destruct (find _ (range 0 n)) as [bi|].
  - left. destruct Hfind as (l1 & l2 & El & Hbi & Hl1). apply negb_true_iff in Hbi.
    assert (bi ∈ range 0 n) as Hbin by (rewrite El; set_solver). pose proof (Hin bi Hbin) as Hbn.
    destruct (bit_split V sb q bi Hf Hq) as [EB _]; [lia|lia|].
    assert ((BPB * q + bi) mod BPB = bi) as Ebi by (symmetry; apply (Z.mod_unique _ _ q); lia).
    destruct (balloc_take x V hs L sb (BPB * q + bi) bp Ho Hf Hm) as (x' & R & O & F); try done; [lia|by rewrite EB|].
    rewrite Ebi in R. exists (BPB * q + bi), x'. split_and!; [|lia|lia|done..].
    unfold balloc_scan. rewrite El. apply mrun_until_hit.
    + intros a Ha. apply Hskip; [rewrite El; set_solver|by apply Hl1].
    + eapply mrun_bind; [by apply getb_mrun|]. rewrite Htest, Hbi by done. exact R.
  - right. split; [apply mrun_until_none; intros a Ha; by apply Hskip; [|apply Hfind]|].
    intros b Hb. apply negb_false_iff. replace b with (BPB * q + (b - BPB * q)) by lia. apply Hfind.
    unfold range. apply elem_of_seqZ. lia.
Qed.

Lemma mrun_get_sb x : run get_sb x (sb (ff x)) x.
Proof. apply mrun_gets. Qed.

Lemma balloc_loop_run fuel x V hs L sb0 q :
  in_op x V hs L -> fs_geom sb0 -> marked sb0 V -> held_marked sb0 V L -> sb (ff x) = sb0 -> 0 <= q ->
  (exists b, BPB * q <= b < sb_size sb0 /\ bit V sb0 b = false) ->
  sb_size sb0 < BPB * (q + Z.of_nat fuel) ->
  room 2 hs -> (length hs + 2 + size L <= bhead)%nat ->
  exists b x', run (balloc_loop fuel 1 (BPB * q)) x b x' /\ 0 <= b < sb_size sb0 /\ bit V sb0 b = false /\
    in_op x' (allocated sb0 V b) (alloc_log sb0 b hs) L /\ oframe x x'.
Proof.
  revert x q. induction fuel as [|fuel IH]; intros x q Ho Hf Hm HL Hsb Hq (b0 & Hb0 & Hbit) Hfuel Hr Hs; [lia|].
  assert (0 <= BPB * q) as Hpos by (unfold BPB; change BSIZE with 512; lia).
  destruct (BBLOCK_eq sb0 (BPB * q) Hf) as [_ Hhome]; [lia|].
  destruct (op_bread x V hs L (BBLOCK (BPB * q) sb0) Ho (proj1 Hhome)) as (bp & x1 & R1 & Hbp & O1 & F1).
  { intros j Hj. destruct (HL j _ Hj) as (_ & _ & Hnm). apply Hnm. left. exists (BPB * q). split; [lia|done]. }
  { right. lia. }
  assert (held_marked sb0 V (delete bp (<[bp := BBLOCK (BPB * q) sb0]> L))) as HL1 by (by rewrite delete_insert_id).
  destruct (balloc_scan_run x1 V hs _ sb0 q bp (Z.min BPB (sb_size sb0 - BPB * q)) O1 Hf Hm Hq)
    as [(b & x2 & R2 & Hb & Hbf & O2 & F2)|(R2 & Hall)]; [lia|lia|apply lookup_insert_eq|done|done|rewrite map_size_insert_None by done; lia| |].
  - exists b, x2. rewrite delete_insert_id in O2 by done. split_and!; [|lia|lia|done|done|by etransitivity; [eassumption|]].
    cbn [balloc_loop]. eapply mrun_bind; [apply mrun_get_sb|]. rewrite Hsb.
    destruct (Z.ltb_spec (BPB * q) (sb_size sb0)); [|lia]. eapply mrun_bind; [exact R1|].
    eapply mrun_bind; [exact R2|apply mrun_ret].
  - assert (BPB * q + BPB <= b0) as Hnext.
    { destruct (decide (BPB * q + BPB <= b0)); [done|]. rewrite Hall in Hbit by lia. done. }
    destruct (op_brelse x1 V hs _ bp _ O1 ltac:(apply lookup_insert_eq)) as (x2 & R3 & O2 & F2).
    rewrite delete_insert_id in O2 by done.
    destruct (IH x2 (q + 1)) as (b & x3 & R4 & Hb & Hbf & O3 & F3); try done; [|lia|exists b0; split; [lia|done]|lia|].
    { pose proof (transitivity F1 F2) as F12. by rewrite (oframe_sb _ _ F12). }
    exists b, x3. split_and!; [|lia|lia|done|done|].
    + cbn [balloc_loop]. eapply mrun_bind; [apply mrun_get_sb|]. rewrite Hsb.
      destruct (Z.ltb_spec (BPB * q) (sb_size sb0)); [|lia]. eapply mrun_bind; [exact R1|].
      eapply mrun_bind; [exact R2|]. eapply mrun_bind; [exact R3|].
      pose proof (fg_size sb0 Hf). unfold geometry in Hg.
      destruct (Z.leb_spec (2 ^ 31) (BPB * q + BPB)); [lia|]. by replace (BPB * q + BPB) with (BPB * (q + 1)) by lia.
    + etransitivity; [eassumption|]. etransitivity; [eassumption|exact F3].
Qed.

Lemma balloc_run x V hs L sb0 :
  in_op x V hs L -> fs_geom sb0 -> marked sb0 V -> held_marked sb0 V L -> sb (ff x) = sb0 ->
  (exists b, 0 <= b < sb_size sb0 /\ bit V sb0 b = false) -> room 2 hs -> (length hs + 2 + size L <= bhead)%nat ->
  exists b x', run (balloc 1) x b x' /\ 0 <= b < sb_size sb0 /\ bit V sb0 b = false /\
    in_op x' (allocated sb0 V b) (alloc_log sb0 b hs) L /\ oframe x x'.
Proof.
  intros Ho Hf Hm HL Hsb (b0 & Hb0 & Hbit) Hr Hs.
  destruct (balloc_loop_run (S (Z.to_nat (sb_size sb0 / BPB + 1))) x V hs L sb0 0 Ho Hf Hm HL Hsb)
    as (b & x' & R & H); try done.
  - exists b0. split; [lia|done].
  - pose proof (Z.div_mod (sb_size sb0) BPB ltac:(done)). pose proof (Z.mod_pos_bound (sb_size sb0) BPB ltac:(done)).
    assert (0 <= sb_size sb0 / BPB) by (apply Z.div_pos; [lia|done]). lia.
  - exists b, x'. split; [|done]. unfold balloc. eapply mrun_bind; [apply mrun_get_sb|]. by rewrite Hsb.
Qed.

(** What allocation means for the set of marked blocks and for the other blocks. *)
Lemma mark_other sb V b k : k <> BBLOCK b sb -> mark sb V b k = V k.
Proof. apply vset_ne. Qed.
Lemma allocated_bit V hs L x sb b j :
  in_op x V hs L -> fs_geom sb -> marked sb V -> 0 <= b < sb_size sb -> bit V sb b = false -> 0 <= j < sb_size sb ->
  bit (allocated sb V b) sb j = (b =? j) || bit V sb j.
Proof.
  intros Ho Hf Hm Hb Hbit Hj. destruct (Hm b Hb Hbit) as (_ & _ & Hnm).
  assert (bit (allocated sb V b) sb j = bit (mark sb V b) sb j) as ->.
  { unfold bit, allocated. rewrite vset_ne; [done|]. intros E. apply Hnm. left. by exists j. }
  apply bit_mark; try done. eapply in_op_size; [done|]. apply (BBLOCK_eq sb b Hf Hb).
Qed.
Lemma allocated_new sb V b : allocated sb V b b = zero_block.
Proof. apply vset_eq. Qed.
Lemma allocated_other sb V b k : k <> b -> k <> BBLOCK b sb -> allocated sb V b k = V k.
Proof. intros H1 H2. unfold allocated. by rewrite vset_ne, mark_other. Qed.
Lemma allocated_marked V hs L x sb b :
  in_op x V hs L -> fs_geom sb -> marked sb V -> 0 <= b < sb_size sb -> bit V sb b = false ->
  marked sb (allocated sb V b).
Proof.
  intros Ho Hf Hm Hb Hbit j Hj. rewrite (allocated_bit V hs L x) by done. intros [_ H]%orb_false_iff. by apply Hm.
Qed.
Lemma alloc_log_length sb b hs : (length hs <= length (alloc_log sb b hs) <= length hs + 2)%nat.
Proof. unfold alloc_log. pose proof (absorb_length (BBLOCK b sb) hs). pose proof (absorb_length b (absorb (BBLOCK b sb) hs)). lia. Qed.

(** ** bfree *)

Lemma op_readsb x V hs L :
  in_op x V hs L -> home 1 -> (forall j, L !! j <> Some 1) -> (length hs + size L < bhead)%nat ->
  exists x', run (readsb 1) x (sb_of (V 1)) x' /\ in_op x' V hs L /\ oframe x x'.
Proof.
  intros Ho H1 HL Hs. destruct (op_bread x V hs L 1 Ho (proj1 H1) HL) as (i & x1 & R1 & Hi & O1 & F1); [by right|].
  destruct (op_getb x1 V hs _ i 1 O1 ltac:(apply lookup_insert_eq)) as (b & Hb & Ed).
  destruct (op_brelse x1 V hs _ i 1 O1 ltac:(apply lookup_insert_eq)) as (x2 & R2 & O2 & F2).
  rewrite delete_insert_id in O2 by done. exists x2. split_and!; [|done|by etransitivity].
  unfold readsb. eapply mrun_bind; [exact R1|]. eapply mrun_bind; [by apply getb_mrun|].
  eapply mrun_bind; [exact R2|]. rewrite Ed. apply mrun_ret.
Qed.

Lemma in_op_fs f x V hs L :
  (forall y, bufs (f y) = bufs y /\ logs (f y) = logs y) -> in_op x V hs L -> in_op (x <| ff ::= f |>) V hs L.
Proof.
  intros Hy [Ht Hl Ho Hc]. destruct (Hy (ff x)) as [E1 E2]. split; try done.
  - destruct Hl as [H1 H2 H3 H4 H5 H6]. split; cbn; by rewrite ?E2.
  - cbn. by rewrite E2.
  - destruct Hc as [H1 H2 H3 H4 H5 H6 H7]. split; cbn; rewrite ?E1; done.
Qed.
Lemma set_fs_mrun f x : run (set_fs f) x tt (x <| ff ::= f |>).
Proof. apply mrun_exact. reflexivity. Qed.

Lemma bfree_run x V hs L sb0 b :
  in_op x V hs L -> fs_geom sb0 -> home 1 -> sb_of (V 1) = sb0 -> sb (ff x) = sb0 ->
  (forall j k, L !! j = Some k -> k <> 1 /\ ~ meta sb0 k) ->
  0 <= b < sb_size sb0 -> bit V sb0 b = true -> room 1 hs -> (length hs + size L < bhead)%nat ->
  exists x', run (bfree 1 b) x tt x' /\ in_op x' (unmark sb0 V b) (absorb (BBLOCK b sb0) hs) L /\ oframe x x'.
Proof.
  intros Ho Hf H1 Hsb1 Hsb HL Hb Hbit Hr Hs. destruct (BBLOCK_eq sb0 b Hf Hb) as [_ Hhome].
  destruct (op_readsb x V hs L Ho H1) as (x1 & R1 & O1 & F1); [intros j Hj; by apply HL in Hj as [? _]|done|].
  pose proof (in_op_fs (fun y => y <| State.sb := sb0 |>) x1 V hs L ltac:(done) O1) as O1'.
  set (x1' := x1 <| ff ::= fun y => y <| State.sb := sb0 |> |>) in *.
  assert (x1' = x1) as Ex.
  { assert (sb (ff x1) = sb0) as E by (by rewrite (oframe_sb _ _ F1)). unfold x1'. rewrite <-E. by destruct x1 as [? [] ?]. }
  destruct (op_bread x1' V hs L (BBLOCK b sb0) O1' (proj1 Hhome)) as (bp & x2 & R2 & Hbp & O2 & F2).
  { intros j Hj. apply HL in Hj as [_ Hnm]. apply Hnm. left. by exists b. }
  { by right. }
  destruct (op_getb x2 V hs _ bp _ O2 ltac:(apply lookup_insert_eq)) as (y & Hy & Ed).
  destruct (op_write x2 V hs _ bp (BBLOCK b sb0) (clear_bit (b mod BPB)) O2) as (x3 & x4 & R3 & R4 & O4 & F4);
    [apply lookup_insert_eq|done|done|rewrite clear_bit_length; eapply in_op_size; [done|apply Hhome]|].
  destruct (op_brelse x4 _ _ _ bp _ O4 ltac:(apply lookup_insert_eq)) as (x5 & R5 & O5 & F5).
  rewrite delete_insert_id in O5 by done. exists x5. split_and!; [|done|].
  - unfold bfree. eapply mrun_bind; [exact R1|]. rewrite Hsb1. eapply mrun_bind; [apply set_fs_mrun|].
    eapply mrun_bind; [exact R2|]. eapply mrun_bind; [by apply getb_mrun|].
    rewrite land_bit by (apply Z.mod_pos_bound; lia). rewrite bit_as_of in Hbit by done. unfold bit_of in Hbit.
    rewrite Ed, Hbit. cbn [negb]. eapply mrun_bind; [exact R3|]. eapply mrun_bind; [exact R4|exact R5].
  - rewrite Ex in F2. etransitivity; [eassumption|]. etransitivity; [eassumption|].
    etransitivity; [exact F4|eassumption].
Qed.

End ops.
