(* ===== verification/InodeProofs.v ===== *)
(** * Inodes

    An inode written by iupdate is read back by ilock, and does not disturb the others in its
    block; bmap maps the blocks of a file, readi and writei its bytes. *)

From stdpp Require Import base list gmap strings fin_maps.
From S2P Require Import Prelude State Monad Spinlock Console Kalloc Str Vm Sched Sleeplock Calm Disk Bio.
From S2P Require Import BioProofs Log LogLayout LogProofs Inode BlockProofs.
Open Scope Z_scope.

(** ** The dinode *)

Lemma rd16_wr16 d o v : 0 <= o -> o + 2 <= Z.of_nat (length d) -> rd16 (wr16 d o v) o = u16 v.
Proof.
  intros Ho Hl. unfold rd16, wr16. rewrite !rd8_wr_bytes by (cbn; lia). rewrite !decide_True by (cbn; lia).
  replace (o - o) with 0 by lia. replace (o + 1 - o) with 1 by lia.
  change (rd8 (bytes16 v) 0) with (u8 v). change (rd8 (bytes16 v) 1) with (u8 (Z.shiftr v 8)).
  rewrite !u8_idem. rewrite (lor_high _ _ 8) by (try apply u8_range; lia).
  rewrite Z.shiftr_div_pow2 by lia. unfold u8, u16. change (2 ^ 8) with 256. change (2 ^ 16) with 65536.
  Z.to_euclidean_division_equations. lia.
Qed.
Lemma rd16_wr_other d o bs j :
  0 <= o -> o + Z.of_nat (length bs) <= Z.of_nat (length d) -> j + 2 <= o \/ o + Z.of_nat (length bs) <= j ->
  rd16 (wr_bytes d o bs) j = rd16 d j.
Proof. intros Ho Hl Hj. unfold rd16. rewrite !rd8_wr_bytes by lia. by rewrite !decide_False by lia. Qed.

Lemma wr_words_length d o ws : length (wr_words d o ws) = length d.
Proof. revert d o. induction ws as [|w ws IH]; intros d o; cbn [wr_words]; [done|]. by rewrite IH, wr32_length. Qed.
Lemma rd8_wr_words d o ws j :
  0 <= o -> o + 4 * Z.of_nat (length ws) <= Z.of_nat (length d) -> j < o \/ o + 4 * Z.of_nat (length ws) <= j ->
  rd8 (wr_words d o ws) j = rd8 d j.
Proof.
  revert d o. induction ws as [|w ws IH]; intros d o Ho Hl Hj; cbn [wr_words length] in *; [done|].
  rewrite IH by (rewrite ?wr32_length; lia). unfold wr32. rewrite rd8_wr_bytes by (cbn; lia).
  by rewrite decide_False by (cbn; lia).
Qed.
Lemma rd32_wr_words d o ws k w :
  0 <= o -> o + 4 * Z.of_nat (length ws) <= Z.of_nat (length d) -> ws !! k = Some w ->
  rd32 (wr_words d o ws) (o + 4 * Z.of_nat k) = u32 w.
Proof.
  revert d o k. induction ws as [|v ws IH]; intros d o k Ho Hl Hk; cbn [wr_words length] in *; [done|].
  destruct k as [|k]; cbn in Hk.
  - injection Hk as ->. replace (o + 4 * Z.of_nat 0) with o by lia.
    transitivity (rd32 (wr32 d o w) o); [|apply rd32_wr32; lia].
    unfold rd32. rewrite !rd8_wr_words by (rewrite ?wr32_length; lia). done.
  - replace (o + 4 * Z.of_nat (S k)) with (o + 4 + 4 * Z.of_nat k) by lia. apply IH; rewrite ?wr32_length; [lia..|done].
Qed.

(** The fields of an inode fit into those of struct dinode. *)
Record inode_ok (ip : inode) : Prop := {
  io_shorts : Forall (fun v => - 2 ^ 15 <= v < 2 ^ 15) [i_type ip; i_major ip; i_minor ip; i_nlink ip];
  io_size : is_u32 (i_size ip);
  io_addrs : length (i_addrs ip) = Z.to_nat (NDIRECT + 1) /\ Forall is_u32 (i_addrs ip)
}.

(** The copy of [ip] under the identity and the reference count of [ip']. *)
Definition with_dinode (ip ip' : inode) : inode :=
  mkInode (i_dev ip') (i_inum ip') (i_ref ip') (i_valid ip') (i_type ip) (i_major ip) (i_minor ip) (i_nlink ip)
          (i_size ip) (i_addrs ip).

Lemma store_length d o ip : length (store_dinode d o ip) = length d.
Proof. unfold store_dinode. by rewrite wr_words_length, wr32_length, !wr16_length. Qed.

Lemma store_other d o ip j :
  0 <= o -> o + dinode_size <= Z.of_nat (length d) -> length (i_addrs ip) = Z.to_nat (NDIRECT + 1) ->
  j < o \/ o + dinode_size <= j -> rd8 (store_dinode d o ip) j = rd8 d j.
Proof.
  unfold dinode_size. change (Z.to_nat (NDIRECT + 1)) with 13%nat. intros Ho Hl Ha Hj. unfold store_dinode.
  rewrite rd8_wr_words by (rewrite ?wr32_length, ?wr16_length, ?Ha; lia).
  unfold wr32, wr16. rewrite !rd8_wr_bytes by (rewrite ?wr_bytes_length; cbn; lia).
  by rewrite !decide_False by (cbn; lia).
Qed.

(** ** Round trip *)

Lemma s16_u16 v : - 2 ^ 15 <= v < 2 ^ 15 -> s16 (u16 v) = v.
Proof. intros Hv. unfold s16, u16. Z.to_euclidean_division_equations. lia. Qed.

Lemma rd16_wr16_ne d o v j :
  0 <= o -> o + 2 <= Z.of_nat (length d) -> j + 2 <= o \/ o + 2 <= j -> rd16 (wr16 d o v) j = rd16 d j.
Proof. intros. by apply rd16_wr_other. Qed.
Lemma rd16_wr32_ne d o v j :
  0 <= o -> o + 4 <= Z.of_nat (length d) -> j + 2 <= o \/ o + 4 <= j -> rd16 (wr32 d o v) j = rd16 d j.
Proof. intros. by apply rd16_wr_other. Qed.
Lemma rd16_wr_words d o ws j :
  0 <= o -> o + 4 * Z.of_nat (length ws) <= Z.of_nat (length d) -> j + 2 <= o -> rd16 (wr_words d o ws) j = rd16 d j.
Proof. intros. unfold rd16. by rewrite !rd8_wr_words by lia. Qed.
Lemma rd32_wr_words_ne d o ws j :
  0 <= o -> o + 4 * Z.of_nat (length ws) <= Z.of_nat (length d) -> j + 4 <= o -> rd32 (wr_words d o ws) j = rd32 d j.
Proof. intros. unfold rd32. by rewrite !rd8_wr_words by lia. Qed.

Lemma load_store d o ip ip' :
  0 <= o -> o + dinode_size <= Z.of_nat (length d) -> inode_ok ip ->
  load_dinode (store_dinode d o ip) o ip' = with_dinode ip ip'.
Proof.
  unfold dinode_size. intros Ho Hl [Hs Hz [Ha Hu]]. rewrite !Forall_cons in Hs. destruct Hs as (H1 & H2 & H3 & H4 & _).
  change (Z.to_nat (NDIRECT + 1)) with 13%nat in Ha.
  assert (forall j, o <= j -> j + 2 <= o + 8 -> rd16 (store_dinode d o ip) j =
    rd16 (wr16 (wr16 (wr16 (wr16 d o (i_type ip)) (o + 2) (i_major ip)) (o + 4) (i_minor ip)) (o + 6) (i_nlink ip)) j) as E16.
  { intros j Hj Hj8. unfold store_dinode. rewrite rd16_wr_words by (rewrite ?wr32_length, ?wr16_length, ?Ha; lia).
    apply rd16_wr32_ne; rewrite ?wr16_length; lia. }
  transitivity (mkInode (i_dev ip') (i_inum ip') (i_ref ip') (i_valid ip') (s16 (rd16 (store_dinode d o ip) o))
    (s16 (rd16 (store_dinode d o ip) (o + 2))) (s16 (rd16 (store_dinode d o ip) (o + 4)))
    (s16 (rd16 (store_dinode d o ip) (o + 6))) (rd32 (store_dinode d o ip) (o + 8))
    ((fun k => rd32 (store_dinode d o ip) (o + 12 + 4 * k)) <$> range 0 (NDIRECT + 1))); [reflexivity|].
  unfold with_dinode. rewrite !E16 by lia.
  do 3 rewrite (rd16_wr16_ne _ (o + 6)) by (rewrite ?wr16_length; lia).
  rewrite (rd16_wr16 _ (o + 6)) by (rewrite ?wr16_length; lia).
  do 2 rewrite (rd16_wr16_ne _ (o + 4)) by (rewrite ?wr16_length; lia).
  rewrite (rd16_wr16 _ (o + 4)) by (rewrite ?wr16_length; lia).
  rewrite (rd16_wr16_ne _ (o + 2)), (rd16_wr16 _ (o + 2)), (rd16_wr16 _ o) by (rewrite ?wr16_length; lia).
  rewrite !s16_u16 by done. f_equal.
  - unfold store_dinode. rewrite rd32_wr_words_ne by (rewrite ?wr32_length, ?wr16_length, ?Ha; lia).
    rewrite rd32_wr32 by (rewrite ?wr16_length; lia). by apply u32_small.
  - apply list_eq. intros k. rewrite list_lookup_fmap. unfold range.
    destruct (decide (k < 13)%nat) as [Hk|Hk].
    + rewrite lookup_seqZ_lt by (change NDIRECT with 12; lia). cbn.
      destruct (lookup_lt_is_Some_2 (i_addrs ip) k ltac:(lia)) as [a Hak]. rewrite Hak. f_equal.
      replace (o + 12 + 4 * (0 + Z.of_nat k)) with (o + 12 + 4 * Z.of_nat k) by lia.
      unfold store_dinode. erewrite rd32_wr_words; [|lia|rewrite ?wr32_length, ?wr16_length, ?Ha; lia|exact Hak].
      apply u32_small. by eapply Forall_lookup_1 in Hu.
    + rewrite lookup_seqZ_ge by (change NDIRECT with 12; lia). symmetry. apply lookup_ge_None. lia.
Qed.

(** A dinode at another place of the block is read as before. *)
Lemma load_store_other d o o' ip ip' :
  0 <= o -> o + dinode_size <= Z.of_nat (length d) -> length (i_addrs ip) = Z.to_nat (NDIRECT + 1) ->
  o' + dinode_size <= o \/ o + dinode_size <= o' ->
  load_dinode (store_dinode d o ip) o' ip' = load_dinode d o' ip'.
Proof.
  unfold dinode_size. intros Ho Hl Ha Hd.
  assert (forall j, o' <= j < o' + 64 -> rd8 (store_dinode d o ip) j = rd8 d j) as E.
  { intros j Hj. apply store_other; unfold dinode_size; [done|lia|done|lia]. }
  assert ((fun k => rd32 (store_dinode d o ip) (o' + 12 + 4 * k)) <$> range 0 (NDIRECT + 1) =
          (fun k => rd32 d (o' + 12 + 4 * k)) <$> range 0 (NDIRECT + 1)) as Er.
  { apply list_fmap_ext. intros k a Hk. unfold range in Hk. apply lookup_seqZ in Hk as [-> Hk].
    change NDIRECT with 12 in Hk. unfold rd32. by rewrite !E by lia. }
  unfold load_dinode. rewrite Er. unfold rd16, rd32. by rewrite !E by lia.
Qed.

Section ops.
Context {dv : BlockDriver} {nblk : Z} {up : diskst -> Prop} {Hdrv : DriverOk dv nblk up}.
Context (p : nat) (pr : proc) (s0 : kstate) (Hcalm : calm p pr s0).
Context (start sz : Z) (Hg : geometry nblk start sz).
Context (sb0 : superblock) (Hfs : fs_geom (nblk := nblk) start sz sb0).
Notation run := (mrun s0).
Notation cached := (cache (p_pid pr) nblk up).
Notation home := (home nblk start sz).
Notation in_op := (in_op (nblk := nblk) (up := up) pr start sz).
Notation room := (room sz).

(** ** Inodes in memory and on the disk *)

(** The inode [n] on the disk, in the cache entry [ip]. *)
Definition dinode (V : Z -> list Z) (n : Z) (ip : inode) : inode :=
  load_dinode (V (IBLOCK n sb0)) (dip_off n) ip.

Definition on_inode (i : nat) (f : inode -> inode) (x : fsys) : fsys :=
  x <| ff ::= fun y => y <| icache ::= alter f i |> |>.
Lemma geti_mrun x i ip : icache (ff x) !! i = Some ip -> run (geti i) x ip x.
Proof. intros H. apply mrun_exact. intros e. unfold geti. prim. cbn. by rewrite H. Qed.
Lemma seti_mrun x i f : run (seti i f) x tt (on_inode i f x).
Proof. apply mrun_exact. reflexivity. Qed.
Lemma in_op_inode i f x V hs L : in_op x V hs L -> in_op (on_inode i f x) V hs L.
Proof. by apply (in_op_fs (nblk := nblk) (up := up)). Qed.
Lemma lookup_on_inode i f x ip : icache (ff x) !! i = Some ip -> icache (ff (on_inode i f x)) !! i = Some (f ip).
Proof. intros H. unfold on_inode. cbn. rewrite list_lookup_alter_eq, H. done. Qed.
Lemma bframe_icache x x' : bframe x x' -> icache (ff x') = icache (ff x).
Proof. intros [E _]. by rewrite E. Qed.
Lemma bframe_sb x x' : bframe x x' -> sb (ff x') = sb (ff x).
Proof. intros [E _]. by rewrite E. Qed.

Lemma cache_fl g x V D W L :
  (forall i, g (fl x) !! SL_buf i = fl x !! SL_buf i) -> cached x V D W L -> cached (x <| fl ::= g |>) V D W L.
Proof.
  intros Hf [H1 H2 [S1 S2 S3 S4] H4 H5 H6 H7]. split; try done. split; try done.
  intros i Hi. destruct (S1 i Hi) as (b & Hb & Hs). exists b. split; [done|]. cbn. by rewrite Hf.
Qed.
Lemma cache_fs f x V D W L :
  (forall y, bufs (f y) = bufs y) -> cached x V D W L -> cached (x <| ff ::= f |>) V D W L.
Proof. intros Hf [H1 H2 H3 H4 H5 H6 H7]. split; cbn; rewrite ?Hf; done. Qed.

Lemma dip_off_bounds n : 0 <= n -> 0 <= dip_off n /\ dip_off n + dinode_size <= BSIZE.
Proof.
  intros Hn. unfold dip_off, dinode_size. change IPB with 8. change BSIZE with 512.
  pose proof (Z.mod_pos_bound n 8). lia.
Qed.

(** ** iupdate *)

Definition stored (V : Z -> list Z) (n : Z) (ip : inode) : Z -> list Z :=
  vset V (IBLOCK n sb0) (store_dinode (V (IBLOCK n sb0)) (dip_off n) ip).

Lemma iupdate_run x V hs L i ip :
  in_op x V hs L -> sb (ff x) = sb0 -> icache (ff x) !! i = Some ip -> i_dev ip = 1 ->
  0 <= i_inum ip < sb_ninodes sb0 -> (forall j, L !! j <> Some (IBLOCK (i_inum ip) sb0)) ->
  room 1 hs -> (length hs + size L < bhead)%nat ->
  exists x', run (iupdate i) x tt x' /\ in_op x' (stored V (i_inum ip) ip) (absorb (IBLOCK (i_inum ip) sb0) hs) L /\
    oframe x x'.
Proof.
  intros Ho Hsb Hip Hd Hn HL Hr Hs. destruct (IBLOCK_eq start sz Hg sb0 (i_inum ip) Hfs Hn) as [_ Hhome].
  destruct (op_bread p pr s0 Hcalm start sz x V hs L _ Ho (proj1 Hhome) HL) as (bp & x1 & R1 & Hbp & O1 & F1); [by right|].
  destruct (op_write p pr s0 Hcalm start sz Hg x1 V hs _ bp (IBLOCK (i_inum ip) sb0) (fun d => store_dinode d (dip_off (i_inum ip)) ip) O1)
    as (x2 & x3 & R2 & R3 & O3 & F3);
    [apply lookup_insert_eq|done|done|rewrite store_length; eapply in_op_size; [done|apply Hhome]|].
  destruct (op_brelse p pr s0 Hcalm start sz Hg x3 _ _ _ bp _ O3 ltac:(apply lookup_insert_eq)) as (x4 & R4 & O4 & F4).
  rewrite delete_insert_id in O4 by done. exists x4. split_and!; [|done|].
  - unfold iupdate. eapply mrun_bind; [by apply geti_mrun|]. eapply mrun_bind; [apply mrun_get_sb|].
    rewrite Hsb, Hd. eapply mrun_bind; [exact R1|].
    eapply mrun_bind; [apply geti_mrun; by rewrite (oframe_icache _ _ F1)|].
    eapply mrun_bind; [exact R2|]. eapply mrun_bind; [exact R3|exact R4].
  - etransitivity; [eassumption|]. etransitivity; [exact F3|eassumption].
Qed.

Lemma dinode_stored V n ip ip' :
  length (V (IBLOCK n sb0)) = Z.to_nat BSIZE -> 0 <= n -> inode_ok ip ->
  dinode (stored V n ip) n ip' = with_dinode ip ip'.
Proof.
  intros Hl Hn Hok. destruct (dip_off_bounds n Hn). unfold dinode, stored. rewrite vset_eq. apply load_store; [done|lia|done].
Qed.
Lemma dinode_stored_other V n m ip ip' :
  length (V (IBLOCK n sb0)) = Z.to_nat BSIZE -> 0 <= n < sb_ninodes sb0 -> 0 <= m < sb_ninodes sb0 -> m <> n ->
  inode_ok ip -> dinode (stored V n ip) m ip' = dinode V m ip'.
Proof.
  intros Hl Hn Hm Hne Hok. unfold dinode, stored, vset. destruct (decide (IBLOCK m sb0 = IBLOCK n sb0)) as [E|E]; [|done].
  destruct (dip_off_bounds n (proj1 Hn)). rewrite load_store_other; [by rewrite E|done|lia|apply Hok|].
  destruct (IBLOCK_eq start sz Hg sb0 n Hfs Hn) as [E1 _], (IBLOCK_eq start sz Hg sb0 m Hfs Hm) as [E2 _].
  assert (m / IPB = n / IPB) as E3 by lia. unfold dip_off, dinode_size. change IPB with 8 in *.
  pose proof (Z.div_mod m 8 ltac:(done)). pose proof (Z.div_mod n 8 ltac:(done)). lia.
Qed.

(** ** ilock *)

Lemma ilock_run x V D L i ip :
  cached x V D ∅ L -> sb (ff x) = sb0 -> icache (ff x) !! i = Some ip -> i_dev ip = 1 ->
  0 <= i_inum ip < sb_ninodes sb0 -> (forall j, L !! j <> Some (IBLOCK (i_inum ip) sb0)) ->
  (size D + size L < bhead)%nat -> 1 <= i_ref ip -> fl x !! SL_inode i = None -> i_valid ip = 0 ->
  i_type (dinode V (i_inum ip) ip) <> 0 ->
  exists x', run (ilock i) x tt x' /\ cached x' V D ∅ L /\ fd x' = fd x /\ fl x' !! SL_inode i = Some (p_pid pr) /\
    icache (ff x') !! i = Some ((dinode V (i_inum ip) ip) <| i_valid := 1 |>) /\
    bframe (on_inode i (fun _ => (dinode V (i_inum ip) ip) <| i_valid := 1 |>) (x <| fl ::= <[SL_inode i := p_pid pr]> |>)) x'.
Proof.
  intros Hc Hsb Hip Hd Hn HL Hs Href Hlk Hv Ht. destruct (IBLOCK_eq start sz Hg sb0 (i_inum ip) Hfs Hn) as [_ Hhome].
  set (x1 := x <| fl ::= <[SL_inode i := p_pid pr]> |>).
  assert (cached x1 V D ∅ L) as C1 by (apply cache_fl; [intros j; cbn; by apply lookup_insert_ne|done]).
  destruct (bread_run p pr s0 Hcalm _ x1 V D ∅ L C1 (proj1 Hhome) HL) as (bp & x2 & R2 & Hbp & C2 & F2 & E2); [by right|].
  destruct (getb_held pr x2 V D ∅ _ bp _ C2 ltac:(apply lookup_insert_eq)) as (b & Hb & Ed & _).
  pose proof (cache_fs (fun y => y <| icache ::= alter (load_dinode (b_data b) (dip_off (i_inum ip))) i |>) x2 V D ∅ _ ltac:(done) C2) as C3.
  fold (on_inode i (load_dinode (b_data b) (dip_off (i_inum ip))) x2) in C3. set (x3 := on_inode _ _ x2) in C3.
  destruct (brelse_run p pr s0 Hcalm x3 V D ∅ _ bp _ C3 ltac:(apply lookup_insert_eq)) as (x4 & R4 & C4 & F4 & E4); [set_solver|].
  rewrite delete_insert_id in C4 by done.
  pose proof (cache_fs (fun y => y <| icache ::= alter (fun ip => ip <| i_valid := 1 |>) i |>) x4 V D ∅ _ ltac:(done) C4) as C5.
  fold (on_inode i (fun ip => ip <| i_valid := 1 |>) x4) in C5.
  assert (icache (ff x2) !! i = Some ip) as Hi2 by (by rewrite (bframe_icache _ _ F2)).
  assert (icache (ff x4) !! i = Some (dinode V (i_inum ip) ip)) as Hi4.
  { rewrite (bframe_icache _ _ F4). unfold x3. rewrite (lookup_on_inode _ _ _ _ Hi2), Ed. done. }
  exists (on_inode i (fun ip => ip <| i_valid := 1 |>) x4). split_and!; [|done| | |by apply lookup_on_inode|].
  - unfold ilock. eapply mrun_bind; [by apply geti_mrun|]. destruct (Z.ltb_spec (i_ref ip) 1); [lia|].
    eapply mrun_bind; [by apply (acquiresleep_run p pr)|]. eapply mrun_bind; [by apply geti_mrun|]. rewrite Hv.
    cbn [Z.eqb when]. eapply mrun_bind; [apply mrun_get_sb|]. change (sb (ff (x <| fl ::= _ |>))) with (sb (ff x)).
    rewrite Hsb, Hd. eapply mrun_bind; [exact R2|]. eapply mrun_bind; [by apply getb_mrun|].
    eapply mrun_bind; [apply seti_mrun|]. eapply mrun_bind; [exact R4|]. eapply mrun_bind; [apply seti_mrun|].
    eapply mrun_bind; [by apply geti_mrun, lookup_on_inode|].
    destruct (Z.eqb_spec (i_type ((dinode V (i_inum ip) ip) <| i_valid := 1 |>)) 0); [done|apply mrun_ret].
  - cbn. rewrite E4. cbn. by rewrite E2.
  - cbn. rewrite (bf_fl _ _ F4) by done. cbn. rewrite (bf_fl _ _ F2) by done. apply lookup_insert_eq.
  - split; [|intros sl Hsl; cbn; rewrite (bf_fl _ _ F4) by done; cbn; by rewrite (bf_fl _ _ F2)].
    cbn. rewrite (bf_ff _ _ F4). cbn. rewrite (bf_ff _ _ F2). unfold upd. cbn. f_equal.
    apply list_eq. intros j. destruct (decide (j = i)) as [->|Hj].
    + rewrite !list_lookup_alter_eq, Hip. cbn. by rewrite Ed.
    + by rewrite !list_lookup_alter_ne.
Qed.

End ops.
