(* ===== verification/ConsoleDev.v ===== *)
(** * Console input and the console as a device: console.c

    Typed characters collect in a ring of INPUT_BUF bytes between the read index [in_r], the
    write index [in_w] (the end of the last complete line) and the edit index [in_e].

    The buffer a device or file operation copies to or from is a [sink] or a [source]: user
    memory, kernel memory or a structure on the kernel stack. *)

From stdpp Require Import base list gmap strings fin_maps.
From S2P Require Import Prelude State Monad Spinlock Console Kalloc Str Vm VmProofs VmUser Umem Sched.
From S2P Require Import Sleeplock Disk Bio Log Inode.
Open Scope Z_scope.

(** [put o bs]: store [bs] at offset [o] of the destination. *)
Definition sink : Type := Z -> list Z -> M unit.
(** [get o n]: the [n] bytes at offset [o] of the source. *)
Definition source : Type := Z -> Z -> M (list Z).

Definition user_sink (dst : Z) : sink := fun o bs => ustores (u32 (dst + o)) bs.
Definition kernel_sink (dst : Z) : sink := fun o bs =>
  set_vm (fun w => w <| mem ::= fun m => put_bytes m (u32 (dst + o)) bs |>).
(** The bytes read are only returned. *)
Definition no_sink : sink := fun _ _ => ret tt.

Definition user_source (src : Z) : source := fun o n => uloads (Z.to_nat n) (u32 (src + o)).
Definition bytes_source (bs : list Z) : source := fun o n =>
  ret (take (Z.to_nat n) (drop (Z.to_nat o) bs)).

(** ** Input *)

Definition C_D : Z := 4.
Definition C_P : Z := 16.
Definition C_U : Z := 21.
Definition C_H : Z := 8.

Definition in_at (k : console) (i : Z) : Z := nthz 0 (in_buf k) (i mod INPUT_BUF).

(** ^U: back to the start of the line. *)
Fixpoint kill_line (fuel : nat) : M unit :=
  match fuel with
  | O => nofuel
  | S fuel =>
      k ← gets con ;
      if negb (in_e k =? in_w k) && negb (in_at k (u32 (in_e k - 1)) =? 10) then
        set_con (fun k => k <| in_e := u32 (in_e k - 1) |>) ;;
        consputc BACKSPACE ;;
        kill_line fuel
      else ret tt
  end.

(** One typed character; [true] when the process listing was asked for. *)
Definition consoleintr_char (c : Z) : M bool :=
  if c =? C_P then ret true else
  (if c =? C_U then
     k ← gets con ;
     kill_line (S (Z.to_nat (u32 (in_e k - in_w k))))
   else if (c =? C_H) || (c =? 0x7f) then
     k ← gets con ;
     when (negb (in_e k =? in_w k))
       (set_con (fun k => k <| in_e := u32 (in_e k - 1) |>) ;;
        consputc BACKSPACE)
   else
     k ← gets con ;
     when (negb (c =? 0) && (u32 (in_e k - in_r k) <? INPUT_BUF))
       (let c := if c =? 13 then 10 else c in
        set_con (fun k => k <| in_buf ::= <[Z.to_nat (in_e k mod INPUT_BUF) := u8 c]> |>) ;;
        set_con (fun k => k <| in_e := u32 (in_e k + 1) |>) ;;
        consputc c ;;
        k ← gets con ;
        when ((c =? 10) || (c =? C_D) || (in_e k =? u32 (in_r k + INPUT_BUF)))
          (set_con (fun k => k <| in_w := in_e k |>) ;;
           wakeup Ch_input))) ;;
  ret false.

Fixpoint consoleintr_loop (cs : list Z) (doprocdump : bool) : M bool :=
  match cs with
  | [] => ret doprocdump
  | c :: cs => d ← consoleintr_char c ; consoleintr_loop cs (doprocdump || d)
  end.

(** [getc] is the characters the device has, in the order getc() returns them. *)
Definition consoleintr (pcs : nat -> list Z) (getc : list Z) : M unit :=
  acquire L_cons ;;
  doprocdump ← consoleintr_loop getc false ;
  release L_cons ;;
  when doprocdump (procdump pcs).

Section driver.
Context `{BlockDriver}.

(** [while(input.r == input.w)]: wait for a line; [true] when the process was killed and the
    read has failed. *)
Fixpoint input_wait (fuel : nat) (ip : nat) : M bool :=
  match fuel with
  | O => nofuel
  | S fuel =>
      k ← gets con ;
      if in_r k =? in_w k then
        pr ← curproc ;
        if negb (p_killed pr =? 0) then release L_cons ;; ilock ip ;; ret true
        else sleep Ch_input L_cons ;; input_wait fuel ip
      else ret false
  end.

(** The loop of consoleread with [n] bytes still wanted and [o] delivered: the [n] left at its
    end, [None] for the return of -1. *)
Fixpoint consoleread_loop (n : nat) (ip : nat) (dst : sink) (o : Z) : M (option Z) :=
  match n with
  | O => ret (Some 0)
  | S n' =>
      dead ← (fun e => input_wait (S (length e)) ip e) ;
      if dead : bool then ret None else
      k ← gets con ;
      let c := s8 (in_at k (in_r k)) in
      set_con (fun k => k <| in_r := u32 (in_r k + 1) |>) ;;
      if c =? C_D then
        when (0 <? o) (set_con (fun k => k <| in_r := u32 (in_r k - 1) |>)) ;;
        ret (Some (Z.of_nat n))
      else
        dst o [u8 c] ;;
        if c =? 10 then ret (Some (Z.of_nat n'))
        else consoleread_loop n' ip dst (o + 1)
  end.

Definition consoleread (ip : nat) (dst : sink) (n : Z) : M Z :=
  iunlock ip ;;
  let target := u32 n in
  acquire L_cons ;;
  r ← (if 0 <? n then consoleread_loop (Z.to_nat n) ip dst 0 else ret (Some n)) ;
  match r with
  | None => ret (-1)
  | Some n =>
      release L_cons ;;
      ilock ip ;;
      ret (s32 (target - n))
  end.

Definition consolewrite (ip : nat) (buf : source) (n : Z) : M Z :=
  iunlock ip ;;
  acquire L_cons ;;
  for_each (range 0 n) (fun i =>
    bs ← buf i 1 ;
    consputc (Z.land (nthz 0 bs 0) 0xff)) ;;
  release L_cons ;;
  ilock ip ;;
  ret n.

End driver.

Definition CONSOLE : Z := 1.

Definition consoleinit : M unit :=
  initlock L_cons ;;
  set_fs (fun x => x <| devsw ::= <[Z.to_nat CONSOLE := Some Console]> |>) ;;
  set_con (fun k => k <| cons_locking := 1 |>).
