(* ===== verification/Fs.v ===== *)
(** * Files, directories and paths: the upper half of fs.c, and loaduvm of vm.c

    A path is the string of its bytes, up to the terminating zero. *)

From stdpp Require Import base list gmap strings fin_maps.
From S2P Require Import Prelude State Monad Spinlock Console Kalloc Str Vm VmProofs VmUser Umem Sched.
From S2P Require Import Sleeplock Disk Bio Log Inode ConsoleDev.
Open Scope Z_scope.

Section driver.
Context `{BlockDriver}.

(** ** Reading and writing *)

(** devsw[major] *)
Definition device_of (major : Z) : M (option device) :=
  t ← gets (fun s => devsw (fst_ s)) ;
  ret (if (major <? 0) || (NDEV <=? major) then None else default None (t !! Z.to_nat major)).

(** The copying loop of readi: the bytes read. *)
Fixpoint readi_loop (fuel : nat) (i : nat) (dst : sink) (tot off n : Z) : M (list Z) :=
  match fuel with
  | O => nofuel
  | S fuel =>
      if tot <? n then
        ip ← geti i ;
        bn ← bmap i (off / BSIZE) ;
        bp ← bread (i_dev ip) bn ;
        let m := Z.min (n - tot) (BSIZE - off mod BSIZE) in
        x ← getb bp ;
        let bs := take (Z.to_nat m) (drop (Z.to_nat (off mod BSIZE)) (b_data x)) in
        dst tot bs ;;
        brelse bp ;;
        rest ← readi_loop fuel i dst (tot + m) (u32 (off + m)) n ;
        ret (bs ++ rest)
      else ret []
  end.

(** The count returned and the bytes delivered to [dst]; a device delivers them itself.  Each
    turn but the last ends a block, so n / BSIZE + 2 turns are enough. *)
Definition readi (i : nat) (dst : sink) (off n : Z) : M (Z * list Z) :=
  ip ← geti i ;
  if i_type ip =? T_DEV then
    d ← device_of (i_major ip) ;
    match d with
    | None => ret (-1, [])
    | Some State.Console => r ← consoleread i dst (s32 n) ; ret (r, [])
    end
  else
  if (i_size ip <? off) || (u32 (off + n) <? off) then ret (-1, []) else
  let n := if i_size ip <? u32 (off + n) then i_size ip - off else n in
  bs ← readi_loop (S (Z.to_nat (n / BSIZE + 2))) i dst 0 off n ;
  ret (s32 n, bs).

(** The loop of writei: the final offset. *)
Fixpoint writei_loop (fuel : nat) (i : nat) (src : source) (tot off n : Z) : M Z :=
  match fuel with
  | O => nofuel
  | S fuel =>
      if tot <? n then
        ip ← geti i ;
        bn ← bmap i (off / BSIZE) ;
        bp ← bread (i_dev ip) bn ;
        let m := Z.min (n - tot) (BSIZE - off mod BSIZE) in
        bs ← src tot m ;
        set_data bp (fun d => wr_bytes d (off mod BSIZE) bs) ;;
        log_write bp ;;
        brelse bp ;;
        writei_loop fuel i src (tot + m) (u32 (off + m)) n
      else ret off
  end.

Definition writei (i : nat) (src : source) (off n : Z) : M Z :=
  ip ← geti i ;
  if i_type ip =? T_DEV then
    d ← device_of (i_major ip) ;
    match d with
    | None => ret (-1)
    | Some State.Console => consolewrite i src (s32 n)
    end
  else
  if (i_size ip <? off) || (u32 (off + n) <? off) then ret (-1) else
  if MAXFILE * BSIZE <? u32 (off + n) then ret (-1) else
  off ← writei_loop (S (Z.to_nat (n / BSIZE + 2))) i src 0 off n ;
  ip ← geti i ;
  when ((0 <? n) && (i_size ip <? off))
    (seti i (fun ip => ip <| i_size := off |>) ;;
     iupdate i) ;;
  ret (s32 n).

(** ** Directories *)

(** strncmp on byte strings; past its end a string reads zero. *)
Fixpoint strncmp_list (n : nat) (p q : list Z) : Z :=
  match n with
  | O => 0
  | S n =>
      let a := nthz 0 p 0 in
      let b := nthz 0 q 0 in
      if negb (a =? 0) && (a =? b) then strncmp_list n (tail p) (tail q) else a - b
  end.

Definition namecmp (s t : list Z) : Z := strncmp_list (Z.to_nat DIRSIZ) s t.

(** struct dirent in its 16 bytes. *)
Definition dirent_size : Z := 16.
Definition de_inum (de : list Z) : Z := rd16 de 0.
Definition de_name (de : list Z) : list Z := take (Z.to_nat DIRSIZ) (drop 2 de).

(** strncpy(de.name, name, DIRSIZ) *)
Fixpoint strncpy_list (n : nat) (m : list Z) : list Z :=
  match n with
  | O => []
  | S n => let c := nthz 0 m 0 in c :: strncpy_list n (if c =? 0 then [] else tail m)
  end.
Definition mk_dirent (inum : Z) (name : list Z) : list Z :=
  bytes16 inum ++ strncpy_list (Z.to_nat DIRSIZ) name.

(** The offsets [lo, lo + 16, ...] below [size]. *)
Definition dir_offsets (lo size : Z) : list Z :=
  (fun k => lo + dirent_size * k) <$> range 0 ((size - lo + dirent_size - 1) / dirent_size).

(** The entry at [off]; a short read is a corrupt directory. *)
Definition read_dirent (msg : string) (i : nat) (off : Z) : M (list Z) :=
  r ← readi i no_sink off dirent_size ;
  if negb (fst r =? dirent_size) then panic msg else ret (snd r).

(** The inode found and the offset of its entry. *)
Definition dirlookup (dp : nat) (name : list Z) : M (option (nat * Z)) :=
  d ← geti dp ;
  if negb (i_type d =? T_DIR) then panic "dirlookup not DIR" else
  for_until (dir_offsets 0 (i_size d)) (fun off =>
    de ← read_dirent "dirlookup read" dp off ;
    if de_inum de =? 0 then ret None else
    if namecmp name (de_name de) =? 0 then
      d ← geti dp ;
      ip ← iget (i_dev d) (de_inum de) ;
      ret (Some (ip, off))
    else ret None).

Definition dirlink (dp : nat) (name : list Z) (inum : Z) : M Z :=
  r ← dirlookup dp name ;
  match r with
  | Some (ip, _) => iput ip ;; ret (-1)
  | None =>
      d ← geti dp ;
      free ← for_until (dir_offsets 0 (i_size d)) (fun off =>
               de ← read_dirent "dirlink read" dp off ;
               if de_inum de =? 0 then ret (Some off) else ret None) ;
      let off := default (dirent_size * ((i_size d + dirent_size - 1) / dirent_size)) free in
      r ← writei dp (bytes_source (mk_dirent inum name)) off dirent_size ;
      if negb (r =? dirent_size) then panic "dirlink" else ret 0
  end.

(** ** Paths *)

Definition slash : Z := 47.

Fixpoint skip_slashes (path : list Z) : list Z :=
  match path with
  | c :: rest => if c =? slash then skip_slashes rest else path
  | [] => []
  end.

Fixpoint split_elem (path : list Z) : list Z * list Z :=
  match path with
  | c :: rest => if c =? slash then ([], path)
                 else let '(s, r) := split_elem rest in (c :: s, r)
  | [] => ([], [])
  end.

(** The rest of the path and the new contents of [name], a buffer of DIRSIZ bytes. *)
Definition skipelem (path name : list Z) : option (list Z * list Z) :=
  match skip_slashes path with
  | [] => None
  | path =>
      let '(s, rest) := split_elem path in
      let name := if DIRSIZ <=? Z.of_nat (length s) then take (Z.to_nat DIRSIZ) s
                  else s ++ [0] ++ drop (S (length s)) name in
      Some (skip_slashes rest, name)
  end.

(** The loop of namex from inode [ip]: the inode and the last element.  Every turn consumes
    part of the path. *)
Fixpoint namex_loop (fuel : nat) (path : list Z) (parent : bool) (name : list Z) (ip : nat)
    : M (option nat * list Z) :=
  match fuel with
  | O => nofuel
  | S fuel =>
      match skipelem path name with
      | None => if parent then iput ip ;; ret (None, name) else ret (Some ip, name)
      | Some (path, name) =>
          ilock ip ;;
          d ← geti ip ;
          if negb (i_type d =? T_DIR) then iunlockput ip ;; ret (None, name) else
          if parent && bool_decide (path = []) then iunlock ip ;; ret (Some ip, name) else
          next ← dirlookup ip name ;
          match next with
          | None => iunlockput ip ;; ret (None, name)
          | Some (next, _) => iunlockput ip ;; namex_loop fuel path parent name next
          end
      end
  end.

Definition namex (path : list Z) (parent : bool) (name : list Z) : M (option nat * list Z) :=
  ip ← (if bool_decide (head path = Some slash) then iget ROOTDEV ROOTINO
        else pr ← curproc ; cwd ← the_inode (p_cwd pr) ; idup cwd) ;
  namex_loop (S (length path)) path parent name ip.

(** [name] is the uninitialised buffer on the stack. *)
Definition namei (name path : list Z) : M (option nat) :=
  r ← namex path false name ; ret (fst r).
Definition nameiparent (path name : list Z) : M (option nat * list Z) := namex path true name.

(** ** vm.c: loading a program segment *)

Fixpoint loaduvm_loop (fuel : nat) (pgdir addr : Z) (ip : nat) (offset i sz : Z) : M Z :=
  match fuel with
  | O => nofuel
  | S fuel =>
      if i <? sz then
        pte ← walkpgdir pgdir (u32 (addr + i)) 0 ;
        if pte =? 0 then panic "loaduvm: address should exist" else
        w ← kload pte ;
        let pa := PTE_ADDR w in
        let n := if u32 (sz - i) <? PGSIZE then u32 (sz - i) else PGSIZE in
        r ← readi ip (kernel_sink (P2V pa)) (u32 (offset + i)) n ;
        if negb (u32 (fst r) =? n) then ret (-1)
        else loaduvm_loop fuel pgdir addr ip offset (u32 (i + PGSIZE)) sz
      else ret 0
  end.

Definition loaduvm (pgdir addr : Z) (ip : nat) (offset sz : Z) : M Z :=
  if negb (addr mod PGSIZE =? 0) then panic "loaduvm: addr must be page aligned" else
  loaduvm_loop (S (Z.to_nat (sz / PGSIZE + 1))) pgdir addr ip offset 0 sz.

End driver.
