(* ===== verification/Mkfs.v ===== *)
(** * mkfs.c: the initial disk image

    mkfs writes the image block by block.  Its state is the image file and the two counters from
    which it allocates inodes and blocks; it ends early, without an image, when an assertion or an
    access to a file fails. *)

From stdpp Require Import base list gmap strings fin_maps.
From S2P Require Import Prelude State Monad Disk Log Inode ConsoleDev Fs.
Open Scope Z_scope.

Record mkst := mkMk { mk_img : list (list Z); freeinode : Z; freeblock : Z }.
#[export] Instance eta_mkst : Eta mkst := fun s => mkMk (mk_img s) (freeinode s) (freeblock s).

(** ** Computations of mkfs *)

Definition P (A : Type) : Type := mkst -> option (A * mkst).
Definition pret {A} (a : A) : P A := fun s => Some (a, s).
Definition pbind {A B} (m : P A) (f : A -> P B) : P B := fun s =>
  match m s with Some (a, s') => f a s' | None => None end.
Definition pexit {A} : P A := fun _ => None.
Definition assert (b : bool) : P unit := if b then pret tt else pexit.

Declare Scope mkfs_scope.
Delimit Scope mkfs_scope with mkfs.
Notation "x ← m ; k" := (pbind m (fun x => k))
  (at level 20, m at level 100, k at level 200) : mkfs_scope.
Notation "m ;; k" := (pbind m (fun _ => k)) (at level 100, k at level 200) : mkfs_scope.

Section mkfs.
Local Open Scope mkfs_scope.

Fixpoint pfor {B} (l : list B) (body : B -> P unit) : P unit :=
  match l with
  | [] => pret tt
  | b :: l => body b ;; pfor l body
  end.

(** ** Layout *)

Definition NINODES : Z := 200.
Definition nbitmap : Z := FSSIZE / (BSIZE * 8) + 1.
Definition ninodeblocks : Z := NINODES / IPB + 1.
Definition nlog : Z := LOGSIZE.
Definition nmeta : Z := 2 + nlog + ninodeblocks + nbitmap.
Definition nblocks : Z := FSSIZE - nmeta.
Definition mk_sb : superblock :=
  mkSb FSSIZE nblocks NINODES nlog 2 (2 + nlog) (2 + nlog + ninodeblocks).

(** The value whose bytes in memory are those of [x] in the order of the target. *)
Definition xshort (x : Z) : Z := rd16 (bytes16 x) 0.
Definition xint (x : Z) : Z := rd32 (bytes32 x) 0.

(** ** Sectors of the image file *)

(** The offset sec * BSIZE is a 32-bit product. *)
Definition sector (sec : Z) : nat := Z.to_nat (u32 (sec * BSIZE) / BSIZE).

(** A write past the end leaves a hole of zeros. *)
Definition wsect (sec : Z) (buf : list Z) : P unit := fun s =>
  let i := sector sec in
  Some (tt, s <| mk_img ::= fun img =>
    if (i <? length img)%nat then <[i := buf]> img
    else img ++ replicate (i - length img) zero_block ++ [buf] |>).
Definition rsect (sec : Z) : P (list Z) := fun s =>
  match mk_img s !! sector sec with Some d => Some (d, s) | None => None end.

(** ** Inodes *)

Definition winode (inum : Z) (ip : inode) : P unit :=
  let bn := IBLOCK inum mk_sb in
  buf ← rsect bn ;
  wsect bn (store_dinode buf (dip_off inum) ip).
Definition rinode (inum : Z) : P inode :=
  buf ← rsect (IBLOCK inum mk_sb) ;
  pret (load_dinode buf (dip_off inum) zero_inode).

Definition ialloc (type : Z) : P Z := fun s =>
  let inum := freeinode s in
  (winode inum (zero_inode <| i_type := s16 (xshort type) |> <| i_nlink := s16 (xshort 1) |> <| i_size := xint 0 |>) ;;
   pret inum) (s <| freeinode := u32 (inum + 1) |>).

(** freeblock++ *)
Definition next_block : P Z := fun s =>
  Some (freeblock s, s <| freeblock := u32 (freeblock s + 1) |>).

(** ** Blocks *)

Definition set_used (buf : list Z) (i : Z) : list Z :=
  wr_bytes buf (i / 8) [Z.lor (rd8 buf (i / 8)) (Z.shiftl 1 (i mod 8))].
Definition balloc (used : Z) : P unit :=
  assert (used <? BSIZE * 8) ;;
  wsect (sb_bmapstart mk_sb) (foldl set_used zero_block (range 0 used)).

(** The block that holds block [fbn] of the file, allocated if need be. *)
Definition file_block (din : inode) (fbn : Z) : P (inode * Z) :=
  if fbn <? NDIRECT then
    din ← (if xint (nthz 0 (i_addrs din) fbn) =? 0 then
             b ← next_block ; pret (din <| i_addrs ::= <[Z.to_nat fbn := xint b]> |>)
           else pret din) ;
    pret (din, xint (nthz 0 (i_addrs din) fbn))
  else
    din ← (if xint (nthz 0 (i_addrs din) NDIRECT) =? 0 then
             b ← next_block ; pret (din <| i_addrs ::= <[Z.to_nat NDIRECT := xint b]> |>)
           else pret din) ;
    let ind := xint (nthz 0 (i_addrs din) NDIRECT) in
    indirect ← rsect ind ;
    indirect ← (if rd32 indirect (4 * (fbn - NDIRECT)) =? 0 then
                  b ← next_block ;
                  let indirect := wr32 indirect (4 * (fbn - NDIRECT)) (xint b) in
                  wsect ind indirect ;;
                  pret indirect
                else pret indirect) ;
    pret (din, xint (rd32 indirect (4 * (fbn - NDIRECT)))).

(** The loop of iappend; each turn but the last ends a block. *)
Fixpoint iappend_loop (fuel : nat) (din : inode) (off : Z) (p : list Z) : P (inode * Z) :=
  match fuel with
  | O => pexit
  | S fuel =>
      let n := Z.of_nat (length p) in
      if 0 <? n then
        let fbn := off / BSIZE in
        assert (fbn <? MAXFILE) ;;
        r ← file_block din fbn ;
        let n1 := Z.min n (u32 ((fbn + 1) * BSIZE - off)) in
        buf ← rsect (snd r) ;
        wsect (snd r) (wr_bytes buf (u32 (off - fbn * BSIZE)) (take (Z.to_nat n1) p)) ;;
        iappend_loop fuel (fst r) (u32 (off + n1)) (drop (Z.to_nat n1) p)
      else pret (din, off)
  end.

Definition iappend (inum : Z) (p : list Z) : P unit :=
  din ← rinode inum ;
  r ← iappend_loop (S (Z.to_nat (Z.of_nat (length p) / BSIZE + 2))) din (xint (i_size din)) p ;
  winode inum ((fst r) <| i_size := xint (snd r) |>).

(** ** main *)

Definition dirent (inum : Z) (name : list Z) : list Z := mk_dirent (xshort inum) name.
Definition dot : Z := 46.
Definition underscore : Z := 95.

(** read(fd, buf, BSIZE) until the end of the file. *)
Fixpoint chunks (fuel : nat) (bs : list Z) : list (list Z) :=
  match fuel with
  | O => []
  | S fuel => match bs with
              | [] => []
              | _ => take (Z.to_nat BSIZE) bs :: chunks fuel (drop (Z.to_nat BSIZE) bs)
              end
  end.
Definition reads (bs : list Z) : list (list Z) := chunks (length bs) bs.

Definition strip (name : list Z) : list Z :=
  match name with c :: rest => if c =? underscore then rest else name | [] => [] end.

(** One file of the command line: its name and its contents. *)
Definition add_file (rootino : Z) (f : list Z * list Z) : P unit :=
  assert (forallb (fun c => negb (c =? slash)) (fst f)) ;;
  inum ← ialloc T_FILE ;
  iappend rootino (dirent inum (strip (fst f))) ;;
  pfor (reads (snd f)) (iappend inum).

Definition fix_root (rootino : Z) : P unit :=
  din ← rinode rootino ;
  let off := xint (i_size din) in
  winode rootino (din <| i_size := xint (u32 ((off / BSIZE + 1) * BSIZE)) |>).

Definition sb_bytes : list Z :=
  foldl (fun d p => wr32 d (4 * fst p) (xint (snd p))) zero_block
    (zip (range 0 7) [sb_size mk_sb; sb_nblocks mk_sb; sb_ninodes mk_sb; sb_nlog mk_sb; sb_logstart mk_sb;
                      sb_inodestart mk_sb; sb_bmapstart mk_sb]).

Definition main (files : list (list Z * list Z)) : P unit :=
  (fun s => Some (tt, s <| freeblock := nmeta |>)) ;;
  pfor (range 0 FSSIZE) (fun i => wsect i zero_block) ;;
  wsect 1 sb_bytes ;;
  rootino ← ialloc T_DIR ;
  assert (rootino =? ROOTINO) ;;
  iappend rootino (dirent rootino [dot]) ;;
  iappend rootino (dirent rootino [dot; dot]) ;;
  pfor files (add_file rootino) ;;
  fix_root rootino ;;
  (fun s => balloc (freeblock s) s).

(** The image of [files]; the file starts empty. *)
Definition mkfs (files : list (list Z * list Z)) : option mkst :=
  snd <$> main files (mkMk [] 1 0).

End mkfs.
