(* ===== verification/FileProofs.v ===== *)
(** * The contents of files

    A file is a sequence of blocks, twelve named in its inode and the others in its indirect
    block.  bmap adds blocks without changing the contents; readi returns the contents, and
    writei changes them. *)

From stdpp Require Import base list gmap strings fin_maps.
From S2P Require Import Prelude State Monad Spinlock Console Kalloc Str Vm VmProofs VmUser Umem Sched Sleeplock Calm.
From S2P Require Import Disk Bio BioProofs Log LogLayout LogProofs Inode BlockProofs InodeProofs ConsoleDev Fs.
Open Scope Z_scope.

Section ops.
Context {dv : BlockDriver} {nblk : Z} {up : diskst -> Prop} {Hdrv : DriverOk dv nblk up}.
Context (p : nat) (pr : proc) (s0 : kstate) (Hcalm : calm p pr s0).
Context (start sz : Z) (Hg : geometry nblk start sz).
Context (sb0 : superblock) (Hfs : fs_geom (nblk := nblk) start sz sb0).
Notation run := (mrun s0).
Notation cached := (cache (p_pid pr) nblk up).
Notation home := (home nblk start sz).
Notation in_op := (in_op (nblk := nblk) (up := up) pr start sz).
Notation room := (room sz).
Notation marked := (marked (nblk := nblk) start sz sb0).

(** ** Blocks of a file *)

Definition ind (ip : inode) : Z := nthz 0 (i_addrs ip) NDIRECT.
(** The block that holds block [n] of the file; 0 if there is none. *)
Definition faddr (V : Z -> list Z) (ip : inode) (n : Z) : Z :=
  if n <? NDIRECT then nthz 0 (i_addrs ip) n
  else if ind ip =? 0 then 0 else rd32 (V (ind ip)) (4 * (n - NDIRECT)).
(** Byte [j] of the file. *)
Definition content (V : Z -> list Z) (ip : inode) (j : Z) : Z :=
  let a := faddr V ip (j / BSIZE) in if a =? 0 then 0 else rd8 (V a) (j mod BSIZE).

Definition inr (n : Z) : Prop := 0 <= n < MAXFILE.
Definition used (V : Z -> list Z) (a : Z) : Prop :=
  0 < a < sb_size sb0 /\ home a /\ ~ meta sb0 a /\ bit V sb0 a = true.
Definition fresh (V : Z -> list Z) (b : Z) : Prop := 0 <= b < sb_size sb0 /\ bit V sb0 b = false.
Definition bmap_block (k : Z) : Prop := exists b, 0 <= b < sb_size sb0 /\ BBLOCK b sb0 = k.

Record file_ok (V : Z -> list Z) (ip : inode) : Prop := {
  fo_dev : i_dev ip = 1;
  fo_len : length (i_addrs ip) = Z.to_nat (NDIRECT + 1);
  fo_used : forall n, inr n -> faddr V ip n <> 0 -> used V (faddr V ip n);
  fo_ind : ind ip <> 0 -> used V (ind ip);
  fo_apart : forall n, inr n -> faddr V ip n <> 0 -> faddr V ip n <> ind ip;
  fo_inj : forall n m, inr n -> inr m -> faddr V ip n = faddr V ip m -> faddr V ip n <> 0 -> n = m
}.

(** More blocks, [c] the bytes of the file, and nothing else changed. *)
Record changes (V : Z -> list Z) (ip : inode) (V' : Z -> list Z) (ip' : inode) (c : Z -> Z) : Prop := {
  gr_file : file_ok V' ip';
  gr_marked : marked V';
  gr_same : ip' = ip <| i_addrs := i_addrs ip' |>;
  gr_addr : forall m, inr m -> faddr V' ip' m = faddr V ip m \/ faddr V ip m = 0 /\ fresh V (faddr V' ip' m);
  gr_ind : ind ip' = ind ip \/ ind ip = 0 /\ fresh V (ind ip');
  gr_content : forall j, inr (j / BSIZE) -> content V' ip' j = c j;
  gr_bit : forall k, 0 <= k < sb_size sb0 -> bit V sb0 k = true -> bit V' sb0 k = true;
  gr_other : forall k, ~ bmap_block k -> (0 <= k < sb_size sb0 -> bit V sb0 k = true) -> k <> ind ip ->
    (forall m, inr m -> faddr V ip m <> k) -> V' k = V k
}.

Notation grows V ip V' ip' := (changes V ip V' ip' (content V ip)).

Lemma grows_none V ip : file_ok V ip -> marked V -> grows V ip V ip.
Proof. intros H1 H2. split; try done; [by destruct ip| |]; by left. Qed.

Lemma changes_trans V ip V1 ip1 c1 V2 ip2 c2 :
  changes V ip V1 ip1 c1 -> changes V1 ip1 V2 ip2 c2 -> changes V ip V2 ip2 c2.
Proof.
  intros [A1 A2 A3 A4 A5 A6 A7 A8] [B1 B2 B3 B4 B5 B6 B7 B8].
  assert (forall b, fresh V1 b -> fresh V b) as Hfr.
  { intros b [Hb Hbit]. split; [done|]. destruct (bit V sb0 b) eqn:E; [|done]. rewrite (A7 b Hb E) in Hbit. done. }
  split; try done.
  - rewrite B3, A3. done.
  - intros m Hm. destruct (B4 m Hm) as [E|[E1 E2]]; [rewrite E; by apply A4|].
    destruct (A4 m Hm) as [E3|[E3 E4]]; [right; split; [congruence|by apply Hfr]|].
    destruct E4 as [_ E4]. right. split; [done|by apply Hfr].
  - destruct B5 as [E|[E1 E2]]; [rewrite E; done|]. right.
    destruct A5 as [E3|[E3 _]]; (split; [congruence|by apply Hfr]).
  - intros k Hk Hbit. by apply B7, A7.
  - intros k Hk Hbit Hi Hf. rewrite <-(A8 k Hk Hbit Hi Hf). apply B8; [done| | |].
    + intros Hr. by apply A7, Hbit.
    + destruct A5 as [E|[_ [Hr Hb]]]; [by rewrite E|]. intros ->. rewrite Hbit in Hb by done. done.
    + intros m Hm. destruct (A4 m Hm) as [E|[_ [Hr Hb]]]; [rewrite E; by apply Hf|].
      intros E. rewrite E in Hr, Hb. rewrite Hbit in Hb by done. done.
Qed.

Lemma changes_ext V ip V' ip' c c' :
  (forall j, inr (j / BSIZE) -> c j = c' j) -> changes V ip V' ip' c -> changes V ip V' ip' c'.
Proof. intros E []. split; try done. intros j Hj. by rewrite <-E, gr_content0. Qed.
Lemma grows_more V ip V1 ip1 V2 ip2 : grows V ip V1 ip1 -> grows V1 ip1 V2 ip2 -> grows V ip V2 ip2.
Proof. intros H1 H2. eapply changes_ext; [|by eapply changes_trans]. intros j Hj. by apply (gr_content _ _ _ _ _ H1). Qed.

Lemma rd8_zero j : rd8 zero_block j = 0.
Proof.
  unfold rd8, nthz, zero_block. destruct (j <? 0); [done|].
  destruct (replicate _ 0 !! Z.to_nat j) eqn:E; [|done]. by apply lookup_replicate in E as [-> _].
Qed.
Lemma used_not_fresh V a b : used V a -> fresh V b -> a <> b.
Proof. intros (H1 & _ & _ & H2) [H3 H4] ->. congruence. Qed.
Lemma used_not_bmap V a : used V a -> ~ bmap_block a.
Proof. intros (_ & _ & Hm & _) (b & Hb & E). apply Hm. left. by exists b. Qed.
Lemma fresh_data V b : marked V -> fresh V b -> 1 < b < sb_size sb0 /\ home b /\ ~ meta sb0 b.
Proof. intros Hm [Hb Hbit]. destruct (Hm b Hb Hbit) as (H1 & H2 & H3). split_and!; try done; lia. Qed.

(** One block [b] more, at [n]. *)
Lemma grow_one V ip V' ip' n b :
  file_ok V ip -> marked V -> fresh V b -> inr n -> faddr V ip n = 0 ->
  ip' = ip <| i_addrs := i_addrs ip' |> -> length (i_addrs ip') = Z.to_nat (NDIRECT + 1) -> ind ip' = ind ip ->
  (forall m, inr m -> faddr V' ip' m = if decide (m = n) then b else faddr V ip m) ->
  V' b = zero_block -> (forall k, 0 <= k < sb_size sb0 -> bit V' sb0 k = (b =? k) || bit V sb0 k) ->
  (forall k, k <> b -> ~ bmap_block k -> k <> ind ip -> V' k = V k) ->
  grows V ip V' ip'.
Proof.
  intros Hf Hm Hb Hn Hn0 Hsame Hlen Hind Ha Hz Hbit Hv. destruct (fresh_data V b Hm Hb) as (Hb1 & Hb2 & Hb3).
  assert (forall a, used V a -> used V' a) as Huse.
  { intros a (H1 & H2 & H3 & H4). split_and!; try done; try lia. rewrite Hbit, H4 by lia. apply orb_true_r. }
  assert (used V' b) as Hub by (split_and!; try done; try lia; rewrite Hbit, Z.eqb_refl by lia; done).
  assert (b <> ind ip) as Hbi.
  { destruct (decide (ind ip = 0)) as [->|Hi]; [lia|]. intros ->. by apply (used_not_fresh V (ind ip) (ind ip) (fo_ind _ _ Hf Hi)). }
  assert (forall m, inr m -> faddr V ip m <> 0 -> faddr V ip m <> b) as Hab.
  { intros m Hmr Hm0. eapply used_not_fresh; [by apply (fo_used _ _ Hf)|done]. }
  split.
  - split; try done.
    + rewrite Hsame. apply Hf.
    + intros m Hmr. rewrite Ha by done. destruct (decide (m = n)); [done|]. intros H0. by apply Huse, (fo_used _ _ Hf).
    + rewrite Hind. intros H0. by apply Huse, (fo_ind _ _ Hf).
    + intros m Hmr. rewrite Ha, Hind by done. destruct (decide (m = n)); [done|]. by apply (fo_apart _ _ Hf).
    + intros m m' Hmr Hmr'. rewrite !Ha by done. destruct (decide (m = n)), (decide (m' = n)); [congruence|..].
      * intros E H0. exfalso. apply (Hab m'); congruence.
      * intros E H0. exfalso. apply (Hab m); congruence.
      * by apply (fo_inj _ _ Hf).
  - intros k Hk. rewrite Hbit by done. intros [_ H]%orb_false_iff. by apply Hm.
  - done.
  - intros m Hmr. rewrite Ha by done. destruct (decide (m = n)) as [->|]; [right|left]; done.
  - by left.
  - intros j Hj. unfold content. rewrite Ha by done. destruct (decide (j / BSIZE = n)) as [En|En].
    + rewrite En, Hn0, Hz, rd8_zero. by destruct (_ =? 0).
    + destruct (Z.eqb_spec (faddr V ip (j / BSIZE)) 0) as [|H0]; [done|].
      rewrite Hv; [done|by apply Hab| |by apply (fo_apart _ _ Hf)]. eapply used_not_bmap, (fo_used _ _ Hf); done.
  - intros k Hk Hbk. rewrite Hbit, Hbk by done. apply orb_true_r.
  - intros k Hk1 Hk2 Hk3 Hk4. apply Hv; [|done|done]. intros ->. destruct Hb as [Hb Hb']. rewrite Hk2 in Hb' by done. done.
Qed.

(** ** Free blocks *)

Definition free_blocks (V : Z -> list Z) (n : nat) : Prop :=
  exists l, NoDup l /\ length l = n /\ forall b, b ∈ l -> fresh V b.

Lemma free_blocks_ext V V' n :
  (forall b, fresh V b -> fresh V' b) -> free_blocks V n -> free_blocks V' n.
Proof. intros H (l & H1 & H2 & H3). exists l. split_and!; [done..|]. intros b Hb. by apply H, H3. Qed.
Lemma free_blocks_S V n : free_blocks V (S n) -> exists b, fresh V b.
Proof. intros ([|b l] & _ & E & H); [done|]. exists b. apply H. by left. Qed.
Lemma free_blocks_le V n m : (n <= m)%nat -> free_blocks V m -> free_blocks V n.
Proof.
  intros Hle (l & H1 & H2 & H3). exists (take n l). split_and!.
  - eapply sublist_NoDup; [done|apply sublist_take].
  - rewrite length_take. lia.
  - intros b Hb. apply H3. by eapply subseteq_take.
Qed.
Lemma filter_ne_length (b : Z) l : NoDup l -> (length l <= S (length (filter (fun k : Z => k <> b) l)))%nat.
Proof.
  assert (forall l : list Z, b ∉ l -> (filter (fun k : Z => k <> b) l : list Z) = l) as Hid.
  { intros l'. induction l' as [|a l' IH]; [done|]. intros [H1 H2]%not_elem_of_cons.
    rewrite filter_cons_True by done. by rewrite IH. }
  induction l as [|a l IH]; intros Hd; [cbn; lia|]. apply NoDup_cons in Hd as [Ha Hd].
  destruct (decide (a = b)) as [->|Hne].
  - rewrite filter_cons_False, Hid by tauto. cbn. lia.
  - rewrite filter_cons_True by done. cbn. specialize (IH Hd). lia.
Qed.
Lemma free_blocks_use V V' n b :
  (forall k, 0 <= k < sb_size sb0 -> bit V' sb0 k = (b =? k) || bit V sb0 k) ->
  free_blocks V (S n) -> free_blocks V' n.
Proof.
  intros Hbit (l & H1 & H2 & H3). pose proof (filter_ne_length b l H1).
  apply (free_blocks_le V' n (length (filter (fun k => k <> b) l))); [lia|].
  exists (filter (fun k => k <> b) l). split_and!; [by apply NoDup_filter|done|].
  intros k [Hk Hin]%list_elem_of_filter. destruct (H3 k Hin) as [Hr Hb]. split; [done|].
  rewrite Hbit, Hb by done. destruct (Z.eqb_spec b k); [congruence|done].
Qed.

(** ** The state of an operation on inode [i] *)

Record fop (x : fsys) (V : Z -> list Z) (hs : list Z) (L : gmap nat Z) (i : nat) (ip : inode) : Prop := {
  fp_op : in_op x V hs L;
  fp_sb : sb (ff x) = sb0;
  fp_marked : marked V;
  fp_held : held_marked sb0 V L;
  fp_file : file_ok V ip;
  fp_inode : icache (ff x) !! i = Some ip
}.

(** Only buffers, their locks, the log, and cached inode [i] have changed. *)
Record iframe (i : nat) (x x' : fsys) : Prop := {
  if_ff : ff x' = (ff x) <| bufs := bufs (ff x') |> <| logs := logs (ff x') |> <| icache := icache (ff x') |>;
  if_other : forall j, j <> i -> icache (ff x') !! j = icache (ff x) !! j;
  if_fl : forall sl, buf_lock sl = false -> fl x' !! sl = fl x !! sl;
  if_log : lg_outstanding (logs (ff x')) = lg_outstanding (logs (ff x)) /\
           lg_committing (logs (ff x')) = lg_committing (logs (ff x));
  if_fd : fd x' = fd x
}.
#[local] Instance iframe_po i : PreOrder (iframe i).
Proof.
  split.
  - intros x. split; [|done..]. by destruct x as [? [] ?].
  - intros x y z [A1 A2 A3 A4 A5] [B1 B2 B3 B4 B5]. split.
    + rewrite B1, A1. done.
    + intros j Hj. by rewrite B2, A2.
    + intros sl Hsl. by rewrite B3, A3.
    + destruct A4, B4. split; congruence.
    + congruence.
Qed.
Lemma oframe_iframe i x x' : oframe x x' -> iframe i x x'.
Proof. intros [[[E1 E2] E4 E5] E3]. split; [|by rewrite E1|done|done|done]. rewrite E1. by destruct x as [? [] ?]. Qed.
Lemma on_inode_iframe i f x : iframe i x (on_inode i f x).
Proof. split; [by destruct x as [? [] ?]| |done|done|done]. intros j Hj. cbn. by rewrite list_lookup_alter_ne. Qed.
Lemma iframe_sb i x x' : iframe i x x' -> sb (ff x') = sb (ff x).
Proof. intros [E _ _ _ _]. by rewrite E. Qed.

Lemma nthz_insert (l : list Z) n v m :
  0 <= n < Z.of_nat (length l) -> 0 <= m -> nthz 0 (<[Z.to_nat n := v]> l) m = if decide (m = n) then v else nthz 0 l m.
Proof.
  intros Hn Hm. unfold nthz. destruct (Z.ltb_spec m 0); [lia|]. destruct (decide (m = n)) as [->|Hne].
  - by rewrite list_lookup_insert_eq by lia.
  - by rewrite list_lookup_insert_ne by lia.
Qed.

(** balloc in the middle of an operation. *)
Lemma fop_balloc x V hs L i ip n :
  fop x V hs L i ip -> free_blocks V (S n) -> room 2 hs -> (length hs + 2 + size L <= bhead)%nat ->
  exists b x', run (balloc 1) x b x' /\ fresh V b /\ in_op x' (allocated sb0 V b) (alloc_log sb0 b hs) L /\ oframe x x' /\
    (forall k, 0 <= k < sb_size sb0 -> bit (allocated sb0 V b) sb0 k = (b =? k) || bit V sb0 k) /\
    marked (allocated sb0 V b) /\ free_blocks (allocated sb0 V b) n.
Proof.
  intros [Ho Hsb Hm HL Hf Hi] Hfree Hr Hs. destruct (free_blocks_S V n Hfree) as [b0 Hb0].
  destruct (balloc_run p pr s0 Hcalm start sz Hg x V hs L sb0 Ho Hfs Hm HL Hsb) as (b & x' & R & Hb & Hbit & O & F);
    [by exists b0|done|done|].
  assert (forall k, 0 <= k < sb_size sb0 -> bit (allocated sb0 V b) sb0 k = (b =? k) || bit V sb0 k) as Hbits.
  { intros k Hk. by eapply allocated_bit. }
  exists b, x'. split_and!; try done.
  - by eapply allocated_marked.
  - by eapply free_blocks_use.
Qed.

Definition with_addr (n v : Z) (ip : inode) : inode := ip <| i_addrs ::= <[Z.to_nat n := v]> |>.

Lemma allocated_used V b k : fresh V b -> used V k -> allocated sb0 V b k = V k.
Proof.
  intros Hb Hu. apply allocated_other; [by eapply used_not_fresh|]. intros ->.
  apply (used_not_bmap _ _ Hu). exists b. split; [apply Hb|done].
Qed.
Lemma addrs_bound ip n : length (i_addrs ip) = Z.to_nat (NDIRECT + 1) -> 0 <= n <= NDIRECT -> 0 <= n < Z.of_nat (length (i_addrs ip)).
Proof. change NDIRECT with 12. intros -> Hn. lia. Qed.

(** A direct block. *)
Lemma grows_direct V ip b n :
  file_ok V ip -> marked V -> fresh V b -> 0 <= n < NDIRECT -> faddr V ip n = 0 ->
  (forall k, 0 <= k < sb_size sb0 -> bit (allocated sb0 V b) sb0 k = (b =? k) || bit V sb0 k) ->
  grows V ip (allocated sb0 V b) (with_addr n b ip) /\ faddr (allocated sb0 V b) (with_addr n b ip) n = b.
Proof.
  intros Hf Hm Hb Hn H0 Hbit. pose proof (addrs_bound ip n (fo_len _ _ Hf) ltac:(lia)) as Hbd.
  assert (forall m, 0 <= m -> nthz 0 (i_addrs (with_addr n b ip)) m = if decide (m = n) then b else nthz 0 (i_addrs ip) m) as Hnth.
  { intros m Hm'. by apply nthz_insert. }
  assert (ind (with_addr n b ip) = ind ip) as Hi.
  { unfold ind. rewrite Hnth by (change NDIRECT with 12; lia). by rewrite decide_False by lia. }
  assert (forall m, inr m -> faddr (allocated sb0 V b) (with_addr n b ip) m = if decide (m = n) then b else faddr V ip m) as Ha.
  { intros m [Hm0 _]. unfold faddr. rewrite Hi. destruct (Z.ltb_spec m NDIRECT); [by apply Hnth|].
    rewrite decide_False by lia. destruct (Z.eqb_spec (ind ip) 0); [done|].
    rewrite allocated_used; [done|done|by apply (fo_ind _ _ Hf)]. }
  assert (inr n) as Hnr by (unfold inr, MAXFILE; change NDIRECT with 12 in *; change NINDIRECT with 128; lia).
  split.
  - apply (grow_one V ip _ _ n b); try done.
    + cbn. rewrite length_insert. apply Hf.
    + apply allocated_new.
    + intros k Hk1 Hk2 _. apply allocated_other; [done|]. intros ->. apply Hk2. exists b. split; [apply Hb|done].
  - rewrite Ha by done. by rewrite decide_True.
Qed.

(** The indirect block. *)
Lemma rd32_zero j : rd32 zero_block j = 0.
Proof. unfold rd32. by rewrite !rd8_zero. Qed.

Lemma grows_ind V ip b :
  file_ok V ip -> marked V -> fresh V b -> ind ip = 0 ->
  (forall k, 0 <= k < sb_size sb0 -> bit (allocated sb0 V b) sb0 k = (b =? k) || bit V sb0 k) ->
  grows V ip (allocated sb0 V b) (with_addr NDIRECT b ip) /\ ind (with_addr NDIRECT b ip) = b.
Proof.
  intros Hf Hm Hb H0 Hbit. pose proof (addrs_bound ip NDIRECT (fo_len _ _ Hf) ltac:(by split)) as Hbd.
  destruct (fresh_data V b Hm Hb) as (Hb1 & Hb2 & Hb3).
  assert (forall m, 0 <= m -> nthz 0 (i_addrs (with_addr NDIRECT b ip)) m = if decide (m = NDIRECT) then b else nthz 0 (i_addrs ip) m) as Hnth.
  { intros m Hm'. by apply nthz_insert. }
  assert (ind (with_addr NDIRECT b ip) = b) as Hi.
  { unfold ind. rewrite Hnth by done. by rewrite decide_True. }
  assert (forall m, inr m -> faddr (allocated sb0 V b) (with_addr NDIRECT b ip) m = faddr V ip m) as Ha.
  { intros m [Hm0 _]. unfold faddr. rewrite Hi, H0. destruct (Z.ltb_spec m NDIRECT).
    - rewrite Hnth by done. by rewrite decide_False by lia.
    - destruct (Z.eqb_spec b 0); [lia|]. rewrite allocated_new. apply rd32_zero. }
  assert (forall a, used V a -> used (allocated sb0 V b) a) as Huse.
  { intros a (A1 & A2 & A3 & A4). split_and!; try done; try lia. rewrite Hbit, A4 by lia. apply orb_true_r. }
  split; [|done]. split; try done.
  - split; try done.
    + apply Hf.
    + cbn. rewrite length_insert. apply Hf.
    + intros m Hmr. rewrite Ha by done. intros Hm0. by apply Huse, (fo_used _ _ Hf).
    + rewrite Hi. intros _. split_and!; try done; try lia. rewrite Hbit, Z.eqb_refl by lia. done.
    + intros m Hmr. rewrite Ha, Hi by done. intros Hm0. eapply used_not_fresh; [by apply (fo_used _ _ Hf)|done].
    + intros m m' Hmr Hmr'. rewrite !Ha by done. by apply (fo_inj _ _ Hf).
  - intros k Hk. rewrite Hbit by done. intros [_ H]%orb_false_iff. by apply Hm.
  - intros m Hmr. left. by apply Ha.
  - right. by rewrite Hi.
  - intros j Hj. unfold content. rewrite Ha by done. destruct (Z.eqb_spec (faddr V ip (j / BSIZE)) 0); [done|].
    rewrite allocated_used; [done|done|by apply (fo_used _ _ Hf)].
  - intros k Hk Hbk. rewrite Hbit, Hbk by done. apply orb_true_r.
  - intros k Hk1 Hk2 Hk3 Hk4. apply allocated_other.
    + intros ->. destruct Hb as [Hb Hb']. rewrite Hk2 in Hb' by done. done.
    + intros ->. apply Hk1. exists b. split; [apply Hb|done].
Qed.

(** An entry of the indirect block. *)
Definition entered (V : Z -> list Z) (ip : inode) (n b : Z) : Z -> list Z :=
  vset V (ind ip) (wr32 (V (ind ip)) (4 * (n - NDIRECT)) b).

Lemma grows_entry V ip b n :
  file_ok V ip -> marked V -> fresh V b -> ind ip <> 0 -> NDIRECT <= n < MAXFILE -> faddr V ip n = 0 ->
  length (V (ind ip)) = Z.to_nat BSIZE ->
  (forall k, 0 <= k < sb_size sb0 -> bit (allocated sb0 V b) sb0 k = (b =? k) || bit V sb0 k) ->
  let V' := entered (allocated sb0 V b) ip n b in
  grows V ip V' ip /\ faddr V' ip n = b /\
  (forall k, 0 <= k < sb_size sb0 -> bit V' sb0 k = bit (allocated sb0 V b) sb0 k).
Proof.
  change NDIRECT with 12. change MAXFILE with 140. change (Z.to_nat BSIZE) with 512%nat.
  intros Hf Hm Hb Hi Hn H0 Hl Hbit V'.
  destruct (fresh_data V b Hm Hb) as (Hb1 & Hb2 & Hb3). pose proof (fo_ind _ _ Hf Hi) as Hiu.
  assert (V' (ind ip) = wr32 (V (ind ip)) (4 * (n - 12)) b) as Hvi.
  { unfold V', entered. change NDIRECT with 12. rewrite vset_eq, allocated_used; done. }
  assert (forall m, inr m -> faddr V' ip m = if decide (m = n) then b else faddr V ip m) as Ha.
  { unfold inr. change MAXFILE with 140. intros m Hmr. unfold faddr. change NDIRECT with 12.
    destruct (Z.ltb_spec m 12); [by rewrite decide_False by lia|].
    destruct (Z.eqb_spec (ind ip) 0); [done|]. rewrite Hvi. destruct (decide (m = n)) as [->|Hne].
    - rewrite rd32_wr32 by (rewrite ?Hl; lia). apply u32_small. pose proof (fg_size _ _ sb0 Hfs). unfold geometry in Hg. cint.
    - rewrite rd32_wr32_ne by (rewrite ?Hl; lia). done. }
  assert (forall k, 0 <= k < sb_size sb0 -> bit V' sb0 k = bit (allocated sb0 V b) sb0 k) as Hbv.
  { intros k Hk. unfold bit, V', entered. rewrite vset_ne; [done|]. intros E. apply (used_not_bmap _ _ Hiu). by exists k. }
  assert (inr n) as Hnr by (unfold inr; change MAXFILE with 140; lia).
  split_and!; [|rewrite Ha by done; by rewrite decide_True|done].
  apply (grow_one V ip _ _ n b); try done.
  - by destruct ip.
  - apply Hf.
  - unfold V', entered. rewrite vset_ne; [apply allocated_new|]. intros ->. by apply (used_not_fresh V (ind ip) (ind ip)).
  - intros k Hk. by rewrite Hbv, Hbit.
  - intros k Hk1 Hk2 Hk3. unfold V', entered. rewrite vset_ne by done. apply allocated_other; [done|].
    intros ->. apply Hk2. exists b. split; [apply Hb|done].
Qed.

(** ** bmap *)

Lemma get_addr_run x i ip n :
  icache (ff x) !! i = Some ip -> length (i_addrs ip) = Z.to_nat (NDIRECT + 1) -> 0 <= n <= NDIRECT ->
  run (get_addr i n) x (nthz 0 (i_addrs ip) n) x.
Proof.
  intros Hi Hl Hn. unfold get_addr. eapply mrun_bind; [by apply geti_mrun|]. unfold index, lookupz.
  destruct (lookup_lt_is_Some_2 (i_addrs ip) (Z.to_nat n)) as [a Ha]; [change NDIRECT with 12 in *; lia|].
  unfold nthz. destruct (Z.ltb_spec n 0); [lia|]. rewrite Ha. apply mrun_ret.
Qed.

(** A block that is there: the cache is only read. *)
Lemma bmap_have x V D L i ip n :
  cached x V D ∅ L -> icache (ff x) !! i = Some ip -> file_ok V ip -> inr n -> faddr V ip n <> 0 ->
  (forall j, L !! j <> Some (ind ip)) -> (size D + size L < bhead)%nat ->
  exists x', run (bmap i n) x (faddr V ip n) x' /\ cached x' V D ∅ L /\ bframe x x' /\ fd x' = fd x.
Proof.
  intros Hc Hi Hf Hn H0 HL Hs. unfold bmap. unfold inr in Hn. change MAXFILE with 140 in Hn.
  pose proof (fo_len _ _ Hf) as Hlen. unfold faddr in H0 |- *.
  destruct (Z.ltb_spec n NDIRECT) as [Hlt|Hge].
  - exists x. split_and!; try done. eapply mrun_bind; [by apply geti_mrun|]. destruct (Z.ltb_spec n NDIRECT); [|lia].
    eapply mrun_bind; [by apply get_addr_run; [| |lia]|]. destruct (Z.eqb_spec (nthz 0 (i_addrs ip) n) 0); [done|apply mrun_ret].
  - destruct (Z.eqb_spec (ind ip) 0) as [|Hi0]; [done|]. pose proof (fo_ind _ _ Hf Hi0) as (Hr & Hh & _).
    destruct (bread_run p pr s0 Hcalm (ind ip) x V D ∅ L Hc (proj1 Hh) HL) as (bp & x1 & R1 & Hbp & C1 & F1 & E1); [by right|].
    destruct (getb_held pr x1 V D ∅ _ bp _ C1 ltac:(apply lookup_insert_eq)) as (b & Hb & Ed & _).
    destruct (brelse_run p pr s0 Hcalm x1 V D ∅ _ bp _ C1 ltac:(apply lookup_insert_eq)) as (x2 & R2 & C2 & F2 & E2); [set_solver|].
    rewrite delete_insert_id in C2 by done. exists x2. split_and!; [|done|by etransitivity|congruence].
    eapply mrun_bind; [by apply geti_mrun|]. destruct (Z.ltb_spec n NDIRECT); [lia|].
    destruct (Z.ltb_spec (n - NDIRECT) NINDIRECT); [|change NDIRECT with 12 in *; change NINDIRECT with 128 in *; lia].
    eapply mrun_bind; [by apply get_addr_run|]. fold (ind ip). destruct (Z.eqb_spec (ind ip) 0); [done|].
    eapply mrun_bind; [apply mrun_ret|]. rewrite (fo_dev _ _ Hf). eapply mrun_bind; [exact R1|].
    eapply mrun_bind; [by apply getb_mrun|]. rewrite Ed.
    destruct (Z.eqb_spec (rd32 (V (ind ip)) (4 * (n - NDIRECT))) 0); [done|].
    eapply mrun_bind; [apply mrun_ret|]. eapply mrun_bind; [exact R2|apply mrun_ret].
Qed.

Lemma held_more V V' L :
  (forall k, 0 <= k < sb_size sb0 -> bit V sb0 k = true -> bit V' sb0 k = true) ->
  held_marked sb0 V L -> held_marked sb0 V' L.
Proof. intros Hb HL j k Hj. destruct (HL j k Hj) as (H1 & H2 & H3). split_and!; try done; try lia. by apply Hb. Qed.

(** A block for entry [n] of the inode. *)
Lemma addr_alloc x V hs L i ip n m :
  fop x V hs L i ip -> 0 <= n <= NDIRECT -> free_blocks V (S m) -> room 2 hs -> (length hs + 2 + size L <= bhead)%nat ->
  exists b x', run (a ← balloc (i_dev ip) ; set_addr i n a ;; ret a) x b x' /\ fresh V b /\
    in_op x' (allocated sb0 V b) (alloc_log sb0 b hs) L /\ icache (ff x') !! i = Some (with_addr n b ip) /\
    iframe i x x' /\ held_marked sb0 (allocated sb0 V b) L /\
    (forall k, 0 <= k < sb_size sb0 -> bit (allocated sb0 V b) sb0 k = (b =? k) || bit V sb0 k) /\
    free_blocks (allocated sb0 V b) m.
Proof.
  intros Hp Hn Hfree Hr Hs. destruct (fop_balloc x V hs L i ip m Hp Hfree Hr Hs)
    as (b & x1 & R1 & Hb & O1 & F1 & Hbit & _ & Hfree').
  destruct Hp as [Ho Hsb Hm HL Hf Hi].
  assert (icache (ff x1) !! i = Some ip) as Hi1 by (by rewrite (oframe_icache _ _ F1)).
  exists b, (on_inode i (with_addr n b) x1). split_and!; try done.
  - rewrite (fo_dev _ _ Hf). eapply mrun_bind; [exact R1|]. eapply mrun_bind; [apply seti_mrun|apply mrun_ret].
  - by apply in_op_inode.
  - by apply lookup_on_inode.
  - etransitivity; [by apply oframe_iframe|apply on_inode_iframe].
  - eapply held_more; [|exact HL]. intros k Hk Hbk. rewrite Hbit, Hbk by done. apply orb_true_r.
Qed.

(** An entry of the indirect block. *)
Lemma entry_alloc x V hs L i ip n m :
  fop x V hs L i ip -> ind ip <> 0 -> NDIRECT <= n < MAXFILE -> faddr V ip n = 0 -> (forall j, L !! j <> Some (ind ip)) ->
  free_blocks V (S m) -> room 3 hs -> (length hs + 3 + size L <= bhead)%nat ->
  exists b x' V' hs', run (bp ← bread 1 (ind ip) ; x ← getb bp ;
      let addr := rd32 (b_data x) (4 * (n - NDIRECT)) in
      addr ← (if addr =? 0 then
                addr ← balloc (i_dev ip) ;
                set_data bp (fun d => wr32 d (4 * (n - NDIRECT)) addr) ;;
                log_write bp ;;
                ret addr
              else ret addr) ;
      brelse bp ;; ret addr) x b x' /\
    fop x' V' hs' L i ip /\ grows V ip V' ip /\ faddr V' ip n = b /\ b <> 0 /\ oframe x x' /\
    (length hs <= length hs' <= length hs + 3)%nat /\ free_blocks V' m.
Proof.
  intros Hp Hi0 Hn H0 HL Hfree Hr Hs. pose proof Hp as [Ho Hsb Hm HLm Hf Hi].
  pose proof (fo_ind _ _ Hf Hi0) as Hiu. destruct Hiu as (Hir & Hih & Him & Hib).
  destruct (op_bread p pr s0 Hcalm start sz x V hs L (ind ip) Ho (proj1 Hih) HL) as (bp & x1 & R1 & Hbp & O1 & F1); [right; lia|].
  destruct (op_getb pr start sz x1 V hs _ bp _ O1 ltac:(apply lookup_insert_eq)) as (y & Hy & Ed).
  assert (fop x1 V hs (<[bp := ind ip]> L) i ip) as Hp1.
  { split; try done.
    - by rewrite (oframe_sb _ _ F1).
    - intros j k [[<- <-]|[_ Hj]]%lookup_insert_Some; [|by apply (HLm j k)]. split_and!; try done; lia.
    - by rewrite (oframe_icache _ _ F1). }
  destruct (fop_balloc x1 V hs _ i ip m Hp1 Hfree) as (b & x2 & R2 & Hb & O2 & F2 & Hbit & Hm2 & Hfree').
  { unfold BlockProofs.room in *. lia. }
  { rewrite map_size_insert_None by done. lia. }
  assert (length (V (ind ip)) = Z.to_nat BSIZE) as Hsz by (by eapply in_op_size; [|apply Hih]).
  pose proof (alloc_log_length sb0 b hs) as Hll.
  destruct (op_write p pr s0 Hcalm start sz Hg x2 _ _ _ bp (ind ip) (fun d => wr32 d (4 * (n - NDIRECT)) b) O2)
    as (x3 & x4 & R3 & R4 & O4 & F4).
  { apply lookup_insert_eq. }
  { done. }
  { unfold BlockProofs.room in *. lia. }
  { rewrite wr32_length. by eapply in_op_size; [|apply Hih]. }
  destruct (op_brelse p pr s0 Hcalm start sz Hg x4 _ _ _ bp _ O4 ltac:(apply lookup_insert_eq)) as (x5 & R5 & O5 & F5).
  rewrite delete_insert_id in O5 by done.
  destruct (grows_entry V ip b n Hf Hm Hb Hi0 Hn H0 Hsz Hbit) as (Hgr & Ha & Hbv).
  assert (oframe x x5) as F.
  { etransitivity; [eassumption|]. etransitivity; [exact F2|]. etransitivity; [exact F4|eassumption]. }
  exists b, x5, (entered (allocated sb0 V b) ip n b), (absorb (ind ip) (alloc_log sb0 b hs)). split_and!; try done.
  - eapply mrun_bind; [exact R1|]. eapply mrun_bind; [by apply getb_mrun|]. cbn zeta. rewrite Ed.
    unfold faddr in H0. destruct (Z.ltb_spec n NDIRECT); [lia|]. destruct (Z.eqb_spec (ind ip) 0); [done|]. rewrite H0.
    cbn [Z.eqb]. eapply mrun_bind.
    + rewrite (fo_dev _ _ Hf). eapply mrun_bind; [exact R2|]. eapply mrun_bind; [exact R3|].
      eapply mrun_bind; [exact R4|apply mrun_ret].
    + eapply mrun_bind; [exact R5|apply mrun_ret].
  - split; try done.
    + by rewrite (oframe_sb _ _ F).
    + apply Hgr.
    + eapply held_more; [|exact HLm]. apply Hgr.
    + apply Hgr.
    + by rewrite (oframe_icache _ _ F).
  - destruct (fresh_data V b Hm Hb). lia.
  - pose proof (absorb_length (ind ip) (alloc_log sb0 b hs)). lia.
  - pose proof (absorb_length (ind ip) (alloc_log sb0 b hs)). lia.
  - eapply free_blocks_ext; [|exact Hfree']. intros k [Hk Hbk]. split; [done|]. by rewrite Hbv.
Qed.

(** What bmap promises: block [n] is there afterwards, and the contents have not changed. *)
Definition mapped (x : fsys) (V : Z -> list Z) (hs : list Z) (L : gmap nat Z) (i : nat) (ip : inode) (n : Z) (m : nat)
    (c : M Z) : Prop :=
  exists x' V' hs' ip', run c x (faddr V' ip' n) x' /\ fop x' V' hs' L i ip' /\ grows V ip V' ip' /\
    faddr V' ip' n <> 0 /\ iframe i x x' /\ (length hs <= length hs' <= length hs + 5)%nat /\ free_blocks V' m /\
    (faddr V ip n <> 0 -> ip' = ip).

Lemma fop_allocated x x' V hs L i ip ip' b :
  fop x V hs L i ip -> in_op x' (allocated sb0 V b) (alloc_log sb0 b hs) L -> iframe i x x' ->
  icache (ff x') !! i = Some ip' -> grows V ip (allocated sb0 V b) ip' ->
  fop x' (allocated sb0 V b) (alloc_log sb0 b hs) L i ip'.
Proof.
  intros [Ho Hsb Hm HL Hf Hi] O F Hi' Hgr. split; try done; try apply Hgr.
  - by rewrite (iframe_sb _ _ _ F).
  - eapply held_more; [|exact HL]. apply Hgr.
Qed.

Lemma bmap_direct x V hs L i ip n m :
  fop x V hs L i ip -> 0 <= n < NDIRECT -> faddr V ip n = 0 -> free_blocks V (S m) ->
  room 2 hs -> (length hs + 2 + size L <= bhead)%nat -> mapped x V hs L i ip n m (bmap i n).
Proof.
  intros Hp Hn H0 Hfree Hr Hs. pose proof Hp as [Ho Hsb Hm HL Hf Hi].
  destruct (addr_alloc x V hs L i ip n m Hp ltac:(lia) Hfree Hr Hs) as (b & x' & R & Hb & O & Hi' & F & HL' & Hbit & Hfree').
  destruct (grows_direct V ip b n Hf Hm Hb Hn H0 Hbit) as [Hgr Ha].
  exists x', (allocated sb0 V b), (alloc_log sb0 b hs), (with_addr n b ip). rewrite Ha. split_and!; try done.
  - unfold bmap. eapply mrun_bind; [by apply geti_mrun|]. destruct (Z.ltb_spec n NDIRECT); [|lia].
    unfold faddr in H0. destruct (Z.ltb_spec n NDIRECT); [|lia].
    eapply mrun_bind; [by apply get_addr_run; [| apply Hf|lia]|]. rewrite H0. exact R.
  - by eapply fop_allocated.
  - destruct (fresh_data V b Hm Hb). lia.
  - apply alloc_log_length.
  - pose proof (alloc_log_length sb0 b hs). lia.
Qed.

Lemma bmap_entry x V hs L i ip n m :
  fop x V hs L i ip -> ind ip <> 0 -> NDIRECT <= n < MAXFILE -> faddr V ip n = 0 -> (forall j, L !! j <> Some (ind ip)) ->
  free_blocks V (S m) -> room 3 hs -> (length hs + 3 + size L <= bhead)%nat -> mapped x V hs L i ip n m (bmap i n).
Proof.
  intros Hp Hi0 Hn H0 HL Hfree Hr Hs. pose proof Hp as [Ho Hsb Hm HLm Hf Hi].
  destruct (entry_alloc x V hs L i ip n m Hp Hi0 Hn H0 HL Hfree Hr Hs) as (b & x' & V' & hs' & R & Hp' & Hgr & Ha & Hb & F & Hl & Hfree').
  exists x', V', hs', ip. rewrite Ha. split_and!; try done; [|by apply oframe_iframe|lia..].
  unfold bmap. eapply mrun_bind; [by apply geti_mrun|]. destruct (Z.ltb_spec n NDIRECT); [lia|].
  destruct (Z.ltb_spec (n - NDIRECT) NINDIRECT); [|unfold MAXFILE in Hn; lia].
  eapply mrun_bind; [by apply get_addr_run; [|apply Hf|]|]. fold (ind ip). destruct (Z.eqb_spec (ind ip) 0); [done|].
  eapply mrun_bind; [apply mrun_ret|]. rewrite (fo_dev _ _ Hf) at 1. exact R.
Qed.

Lemma bmap_ind x V hs L i ip n m :
  fop x V hs L i ip -> ind ip = 0 -> NDIRECT <= n < MAXFILE -> free_blocks V (S (S m)) ->
  room 5 hs -> (length hs + 5 + size L <= bhead)%nat -> mapped x V hs L i ip n m (bmap i n).
Proof.
  intros Hp Hi0 Hn Hfree Hr Hs. pose proof Hp as [Ho Hsb Hm HL Hf Hi].
  destruct (addr_alloc x V hs L i ip NDIRECT (S m) Hp ltac:(done) Hfree) as (b & x1 & R & Hb & O & Hi' & F & HL' & Hbit & Hfree').
  { unfold BlockProofs.room in *. lia. }
  { lia. }
  destruct (grows_ind V ip b Hf Hm Hb Hi0 Hbit) as [Hgr Ha]. pose proof (alloc_log_length sb0 b hs) as Hl.
  assert (fop x1 (allocated sb0 V b) (alloc_log sb0 b hs) L i (with_addr NDIRECT b ip)) as Hp1 by (by eapply fop_allocated).
  destruct (fresh_data V b Hm Hb) as [Hb1 _].
  assert (faddr (allocated sb0 V b) (with_addr NDIRECT b ip) n = 0) as H0.
  { unfold faddr. rewrite Ha. destruct (Z.ltb_spec n NDIRECT); [lia|]. destruct (Z.eqb_spec b 0); [done|].
    rewrite allocated_new. apply rd32_zero. }
  destruct (entry_alloc x1 _ _ L i _ n m Hp1) as (b' & x' & V' & hs' & R' & Hp' & Hgr' & Ha' & Hb' & F' & Hl' & Hfree'').
  { rewrite Ha. lia. }
  { done. }
  { done. }
  { intros j E. rewrite Ha in E. destruct (HL j b E) as (_ & E' & _), Hb as [_ Hb]. congruence. }
  { done. }
  { unfold BlockProofs.room in *. lia. }
  { lia. }
  exists x', V', hs', (with_addr NDIRECT b ip). rewrite Ha'. split_and!; try done; [| | |lia|lia|].
  - unfold bmap. eapply mrun_bind; [by apply geti_mrun|]. destruct (Z.ltb_spec n NDIRECT); [lia|].
    destruct (Z.ltb_spec (n - NDIRECT) NINDIRECT); [|unfold MAXFILE in Hn; lia].
    eapply mrun_bind; [by apply get_addr_run; [|apply Hf|]|]. fold (ind ip). rewrite Hi0. cbn [Z.eqb].
    eapply mrun_bind; [exact R|]. rewrite Ha in R'. change (i_dev (with_addr NDIRECT b ip)) with (i_dev ip) in R'. rewrite (fo_dev _ _ Hf) in *. exact R'.
  - by eapply grows_more.
  - etransitivity; [done|by apply oframe_iframe].
  - intros []. unfold faddr. rewrite Hi0. by destruct (Z.ltb_spec n NDIRECT); [lia|].
Qed.

Lemma bmap_run x V hs L i ip n m :
  fop x V hs L i ip -> inr n -> (forall j, L !! j <> Some (ind ip)) -> free_blocks V (S (S m)) ->
  room 5 hs -> (length hs + 5 + size L <= bhead)%nat -> mapped x V hs L i ip n m (bmap i n).
Proof.
  intros Hp Hn HL Hfree Hr Hs. pose proof Hp as [Ho Hsb Hm HLm Hf Hi].
  assert (free_blocks V (S m)) as Hfree1 by (by eapply free_blocks_le; [|done]; lia).
  unfold BlockProofs.room in Hr. destruct (decide (faddr V ip n = 0)) as [H0|H0].
  - destruct (decide (n < NDIRECT)) as [Hd|Hd]; [apply bmap_direct; try done; unfold BlockProofs.room, inr in *; lia|].
    assert (NDIRECT <= n < MAXFILE) by (unfold inr in Hn; lia).
    destruct (decide (ind ip = 0)); [by apply bmap_ind|]. apply bmap_entry; try done; unfold BlockProofs.room; lia.
  - destruct (bmap_have x V _ L i ip n (op_cache _ _ _ _ _ _ _ Ho) Hi Hf Hn H0 HL) as (x' & R & C & F & E).
    { pose proof (op_txn _ _ _ _ _ _ _ Ho) as Ht. rewrite size_list_to_set by apply Ht. lia. }
    exists x', V, hs, ip. split_and!; try done; try lia.
    + split; try done.
      * destruct Ho. split; try done; [by eapply log_at_frame|by rewrite (bf_ff _ _ F)].
      * by rewrite (bframe_sb _ _ F).
      * by rewrite (bframe_icache _ _ F).
    + by apply grows_none.
    + apply oframe_iframe. by apply bframe_oframe.
    + by eapply free_blocks_le; [|done]; lia.
Qed.

(** ** readi *)

(** [n] bytes of the file from [off]. *)
Definition file_bytes (V : Z -> list Z) (ip : inode) (off n : Z) : list Z := content V ip <$> seqZ off n.
(** The blocks up to [sz] bytes are there. *)
Definition filled (V : Z -> list Z) (ip : inode) (sz : Z) : Prop :=
  0 <= sz <= MAXFILE * BSIZE /\ forall j, 0 <= j < sz -> faddr V ip (j / BSIZE) <> 0.

Lemma file_bytes_app V ip off n m :
  0 <= n -> 0 <= m -> file_bytes V ip off (n + m) = file_bytes V ip off n ++ file_bytes V ip (off + n) m.
Proof. intros Hn Hm. unfold file_bytes. by rewrite seqZ_app, fmap_app. Qed.
Lemma file_bytes_length V ip off n : length (file_bytes V ip off n) = Z.to_nat n.
Proof. unfold file_bytes. by rewrite length_fmap, length_seqZ. Qed.

Lemma off_pos off : 0 <= off -> off = BSIZE * (off / BSIZE) + off mod BSIZE /\ 0 <= off mod BSIZE < BSIZE /\ 0 <= off / BSIZE.
Proof. change BSIZE with 512. intros H. Z.to_euclidean_division_equations; lia. Qed.
Lemma same_block off t : 0 <= off -> 0 <= t -> off mod BSIZE + t < BSIZE -> (off + t) / BSIZE = off / BSIZE /\ (off + t) mod BSIZE = off mod BSIZE + t.
Proof. change BSIZE with 512. intros H1 H2 H3. Z.to_euclidean_division_equations; lia. Qed.

Lemma block_bytes V ip off m :
  0 <= off -> 0 <= m -> off mod BSIZE + m <= BSIZE -> faddr V ip (off / BSIZE) <> 0 ->
  length (V (faddr V ip (off / BSIZE))) = Z.to_nat BSIZE ->
  take (Z.to_nat m) (drop (Z.to_nat (off mod BSIZE)) (V (faddr V ip (off / BSIZE)))) = file_bytes V ip off m.
Proof.
  intros Ho Hm Hle H0 Hl. destruct (off_pos off Ho) as (_ & Hmod & _). apply list_eq. intros t.
  unfold file_bytes. rewrite list_lookup_fmap. destruct (decide (t < Z.to_nat m)%nat) as [Ht|Ht].
  - rewrite lookup_take_lt, lookup_drop, lookup_seqZ_lt by lia. cbn [fmap option_fmap option_map].
    destruct (same_block off (Z.of_nat t)) as [E1 E2]; [lia..|]. unfold content. rewrite E1, E2.
    destruct (Z.eqb_spec (faddr V ip (off / BSIZE)) 0); [done|]. unfold rd8, nthz.
    destruct (Z.ltb_spec (off mod BSIZE + Z.of_nat t) 0); [lia|].
    rewrite Z2Nat.inj_add, Nat2Z.id by lia.
    destruct (lookup_lt_is_Some_2 (V (faddr V ip (off / BSIZE))) (Z.to_nat (off mod BSIZE) + t)) as [v ->]; [lia|done].
  - rewrite lookup_take_ge, lookup_seqZ_ge by lia. done.
Qed.

(** The blocks that [n] bytes from [off] touch: the turns of the loops. *)
Definition turns (off n : Z) : nat := if n =? 0 then 0 else Z.to_nat ((off mod BSIZE + n - 1) / BSIZE + 1).
Lemma turns_step off n :
  0 <= off -> 0 < n -> let m := Z.min n (BSIZE - off mod BSIZE) in turns off n = S (turns (off + m) (n - m)).
Proof.
  intros Ho Hn m. unfold turns. destruct (Z.eqb_spec n 0); [lia|]. destruct (off_pos off Ho) as (E & Hmod & Hdiv).
  subst m. destruct (Z.min_spec n (BSIZE - off mod BSIZE)) as [[Hm ->]|[Hm ->]].
  - rewrite Z.sub_diag. cbn [Z.eqb]. rewrite Z.div_small by lia. done.
  - assert ((off + (BSIZE - off mod BSIZE)) mod BSIZE = 0) as ->.
    { replace (off + (BSIZE - off mod BSIZE)) with ((off / BSIZE + 1) * BSIZE) by lia. by apply Z.mod_mul. }
    destruct (Z.eqb_spec (n - (BSIZE - off mod BSIZE)) 0).
    + replace (off mod BSIZE + n - 1) with (BSIZE - 1) by lia. done.
    + replace (off mod BSIZE + n - 1) with (0 + (n - (BSIZE - off mod BSIZE)) - 1 + 1 * BSIZE) by lia.
      rewrite Z.div_add by done. assert (0 <= (0 + (n - (BSIZE - off mod BSIZE)) - 1) / BSIZE) by (apply Z.div_pos; [lia|done]). lia.
Qed.
Lemma turns_bound off n : 0 <= off -> 0 <= n -> (turns off n < S (Z.to_nat (n / BSIZE + 2)))%nat.
Proof.
  intros Ho Hn. unfold turns. destruct (n =? 0); [lia|]. destruct (off_pos off Ho) as (_ & Hmod & _).
  change BSIZE with 512 in *. Z.to_euclidean_division_equations; lia.
Qed.

Definition silent (dst : sink) : Prop := forall x tot bs, run (dst tot bs) x tt x.

Lemma readi_loop_run dst fuel x V D L i ip tot off n :
  silent dst -> cached x V D ∅ L -> icache (ff x) !! i = Some ip -> file_ok V ip ->
  filled V ip (off + (n - tot)) -> 0 <= tot <= n -> 0 <= off ->
  (forall j, L !! j <> Some (ind ip)) -> (forall j k m, inr m -> L !! j = Some k -> faddr V ip m <> k) -> 
  (size D + size L < bhead)%nat ->
  (turns off (n - tot) < fuel)%nat ->
  exists x', run (readi_loop fuel i dst tot off n) x (file_bytes V ip off (n - tot)) x' /\
    cached x' V D ∅ L /\ bframe x x' /\ fd x' = fd x.
Proof.
  intros Hdst. revert x tot off. induction fuel as [|fuel IH]; intros x tot off Hc Hi Hf [Hsz Hfl] Ht Ho HLi HLb Hs Hfuel; [lia|].
  cbn [readi_loop]. destruct (Z.ltb_spec tot n) as [Hlt|Hge].
  2: { exists x. replace (n - tot) with 0 by lia. split_and!; [apply mrun_ret|done..]. }
  destruct (off_pos off Ho) as (Eoff & Hmod & Hdiv).
  assert (inr (off / BSIZE)) as Hin by (unfold inr; change MAXFILE with 140 in *; change BSIZE with 512 in *; lia).
  assert (faddr V ip (off / BSIZE) <> 0) as H0 by (apply Hfl; lia).
  destruct (bmap_have x V D L i ip _ Hc Hi Hf Hin H0 HLi Hs) as (x1 & R1 & C1 & F1 & E1).
  pose proof (fo_used _ _ Hf _ Hin H0) as (Hr & Hh & _).
  destruct (bread_run p pr s0 Hcalm (faddr V ip (off / BSIZE)) x1 V D ∅ L C1 (proj1 Hh)) as (bp & x2 & R2 & Hbp & C2 & F2 & E2).
  { intros j E. by apply (HLb j _ _ Hin E). }
  { by right. }
  destruct (getb_held pr x2 V D ∅ _ bp _ C2 ltac:(apply lookup_insert_eq)) as (b & Hb & Ed & _).
  destruct (brelse_run p pr s0 Hcalm x2 V D ∅ _ bp _ C2 ltac:(apply lookup_insert_eq)) as (x3 & R3 & C3 & F3 & E3); [set_solver|].
  rewrite delete_insert_id in C3 by done.
  set (m := Z.min (n - tot) (BSIZE - off mod BSIZE)).
  assert (0 < m /\ m <= n - tot /\ off mod BSIZE + m <= BSIZE) as (Hm1 & Hm2 & Hm3) by lia.
  assert (u32 (off + m) = off + m) as Hu.
  { apply u32_small. change MAXFILE with 140 in *. change BSIZE with 512 in *. cint. }
  assert (bframe x x3) as F by (etransitivity; [done|]; by etransitivity).
  destruct (IH x3 (tot + m) (off + m)) as (x4 & R4 & C4 & F4 & E4); try done; try lia.
  { by rewrite (bframe_icache _ _ F). }
  { replace (off + m + (n - (tot + m))) with (off + (n - tot)) by lia. done. }
  { rewrite turns_step in Hfuel by lia. fold m in Hfuel. replace (n - (tot + m)) with (n - tot - m) by lia. lia. }
  exists x4. split_and!; [|done|by etransitivity|congruence].
  eapply mrun_bind; [by apply geti_mrun|]. eapply mrun_bind; [exact R1|]. rewrite (fo_dev _ _ Hf).
  eapply mrun_bind; [exact R2|]. cbn zeta. fold m. eapply mrun_bind; [by apply getb_mrun|]. rewrite Ed.
  rewrite block_bytes; [|lia..|done|].
  2: { by eapply ca_size; [|apply Hh]. }
  eapply mrun_bind; [apply Hdst|]. eapply mrun_bind; [exact R3|]. rewrite Hu. eapply mrun_bind; [exact R4|].
  replace (n - tot) with (m + (n - (tot + m))) by lia. rewrite file_bytes_app by lia. apply mrun_ret.
Qed.

Lemma readi_run dst x V D L i ip off n :
  silent dst -> cached x V D ∅ L -> icache (ff x) !! i = Some ip -> i_type ip <> T_DEV -> file_ok V ip ->
  filled V ip (i_size ip) -> 0 <= off <= i_size ip -> 0 <= n -> off + n < 2 ^ 32 ->
  (forall j, L !! j <> Some (ind ip)) -> (forall j k m, inr m -> L !! j = Some k -> faddr V ip m <> k) ->
  (size D + size L < bhead)%nat ->
  let m := Z.min n (i_size ip - off) in
  exists x', run (readi i dst off n) x (m, file_bytes V ip off m) x' /\ cached x' V D ∅ L /\ bframe x x' /\ fd x' = fd x.
Proof.
  intros Hdst Hc Hi Ht Hf [Hsz Hfl] Ho Hn Hw HLi HLb Hs m.
  destruct (readi_loop_run dst (S (Z.to_nat (m / BSIZE + 2))) x V D L i ip 0 off m) as (x' & R & C & F & E); try done; try lia.
  { split; [lia|]. intros j Hj. apply Hfl. lia. }
  { rewrite Z.sub_0_r. apply turns_bound; lia. }
  rewrite Z.sub_0_r in R. exists x'. split_and!; try done. unfold readi.
  eapply mrun_bind; [by apply geti_mrun|]. destruct (Z.eqb_spec (i_type ip) T_DEV); [done|].
  rewrite (u32_small (off + n)) by (cint).
  destruct (Z.ltb_spec (i_size ip) off); [lia|]. destruct (Z.ltb_spec (off + n) off); [lia|]. cbn [orb].
  assert ((if i_size ip <? off + n then i_size ip - off else n) = m) as ->.
  { unfold m. destruct (Z.ltb_spec (i_size ip) (off + n)); lia. }
  cbn zeta. eapply mrun_bind; [exact R|]. rewrite s32_small; [apply mrun_ret|].
  change MAXFILE with 140 in Hsz. change BSIZE with 512 in Hsz. cint.
Qed.

(** ** writei *)

(** [bs] written over the bytes at [off]. *)
Definition overwrite (c : Z -> Z) (off : Z) (bs : list Z) (j : Z) : Z :=
  if decide (off <= j < off + Z.of_nat (length bs)) then u8 (nthz 0 bs (j - off)) else c j.

Lemma overwrite_nil c off j : overwrite c off [] j = c j.
Proof. unfold overwrite. rewrite decide_False; [done|]. cbn [length]. lia. Qed.
Lemma nthz_app (l k : list Z) j :
  0 <= j -> nthz 0 (l ++ k) j = if decide (j < Z.of_nat (length l)) then nthz 0 l j else nthz 0 k (j - Z.of_nat (length l)).
Proof.
  intros Hj. unfold nthz. destruct (Z.ltb_spec j 0); [lia|]. destruct (decide _) as [Hlt|Hge].
  - by rewrite lookup_app_l by lia.
  - destruct (Z.ltb_spec (j - Z.of_nat (length l)) 0); [lia|]. rewrite lookup_app_r by lia.
    by replace (Z.to_nat j - length l)%nat with (Z.to_nat (j - Z.of_nat (length l))) by lia.
Qed.
Lemma overwrite_app c off bs bs' j :
  overwrite (overwrite c off bs) (off + Z.of_nat (length bs)) bs' j = overwrite c off (bs ++ bs') j.
Proof.
  unfold overwrite. rewrite length_app.
  destruct (decide (off <= j < off + Z.of_nat (length bs + length bs'))) as [H|H].
  - rewrite nthz_app by lia. destruct (decide (off + _ <= j < _)), (decide (j - off < _)); try lia.
    + by replace (j - (off + Z.of_nat (length bs))) with (j - off - Z.of_nat (length bs)) by lia.
    + by rewrite decide_True by lia.
  - rewrite !decide_False by lia. done.
Qed.

(** What is read of bytes written. *)
Lemma written_bytes V ip c off bs n :
  n = Z.of_nat (length bs) -> (forall j, off <= j < off + n -> content V ip j = overwrite c off bs j) ->
  file_bytes V ip off n = u8 <$> bs.
Proof.
  intros -> Hc. apply list_eq. intros t. unfold file_bytes. rewrite !list_lookup_fmap.
  destruct (decide (t < length bs)%nat) as [Ht|Ht].
  - rewrite lookup_seqZ_lt by lia. destruct (lookup_lt_is_Some_2 bs t Ht) as [b Hb]. rewrite Hb. cbn [fmap option_fmap option_map].
    f_equal. rewrite Hc by lia. unfold overwrite. rewrite decide_True by lia. unfold nthz.
    replace (off + Z.of_nat t - off) with (Z.of_nat t) by lia. destruct (Z.ltb_spec (Z.of_nat t) 0); [lia|]. by rewrite Nat2Z.id, Hb.
  - rewrite lookup_seqZ_ge, (lookup_ge_None_2 bs) by lia. done.
Qed.

(** Bytes within one block of the file. *)
Lemma changes_data V ip off bs :
  let a := faddr V ip (off / BSIZE) in
  file_ok V ip -> marked V -> 0 <= off -> inr (off / BSIZE) -> a <> 0 ->
  off mod BSIZE + Z.of_nat (length bs) <= BSIZE -> length (V a) = Z.to_nat BSIZE ->
  changes V ip (vset V a (wr_bytes (V a) (off mod BSIZE) bs)) ip (overwrite (content V ip) off bs).
Proof.
  intros a Hf Hm Ho Hin H0 Hle Hl. set (V' := vset _ _ _).
  destruct (off_pos off Ho) as (Eoff & Hmod & Hdiv). pose proof (fo_used _ _ Hf _ Hin H0) as Hu. fold a in Hu.
  assert (forall m, inr m -> faddr V' ip m = faddr V ip m) as Ha.
  { intros m _. unfold faddr. destruct (m <? NDIRECT); [done|]. destruct (ind ip =? 0); [done|].
    unfold V'. rewrite vset_ne; [done|]. intros E. by apply (fo_apart _ _ Hf _ Hin H0). }
  assert (forall k, 0 <= k < sb_size sb0 -> bit V' sb0 k = bit V sb0 k) as Hbit.
  { intros k Hk. unfold bit, V'. rewrite vset_ne; [done|]. intros E. apply (used_not_bmap _ _ Hu). by exists k. }
  assert (forall b, used V b -> used V' b) as Huse.
  { intros b (U1 & U2 & U3 & U4). split_and!; try done; try lia. rewrite Hbit by lia. done. }
  split.
  - split; try apply Hf.
    + intros m Hmr. rewrite Ha by done. intros E. by apply Huse, (fo_used _ _ Hf).
    + intros E. by apply Huse, (fo_ind _ _ Hf).
    + intros m Hmr. rewrite Ha by done. by apply (fo_apart _ _ Hf).
    + intros m m' Hmr Hmr'. rewrite !Ha by done. by apply (fo_inj _ _ Hf).
  - intros k Hk. rewrite Hbit by done. by apply Hm.
  - by destruct ip.
  - intros m Hmr. left. by apply Ha.
  - by left.
  - intros j Hj. unfold content. rewrite Ha by done. unfold overwrite.
    change BSIZE with 512 in *. unfold V'. destruct (decide (j / 512 = off / 512)) as [E|E].
    + rewrite E. fold a. destruct (Z.eqb_spec a 0); [done|]. rewrite vset_eq, rd8_wr_bytes by lia.
      pose proof (Z.div_mod j 512 ltac:(done)) as Ej.
      destruct (decide (off mod 512 <= _ < _)), (decide (off <= j < _)); try lia.
      * unfold rd8. do 2 f_equal. lia.
    + rewrite decide_False by (Z.to_euclidean_division_equations; lia). unfold content. change BSIZE with 512.
      destruct (Z.eqb_spec (faddr V ip (j / 512)) 0) as [|Hj0]; [done|]. rewrite vset_ne; [done|].
      intros E'. apply E. symmetry. by apply (fo_inj _ _ Hf).
  - intros k Hk Hb. by rewrite Hbit.
  - intros k _ _ _ Hk. unfold V'. rewrite vset_ne; [done|]. intros ->. by apply (Hk _ Hin).
Qed.

Lemma overwrite_ext c c' off bs j : c j = c' j -> overwrite c off bs j = overwrite c' off bs j.
Proof. intros E. unfold overwrite. by destruct (decide _). Qed.
Lemma changes_there V ip V' ip' c m : changes V ip V' ip' c -> inr m -> faddr V ip m <> 0 -> faddr V' ip' m <> 0.
Proof. intros H Hm H0. destruct (gr_addr _ _ _ _ _ H m Hm) as [->|[E _]]; done. Qed.
Lemma changes_fields V ip V' ip' c :
  changes V ip V' ip' c -> i_type ip' = i_type ip /\ i_size ip' = i_size ip /\ i_inum ip' = i_inum ip.
Proof. intros H. by rewrite (gr_same _ _ _ _ _ H). Qed.

Definition yields (src : source) (data : list Z) : Prop := forall x o n,
  0 <= o -> 0 <= n -> o + n <= Z.of_nat (length data) -> run (src o n) x (take (Z.to_nat n) (drop (Z.to_nat o) data)) x.

(** One turn of writei: bmap, bread, the bytes, log_write and brelse. *)
Lemma writei_turn x V hs i ip off bs m :
  fop x V hs ∅ i ip -> 0 <= off -> inr (off / BSIZE) -> off mod BSIZE + Z.of_nat (length bs) <= BSIZE ->
  free_blocks V (2 + m) -> room 6 hs -> (length hs + 6 <= bhead)%nat ->
  exists a bp x1 x2 x3 x4 x' V' hs' ip', run (bmap i (off / BSIZE)) x a x1 /\ run (bread 1 a) x1 bp x2 /\
    run (set_data bp (fun d => wr_bytes d (off mod BSIZE) bs)) x2 tt x3 /\ run (log_write bp) x3 tt x4 /\
    run (brelse bp) x4 tt x' /\
    fop x' V' hs' ∅ i ip' /\ changes V ip V' ip' (overwrite (content V ip) off bs) /\ iframe i x x' /\
    (length hs <= length hs' <= length hs + 6)%nat /\ free_blocks V' m /\ faddr V' ip' (off / BSIZE) <> 0 /\
    (faddr V ip (off / BSIZE) <> 0 -> ip' = ip).
Proof.
  intros Hp Ho Hin Hle Hfree Hr Hs.
  destruct (bmap_run x V hs ∅ i ip (off / BSIZE) m Hp Hin) as (x1 & V1 & hs1 & ip1 & R1 & Hp1 & Hgr & H0 & F1 & Hl1 & Hfree1 & Hsame);
    [done|done|unfold BlockProofs.room in *; lia|rewrite map_size_empty; lia|].
  pose proof Hp1 as [Ho1 Hsb1 Hm1 HL1 Hf1 Hi1]. pose proof (fo_used _ _ Hf1 _ Hin H0) as (Hur & Hh & Hum & Hub).
  destruct (op_bread p pr s0 Hcalm start sz x1 V1 hs1 ∅ _ Ho1 (proj1 Hh)) as (bp & x2 & R2 & Hbp & O2 & F2);
    [done|right; rewrite map_size_empty; lia|].
  assert (length (V1 (faddr V1 ip1 (off / BSIZE))) = Z.to_nat BSIZE) as Hsz by (by eapply in_op_size; [|apply Hh]).
  destruct (op_write p pr s0 Hcalm start sz Hg x2 _ _ _ bp (faddr V1 ip1 (off / BSIZE)) (fun d => wr_bytes d (off mod BSIZE) bs) O2)
    as (x3 & x4 & R3 & R4 & O4 & F4);
    [apply lookup_insert_eq|done|unfold BlockProofs.room in *; lia|by rewrite wr_bytes_length|].
  destruct (op_brelse p pr s0 Hcalm start sz Hg x4 _ _ _ bp _ O4 ltac:(apply lookup_insert_eq)) as (x5 & R5 & O5 & F5).
  rewrite delete_insert_id in O5 by done.
  pose proof (changes_data V1 ip1 off bs Hf1 Hm1 Ho Hin H0 Hle Hsz) as Hch.
  assert (iframe i x x5) as F.
  { etransitivity; [exact F1|]. apply oframe_iframe. etransitivity; [eassumption|].
    etransitivity; [exact F4|eassumption]. }
  assert (oframe x1 x5) as F'.
  { etransitivity; [eassumption|]. etransitivity; [exact F4|eassumption]. }
  set (a := faddr V1 ip1 (off / BSIZE)) in *. pose proof (absorb_length a hs1).
  exists a, bp, x1, x2, x3, x4, x5, (vset V1 a (wr_bytes (V1 a) (off mod BSIZE) bs)), (absorb a hs1), ip1.
  split_and!; [exact R1|exact R2|exact R3|exact R4|exact R5| | |done|lia|lia| | |done].
  - split; [exact O5|by rewrite (oframe_sb _ _ F')|apply Hch|done|apply Hch|by rewrite (oframe_icache _ _ F')].
  - eapply changes_ext; [|by eapply changes_trans]. intros j Hj. apply overwrite_ext. by apply (gr_content _ _ _ _ _ Hgr).
  - eapply free_blocks_ext; [|exact Hfree1]. intros k [Hk Hbk]. split; [done|]. rewrite <-Hbk. unfold bit. rewrite vset_ne; [done|].
    intros E. apply (used_not_bmap V1 a); [done|]. by exists k.
  - by eapply changes_there.
Qed.

Lemma chunk_split (data : list Z) tot m n :
  0 <= tot -> 0 <= m -> tot + m <= n ->
  take (Z.to_nat (n - tot)) (drop (Z.to_nat tot) data) =
  take (Z.to_nat m) (drop (Z.to_nat tot) data) ++ take (Z.to_nat (n - (tot + m))) (drop (Z.to_nat (tot + m)) data).
Proof.
  intros H1 H2 H3. replace (Z.to_nat (tot + m)) with (Z.to_nat tot + Z.to_nat m)%nat by lia.
  replace (Z.to_nat (n - tot)) with (Z.to_nat m + Z.to_nat (n - (tot + m)))%nat by lia.
  by rewrite <-drop_drop, take_take_drop.
Qed.
Lemma chunk_length (data : list Z) tot m :
  0 <= tot -> 0 <= m -> tot + m <= Z.of_nat (length data) -> length (take (Z.to_nat m) (drop (Z.to_nat tot) data)) = Z.to_nat m.
Proof. intros H1 H2 H3. rewrite length_take, length_drop. lia. Qed.

Lemma writei_loop_run src data fuel x V hs i ip tot off n m :
  yields src data -> fop x V hs ∅ i ip -> 0 <= tot <= n -> n <= Z.of_nat (length data) -> 0 <= off ->
  off + (n - tot) <= MAXFILE * BSIZE -> (turns off (n - tot) < fuel)%nat ->
  free_blocks V (2 * turns off (n - tot) + m) -> room (6 * turns off (n - tot)) hs ->
  (length hs + 6 * turns off (n - tot) <= bhead)%nat ->
  exists x' V' hs' ip', run (writei_loop fuel i src tot off n) x (off + (n - tot)) x' /\ fop x' V' hs' ∅ i ip' /\
    changes V ip V' ip' (overwrite (content V ip) off (take (Z.to_nat (n - tot)) (drop (Z.to_nat tot) data))) /\
    iframe i x x' /\ (length hs <= length hs' <= length hs + 6 * turns off (n - tot))%nat /\ free_blocks V' m /\
    (forall j, off <= j < off + (n - tot) -> faddr V' ip' (j / BSIZE) <> 0) /\
    ((forall j, off <= j < off + (n - tot) -> faddr V ip (j / BSIZE) <> 0) -> ip' = ip).
Proof.
  intros Hsrc. revert x V hs ip tot off.
  induction fuel as [|fuel IH]; intros x V hs ip tot off Hp Ht Hn Ho Hmax Hfuel Hfree Hr Hs; [lia|].
  cbn [writei_loop]. destruct (Z.ltb_spec tot n) as [Hlt|Hge].
  2: { exists x, V, hs, ip. replace (n - tot) with 0 in * by lia. cbn [take Z.to_nat]. rewrite Z.add_0_r.
       split_and!; try done; [apply mrun_ret| |lia..].
       eapply changes_ext; [|apply grows_none; apply Hp]. intros j Hj. by rewrite overwrite_nil. }
  destruct (off_pos off Ho) as (Eoff & Hmod & Hdiv).
  rewrite turns_step in Hfuel, Hfree, Hr, Hs |- * by lia.
  set (k := Z.min (n - tot) (BSIZE - off mod BSIZE)) in *.
  assert (0 < k /\ k <= n - tot /\ off mod BSIZE + k <= BSIZE) as (Hk1 & Hk2 & Hk3) by lia.
  replace (n - tot - k) with (n - (tot + k)) in * by lia. set (t := turns _ _) in *.
  assert (inr (off / BSIZE)) as Hin by (unfold inr; change MAXFILE with 140 in *; change BSIZE with 512 in *; lia).
  set (bs := take (Z.to_nat k) (drop (Z.to_nat tot) data)).
  assert (Z.of_nat (length bs) = k) as Hbs by (unfold bs; rewrite chunk_length; lia).
  destruct (writei_turn x V hs i ip off bs (2 * t + m) Hp Ho Hin) as
    (a & bp & x1 & x2 & x3 & x4 & x5 & V1 & hs1 & ip1 & R1 & R2 & R3 & R4 & R5 & Hp1 & Hch & F & Hl & Hfree1 & H0 & Hsame);
    [lia|by eapply free_blocks_le; [|exact Hfree]; lia|unfold BlockProofs.room in *; lia|lia|].
  destruct (IH x5 V1 hs1 ip1 (tot + k) (off + k) Hp1) as (x6 & V2 & hs2 & ip2 & R6 & Hp2 & Hch2 & F2 & Hl2 & Hfree2 & Hthere & Hsame2);
    try (fold t); try lia.
  { done. }
  { unfold BlockProofs.room in *; lia. }
  fold t in Hl2. replace (off + k + (n - (tot + k))) with (off + (n - tot)) in * by lia.
  assert (forall j, off <= j < off + k -> j / BSIZE = off / BSIZE) as Hblk.
  { intros j Hj. replace j with (off + (j - off)) by lia. apply same_block; lia. }
  exists x6, V2, hs2, ip2. split_and!; [|done| | |lia|lia|done| |].
  - eapply mrun_bind; [apply geti_mrun, Hp|]. eapply mrun_bind; [exact R1|].
    rewrite (fo_dev _ _ (fp_file _ _ _ _ _ _ Hp)). eapply mrun_bind; [exact R2|]. cbn zeta. fold k.
    eapply mrun_bind; [apply Hsrc; lia|]. eapply mrun_bind; [exact R3|]. eapply mrun_bind; [exact R4|].
    eapply mrun_bind; [exact R5|]. rewrite u32_small; [exact R6|].
    change MAXFILE with 140 in *. change BSIZE with 512 in *. cint.
  - eapply changes_ext; [|eapply changes_trans; [exact Hch|exact Hch2]]. intros j Hj.
    rewrite (chunk_split data tot k n) by lia. fold bs. rewrite <-overwrite_app, Hbs. apply overwrite_ext.
    by apply (gr_content _ _ _ _ _ Hch).
  - by etransitivity.
  - intros j Hj. destruct (decide (j < off + k)); [|apply Hthere; lia]. rewrite Hblk by lia.
    by eapply changes_there.
  - intros Hall. assert (ip1 = ip) as -> by (apply Hsame, Hall; lia). apply Hsame2. intros j Hj.
    eapply changes_there; [exact Hch| |apply Hall; lia]. unfold inr. change MAXFILE with 140 in *. change BSIZE with 512 in *.
    Z.to_euclidean_division_equations; lia.
Qed.

(** ** A change of an inode block *)

Notation dinode := (dinode sb0).
Notation stored := (stored sb0).
Notation valid_inum ip := (0 <= i_inum ip < sb_ninodes sb0).

Lemma iblock_meta n : 0 <= n < sb_ninodes sb0 -> meta sb0 (IBLOCK n sb0) /\ ~ bmap_block (IBLOCK n sb0).
Proof.
  intros Hn. split; [right; left; by exists n|]. intros (b & Hb & E).
  destruct (IBLOCK_eq start sz Hg sb0 n Hfs Hn) as [E1 _], (BBLOCK_eq start sz Hg sb0 b Hfs Hb) as [E2 _].
  apply (fg_apart _ _ _ Hfs b n Hb Hn). congruence.
Qed.
Lemma used_vset V k d a : meta sb0 k -> used V a -> vset V k d a = V a.
Proof. intros Hk (_ & _ & Ha & _). rewrite vset_ne; [done|]. by intros ->. Qed.
Lemma bit_vset V k d b : ~ bmap_block k -> 0 <= b < sb_size sb0 -> bit (vset V k d) sb0 b = bit V sb0 b.
Proof. intros Hk Hb. unfold bit. rewrite vset_ne; [done|]. intros E. apply Hk. by exists b. Qed.

Lemma faddr_vset V k d ip n : meta sb0 k -> file_ok V ip -> faddr (vset V k d) ip n = faddr V ip n.
Proof.
  intros Hk Hf. unfold faddr. destruct (n <? NDIRECT); [done|]. destruct (Z.eqb_spec (ind ip) 0); [done|].
  rewrite used_vset; [done|done|]. by apply (fo_ind _ _ Hf).
Qed.
Lemma content_vset V k d ip j : meta sb0 k -> file_ok V ip -> inr (j / BSIZE) -> content (vset V k d) ip j = content V ip j.
Proof.
  intros Hk Hf Hj. unfold content. rewrite faddr_vset by done. destruct (Z.eqb_spec (faddr V ip (j / BSIZE)) 0); [done|].
  rewrite used_vset; [done|done|]. by apply (fo_used _ _ Hf).
Qed.
Lemma file_ok_vset V k d ip : meta sb0 k -> ~ bmap_block k -> file_ok V ip -> file_ok (vset V k d) ip.
Proof.
  intros Hk Hb Hf. assert (forall a, used V a -> used (vset V k d) a) as Hu.
  { intros a (U1 & U2 & U3 & U4). split_and!; try done; try lia. rewrite bit_vset by (done || lia). done. }
  split; try apply Hf.
  - intros n Hn. rewrite faddr_vset by done. intros H0. by apply Hu, (fo_used _ _ Hf).
  - intros H0. by apply Hu, (fo_ind _ _ Hf).
  - intros n Hn. rewrite faddr_vset by done. by apply (fo_apart _ _ Hf).
  - intros n m Hn Hm. rewrite !faddr_vset by done. by apply (fo_inj _ _ Hf).
Qed.
Lemma file_ok_size V ip s : file_ok V ip -> file_ok V (ip <| i_size := s |>).
Proof. intros []. by split. Qed.
Lemma marked_vset V k d : ~ bmap_block k -> marked V -> marked (vset V k d).
Proof. intros Hk Hm b Hb. rewrite bit_vset by done. by apply Hm. Qed.
Lemma free_vset V k d n : ~ bmap_block k -> free_blocks V n -> free_blocks (vset V k d) n.
Proof. intros Hk. apply free_blocks_ext. intros b [Hb Hbit]. split; [done|]. by rewrite bit_vset. Qed.

(** The fields on the disk are those in memory. *)
Definition synced (V : Z -> list Z) (ip : inode) : Prop := dinode V (i_inum ip) ip = ip.
(** The fields that fit into 16 bits do. *)
Definition shorts_ok (ip : inode) : Prop :=
  Forall (fun v => - 2 ^ 15 <= v < 2 ^ 15) [i_type ip; i_major ip; i_minor ip; i_nlink ip].

Lemma file_inode_ok V ip : file_ok V ip -> shorts_ok ip -> is_u32 (i_size ip) -> inode_ok ip.
Proof.
  intros Hf Hs Hz. split; [done|done|]. split; [apply Hf|]. apply Forall_lookup. intros n a Ha.
  pose proof (lookup_lt_Some _ _ _ Ha) as Hn. rewrite (fo_len _ _ Hf) in Hn.
  assert (nthz 0 (i_addrs ip) (Z.of_nat n) = a) as E.
  { unfold nthz. destruct (Z.ltb_spec (Z.of_nat n) 0); [lia|]. by rewrite Nat2Z.id, Ha. }
  pose proof (fg_size _ _ sb0 Hfs) as Hsz.
  assert (a = 0 \/ 0 < a < sb_size sb0) as [->|Hr]; [|cint|unfold geometry in Hg; cint].
  destruct (decide (a = 0)) as [|H0]; [by left|right].
  destruct (decide (Z.of_nat n < NDIRECT)) as [Hd|Hd].
  - assert (faddr V ip (Z.of_nat n) = a) as Ef by (unfold faddr; destruct (Z.ltb_spec (Z.of_nat n) NDIRECT); [done|lia]).
    rewrite <-Ef. apply (fo_used _ _ Hf); [|congruence]. unfold inr. change MAXFILE with 140. change NDIRECT with 12 in *. lia.
  - change NDIRECT with 12 in *. replace (Z.of_nat n) with 12 in E by lia. change (ind ip = a) in E.
    rewrite <-E. apply (fo_ind _ _ Hf). congruence.
Qed.

(** Blocks that hold no data of files are kept. *)
Lemma changes_kept V ip V' ip' c k :
  marked V -> file_ok V ip -> changes V ip V' ip' c -> k <> 0 -> ~ bmap_block k -> meta sb0 k \/ ~ home k -> V' k = V k.
Proof.
  intros Hm Hf Hch H0 Hb Hk. assert (forall V, ~ used V k) as Hu by (intros V0 (_ & U1 & U2 & _); tauto).
  apply (gr_other _ _ _ _ _ Hch); [done| | |].
  - intros Hr. destruct (bit V sb0 k) eqn:E; [done|]. apply (Hm _ Hr) in E. tauto.
  - intros ->. by apply (Hu V), (fo_ind _ _ Hf).
  - intros m Hmr <-. by apply (Hu V), (fo_used _ _ Hf).
Qed.
Lemma iblock_pos n : 0 <= n < sb_ninodes sb0 -> 1 < IBLOCK n sb0.
Proof.
  intros Hn. destruct (IBLOCK_eq start sz Hg sb0 n Hfs Hn) as [-> _]. pose proof (fg_start _ _ _ Hfs).
  assert (0 <= n / IPB) by (apply Z.div_pos; [lia|done]). lia.
Qed.
Lemma changes_iblock V ip V' ip' c n :
  marked V -> file_ok V ip -> 0 <= n < sb_ninodes sb0 -> changes V ip V' ip' c -> V' (IBLOCK n sb0) = V (IBLOCK n sb0).
Proof.
  intros Hm Hf Hn Hch. destruct (iblock_meta n Hn) as [Hk Hb]. pose proof (iblock_pos n Hn).
  eapply changes_kept; [done..|lia|done|by left].
Qed.

(** ** A write, with the inode *)

(** The state of an operation on a file whose inode has reached the disk. *)
Record file_at (x : fsys) (V : Z -> list Z) (hs : list Z) (i : nat) (ip : inode) : Prop := {
  fa_op : fop x V hs ∅ i ip;
  fa_type : i_type ip <> T_DEV;
  fa_shorts : shorts_ok ip;
  fa_inum : valid_inum ip;
  fa_filled : filled V ip (i_size ip);
  fa_synced : synced V ip
}.

(** The new size, with its iupdate. *)
Lemma grow_size_run x V hs i ip s :
  fop x V hs ∅ i ip -> shorts_ok ip -> valid_inum ip -> 0 <= s <= MAXFILE * BSIZE -> room 1 hs -> (length hs < bhead)%nat ->
  let ip' := ip <| i_size := s |> in
  let V' := stored V (i_inum ip) ip' in
  exists x' hs', run (seti i (fun ip => ip <| i_size := s |>) ;; iupdate i) x tt x' /\ fop x' V' hs' ∅ i ip' /\
    synced V' ip' /\ iframe i x x' /\ (length hs <= length hs' <= S (length hs))%nat.
Proof.
  intros Hp Hsh Hn Hs Hr Hb ip' V'. destruct Hp as [Ho Hsb Hm HL Hf Hi].
  destruct (iblock_meta _ Hn) as [Hk Hnb].
  set (x1 := on_inode i (fun ip => ip <| i_size := s |>) x).
  assert (icache (ff x1) !! i = Some ip') as Hi1 by (by apply lookup_on_inode).
  destruct (iupdate_run p pr s0 Hcalm start sz Hg sb0 Hfs x1 V hs ∅ i ip') as (x2 & R2 & O2 & F2); try done.
  { by apply in_op_inode. }
  { apply Hf. }
  { rewrite map_size_empty. lia. }
  exists x2, (absorb (IBLOCK (i_inum ip) sb0) hs). split_and!; [|split| | | |].
  - eapply mrun_bind; [apply seti_mrun|exact R2].
  - exact O2.
  - rewrite (oframe_sb _ _ F2). done.
  - by apply marked_vset.
  - done.
  - apply file_ok_vset; [done..|]. by apply file_ok_size.
  - by rewrite (oframe_icache _ _ F2).
  - unfold synced, V'. change (i_inum ip') with (i_inum ip). rewrite dinode_stored; [by destruct ip| |lia|].
    + eapply in_op_size; [exact Ho|]. apply (IBLOCK_eq start sz Hg sb0 _ Hfs Hn).
    + apply (file_inode_ok V); [by apply file_ok_size|done|]. cbn. change MAXFILE with 140 in *. change BSIZE with 512 in *. cint.
  - etransitivity; [apply on_inode_iframe|by apply oframe_iframe].
  - apply absorb_length.
  - apply absorb_length.
Qed.

(** What an operation on [ip] leaves alone: the blocks in use elsewhere, the super block and the
    other inodes. *)
Record spares (V : Z -> list Z) (ip : inode) (V' : Z -> list Z) (ip' : inode) : Prop := {
  sp_bit : forall k, 0 <= k < sb_size sb0 -> bit V sb0 k = true -> bit V' sb0 k = true;
  sp_addr : forall m, inr m -> faddr V' ip' m = faddr V ip m \/ faddr V ip m = 0 /\ fresh V (faddr V' ip' m);
  sp_ind : ind ip' = ind ip \/ ind ip = 0 /\ fresh V (ind ip');
  sp_used : forall k, used V k -> k <> ind ip -> (forall m, inr m -> faddr V ip m <> k) -> V' k = V k;
  sp_super : V' 1 = V 1;
  sp_same : ip' = ip <| i_size := i_size ip' |> <| i_addrs := i_addrs ip' |>;
  sp_inodes : forall n jp, 0 <= n < sb_ninodes sb0 -> n <> i_inum ip -> dinode V' n jp = dinode V n jp
}.
Lemma spares_refl V ip : spares V ip V ip.
Proof. split; try done; [by left|by left|by destruct ip]. Qed.
Lemma spares_trans V ip V1 ip1 V2 ip2 : spares V ip V1 ip1 -> spares V1 ip1 V2 ip2 -> spares V ip V2 ip2.
Proof.
  intros [A1 A2 A3 A4 A5 A6 A7] [B1 B2 B3 B4 B5 B6 B7].
  assert (forall b, fresh V1 b -> fresh V b) as Hfr.
  { intros b [Hb Hbit]. split; [done|]. destruct (bit V sb0 b) eqn:E; [|done]. rewrite (A1 b Hb E) in Hbit. done. }
  split.
  - intros k Hk Hb. by apply B1, A1.
  - intros m Hm. destruct (B2 m Hm) as [E|[E1 E2]]; [rewrite E; by apply A2|].
    destruct (A2 m Hm) as [E3|[E3 _]]; (right; split; [congruence|by apply Hfr]).
  - destruct B3 as [E|[E1 E2]]; [rewrite E; done|].
    destruct A3 as [E3|[E3 _]]; (right; split; [congruence|by apply Hfr]).
  - intros k Hu Hi Ha. rewrite <-(A4 k Hu Hi Ha). apply B4.
    + destruct Hu as (U1 & U2 & U3 & U4). split_and!; try done; try lia. apply A1; [lia|done].
    + destruct A3 as [->|[_ Hf]]; [done|]. by eapply used_not_fresh.
    + intros m Hm. destruct (A2 m Hm) as [->|[_ Hf]]; [by apply Ha|]. intros E. by eapply (used_not_fresh V k).
  - congruence.
  - rewrite B6, A6. done.
  - intros n jp Hn Hne. rewrite B7, A7; [done|done|done|done|by rewrite A6].
Qed.

(** The blocks of the log. *)
Definition keeps_log (V V' : Z -> list Z) : Prop := forall k, start <= k < start + sz -> V' k = V k.

Lemma changes_spares V ip V' ip' c :
  marked V -> file_ok V ip -> changes V ip V' ip' c -> spares V ip V' ip' /\ keeps_log V V'.
Proof.
  intros Hm Hf Hch. pose proof (fg_start _ _ _ Hfs) as [Hb _]. split; [split|].
  - apply Hch.
  - apply Hch.
  - apply Hch.
  - intros k Hu. apply (gr_other _ _ _ _ _ Hch); [by eapply used_not_bmap|]. intros _. apply Hu.
  - eapply changes_kept; [done..| |left; right; right; lia]. intros (b & Hb' & E).
    destruct (BBLOCK_eq start sz Hg sb0 b Hfs Hb') as [E1 _]. assert (0 <= b / BPB) by (apply Z.div_pos; [lia|done]). lia.
  - rewrite (gr_same _ _ _ _ _ Hch). by destruct ip.
  - intros n jp Hn _. unfold InodeProofs.dinode. by rewrite (changes_iblock V ip V' ip' c n).
  - intros k Hk. pose proof (fg_log _ _ _ Hfs). eapply changes_kept; [done..|lia| |right; intros [_ []]; lia].
    intros (b & Hb' & E). destruct (BBLOCK_eq start sz Hg sb0 b Hfs Hb') as [_ [_ []]]. lia.
Qed.
(** A store of the inode, of which only the size differs. *)
Lemma stored_spares V ip s :
  marked V -> file_ok V ip -> length (V (IBLOCK (i_inum ip) sb0)) = Z.to_nat BSIZE -> valid_inum ip ->
  inode_ok (ip <| i_size := s |>) ->
  spares V ip (stored V (i_inum ip) (ip <| i_size := s |>)) (ip <| i_size := s |>) /\
  keeps_log V (stored V (i_inum ip) (ip <| i_size := s |>)).
Proof.
  intros Hm Hf Hl Hn Hok. destruct (iblock_meta _ Hn) as [Hk Hnb]. pose proof (iblock_pos _ Hn). split; [split|].
  - intros k Hk' Hb. unfold InodeProofs.stored. by rewrite bit_vset.
  - intros m _. left. unfold InodeProofs.stored. by rewrite (faddr_vset V) by (done || by apply file_ok_size).
  - by left.
  - intros k Hu H1 H2. apply vset_ne. intros ->. by apply Hu.
  - apply vset_ne. lia.
  - by destruct ip.
  - intros n jp' Hn' Hne. by rewrite (dinode_stored_other start sz Hg sb0 Hfs).
  - intros k Hk'. apply vset_ne. intros ->. destruct (IBLOCK_eq start sz Hg sb0 _ Hfs Hn) as [_ [_ []]]. lia.
Qed.

Lemma filled_write V ip V' ip' c off n sz' :
  filled V ip sz' -> changes V ip V' ip' c -> 0 <= off <= sz' -> 0 <= n -> off + n <= MAXFILE * BSIZE ->
  (forall j, off <= j < off + n -> faddr V' ip' (j / BSIZE) <> 0) -> filled V' ip' (Z.max sz' (off + n)).
Proof.
  intros [Hs Hfl] Hch Ho Hn Hmax Hthere. split; [lia|]. intros j Hj.
  destruct (decide (j < sz')); [|apply Hthere; lia]. eapply changes_there; [exact Hch| |apply Hfl; lia].
  unfold inr. change MAXFILE with 140 in *. change BSIZE with 512 in *. Z.to_euclidean_division_equations; lia.
Qed.

Lemma writei_run src data x V hs i ip off n m :
  let t := turns off n in
  yields src data -> file_at x V hs i ip -> 0 <= off <= i_size ip -> 0 <= n <= Z.of_nat (length data) ->
  off + n <= MAXFILE * BSIZE -> free_blocks V (2 * t + m) -> room (6 * t + 1) hs -> (length hs + 6 * t < bhead)%nat ->
  exists x' V' hs' ip', run (writei i src off n) x n x' /\ file_at x' V' hs' i ip' /\ iframe i x x' /\
    i_size ip' = Z.max (i_size ip) (off + n) /\
    (forall j, inr (j / BSIZE) -> content V' ip' j = overwrite (content V ip) off (take (Z.to_nat n) data) j) /\
    (length hs <= length hs' <= length hs + 6 * t + 1)%nat /\ free_blocks V' m /\ spares V ip V' ip' /\
    keeps_log V V'.
Proof.
  intros t Hsrc [Hp Ht Hsh Hin Hfl Hsy] Ho Hn Hmax Hfree Hr Hs.
  destruct (writei_loop_run src data (S (Z.to_nat (n / BSIZE + 2))) x V hs i ip 0 off n m Hsrc Hp)
    as (x1 & V1 & hs1 & ip1 & R1 & Hp1 & Hch & F1 & Hl1 & Hfree1 & Hthere & Hsame); try (rewrite Z.sub_0_r; fold t); try lia.
  { apply turns_bound; lia. }
  { done. }
  { unfold BlockProofs.room in *. lia. }
  rewrite Z.sub_0_r in *. fold t in Hl1. cbn [Z.to_nat] in Hch. rewrite drop_0 in Hch.
  destruct (changes_fields _ _ _ _ _ Hch) as (E1 & E2 & E3).
  assert (filled V1 ip1 (Z.max (i_size ip) (off + n))) as Hfl1 by (by eapply filled_write; try done; lia).
  assert (shorts_ok ip1) as Hsh1 by (by rewrite (gr_same _ _ _ _ _ Hch)).
  pose proof (changes_spares _ _ _ _ _ (fp_marked _ _ _ _ _ _ Hp) (fp_file _ _ _ _ _ _ Hp) Hch) as [Hsp Hlog].
  assert (forall x' r, run ((if (0 <? n) && (i_size ip1 <? off + n) then r else ret tt) : M unit) x1 tt x' ->
                       r = (seti i (fun ip => ip <| i_size := off + n |>) ;; iupdate i) -> run (writei i src off n) x n x') as Hrun.
  { intros x' r R ->. unfold writei. eapply mrun_bind; [apply geti_mrun, Hp|].
    destruct (Z.eqb_spec (i_type ip) T_DEV); [done|]. change MAXFILE with 140 in *. change BSIZE with 512 in *.
    rewrite (u32_small (off + n)) by cint. destruct (Z.ltb_spec (i_size ip) off); [lia|].
    destruct (Z.ltb_spec (off + n) off); [lia|]. cbn [orb]. destruct (Z.ltb_spec (140 * 512) (off + n)); [lia|].
    eapply mrun_bind; [exact R1|]. eapply mrun_bind; [apply geti_mrun, Hp1|]. eapply mrun_bind; [exact R|].
    rewrite s32_small by cint. apply mrun_ret. }
  destruct (decide (i_size ip < off + n)) as [Hgt|Hle].
  - destruct (grow_size_run x1 V1 hs1 i ip1 (off + n) Hp1 Hsh1) as (x2 & hs2 & R2 & Hp2 & Hsy2 & F2 & Hl2);
      [by rewrite E3|lia|unfold BlockProofs.room in *; lia|lia|].
    destruct (iblock_meta (i_inum ip1)) as [Hk Hnb]; [by rewrite E3|].
    pose proof (fp_file _ _ _ _ _ _ Hp1) as Hf1.
    assert (spares V1 ip1 (stored V1 (i_inum ip1) (ip1 <| i_size := off + n |>)) (ip1 <| i_size := off + n |>) /\
            keeps_log V1 (stored V1 (i_inum ip1) (ip1 <| i_size := off + n |>))) as Hst.
    { apply stored_spares; [apply Hp1|done| |by rewrite E3|].
      - eapply in_op_size; [apply Hp1|]. rewrite E3. apply (IBLOCK_eq start sz Hg sb0 _ Hfs Hin).
      - apply (file_inode_ok V1); [by apply file_ok_size|done|]. cbn. change MAXFILE with 140 in *. change BSIZE with 512 in *. cint. }
    eexists x2, _, hs2, _. split_and!; [|split; [exact Hp2|by rewrite <-E1 in Ht|done|by rewrite <-E3 in Hin| |exact Hsy2]| | | |lia|lia| | |].
    + eapply Hrun; [|done]. rewrite E2. destruct (Z.ltb_spec 0 n); [|lia]. destruct (Z.ltb_spec (i_size ip) (off + n)); [|lia]. exact R2.
    + cbn. destruct Hfl1 as [G1 G2]. split; [lia|]. intros j Hj. unfold InodeProofs.stored.
      rewrite (faddr_vset V1); [apply G2; lia|done|by apply file_ok_size].
    + by etransitivity.
    + cbn. lia.
    + intros j Hj. unfold InodeProofs.stored. rewrite (content_vset V1); [|done|by apply file_ok_size|done]. by apply (gr_content _ _ _ _ _ Hch).
    + by apply free_vset.
    + eapply spares_trans; [exact Hsp|apply Hst].
    + intros k Hk'. rewrite <-(Hlog k Hk'). by apply Hst.
  - assert (ip1 = ip) as ->.
    { apply Hsame. intros j Hj. apply Hfl. lia. }
    eexists x1, V1, hs1, ip. split_and!; [|split; [exact Hp1|done..| |]|done|lia|apply Hch|lia|lia|done|done|done].
    + eapply Hrun; [|done]. destruct (Z.ltb_spec (i_size ip) (off + n)); [lia|]. rewrite andb_false_r. apply mrun_ret.
    + by rewrite Z.max_l in Hfl1 by lia.
    + unfold synced, InodeProofs.dinode. rewrite (changes_iblock V ip _ _ _ _ (fp_marked _ _ _ _ _ _ Hp) (fp_file _ _ _ _ _ _ Hp) Hin Hch). done.
Qed.

End ops.
