(* ===== verification/Pipe.v ===== *)
(** * Pipes: pipe.c

    A pipe lives in a page of its own; [pipes] maps the address of the page to it.  pipealloc,
    which creates the two files as well, is in File.v. *)

From stdpp Require Import base list gmap strings fin_maps.
From S2P Require Import Prelude State Monad Spinlock Console Kalloc Str Vm VmProofs VmUser Umem Sched.
From S2P Require Import Sleeplock Disk Bio Log Inode ConsoleDev.
Open Scope Z_scope.

Definition get_pipe (a : Z) : M pipe :=
  t ← gets (fun s => pipes (fst_ s)) ;
  match t !! a with Some p => ret p | None => undef "pipe" end.
Definition set_pipe (a : Z) (f : pipe -> pipe) : M unit :=
  set_fs (fun x => x <| pipes ::= alter f a |>).

Definition pipeclose (a writable : Z) : M unit :=
  acquire (L_pipe a) ;;
  (if negb (writable =? 0) then
     set_pipe a (fun p => p <| pi_writeopen := 0 |>) ;;
     wakeup (Ch_nread a)
   else
     set_pipe a (fun p => p <| pi_readopen := 0 |>) ;;
     wakeup (Ch_nwrite a)) ;;
  p ← get_pipe a ;
  if (pi_readopen p =? 0) && (pi_writeopen p =? 0) then
    release (L_pipe a) ;;
    set_fs (fun x => x <| pipes ::= delete a |>) ;;
    kfree a
  else release (L_pipe a).

(** [while(p->nwrite == p->nread + PIPESIZE)]: wait for room; [true] when the write has failed
    and the lock is released. *)
Fixpoint room_wait (fuel : nat) (a : Z) : M bool :=
  match fuel with
  | O => nofuel
  | S fuel =>
      p ← get_pipe a ;
      if pi_nwrite p =? u32 (pi_nread p + PIPESIZE) then
        dead ← (if pi_readopen p =? 0 then ret true
                else pr ← curproc ; ret (negb (p_killed pr =? 0))) ;
        if dead : bool then release (L_pipe a) ;; ret true
        else
          wakeup (Ch_nread a) ;;
          sleep (Ch_nwrite a) (L_pipe a) ;;
          room_wait fuel a
      else ret false
  end.

(** p->data[p->nwrite++ % PIPESIZE] = c *)
Definition pipe_put (c : Z) (p : pipe) : pipe :=
  p <| pi_data ::= <[Z.to_nat (pi_nwrite p mod PIPESIZE) := u8 c]> |>
    <| pi_nwrite := u32 (pi_nwrite p + 1) |>.

Definition pipewrite (a : Z) (addr : source) (n : Z) : M Z :=
  acquire (L_pipe a) ;;
  r ← for_until (range 0 n) (fun i =>
        failed ← (fun e => room_wait (S (length e)) a e) ;
        if failed : bool then ret (Some (-1)) else
        bs ← addr i 1 ;
        set_pipe a (pipe_put (nthz 0 bs 0)) ;;
        ret None) ;
  match r with
  | Some v => ret v
  | None =>
      wakeup (Ch_nread a) ;;
      release (L_pipe a) ;;
      ret n
  end.

(** [while(p->nread == p->nwrite && p->writeopen)]: wait for data; [true] when the process was
    killed and the lock is released. *)
Fixpoint data_wait (fuel : nat) (a : Z) : M bool :=
  match fuel with
  | O => nofuel
  | S fuel =>
      p ← get_pipe a ;
      if (pi_nread p =? pi_nwrite p) && negb (pi_writeopen p =? 0) then
        pr ← curproc ;
        if negb (p_killed pr =? 0) then release (L_pipe a) ;; ret true
        else sleep (Ch_nread a) (L_pipe a) ;; data_wait fuel a
      else ret false
  end.

(** The copying loop of piperead: the number of bytes delivered. *)
Fixpoint piperead_loop (n : nat) (a : Z) (addr : sink) (i : Z) : M Z :=
  match n with
  | O => ret i
  | S n =>
      p ← get_pipe a ;
      if pi_nread p =? pi_nwrite p then ret i else
      let c := nthz 0 (pi_data p) (pi_nread p mod PIPESIZE) in
      set_pipe a (fun p => p <| pi_nread := u32 (pi_nread p + 1) |>) ;;
      addr i [c] ;;
      piperead_loop n a addr (i + 1)
  end.

Definition piperead (a : Z) (addr : sink) (n : Z) : M Z :=
  acquire (L_pipe a) ;;
  killed ← (fun e => data_wait (S (length e)) a e) ;
  if killed : bool then ret (-1) else
  i ← piperead_loop (Z.to_nat n) a addr 0 ;
  wakeup (Ch_nwrite a) ;;
  release (L_pipe a) ;;
  ret i.
