(* ===== verification/File.v ===== *)
(** * Open files: file.c, and pipealloc of pipe.c *)

From stdpp Require Import base list gmap strings fin_maps.
From S2P Require Import Prelude State Monad Spinlock Console Kalloc Str Vm VmProofs VmUser Umem Sched.
From S2P Require Import Sleeplock Disk Bio Log Inode ConsoleDev Fs Pipe.
Open Scope Z_scope.

Definition getf (i : nat) : M file :=
  l ← gets (fun s => ftable (fst_ s)) ;
  match l !! i with Some f => ret f | None => undef "ftable.file[i]" end.
Definition setf (i : nat) (g : file -> file) : M unit :=
  set_fs (fun x => x <| ftable ::= alter g i |>).

Definition fileinit : M unit := initlock L_ftable.

Definition filealloc : M (option nat) :=
  acquire L_ftable ;;
  l ← gets (fun s => ftable (fst_ s)) ;
  match findi (fun f => f_ref f =? 0) l with
  | Some i =>
      setf i (fun f => f <| f_ref := 1 |>) ;;
      release L_ftable ;;
      ret (Some i)
  | None =>
      release L_ftable ;;
      ret None
  end.

Definition filedup (i : nat) : M nat :=
  acquire L_ftable ;;
  f ← getf i ;
  if f_ref f <? 1 then panic "filedup" else
  setf i (fun f => f <| f_ref ::= Z.succ |>) ;;
  release L_ftable ;;
  ret i.

Section driver.
Context `{BlockDriver}.

Definition fileclose (i : nat) : M unit :=
  acquire L_ftable ;;
  f ← getf i ;
  if f_ref f <? 1 then panic "fileclose" else
  setf i (fun f => f <| f_ref ::= Z.pred |>) ;;
  f ← getf i ;
  if 0 <? f_ref f then release L_ftable else
  let ff := f in
  setf i (fun f => f <| f_ref := 0 |>) ;;
  setf i (fun f => f <| f_type := FD_NONE |>) ;;
  release L_ftable ;;
  match f_type ff with
  | FD_PIPE => pipeclose (f_pipe ff) (f_writable ff)
  | FD_INODE =>
      begin_op ;;
      ip ← the_inode (f_ip ff) ;
      iput ip ;;
      end_op
  | FD_NONE => ret tt
  end.

(** [st] stores the metadata where the caller asked for it. *)
Definition filestat (i : nat) (st : stat -> M unit) : M Z :=
  f ← getf i ;
  match f_type f with
  | FD_INODE =>
      ip ← the_inode (f_ip f) ;
      ilock ip ;;
      v ← stati ip ;
      st v ;;
      iunlock ip ;;
      ret 0
  | _ => ret (-1)
  end.

Definition fileread (i : nat) (addr : sink) (n : Z) : M Z :=
  f ← getf i ;
  if f_readable f =? 0 then ret (-1) else
  match f_type f with
  | FD_PIPE => piperead (f_pipe f) addr n
  | FD_INODE =>
      ip ← the_inode (f_ip f) ;
      ilock ip ;;
      f ← getf i ;
      r ← readi ip addr (f_off f) (u32 n) ;
      when (0 <? fst r) (setf i (fun f => f <| f_off := u32 (f_off f + fst r) |>)) ;;
      iunlock ip ;;
      ret (fst r)
  | FD_NONE => panic "fileread"
  end.

Definition max_write : Z := (MAXOPBLOCKS - 1 - 1 - 2) / 2 * 512.

(** The loop of filewrite from [i] bytes on: the number of bytes written. *)
Fixpoint filewrite_loop (fuel : nat) (fi : nat) (addr : source) (i n : Z) : M Z :=
  match fuel with
  | O => nofuel
  | S fuel =>
      if i <? n then
        let n1 := if max_write <? n - i then max_write else n - i in
        begin_op ;;
        f ← getf fi ;
        ip ← the_inode (f_ip f) ;
        ilock ip ;;
        f ← getf fi ;
        r ← writei ip (fun o m => addr (i + o) m) (f_off f) n1 ;
        when (0 <? r) (setf fi (fun f => f <| f_off := u32 (f_off f + r) |>)) ;;
        iunlock ip ;;
        end_op ;;
        if r <? 0 then ret i else
        if negb (r =? n1) then panic "short filewrite" else
        filewrite_loop fuel fi addr (i + r) n
      else ret i
  end.

Definition filewrite (fi : nat) (addr : source) (n : Z) : M Z :=
  f ← getf fi ;
  if f_writable f =? 0 then ret (-1) else
  match f_type f with
  | FD_PIPE => pipewrite (f_pipe f) addr n
  | FD_INODE =>
      i ← filewrite_loop (S (Z.to_nat (n / max_write + 1))) fi addr 0 n ;
      ret (if i =? n then n else -1)
  | FD_NONE => panic "filewrite"
  end.

(** ** pipe.c: pipealloc *)

(** The contents of a new pipe's buffer are never read before they are written. *)
Definition new_pipe : pipe := mkPipe (replicate (Z.to_nat PIPESIZE) 0) 0 0 1 1.

Definition pipe_end (readable writable a : Z) (f : file) : file :=
  f <| f_type := FD_PIPE |> <| f_readable := readable |> <| f_writable := writable |>
    <| f_pipe := a |>.

(** The two files; [None] for the return of -1. *)
Definition pipealloc : M (option (nat * nat)) :=
  let bad (p : Z) (f0 f1 : option nat) :=
    when (negb (p =? 0)) (kfree p) ;;
    match f0 with Some f => fileclose f | None => ret tt end ;;
    match f1 with Some f => fileclose f | None => ret tt end ;;
    ret None in
  f0 ← filealloc ;
  match f0 with
  | None => bad 0 None None
  | Some r =>
      f1 ← filealloc ;
      match f1 with
      | None => bad 0 f0 None
      | Some w =>
          p ← kalloc ;
          if p =? 0 then bad 0 f0 f1 else
          set_fs (fun x => x <| pipes ::= <[p := new_pipe]> |>) ;;
          initlock (L_pipe p) ;;
          setf r (pipe_end 1 0 p) ;;
          setf w (pipe_end 0 1 p) ;;
          ret (Some (r, w))
      end
  end.

End driver.
