(* ===== verification/WriteProofs.v ===== *)
(** * filewrite

    filewrite splits a write into transactions of at most three blocks of data.  From a file
    system at rest it ends with the data in the file, on the disk, and other files as they were;
    a crash on the way leaves the file with some of the data, in the order of the transactions. *)

From stdpp Require Import base list gmap strings fin_maps.
From S2P Require Import Prelude State Monad Spinlock Console Kalloc Str Vm VmProofs VmUser Umem Sched Sleeplock Calm.
From S2P Require Import Disk Bio BioProofs Log LogLayout LogProofs Inode BlockProofs InodeProofs ConsoleDev Fs FileProofs.
From S2P Require Import Pipe File.
Open Scope Z_scope.

Section ops.
Context {dv : BlockDriver} {nblk : Z} {up : diskst -> Prop} {Hdrv : DriverOk dv nblk up}.
Context (p : nat) (pr : proc) (s0 : kstate) (Hcalm : calm p pr s0).
Context (start sz : Z) (Hg : geometry nblk start sz).
Context (sb0 : superblock) (Hfs : fs_geom (nblk := nblk) start sz sb0).
Notation run := (mrun s0).
Notation cached := (cache (p_pid pr) nblk up).
Notation home := (home nblk start sz).
Notation marked := (marked (nblk := nblk) start sz sb0).
Notation file_ok := (file_ok (nblk := nblk) start sz sb0).
Notation spares := (spares (nblk := nblk) start sz sb0).
Notation used := (used (nblk := nblk) start sz sb0).
Notation free_blocks := (free_blocks sb0).
Notation dinode := (dinode sb0).
Notation synced := (synced sb0).

(** ** A file depends only on the blocks outside the log *)

Definition agree (V V' : Z -> list Z) : Prop := forall k, home k -> V' k = V k.

Lemma agree_bit V V' b : agree V V' -> 0 <= b < sb_size sb0 -> bit V' sb0 b = bit V sb0 b.
Proof. intros H Hb. unfold bit. rewrite H; [done|]. apply (BBLOCK_eq start sz Hg sb0 b Hfs Hb). Qed.
Lemma agree_used V V' a : agree V V' -> used V a -> used V' a.
Proof. intros H (U1 & U2 & U3 & U4). split_and!; try done; try lia. rewrite (agree_bit V V') by (done || lia). done. Qed.
Lemma agree_faddr V V' ip n : agree V V' -> file_ok V ip -> faddr V' ip n = faddr V ip n.
Proof.
  intros H Hf. unfold faddr. destruct (n <? NDIRECT); [done|]. destruct (Z.eqb_spec (ind ip) 0) as [|H0]; [done|].
  rewrite H; [done|]. by apply (fo_ind _ _ _ _ _ Hf H0).
Qed.
Lemma agree_content V V' ip j : agree V V' -> file_ok V ip -> inr (j / BSIZE) -> content V' ip j = content V ip j.
Proof.
  intros H Hf Hj. unfold content. rewrite (agree_faddr V V') by done. destruct (Z.eqb_spec (faddr V ip (j / BSIZE)) 0); [done|].
  rewrite H; [done|]. by apply (fo_used _ _ _ _ _ Hf).
Qed.
Lemma agree_dinode V V' n ip : agree V V' -> 0 <= n < sb_ninodes sb0 -> dinode V' n ip = dinode V n ip.
Proof. intros H Hn. unfold InodeProofs.dinode. rewrite H; [done|]. apply (IBLOCK_eq start sz Hg sb0 n Hfs Hn). Qed.
Lemma agree_marked V V' : agree V V' -> marked V -> marked V'.
Proof. intros H Hm b Hb. rewrite (agree_bit V V') by done. by apply Hm. Qed.
Lemma agree_free V V' n : agree V V' -> free_blocks V n -> free_blocks V' n.
Proof. intros H. apply free_blocks_ext. intros b [Hb Hbit]. split; [done|]. by rewrite (agree_bit V V'). Qed.
Lemma agree_file V V' ip : agree V V' -> file_ok V ip -> file_ok V' ip.
Proof.
  intros H Hf. split; try apply Hf.
  - intros n Hn. rewrite (agree_faddr V V') by done. intros H0. by apply (agree_used V), (fo_used _ _ _ _ _ Hf).
  - intros H0. by apply (agree_used V), (fo_ind _ _ _ _ _ Hf).
  - intros n Hn. rewrite (agree_faddr V V') by done. by apply (fo_apart _ _ _ _ _ Hf).
  - intros n m Hn Hm. rewrite !(agree_faddr V V') by done. by apply (fo_inj _ _ _ _ _ Hf).
Qed.
Lemma agree_spares V ip V' ip' V'' :
  home 1 -> agree V' V'' -> file_ok V' ip' -> spares V ip V' ip' -> spares V ip V'' ip'.
Proof.
  intros H1 H Hf [S1 S2 S3 S4 S5 S6 S7]. split; try done.
  - intros k Hk Hb. rewrite (agree_bit V' V'') by done. by apply S1.
  - intros m Hm. rewrite (agree_faddr V' V'') by done. by apply S2.
  - intros k Hu Hi Ha. rewrite H; [by apply S4|apply Hu].
  - by rewrite H.
  - intros n jp Hn Hne. rewrite (agree_dinode V' V'') by done. by apply S7.
Qed.

(** ** A file at rest *)

(** A well-formed file, whose inode has reached the disk. *)
Record file_good (V : Z -> list Z) (ip : inode) : Prop := {
  gd_marked : marked V;
  gd_file : file_ok V ip;
  gd_type : i_type ip <> T_DEV;
  gd_shorts : shorts_ok ip;
  gd_inum : 0 <= i_inum ip < sb_ninodes sb0;
  gd_filled : filled V ip (i_size ip);
  gd_synced : synced V ip
}.
Lemma agree_good V V' ip : agree V V' -> file_good V ip -> file_good V' ip.
Proof.
  intros H [G1 G2 G3 G4 G5 [G6 G7] G8]. split; try done.
  - by eapply agree_marked.
  - by eapply agree_file.
  - split; [done|]. intros j Hj. rewrite (agree_faddr V V') by done. by apply G7.
  - unfold FileProofs.synced in *. by rewrite (agree_dinode V V').
Qed.

(** ** Two files *)

(** The blocks of a file. *)
Definition owns (V : Z -> list Z) (ip : inode) (a : Z) : Prop :=
  a <> 0 /\ (a = ind ip \/ exists m, inr m /\ faddr V ip m = a).
Definition apart (V : Z -> list Z) (ip jp : inode) : Prop := forall a, owns V ip a -> ~ owns V jp a.

Lemma owns_used V ip a : file_ok V ip -> owns V ip a -> used V a.
Proof. intros Hf [H0 [->|(m & Hm & <-)]]; [by apply (fo_ind _ _ _ _ _ Hf)|by apply (fo_used _ _ _ _ _ Hf)]. Qed.
Lemma apart_sym V ip jp : apart V ip jp -> apart V jp ip.
Proof. intros H a H1 H2. by apply (H a). Qed.

(** What an operation that spares other files does to one of them. *)
Lemma spares_block V ip V' ip' jp a :
  spares V ip V' ip' -> file_ok V jp -> apart V ip jp -> owns V jp a -> V' a = V a.
Proof.
  intros S Hf Ha Ho. pose proof (owns_used V jp a Hf Ho) as Hu. pose proof (proj1 Ho) as H0. apply (sp_used _ _ _ _ _ _ _ S); [done|..].
  - intros ->. apply (Ha (ind ip)); [|done]. split; [done|by left].
  - intros m Hm E. apply (Ha a); [|done]. split; [done|]. right. by exists m.
Qed.
Lemma spares_faddr V ip V' ip' jp n :
  spares V ip V' ip' -> file_ok V jp -> apart V ip jp -> faddr V' jp n = faddr V jp n.
Proof.
  intros S Hf Ha. unfold faddr. destruct (n <? NDIRECT); [done|]. destruct (Z.eqb_spec (ind jp) 0) as [|H0]; [done|].
  rewrite (spares_block V ip V' ip' jp); [done..|]. split; [done|by left].
Qed.
Lemma spares_content V ip V' ip' jp j :
  spares V ip V' ip' -> file_ok V jp -> apart V ip jp -> inr (j / BSIZE) -> content V' jp j = content V jp j.
Proof.
  intros S Hf Ha Hj. unfold content. rewrite (spares_faddr V ip V' ip') by done.
  destruct (Z.eqb_spec (faddr V jp (j / BSIZE)) 0) as [|H0]; [done|].
  rewrite (spares_block V ip V' ip' jp); [done..|]. split; [done|]. right. by exists (j / BSIZE).
Qed.
Lemma spares_owns V ip V' ip' jp a :
  spares V ip V' ip' -> file_ok V jp -> apart V ip jp -> owns V' jp a -> owns V jp a.
Proof.
  intros S Hf Ha [H0 [->|(m & Hm & E)]]; (split; [done|]); [by left|right]. exists m. by rewrite <-(spares_faddr V ip V' ip').
Qed.
Lemma spares_file V ip V' ip' jp :
  spares V ip V' ip' -> file_ok V jp -> apart V ip jp -> file_ok V' jp.
Proof.
  intros S Hf Ha. assert (forall a, used V a -> used V' a) as Hu.
  { intros a (U1 & U2 & U3 & U4). split_and!; try done; try lia. apply (sp_bit _ _ _ _ _ _ _ S); [lia|done]. }
  split; try apply Hf.
  - intros n Hn. rewrite (spares_faddr V ip V' ip') by done. intros H0. by apply Hu, (fo_used _ _ _ _ _ Hf).
  - intros H0. by apply Hu, (fo_ind _ _ _ _ _ Hf).
  - intros n Hn. rewrite (spares_faddr V ip V' ip') by done. by apply (fo_apart _ _ _ _ _ Hf).
  - intros n m Hn Hm. rewrite !(spares_faddr V ip V' ip') by done. by apply (fo_inj _ _ _ _ _ Hf).
Qed.
Lemma spares_good V ip V' ip' jp :
  spares V ip V' ip' -> marked V' -> file_good V jp -> apart V ip jp -> i_inum jp <> i_inum ip -> file_good V' jp.
Proof.
  intros S Hm [G1 G2 G3 G4 G5 [G6 G7] G8] Ha Hne. split; try done.
  - by eapply spares_file.
  - split; [done|]. intros j Hj. rewrite (spares_faddr V ip V' ip') by done. by apply G7.
  - unfold FileProofs.synced in *. by rewrite (sp_inodes _ _ _ _ _ _ _ S).
Qed.
(** The blocks that the changed file gains were free. *)
Lemma spares_apart V ip V' ip' jp :
  spares V ip V' ip' -> file_ok V jp -> apart V ip jp -> apart V' ip' jp.
Proof.
  intros S Hf Ha a [H0 Ho] Hj. apply (spares_owns V ip V' ip') in Hj; [|done..].
  pose proof (owns_used V jp a Hf Hj) as Hu. destruct Ho as [->|(m & Hm & E)].
  - destruct (sp_ind _ _ _ _ _ _ _ S) as [E|[_ Hfr]]; [|by eapply (used_not_fresh start sz sb0 V)].
    apply (Ha (ind ip')); [|done]. split; [done|]. by left.
  - destruct (sp_addr _ _ _ _ _ _ _ S m Hm) as [E1|[_ Hfr]]; [|rewrite E in Hfr; by eapply (used_not_fresh start sz sb0 V)].
    apply (Ha a); [|done]. split; [done|]. right. exists m. split; [done|]. congruence.
Qed.

(** No operation is in progress, and inode [i] of the cache is that of the file. *)
Record rest (x : fsys) (V : Z -> list Z) (i : nat) (ip : inode) : Prop := {
  re_cache : cached x V ∅ ∅ ∅;
  re_log : log_at x start sz [];
  re_idle : idle_log x;
  re_sb : sb (ff x) = sb0;
  re_head : head_of (V start) [];
  re_places : sb_places start sz (V 1);
  re_inode : icache (ff x) !! i = Some ip;
  re_ref : 1 <= i_ref ip /\ i_valid ip = 1;
  re_lock : fl x !! SL_inode i = None;
  re_good : file_good V ip
}.

(** ** One transaction *)

(** Recovery from the disk [d] gives contents with [P]. *)
Definition survives (d : diskst) (P : (Z -> list Z) -> Prop) : Prop :=
  forall p' pr' s1 y, calm p' pr' s1 -> blank (bufs (ff y)) -> log_boot y -> fd y = d ->
  exists y', mrun s1 (binit ;; initlog 1) y tt y' /\ log_at y' start sz [] /\ P (read_disk (fd y') 1).

Lemma survives_weaken d (P Q : (Z -> list Z) -> Prop) : (forall D, P D -> Q D) -> survives d P -> survives d Q.
Proof.
  intros H Hs p' pr' s1 y H1 H2 H3 H4. destruct (Hs p' pr' s1 y H1 H2 H3 H4) as (y' & R & L & HP).
  exists y'. auto.
Qed.

Lemma in_op_fl g x V hs L :
  (forall i, g (fl x) !! SL_buf i = fl x !! SL_buf i) -> in_op (nblk := nblk) (up := up) pr start sz x V hs L ->
  in_op (nblk := nblk) (up := up) pr start sz (x <| fl ::= g |>) V hs L.
Proof. intros H [H1 [] H3 H4]. split; try done. by apply cache_fl. Qed.

Lemma ilock_valid x i ip :
  icache (ff x) !! i = Some ip -> 1 <= i_ref ip -> i_valid ip = 1 -> fl x !! SL_inode i = None ->
  run (ilock i) x tt (x <| fl ::= <[SL_inode i := p_pid pr]> |>).
Proof.
  intros Hi Hr Hv Hf. unfold ilock. eapply mrun_bind; [by apply geti_mrun|]. destruct (Z.ltb_spec (i_ref ip) 1); [lia|].
  eapply mrun_bind; [by apply (acquiresleep_run p pr)|]. eapply mrun_bind; [by apply geti_mrun|]. rewrite Hv. apply mrun_ret.
Qed.
Lemma iunlock_run x i ip :
  icache (ff x) !! i = Some ip -> 1 <= i_ref ip -> fl x !! SL_inode i = Some (p_pid pr) ->
  run (iunlock i) x tt (x <| fl ::= delete (SL_inode i) |>).
Proof.
  intros Hi Hr Hf. unfold iunlock. eapply mrun_bind; [by eapply holdingsleep_run|]. rewrite bool_decide_true by done. cbn [negb].
  eapply mrun_bind; [by apply geti_mrun|]. destruct (Z.ltb_spec (i_ref ip) 1); [lia|]. by eapply releasesleep_run.
Qed.
Lemma getf_run x fi f : ftable (ff x) !! fi = Some f -> run (getf fi) x f x.
Proof. intros H. apply mrun_exact. intros e. unfold getf. prim. cbn. by rewrite H. Qed.

Notation on_log f x := (x <| ff ::= fun y => y <| logs ::= f |> |>).

(** begin_op and ilock. *)
Definition opened (i : nat) (x : fsys) : fsys :=
  (on_log (fun l => l <| lg_outstanding ::= Z.succ |>) x) <| fl ::= <[SL_inode i := p_pid pr]> |>.

Lemma open_run x V i ip :
  rest x V i ip -> home 1 ->
  run begin_op x tt (on_log (fun l => l <| lg_outstanding ::= Z.succ |>) x) /\
  run (ilock i) (on_log (fun l => l <| lg_outstanding ::= Z.succ |>) x) tt (opened i x) /\
  file_at (nblk := nblk) (up := up) pr start sz sb0 (opened i x) V [] i ip.
Proof.
  intros [C L [I1 I2] Hsb Hh Hpl Hi [Hr Hv] Hlk [G1 G2 G3 G4 G5 G6 G7]] H1. split_and!.
  - apply (begin_op_run p pr); [done|done|]. rewrite (lo_n _ _ _ _ L), I1. done.
  - by eapply ilock_valid.
  - assert (in_op (nblk := nblk) (up := up) pr start sz (opened i x) V [] ∅) as Ho.
    { apply in_op_fl; [intros j; by apply lookup_insert_ne|]. split.
      - split_and!; [apply NoDup_nil_2|set_solver|unfold geometry in Hg; cbn; lia].
      - destruct L. by split.
      - cbn. rewrite I1. lia.
      - by apply cache_fs. }
    by split.
Qed.

Lemma ended_agree V hs :
  txn nblk start sz hs -> (forall k, 0 <= k < nblk -> length (V k) = Z.to_nat BSIZE) -> head_of (V start) [] ->
  agree V (wview (end_writes start V hs) V) /\ head_of (wview (end_writes start V hs) V start) [].
Proof.
  intros Ht Hl Hh. split; [intros k Hk; by eapply end_writes_home|].
  destruct hs as [|h hs]; [done|]. by apply (crash_done V V (h :: hs) Hg Ht).
Qed.

(** The offset of the file, iunlock and end_op. *)
Definition closing (i fi : nat) (g : file -> file) (x : fsys) : fsys :=
  x <| ff ::= fun y => y <| ftable ::= alter g fi |> |> <| fl ::= delete (SL_inode i) |>.

Lemma close_run x V hs i ip fi g :
  file_at (nblk := nblk) (up := up) pr start sz sb0 x V hs i ip -> 1 <= i_ref ip /\ i_valid ip = 1 ->
  fl x !! SL_inode i = Some (p_pid pr) -> head_of (V start) [] -> sb_places start sz (V 1) -> home 1 ->
  lg_outstanding (logs (ff x)) = 1 -> lg_committing (logs (ff x)) = 0 ->
  exists x' V', run (setf fi g) x tt (x <| ff ::= fun y => y <| ftable ::= alter g fi |> |>) /\
    run (iunlock i) (x <| ff ::= fun y => y <| ftable ::= alter g fi |> |>) tt (closing i fi g x) /\
    run end_op (closing i fi g x) tt x' /\ rest x' V' i ip /\ agree V V' /\
    ftable (ff x') = alter g fi (ftable (ff x)) /\ fd x' = wrote (end_writes start V hs) (fd x).
Proof.
  intros [[Ho Hsb Hm HL Hf Hi] Ht Hsh Hin Hfl Hsy] [Hr Hv] Hlk Hh Hpl H1 O1 O2.
  assert (in_op (nblk := nblk) (up := up) pr start sz (closing i fi g x) V hs ∅) as Ho1.
  { apply in_op_fl; [intros j; by apply lookup_delete_ne|]. by apply in_op_fs. }
  destruct Ho1 as [Htx Hl1 _ Hc1].
  destruct (end_op_run p pr s0 Hcalm start sz (closing i fi g x) V hs Hg Htx Hl1 Hc1) as (x' & R & C & L & I & F & E); [done..|].
  destruct (ended_agree V hs Htx (ca_size _ _ _ _ _ _ _ _ Hc1) Hh) as [Ha Hh'].
  eexists x', _. split_and!; [apply mrun_exact; reflexivity|by eapply iunlock_run|exact R| |exact Ha| |exact E].
  - split; try done.
    + by rewrite (lf_ff _ _ F).
    + by rewrite (Ha 1 H1).
    + by rewrite (lf_ff _ _ F).
    + rewrite (lf_fl _ _ F) by done. apply lookup_delete_eq.
    + eapply agree_good; [exact Ha|]. by split.
  - by rewrite (lf_ff _ _ F).
Qed.

Lemma chunk_turns off n : 0 <= off -> 0 <= n <= max_write -> (turns off n <= 4)%nat.
Proof.
  change max_write with 1536. intros Ho Hn. unfold turns. destruct (n =? 0); [lia|].
  destruct (off_pos off Ho) as (_ & Hmod & _). change BSIZE with 512 in *. Z.to_euclidean_division_equations; lia.
Qed.
Lemma yields_drop src data k :
  0 <= k <= Z.of_nat (length data) -> yields s0 src data -> yields s0 (fun o m => src (k + o) m) (drop (Z.to_nat k) data).
Proof.
  intros Hk H x o n Ho Hn Hle. rewrite length_drop in Hle. rewrite drop_drop, <-Z2Nat.inj_add by lia. apply H; lia.
Qed.

(** The bytes of the file are [c], and its size is [s]. *)
Definition holds_bytes (V : Z -> list Z) (ip : inode) (c : Z -> Z) (s : Z) : Prop :=
  i_size ip = s /\ forall j, inr (j / BSIZE) -> content V ip j = c j.

(** What is known after [ws] has been written from [x]: the file has the bytes [c], the offset of
    file [fi] has advanced by [n], and nothing else has changed. *)
Record written (x : fsys) (V : Z -> list Z) (i : nat) (ip : inode) (fi : nat) (n : Z) (c : Z -> Z) (s : Z)
    (ws : list (Z * Z * list Z)) (x' : fsys) (V' : Z -> list Z) (ip' : inode) : Prop := {
  wn_rest : rest x' V' i ip';
  wn_disk : fd x' = wrote ws (fd x);
  wn_off : ftable (ff x') = alter (fun f => f <| f_off ::= Z.add n |>) fi (ftable (ff x));
  wn_bytes : holds_bytes V' ip' c s;
  wn_spares : spares V ip V' ip'
}.

Lemma f_off_advance f n : is_u32 (f_off f + n) ->
  f <| f_off := u32 (f_off f + n) |> = f <| f_off ::= Z.add n |>.
Proof. intros H. rewrite u32_small by done. unfold upd. by rewrite (Z.add_comm n). Qed.
Lemma alter_at {A} (g h : A -> A) (l : list A) i a : l !! i = Some a -> g a = h a -> alter g i l = alter h i l.
Proof.
  intros Hi E. apply list_eq. intros j. destruct (decide (i = j)) as [<-|Hne].
  - by rewrite !list_lookup_alter_eq, Hi; cbn; rewrite E.
  - by rewrite !list_lookup_alter_ne.
Qed.

Lemma chunk_run x V i ip fi f src data k n m :
  yields s0 src data -> rest x V i ip -> ftable (ff x) !! fi = Some f -> f_ip f = Some i ->
  0 <= k -> 0 < n <= max_write -> k + n <= Z.of_nat (length data) ->
  0 <= f_off f <= i_size ip -> f_off f + n <= MAXFILE * BSIZE -> free_blocks V (8 + m) -> 25 < sz -> home 1 ->
  let c := overwrite (content V ip) (f_off f) (take (Z.to_nat n) (drop (Z.to_nat k) data)) in
  exists ws x' V' ip', written x V i ip fi n c (Z.max (i_size ip) (f_off f + n)) ws x' V' ip' /\ free_blocks V' m /\
    (forall B (kk : Z -> M B) b x'', run (kk n) x' b x'' ->
      run (begin_op ;;
        f ← getf fi ;
        ip ← the_inode (f_ip f) ;
        ilock ip ;;
        f ← getf fi ;
        r ← writei ip (fun o m => src (k + o) m) (f_off f) n ;
        when (0 <? r) (setf fi (fun f => f <| f_off := u32 (f_off f + r) |>)) ;;
        iunlock ip ;;
        end_op ;; kk r) x b x'') /\
    forall ws1 ws2, ws = ws1 ++ ws2 -> survives (wrote ws1 (fd x)) (fun D => agree V D \/ agree V' D).
Proof.
  intros Hsrc Hx Hfi Hip Hk Hn Hlen Hoff Hmax Hfree Hsz H1 c. pose proof Hx as [C L [I1 I2] Hsb Hh Hpl Hi Hrv Hlk Hgd].
  destruct (open_run x V i ip Hx H1) as (R1 & R2 & Hat).
  pose proof (chunk_turns (f_off f) n ltac:(lia) ltac:(lia)) as Ht.
  destruct (writei_run p pr s0 Hcalm start sz Hg sb0 Hfs (fun o m => src (k + o) m) (drop (Z.to_nat k) data) (opened i x) V [] i ip
              (f_off f) n m) as (x3 & V3 & hs & ip3 & R3 & Hat3 & F3 & Es & Hc3 & Hl3 & Hfree3 & Hsp & Hlog); try done.
  { apply yields_drop; [lia|done]. }
  { rewrite length_drop. lia. }
  { eapply free_blocks_le; [|exact Hfree]. lia. }
  { unfold room. cbn [length]. lia. }
  { cbn [length]. change bhead with 30%nat. lia. }
  destruct (if_log _ _ _ F3) as [O1 O2].
  set (g := fun f : file => f <| f_off := u32 (f_off f + n) |>).
  destruct (close_run x3 V3 hs i ip3 fi g Hat3) as (x' & V' & R4 & R5 & R6 & Hrest & Ha & Hft & Hfd); try done.
  { by rewrite (sp_same _ _ _ _ _ _ _ Hsp). }
  { rewrite (if_fl _ _ _ F3) by done. apply lookup_insert_eq. }
  { rewrite Hlog by (unfold geometry in Hg; lia). done. }
  { by rewrite (sp_super _ _ _ _ _ _ _ Hsp). }
  { rewrite O1. cbn. lia. }
  { rewrite O2. done. }
  pose proof Hat3 as [[Ho3 _ Hm3 _ Hf3 _] _ _ _ _ _].
  assert (fd x3 = fd x) as Efd by (by rewrite (if_fd _ _ _ F3)).
  assert (ftable (ff x3) = ftable (ff x)) as Eft by (by rewrite (if_ff _ _ _ F3)).
  exists (end_writes start V3 hs), x', V', ip3. split_and!.
  - split; [done|congruence| |split; [done|]|].
    + rewrite Hft, Eft. eapply alter_at; [exact Hfi|]. apply f_off_advance. change MAXFILE with 140 in *. change BSIZE with 512 in *. cint.
    + intros j Hj. rewrite (agree_content V3 V') by done. by apply Hc3.
    + by eapply agree_spares.
  - by eapply agree_free.
  - intros B kk b x'' Rk. eapply mrun_bind; [exact R1|]. eapply mrun_bind; [by apply getf_run|]. rewrite Hip.
    eapply mrun_bind; [apply mrun_ret|]. eapply mrun_bind; [exact R2|]. eapply mrun_bind; [by apply getf_run|].
    eapply mrun_bind; [exact R3|]. destruct (Z.ltb_spec 0 n); [|lia]. eapply mrun_bind; [exact R4|].
    eapply mrun_bind; [exact R5|]. eapply mrun_bind; [exact R6|exact Rk].
  - intros ws1 ws2 Hws p' pr' s1 y Hcalm' Hb Hlb Hy. rewrite <-Efd in Hy. destruct Ho3 as [Htx _ _ Hc].
    assert (forall j, 0 <= j < nblk -> read_disk (fd x) 1 j = V j) as Hold by (intros j Hj; eapply ca_disk; [exact C|done|set_solver..]).
    destruct (crash_run p' pr' s1 Hcalm' start sz (p_pid pr) x3 V3 hs ws1 ws2 y Hg H1 Htx Hc) as (y' & R & Ly & Hor); try done.
    { rewrite Hlog by (unfold geometry in Hg; lia). done. }
    { by rewrite (sp_super _ _ _ _ _ _ _ Hsp). }
    { rewrite Efd, (sp_super _ _ _ _ _ _ _ Hsp). apply Hold, H1. }
    exists y'. split_and!; [done..|]. rewrite Efd in Hor. destruct Hor as [Hor|Hor]; [left|right]; intros j Hj; rewrite (Hor j Hj).
    + apply Hold, Hj.
    + symmetry. by apply Ha.
Qed.

(** ** The loop *)

(** The file of [ip] on the disk [D] has the bytes [c], and what [V] has elsewhere is there too. *)
Definition file_on (V : Z -> list Z) (D : Z -> list Z) (ip : inode) (c : Z -> Z) (s : Z) : Prop :=
  let jp := dinode D (i_inum ip) ip in holds_bytes D jp c s /\ spares V ip D jp.

Lemma agree_file_on V0 V D ip0 ip c s :
  home 1 -> file_good V ip -> spares V0 ip0 V ip -> holds_bytes V ip c s -> agree V D -> file_on V0 D ip0 c s.
Proof.
  intros H1 Hgd Hsp [Hs Hc] Ha. pose proof (sp_same _ _ _ _ _ _ _ Hsp) as Hsame.
  assert (dinode D (i_inum ip0) ip0 = ip) as E.
  { replace (i_inum ip0) with (i_inum ip) by (by rewrite Hsame). rewrite (agree_dinode V D); [|done|apply Hgd].
    transitivity (dinode V (i_inum ip) ip); [by rewrite Hsame|apply Hgd]. }
  unfold file_on. rewrite E. split; [|eapply agree_spares; [done..|apply Hgd|done]].
  split; [done|]. intros j Hj. rewrite (agree_content V D); [by apply Hc|done|apply Hgd|done].
Qed.

Lemma holds_ext V ip c c' s : (forall j, inr (j / BSIZE) -> c j = c' j) -> holds_bytes V ip c s -> holds_bytes V ip c' s.
Proof. intros E [H1 H2]. split; [done|]. intros j Hj. rewrite H2 by done. by apply E. Qed.

Lemma written_trans x V i ip fi n1 c1 z1 ws1 x1 V1 ip1 n2 c2 z2 ws2 x2 V2 ip2 :
  written x V i ip fi n1 c1 z1 ws1 x1 V1 ip1 -> written x1 V1 i ip1 fi n2 c2 z2 ws2 x2 V2 ip2 ->
  written x V i ip fi (n1 + n2) c2 z2 (ws1 ++ ws2) x2 V2 ip2.
Proof.
  intros [A1 A2 A3 A4 A5] [B1 B2 B3 B4 B5]. split; [done| | |done|by eapply spares_trans].
  - by rewrite B2, A2, wrote_wrote.
  - rewrite B3, A3. apply list_eq. intros j. destruct (decide (fi = j)) as [<-|Hne].
    + rewrite !list_lookup_alter_eq. destruct (_ !! _); [|done]. cbn. unfold upd. cbn. do 2 f_equal. lia.
    + by rewrite !list_lookup_alter_ne.
Qed.

Lemma written_nil x V i ip fi c s : rest x V i ip -> holds_bytes V ip c s -> written x V i ip fi 0 c s [] x V ip.
Proof.
  intros Hx Hb. split; [done|by rewrite wrote_nil| |done|apply spares_refl]. symmetry. apply list_eq. intros j.
  destruct (decide (fi = j)) as [<-|Hne]; [|by rewrite list_lookup_alter_ne].
  rewrite list_lookup_alter_eq. destruct (ftable (ff x) !! fi) as [f|]; [|done]. by destruct f.
Qed.

Definition chunks (n : Z) : nat := Z.to_nat ((n + max_write - 1) / max_write).
Lemma chunks_step n : 0 < n -> chunks n = S (chunks (n - if max_write <? n then max_write else n)).
Proof.
  unfold chunks. change max_write with 1536. intros Hn. destruct (Z.ltb_spec 1536 n).
  - Z.to_euclidean_division_equations; lia.
  - rewrite Z.sub_diag. Z.to_euclidean_division_equations; lia.
Qed.

Lemma take_chunk (data : list Z) k a t :
  0 <= k -> 0 <= a -> 0 <= t -> k + a <= Z.of_nat (length data) ->
  take (Z.to_nat (a + t)) (drop (Z.to_nat k) data) =
  take (Z.to_nat a) (drop (Z.to_nat k) data) ++ take (Z.to_nat t) (drop (Z.to_nat (k + a)) data).
Proof.
  intros H1 H2 H3 H4. pose proof (chunk_split data k a (k + (a + t)) H1 H2 ltac:(lia)) as E.
  replace (k + (a + t) - k) with (a + t) in E by lia. replace (k + (a + t) - (k + a)) with t in E by lia. exact E.
Qed.

Lemma rest_survives x V i ip : rest x V i ip -> home 1 -> survives (fd x) (agree V).
Proof.
  intros [C L I Hsb Hh Hpl Hi Hr Hlk Hgd] H1 p' pr' s1 y Hcalm' Hb Hlb Hy.
  assert (forall j, 0 <= j < nblk -> read_disk (fd x) 1 j = V j) as Hold by (intros j Hj; eapply ca_disk; [exact C|done|set_solver..]).
  destruct (crash_run p' pr' s1 Hcalm' start sz (p_pid pr) x V [] [] [] y Hg H1) as (y' & R & Ly & Hor); try done.
  { split_and!; [apply NoDup_nil_2|set_solver|unfold geometry in Hg; cbn; lia]. }
  { apply Hold, H1. }
  { by rewrite wrote_nil. }
  exists y'. split_and!; [done..|]. intros j Hj. destruct Hor as [Hor|Hor]; rewrite (Hor j Hj); [apply Hold, Hj|done].
Qed.
Lemma prefix_split {A} (l1 l2 a b : list A) :
  l1 ++ l2 = a ++ b -> (exists a', l1 = a ++ a' /\ a' ++ l2 = b) \/ (exists a', a = l1 ++ a' /\ l2 = a' ++ b).
Proof.
  revert a. induction l1 as [|x l1 IH]; intros a E; [right; by exists a|]. destruct a as [|y a].
  - left. by exists (x :: l1).
  - injection E as -> E. destruct (IH a E) as [(a' & -> & H)|(a' & -> & H)]; [left|right]; by exists a'.
Qed.

Lemma filewrite_loop_run fuel x V i ip fi f src data k n m :
  yields s0 src data -> rest x V i ip -> ftable (ff x) !! fi = Some f -> f_ip f = Some i ->
  0 <= k <= n -> n <= Z.of_nat (length data) -> 0 <= f_off f <= i_size ip -> f_off f + (n - k) <= MAXFILE * BSIZE ->
  (chunks (n - k) < fuel)%nat -> free_blocks V (8 * chunks (n - k) + m) -> 25 < sz -> home 1 ->
  let bytes t := overwrite (content V ip) (f_off f) (take (Z.to_nat t) (drop (Z.to_nat k) data)) in
  let size t := Z.max (i_size ip) (f_off f + t) in
  exists ws x' V' ip', written x V i ip fi (n - k) (bytes (n - k)) (size (n - k)) ws x' V' ip' /\
    free_blocks V' m /\ run (filewrite_loop fuel fi src k n) x n x' /\
    forall ws1 ws2, ws = ws1 ++ ws2 ->
      survives (wrote ws1 (fd x)) (fun D => exists t, 0 <= t <= n - k /\ file_on V D ip (bytes t) (size t)).
Proof.
  intros Hsrc. revert x V ip f k m. induction fuel as [|fuel IH]; intros x V ip f k m Hx Hfi Hip Hk Hn Hoff Hmax Hfuel Hfree Hsz H1 bytes size;
    [lia|]. cbn [filewrite_loop]. pose proof (re_good _ _ _ _ Hx) as Hgd.
  assert (holds_bytes V ip (bytes 0) (size 0)) as H0.
  { split; [unfold size; lia|]. intros j Hj. unfold bytes. by rewrite overwrite_nil. }
  destruct (Z.ltb_spec k n) as [Hlt|Hge].
  2: { assert (n - k = 0) as E0 by lia. exists [], x, V, ip. rewrite E0 in *. split_and!; [|done| |].
       - by apply written_nil.
       - replace n with k by lia. apply mrun_ret.
       - intros ws1 ws2 E. symmetry in E. apply app_eq_nil in E as [-> ->]. rewrite wrote_nil.
         eapply survives_weaken; [|by eapply rest_survives]. intros D Ha. exists 0. split; [done|].
         eapply agree_file_on; [done|exact Hgd|apply spares_refl|exact H0|done]. }
  rewrite chunks_step in Hfuel, Hfree by lia. set (n1 := if max_write <? n - k then max_write else n - k) in *.
  assert (0 < n1 <= max_write /\ n1 <= n - k) as [Hn1 Hn2].
  { unfold n1. change max_write with 1536. destruct (Z.ltb_spec 1536 (n - k)); lia. }
  destruct (chunk_run x V i ip fi f src data k n1 (8 * chunks (n - k - n1) + m) Hsrc Hx Hfi Hip) as
    (wsA & x1 & V1 & ip1 & W1 & Hfree1 & R1 & S1); try done; try lia.
  { eapply free_blocks_le; [|exact Hfree]. lia. }
  pose proof W1 as [Hx1 _ Hft1 [Hsz1 Hby1] Hsp1].
  destruct (IH x1 V1 ip1 (f <| f_off ::= Z.add n1 |>) (k + n1) m Hx1) as (wsB & x2 & V2 & ip2 & W2 & Hfree2 & R2 & S2).
  { by rewrite Hft1, list_lookup_alter_eq, Hfi. }
  { done. }
  { lia. }
  { done. }
  { cbn. unfold upd. lia. }
  { cbn. unfold upd. lia. }
  { replace (n - (k + n1)) with (n - k - n1) by lia. lia. }
  { replace (n - (k + n1)) with (n - k - n1) by lia. done. }
  { done. }
  { done. }
  assert (forall t j, 0 <= t -> inr (j / BSIZE) ->
    overwrite (content V1 ip1) (n1 + f_off f) (take (Z.to_nat t) (drop (Z.to_nat (k + n1)) data)) j = bytes (n1 + t) j) as Hstep.
  { intros t j Ht Hj. unfold bytes. rewrite take_chunk by lia. rewrite <-overwrite_app, chunk_length by lia.
    replace (f_off f + Z.of_nat (Z.to_nat n1)) with (n1 + f_off f) by lia. apply overwrite_ext. by apply Hby1. }
  cbn in W2, S2. unfold upd in W2, S2. rewrite Hsz1 in W2, S2.
  replace (n - k) with (n1 + (n - (k + n1))) by lia. set (r := n - (k + n1)) in *. assert (0 <= r) as Hr by lia.
  exists (wsA ++ wsB), x2, V2, ip2. split_and!; [|done| |].
  - destruct (written_trans _ _ _ _ _ _ _ _ _ _ _ _ _ _ _ _ _ _ _ W1 W2) as [G1 G2 G3 G4 G5]. split; try done.
    split; [unfold size; destruct G4 as [-> _]; lia|]. intros j Hj. rewrite <-Hstep by done. by apply G4.
  - apply R1. destruct (Z.ltb_spec n1 0); [lia|]. rewrite Z.eqb_refl. exact R2.
  - intros ws1 ws2 E. apply eq_sym, prefix_split in E as [(a & -> & E)|(a & -> & ->)].
    + rewrite <-wrote_wrote, <-(wn_disk _ _ _ _ _ _ _ _ _ _ _ _ W1).
      eapply survives_weaken; [|by apply (S2 a ws2)]. intros D (t & Ht & [Hs Hc] & Hsp). exists (n1 + t). split; [lia|].
      assert (dinode D (i_inum ip1) ip1 = dinode D (i_inum ip) ip) as Ed by (by rewrite (sp_same _ _ _ _ _ _ _ Hsp1)).
      rewrite Ed in Hs, Hc, Hsp. split; [|by eapply spares_trans]. split; [unfold size; rewrite Hs; lia|]. intros j Hj. rewrite <-Hstep by (done || lia). by apply Hc.
    + eapply survives_weaken; [|by apply (S1 ws1 a)]. intros D [Ha|Ha].
      * exists 0. split; [lia|]. eapply agree_file_on; [done|exact Hgd|apply spares_refl|exact H0|done].
      * exists n1. split; [lia|]. eapply agree_file_on; [done|apply Hx1|apply Hsp1| |exact Ha]. by split.
Qed.


(** ** filewrite *)

Lemma filewrite_run x V i ip fi f src data n :
  yields s0 src data -> rest x V i ip -> ftable (ff x) !! fi = Some f -> f_ip f = Some i -> f_type f = FD_INODE ->
  f_writable f <> 0 -> 0 <= n <= Z.of_nat (length data) -> 0 <= f_off f <= i_size ip -> f_off f + n <= MAXFILE * BSIZE ->
  free_blocks V (8 * chunks n) -> 25 < sz -> home 1 ->
  let bytes t := overwrite (content V ip) (f_off f) (take (Z.to_nat t) data) in
  let size t := Z.max (i_size ip) (f_off f + t) in
  exists ws x' V' ip', written x V i ip fi n (bytes n) (size n) ws x' V' ip' /\
    run (filewrite fi src n) x n x' /\
    forall ws1 ws2, ws = ws1 ++ ws2 ->
      survives (wrote ws1 (fd x)) (fun D => exists t, 0 <= t <= n /\ file_on V D ip (bytes t) (size t)).
Proof.
  intros Hsrc Hx Hfi Hip Hty Hwr Hn Hoff Hmax Hfree Hsz H1 bytes size.
  destruct (filewrite_loop_run (S (Z.to_nat (n / max_write + 1))) x V i ip fi f src data 0 n 0) as
    (ws & x' & V' & ip' & W & _ & R & S); try (rewrite Z.sub_0_r); try done; try lia.
  { unfold chunks. change max_write with 1536. Z.to_euclidean_division_equations; lia. }
  { by rewrite Nat.add_0_r. }
  rewrite Z.sub_0_r in W, S. cbn [Z.to_nat] in W, S. rewrite drop_0 in W, S.
  exists ws, x', V', ip'. split_and!; [done| |done]. unfold filewrite. eapply mrun_bind; [by apply getf_run|].
  destruct (Z.eqb_spec (f_writable f) 0); [done|]. rewrite Hty. eapply mrun_bind; [exact R|]. rewrite Z.eqb_refl. apply mrun_ret.
Qed.

(** The sources of filewrite: bytes, and a buffer of the process. *)
Lemma bytes_yields data : yields s0 (bytes_source data) data.
Proof. intros x o n _ _ _. apply mrun_ret. Qed.
Lemma ubuf_part v va pas o n :
  (o + n <= length pas)%nat -> ubuf v va pas -> ubuf v (u32 (va + Z.of_nat o)) (take n (drop o pas)).
Proof.
  intros Hl [Hnd H]. split.
  - eapply sublist_NoDup; [exact Hnd|]. etransitivity; [apply sublist_take|apply sublist_drop].
  - intros i pa Hi. apply lookup_take_Some in Hi as [Hi _]. rewrite lookup_drop in Hi.
    destruct (H _ _ Hi) as [Hx Hc]. rewrite u32_add_l. replace (va + Z.of_nat o + Z.of_nat i) with (va + Z.of_nat (o + i)) by lia.
    split; [done|]. intros pb Hb. apply Hc. eapply subseteq_drop, subseteq_take, Hb.
Qed.
Lemma user_yields va pas :
  ubuf (vm s0) va pas -> yields s0 (user_source va) (byte_at (mem (vm s0)) <$> pas).
Proof.
  intros Hb x o n Ho Hn Hle. rewrite length_fmap in Hle. apply mrun_exact. intros e. unfold user_source.
  pose proof (ubuf_part (vm s0) va pas (Z.to_nat o) (Z.to_nat n) ltac:(lia) Hb) as Hp. rewrite Z2Nat.id in Hp by done.
  pose proof (uloads_run (take (Z.to_nat n) (drop (Z.to_nat o) pas)) (u32 (va + o)) e (at_fs s0 x) (u32_range _) Hp) as E.
  rewrite length_take, length_drop, Nat.min_l in E by lia. rewrite E, fmap_take, fmap_drop. done.
Qed.

End ops.
