(* ===== verification/DirProofs.v ===== *)
(** * Directories and path lookup

    dirlookup returns the first entry of a directory with the given name; namei of a path with one
    element finds the inode of that name in the root directory. *)

From stdpp Require Import base list gmap strings fin_maps.
From S2P Require Import Prelude State Monad Spinlock Console Kalloc Str Vm VmProofs VmUser Umem Sched Sleeplock Calm.
From S2P Require Import Disk Bio BioProofs Log LogLayout LogProofs Inode BlockProofs InodeProofs ConsoleDev Fs FileProofs.
From S2P Require Import Pipe File WriteProofs.
Open Scope Z_scope.

Section ops.
Context {dv : BlockDriver} {nblk : Z} {up : diskst -> Prop} {Hdrv : DriverOk dv nblk up}.
Context (p : nat) (pr : proc) (s0 : kstate) (Hcalm : calm p pr s0).
Context (start sz : Z) (Hg : geometry nblk start sz).
Context (sb0 : superblock) (Hfs : fs_geom (nblk := nblk) start sz sb0).
Notation run := (mrun s0).
Notation cached := (cache (p_pid pr) nblk up).
Notation file_ok := (file_ok (nblk := nblk) start sz sb0).

(** ** The table of inodes *)

(** Entry [i] after iget of [inum] into a free entry. *)
Definition fresh_entry (dev inum : Z) (ip : inode) : inode :=
  ip <| i_dev := dev |> <| i_inum := inum |> <| i_ref := 1 |> <| i_valid := 0 |>.

Lemma seti_locked l x i f e : seti i f e (locked s0 l x) = Ret tt e (locked s0 l (on_inode i f x)).
Proof. reflexivity. Qed.

Lemma iget_fresh_run x dev inum i :
  (forall j ip, icache (ff x) !! j = Some ip -> (0 <? i_ref ip) && (i_dev ip =? dev) && (i_inum ip =? inum) = false) ->
  findi (fun ip => i_ref ip =? 0) (icache (ff x)) = Some i ->
  run (iget dev inum) x i (on_inode i (fresh_entry dev inum) x).
Proof.
  intros Hno Hi. apply mrun_exact. intros e. unfold iget. erewrite bind_Ret by (by eapply acquire_st). prim.
  change (icache (fst_ (locked s0 L_icache x))) with (icache (ff x)).
  apply findi_None in Hno. rewrite Hno, Hi.
  do 4 erewrite bind_Ret by apply seti_locked. erewrite bind_Ret by (by eapply release_st).
  unfold ret. f_equal. unfold on_inode, upd. destruct x as [? y ?], y; cbn. do 3 f_equal.
  apply list_eq. intros j. destruct (decide (j = i)) as [->|Hj]; [|by rewrite !list_lookup_alter_ne].
  rewrite !list_lookup_alter_eq. by destruct (_ !! i) as [[]|].
Qed.

(** iput of an inode with links only drops the reference. *)
Lemma iput_run x i ip :
  icache (ff x) !! i = Some ip -> fl x !! SL_inode i = None -> i_nlink ip <> 0 ->
  run (iput i) x tt (on_inode i (fun ip => ip <| i_ref ::= Z.pred |>) x).
Proof.
  intros Hi Hl Hn. unfold iput. eapply mrun_bind; [by apply (acquiresleep_run p pr)|]. eapply mrun_bind; [by apply geti_mrun|].
  eapply mrun_bind; [apply mrun_when; [|reflexivity]|].
  { destruct (Z.eqb_spec (i_nlink ip) 0); [done|]. by rewrite andb_false_r. }
  eapply mrun_bind; [by eapply releasesleep_run|].
  assert ((x <| fl ::= <[SL_inode i := p_pid pr]> |>) <| fl ::= delete (SL_inode i) |> = x) as ->.
  { destruct x. unfold upd. cbn in *. by rewrite delete_insert_id. }
  apply mrun_exact. intros e. erewrite bind_Ret by (by eapply acquire_st). erewrite bind_Ret by apply seti_locked.
  by eapply release_st.
Qed.
Lemma iunlockput_run x i ip :
  icache (ff x) !! i = Some ip -> 1 <= i_ref ip -> fl x !! SL_inode i = Some (p_pid pr) -> i_nlink ip <> 0 ->
  run (iunlockput i) x tt (on_inode i (fun ip => ip <| i_ref ::= Z.pred |>) (x <| fl ::= delete (SL_inode i) |>)).
Proof.
  intros Hi Hr Hl Hn. unfold iunlockput. eapply mrun_bind; [by eapply iunlock_run|]. eapply iput_run; [done|apply lookup_delete_eq|done].
Qed.

(** ** Entries of a directory *)

Definition entry (V : Z -> list Z) (d : inode) (k : Z) : list Z := file_bytes V d (dirent_size * k) dirent_size.
(** The entry is in use, under [name]. *)
Definition hit (name de : list Z) : bool := negb (de_inum de =? 0) && (namecmp name (de_name de) =? 0).

Lemma readi_part_run dst x V i ip off n :
  silent s0 dst -> cached x V ∅ ∅ ∅ -> icache (ff x) !! i = Some ip -> i_type ip <> T_DEV -> file_ok V ip ->
  filled V ip (off + n) -> 0 <= off -> 0 <= n -> off + n <= i_size ip ->
  exists x', run (readi i dst off n) x (n, file_bytes V ip off n) x' /\ cached x' V ∅ ∅ ∅ /\ bframe x x' /\ fd x' = fd x.
Proof.
  intros Hdst Hc Hi Ht Hf Hfl Ho Hn Hsz. pose proof (proj1 Hfl) as Hmax.
  destruct (readi_loop_run p pr s0 Hcalm start sz Hg sb0 Hfs dst (S (Z.to_nat (n / BSIZE + 2))) x V ∅ ∅ i ip 0 off n) as (x' & R & C & F & E);
    rewrite ?Z.sub_0_r; try done; try lia.
  { rewrite size_empty, map_size_empty. change bhead with 30%nat. lia. }
  { apply turns_bound; lia. }
  exists x'. split_and!; try done. unfold readi. eapply mrun_bind; [by apply geti_mrun|].
  destruct (Z.eqb_spec (i_type ip) T_DEV); [done|].
  change MAXFILE with 140 in *. change BSIZE with 512 in *. rewrite (u32_small (off + n)) by cint.
  destruct (Z.ltb_spec (i_size ip) off); [lia|]. destruct (Z.ltb_spec (off + n) off); [lia|]. cbn [orb].
  destruct (Z.ltb_spec (i_size ip) (off + n)); [lia|]. rewrite Z.sub_0_r in R.
  eapply mrun_bind; [exact R|]. rewrite s32_small by cint. apply mrun_ret.
Qed.

(** Entry [k] of the directory is there. *)
Definition readable (V : Z -> list Z) (d : inode) (k : Z) : Prop :=
  0 <= k /\ filled V d (dirent_size * k + dirent_size) /\ dirent_size * k + dirent_size <= i_size d.

Lemma read_dirent_run msg x V dp d k :
  cached x V ∅ ∅ ∅ -> icache (ff x) !! dp = Some d -> i_type d = T_DIR -> file_ok V d -> readable V d k ->
  exists x', run (read_dirent msg dp (dirent_size * k)) x (entry V d k) x' /\ cached x' V ∅ ∅ ∅ /\ bframe x x' /\ fd x' = fd x.
Proof.
  intros Hc Hi Ht Hf (Hk & Hfl & Hsz). unfold dirent_size in *.
  destruct (readi_part_run no_sink x V dp d (16 * k) 16) as (x' & R & C & F & E); try done; try lia.
  { intros y tot bs. apply mrun_ret. }
  { by rewrite Ht. }
  exists x'. split_and!; try done. unfold read_dirent. eapply mrun_bind; [exact R|]. apply mrun_ret.
Qed.

(** The body of the loop of dirlookup. *)
Definition probe (dp : nat) (name : list Z) (off : Z) : M (option (nat * Z)) :=
  de ← read_dirent "dirlookup read" dp off ;
  if de_inum de =? 0 then ret None else
  if namecmp name (de_name de) =? 0 then
    d ← geti dp ;
    ip ← iget (i_dev d) (de_inum de) ;
    ret (Some (ip, off))
  else ret None.

(** The loop passes over entries that do not match. *)
Lemma scan_run x V dp d name ks :
  cached x V ∅ ∅ ∅ -> icache (ff x) !! dp = Some d -> i_type d = T_DIR -> file_ok V d ->
  (forall k, k ∈ ks -> readable V d k /\ hit name (entry V d k) = false) ->
  exists x', cached x' V ∅ ∅ ∅ /\ bframe x x' /\ fd x' = fd x /\
    forall rest r y, run (for_until rest (probe dp name)) x' r y ->
      run (for_until ((Z.mul dirent_size <$> ks) ++ rest) (probe dp name)) x r y.
Proof.
  revert x. induction ks as [|k ks IH]; intros x Hc Hi Ht Hf Hks.
  { exists x. split_and!; try done. }
  destruct (Hks k ltac:(by left)) as [Hr Hhit].
  destruct (read_dirent_run "dirlookup read" x V dp d k Hc Hi Ht Hf Hr) as (x1 & R1 & C1 & F1 & E1).
  destruct (IH x1) as (x2 & C2 & F2 & E2 & Hrest); try done; [by rewrite (bframe_icache _ _ F1)| |].
  { intros k' Hk'. apply Hks. by right. }
  exists x2. split_and!; [done|by etransitivity|congruence|]. intros rest r y R. cbn [fmap list_fmap app for_until].
  apply (mrun_bind s0 _ _ x None x1); [|by apply Hrest]. unfold probe. eapply mrun_bind; [exact R1|]. unfold hit in Hhit.
  destruct (de_inum (entry V d k) =? 0); [apply mrun_ret|]. cbn [negb andb] in Hhit. rewrite Hhit. apply mrun_ret.
Qed.

Lemma dir_offsets_eq d : dir_offsets 0 (i_size d) = Z.mul dirent_size <$> seqZ 0 ((i_size d + dirent_size - 1) / dirent_size).
Proof. unfold dir_offsets, range. rewrite !Z.sub_0_r. by apply list_fmap_ext. Qed.

(** The first entry that matches gives the inode. *)
Lemma dirlookup_found x V dp d name k i :
  cached x V ∅ ∅ ∅ -> icache (ff x) !! dp = Some d -> i_type d = T_DIR -> i_dev d = 1 -> file_ok V d -> readable V d k ->
  (forall j, 0 <= j < k -> hit name (entry V d j) = false) -> hit name (entry V d k) = true ->
  (forall j ip, icache (ff x) !! j = Some ip -> (0 <? i_ref ip) && (i_dev ip =? 1) && (i_inum ip =? de_inum (entry V d k)) = false) ->
  findi (fun ip => i_ref ip =? 0) (icache (ff x)) = Some i ->
  exists x', run (dirlookup dp name) x (Some (i, dirent_size * k)) x' /\ cached x' V ∅ ∅ ∅ /\
    bframe (on_inode i (fresh_entry 1 (de_inum (entry V d k))) x) x' /\ fd x' = fd x.
Proof.
  intros Hc Hi Ht Hd Hf Hr Hbefore Hhit Hno Hfree. pose proof Hr as (Hk & [Hfl0 Hfl] & Hsz).
  destruct (scan_run x V dp d name (seqZ 0 k) Hc Hi Ht Hf) as (x1 & C1 & F1 & E1 & Hrest).
  { intros j Hj%elem_of_seqZ. split; [|apply Hbefore; lia]. unfold readable, dirent_size in *. split_and!; [lia| |lia].
    split; [lia|]. intros j' Hj'. apply Hfl. lia. }
  pose proof (bframe_icache _ _ F1) as Ei.
  destruct (read_dirent_run "dirlookup read" x1 V dp d k C1) as (x2 & R2 & C2 & F2 & E2); rewrite ?Ei; try done.
  pose proof (bframe_icache _ _ F2) as Ei2. rewrite Ei in Ei2.
  exists (on_inode i (fresh_entry 1 (de_inum (entry V d k))) x2). split_and!.
  - unfold dirlookup. eapply mrun_bind; [by apply geti_mrun|]. rewrite Ht. cbn [Z.eqb negb]. fold (probe dp name).
    rewrite dir_offsets_eq. set (n := (i_size d + dirent_size - 1) / dirent_size).
    assert (k < n) as Hkn by (unfold n, dirent_size in *; Z.to_euclidean_division_equations; lia).
    replace n with (k + (n - k)) by lia. rewrite seqZ_app, fmap_app by lia. apply Hrest.
    rewrite seqZ_cons by lia. cbn [fmap list_fmap for_until]. rewrite Z.add_0_l.
    apply (mrun_bind s0 _ _ x1 (Some (i, dirent_size * k)) (on_inode i (fresh_entry 1 (de_inum (entry V d k))) x2)); [|apply mrun_ret].
    unfold probe. eapply mrun_bind; [exact R2|].
    unfold hit in Hhit. apply andb_true_iff in Hhit as [H1 H2]. apply negb_true_iff in H1. rewrite H1, H2.
    eapply mrun_bind; [apply geti_mrun; by rewrite Ei2|]. rewrite Hd.
    eapply mrun_bind; [apply iget_fresh_run; by rewrite Ei2|]. apply mrun_ret.
  - by apply cache_fs.
  - assert (bframe x x2) as [B1 B2] by (by etransitivity). split; [|done]. cbn. by rewrite B1.
  - cbn. congruence.
Qed.

(** No entry matches. *)
Lemma dirlookup_none x V dp d name :
  cached x V ∅ ∅ ∅ -> icache (ff x) !! dp = Some d -> i_type d = T_DIR -> file_ok V d -> filled V d (i_size d) ->
  i_size d mod dirent_size = 0 -> (forall j, 0 <= j < i_size d / dirent_size -> hit name (entry V d j) = false) ->
  exists x', run (dirlookup dp name) x None x' /\ cached x' V ∅ ∅ ∅ /\ bframe x x' /\ fd x' = fd x.
Proof.
  intros Hc Hi Ht Hf [Hs Hfl] Hmod Hall. unfold dirent_size in *.
  assert ((i_size d + 16 - 1) / 16 = i_size d / 16) as En by (Z.to_euclidean_division_equations; lia).
  destruct (scan_run x V dp d name (seqZ 0 (i_size d / 16)) Hc Hi Ht Hf) as (x1 & C1 & F1 & E1 & Hrest).
  { intros j Hj%elem_of_seqZ. split; [|apply Hall; lia].
    assert (16 * j + 16 <= i_size d) by (Z.to_euclidean_division_equations; lia).
    unfold readable, dirent_size. split_and!; [lia| |done]. split; [lia|]. intros j' Hj'. apply Hfl. lia. }
  exists x1. split_and!; try done. unfold dirlookup. eapply mrun_bind; [by apply geti_mrun|]. rewrite Ht. cbn [Z.eqb negb].
  fold (probe dp name). rewrite dir_offsets_eq. unfold dirent_size. rewrite En, <-(app_nil_r (Z.mul _ <$> _)).
  apply Hrest. apply mrun_ret.
Qed.

(** ** Paths of one element *)

Lemma split_elem_whole s : Forall (fun c => c <> slash) s -> split_elem s = (s, []).
Proof.
  induction 1 as [|c s Hc Hs IH]; [done|]. cbn [split_elem]. destruct (Z.eqb_spec c slash); [done|]. by rewrite IH.
Qed.
Lemma skip_whole s : Forall (fun c => c <> slash) s -> skip_slashes s = s.
Proof. intros [|c s' Hc _]; [done|]. cbn. by destruct (Z.eqb_spec c slash). Qed.
(** The element as skipelem leaves it in the buffer [name]. *)
Definition elem_in (s name : list Z) : list Z :=
  if DIRSIZ <=? Z.of_nat (length s) then take (Z.to_nat DIRSIZ) s else s ++ [0] ++ drop (S (length s)) name.
Lemma skipelem_one s name :
  s <> [] -> Forall (fun c => c <> slash) s -> skipelem (slash :: s) name = Some ([], elem_in s name).
Proof.
  intros H0 Hs. unfold skipelem. cbn [skip_slashes]. rewrite Z.eqb_refl, skip_whole by done.
  destruct s as [|c s]; [done|]. by rewrite split_elem_whole.
Qed.

(** The state after boot: no inode is in use. *)
Record no_inodes (x : fsys) : Prop := {
  ni_len : (1 < length (icache (ff x)))%nat;
  ni_ref : forall j ip, icache (ff x) !! j = Some ip -> i_ref ip = 0;
  ni_lock : forall j, fl x !! SL_inode j = None
}.

Lemma findi_at {A} (P : A -> bool) l i a :
  l !! i = Some a -> P a = true -> (forall j b, (j < i)%nat -> l !! j = Some b -> P b = false) -> findi P l = Some i.
Proof. intros H1 H2 H3. apply findi_Some. eauto. Qed.

Definition root_entry (V : Z -> list Z) (ip : inode) : inode :=
  (dinode sb0 V ROOTINO (fresh_entry 1 ROOTINO ip)) <| i_valid := 1 |>.

Lemma namei_root_run x V s name k :
  cached x V ∅ ∅ ∅ -> sb (ff x) = sb0 -> no_inodes x -> ROOTINO < sb_ninodes sb0 ->
  s <> [] -> Forall (fun c => c <> slash) s ->
  (forall ip, i_type (root_entry V ip) = T_DIR /\ i_nlink (root_entry V ip) <> 0 /\ file_ok V (root_entry V ip) /\
     readable V (root_entry V ip) k /\ (forall j, 0 <= j < k -> hit (elem_in s name) (entry V (root_entry V ip) j) = false) /\
     hit (elem_in s name) (entry V (root_entry V ip) k) = true /\ de_inum (entry V (root_entry V ip) k) <> ROOTINO) ->
  exists x' ip, run (namei name (slash :: s)) x (Some 1%nat) x' /\ cached x' V ∅ ∅ ∅ /\ sb (ff x') = sb0 /\ fd x' = fd x /\
    icache (ff x') !! 1%nat = Some (fresh_entry 1 (de_inum (entry V (root_entry V ip) k)) ip) /\ fl x' !! SL_inode 1 = None.
Proof.
  intros Hc Hsb [Hlen Href Hlk] Hino Hs0 Hs Hroot.
  destruct (lookup_lt_is_Some_2 (icache (ff x)) 0) as [e0 He0]; [lia|].
  destruct (lookup_lt_is_Some_2 (icache (ff x)) 1) as [e1 He1]; [lia|].
  destruct (Hroot e0) as (Rt & Rn & Rf & Rr & Rb & Rh & Ri). set (d := root_entry V e0) in *.
  (* iget of the root *)
  set (x1 := on_inode 0 (fresh_entry 1 ROOTINO) x).
  assert (run (iget ROOTDEV ROOTINO) x 0%nat x1) as R1.
  { apply iget_fresh_run.
    - intros j ip Hj. by rewrite (Href j ip Hj).
    - eapply findi_at; [exact He0|by rewrite (Href _ _ He0)|lia]. }
  assert (cached x1 V ∅ ∅ ∅) as C1 by (by apply cache_fs).
  assert (icache (ff x1) !! 0%nat = Some (fresh_entry 1 ROOTINO e0)) as Hi1 by (by apply lookup_on_inode).
  (* ilock *)
  destruct (ilock_run p pr s0 Hcalm start sz Hg sb0 Hfs x1 V ∅ ∅ 0%nat _ C1 Hsb Hi1) as (x2 & R2 & C2 & E2 & L2 & Hi2 & F2);
    [done|done|done| |done|apply Hlk|done|change (i_type d <> 0); by rewrite Rt|].
  { rewrite size_empty, map_size_empty. change bhead with 30%nat. lia. }
  change (i_inum (fresh_entry 1 ROOTINO e0)) with ROOTINO in *. fold (root_entry V e0) in Hi2, F2. fold d in Hi2, F2.
  set (x1' := on_inode _ _ _) in F2. pose proof (bframe_icache _ _ F2) as Ei2.
  assert (forall j ip, icache (ff x2) !! j = Some ip -> j = 0%nat /\ ip = d \/ i_ref ip = 0 /\ j <> 0%nat) as Hall.
  { intros j ip. rewrite Ei2. unfold x1', x1, on_inode. cbn. destruct (decide (j = 0%nat)) as [->|Hj].
    - rewrite !list_lookup_alter_eq, He0. cbn. intros [= <-]. by left.
    - rewrite !list_lookup_alter_ne by done. intros E. right. by rewrite (Href j ip). }
  assert (icache (ff x2) !! 1%nat = Some e1) as Hj1.
  { rewrite Ei2. unfold x1', x1, on_inode. cbn. by rewrite !list_lookup_alter_ne. }
  (* dirlookup *)
  destruct (dirlookup_found x2 V 0%nat d (elem_in s name) k 1%nat C2 Hi2 Rt) as (x3 & R3 & C3 & F3 & E3); try done.
  { intros j ip [[-> ->]|[-> _]]%Hall; [|done]. change (i_inum d) with ROOTINO. destruct (Z.eqb_spec ROOTINO (de_inum (entry V d k))); [done|].
    by rewrite andb_false_r. }
  { eapply findi_at; [exact Hj1|by destruct (Hall _ _ Hj1) as [[? _]|[-> _]]|].
    intros [|j] b Hj E; [|lia]. rewrite Hi2 in E. by injection E as <-. }
  set (n := de_inum (entry V d k)) in *.
  pose proof (bframe_icache _ _ F3) as Ei3. pose proof (bframe_sb _ _ F3) as Es3.
  assert (icache (ff x3) !! 0%nat = Some d) as Hi3.
  { rewrite Ei3. unfold on_inode. cbn. by rewrite list_lookup_alter_ne. }
  assert (icache (ff x3) !! 1%nat = Some (fresh_entry 1 n e1)) as Hj3.
  { rewrite Ei3. by apply lookup_on_inode. }
  assert (fl x3 !! SL_inode 0 = Some (p_pid pr)) as L3 by (by rewrite (bf_fl _ _ F3)).
  pose proof (iunlockput_run x3 0%nat d Hi3 ltac:(done) L3 Rn) as R4. set (x4 := on_inode 0 _ _) in R4.
  exists x4, e1. split_and!.
  - unfold namei, namex. cbn [head]. rewrite bool_decide_true by done.
    apply (mrun_bind s0 _ _ x (Some 1%nat, elem_in s name) x4); [|apply mrun_ret].
    eapply mrun_bind; [exact R1|]. cbn [length namex_loop]. rewrite skipelem_one by done.
    eapply mrun_bind; [exact R2|]. eapply mrun_bind; [by apply geti_mrun|]. rewrite Rt. cbn [Z.eqb negb andb].
    eapply mrun_bind; [exact R3|]. eapply mrun_bind; [exact R4|].
    assert (exists f, length s = S f) as [f ->] by (destruct s; [done|by eexists]). cbn [namex_loop skipelem skip_slashes]. apply mrun_ret.
  - unfold x4, on_inode. apply cache_fs; [done|]. apply cache_fl; [|done]. intros i. by apply lookup_delete_ne.
  - unfold x4, on_inode. cbn. rewrite Es3. change (sb (ff x2) = sb0). by rewrite (bframe_sb _ _ F2).
  - unfold x4, on_inode. cbn. rewrite E3. change (fd x2 = fd x). by rewrite E2.
  - unfold x4, on_inode. cbn. rewrite list_lookup_alter_ne by done. exact Hj3.
  - unfold x4, on_inode. cbn. rewrite lookup_delete_ne by done. rewrite (bf_fl _ _ F3) by done. cbn. rewrite (bf_fl _ _ F2) by done.
    cbn. rewrite lookup_insert_ne by done. apply Hlk.
Qed.
End ops.
