(* ===== verification/MkfsProofs.v ===== *)
(** * The image that mkfs writes

    The image is a file system as the kernel expects it: its super block, an empty log, a bitmap
    that marks the blocks in use, and well-formed files with the contents they were given.  The
    bitmap is written last; until then it is determined by the number of blocks in use. *)

From stdpp Require Import base list gmap strings fin_maps.
From S2P Require Import Prelude State Monad Spinlock Console Kalloc Str Vm VmProofs VmUser Umem Sched Sleeplock Calm.
From S2P Require Import Disk Bio BioProofs Log LogLayout LogProofs Inode BlockProofs InodeProofs ConsoleDev Fs FileProofs.
From S2P Require Import Pipe File WriteProofs Mkfs.
Open Scope Z_scope.

Notation mk_home := (home FSSIZE 2 30).
Notation mk_marked := (marked (nblk := FSSIZE) 2 30 mk_sb).
Notation mk_file := (file_ok (nblk := FSSIZE) 2 30 mk_sb).
Notation mk_good := (file_good (nblk := FSSIZE) 2 30 mk_sb).
Notation mk_changes := (changes (nblk := FSSIZE) 2 30 mk_sb).
Notation mk_spares := (spares (nblk := FSSIZE) 2 30 mk_sb).
Notation mk_used := (used (nblk := FSSIZE) 2 30 mk_sb).
Notation mk_fresh := (fresh mk_sb).

Ltac mk_lia := change FSSIZE with 1000 in *; change nmeta with 59 in *; change BPB with 4096 in *; change NINODES with 200 in *; lia.

(** ** The layout *)

Lemma mk_geometry : geometry FSSIZE 2 30.
Proof. by split_and!. Qed.
Lemma mk_bmap b : 0 <= b < FSSIZE -> b / BPB + 58 = 58.
Proof. change FSSIZE with 1000. intros H. rewrite Z.div_small; [done|]. change BPB with 4096. lia. Qed.
Lemma mk_iblock n : 0 <= n < NINODES -> 32 <= n / IPB + 32 < 58.
Proof. change NINODES with 200. change IPB with 8. intros H. Z.to_euclidean_division_equations; lia. Qed.
Lemma mk_geom : fs_geom (nblk := FSSIZE) 2 30 mk_sb.
Proof.
  change mk_sb with (mkSb 1000 941 200 30 2 32 58). split; cbn [sb_size sb_bmapstart sb_inodestart sb_ninodes]; try (change FSSIZE with 1000; lia).
  - intros b Hb. rewrite mk_bmap by done. split; change FSSIZE with 1000; lia.
  - intros n Hn. pose proof (mk_iblock n Hn). split; change FSSIZE with 1000; lia.
  - intros b n Hb Hn. rewrite mk_bmap by done. pose proof (mk_iblock n Hn). lia.
Qed.
Lemma mk_BBLOCK b : 0 <= b < FSSIZE -> BBLOCK b mk_sb = 58.
Proof. intros Hb. destruct (BBLOCK_eq 2 30 mk_geometry mk_sb b mk_geom Hb) as [-> _]. by apply mk_bmap. Qed.
Lemma mk_IBLOCK n : 0 <= n < NINODES -> 32 <= IBLOCK n mk_sb < 58.
Proof. intros Hn. destruct (IBLOCK_eq 2 30 mk_geometry mk_sb n mk_geom Hn) as [-> _]. by apply mk_iblock. Qed.
Lemma mk_meta k : meta mk_sb k -> k < nmeta.
Proof.
  change nmeta with 59. intros [(b & Hb & E)|[(n & Hn & E)|H]]; [|pose proof (mk_IBLOCK n Hn); lia|lia].
  rewrite mk_BBLOCK in E by done. lia.
Qed.

(** ** The bitmap *)

Definition bitmap (n : Z) : list Z := foldl set_used zero_block (range 0 n).

Lemma bitmap_S n : 0 <= n -> bitmap (n + 1) = set_bit n (bitmap n).
Proof.
  intros Hn. unfold bitmap, range. replace (n + 1 - 0) with (Z.succ n) by lia. rewrite Z.sub_0_r.
  rewrite <-(Z2Nat.id n), <-Nat2Z.inj_succ, seqZ_S, foldl_app by done. done.
Qed.
Lemma bitmap_spec n : 0 <= n <= BPB ->
  length (bitmap n) = Z.to_nat BSIZE /\ forall b, 0 <= b < BPB -> bit_of (bitmap n) b = (b <? n).
Proof.
  intros [H0 Hn]. revert Hn. pattern n. apply natlike_ind; [|clear n H0|done].
  - intros _. split; [done|]. intros b Hb. destruct (Z.ltb_spec b 0); [lia|]. unfold bit_of. cbn [bitmap range].
    rewrite rd8_zero. apply Z.testbit_0_l.
  - intros n Hn IH Hle. destruct IH as [Hl IH]; [lia|]. unfold Z.succ. rewrite bitmap_S by done. split; [by rewrite set_bit_length|].
    intros b Hb. rewrite bit_of_set by (done || lia). rewrite IH by done.
    destruct (Z.eqb_spec n b), (Z.ltb_spec b n), (Z.ltb_spec b (n + 1)); try done; lia.
Qed.

(** ** The image while mkfs runs *)

(** The image holds [V], but for the bitmap, which is yet to be written. *)
Record holds (s : mkst) (V : Z -> list Z) : Prop := {
  hd_len : length (mk_img s) = Z.to_nat FSSIZE;
  hd_img : forall k, 0 <= k < FSSIZE -> k <> 58 -> mk_img s !! Z.to_nat k = Some (V k);
  hd_map : V 58 = bitmap (freeblock s);
  hd_size : forall k, 0 <= k < FSSIZE -> length (V k) = Z.to_nat BSIZE;
  hd_zero : forall k, freeblock s <= k < FSSIZE -> V k = zero_block;
  hd_next : nmeta <= freeblock s <= FSSIZE
}.

Lemma holds_bit s V b : holds s V -> 0 <= b < FSSIZE -> bit V mk_sb b = (b <? freeblock s).
Proof.
  intros H Hb. rewrite (bit_as_of (nblk := FSSIZE) 2 30 V mk_sb b mk_geom Hb), mk_BBLOCK, (hd_map _ _ H) by done.
  pose proof (hd_next _ _ H) as Hn. change FSSIZE with 1000 in *. change nmeta with 59 in *.
  rewrite Z.mod_small by (change BPB with 4096; lia).
  destruct (bitmap_spec (freeblock s)) as [_ E]; [|rewrite E]; change BPB with 4096; try done; lia.
Qed.
Lemma holds_fresh s V b : holds s V -> mk_fresh V b <-> freeblock s <= b < FSSIZE.
Proof.
  intros H. unfold fresh. change (sb_size mk_sb) with FSSIZE. pose proof (hd_next _ _ H) as Hn. change nmeta with 59 in Hn. split.
  - intros [Hb Hbit]. rewrite (holds_bit s) in Hbit by done. lia.
  - intros Hb. split; [lia|]. rewrite (holds_bit s) by (done || lia). lia.
Qed.
Lemma holds_marked s V : holds s V -> mk_marked V.
Proof.
  intros H b Hb. rewrite (holds_bit s) by done. pose proof (hd_next _ _ H) as Hn. change nmeta with 59 in Hn.
  intros Hbit. split_and!; [lia|split; [done|lia]|]. intros Hm%mk_meta. change nmeta with 59 in Hm. lia.
Qed.
Lemma holds_used s V a : holds s V -> mk_used V a -> 0 < a < freeblock s /\ a < FSSIZE /\ a <> 58.
Proof.
  intros H (H1 & _ & H3 & H4). change (sb_size mk_sb) with FSSIZE in H1. rewrite (holds_bit s) in H4 by (done || lia).
  split_and!; [lia..|]. intros ->. apply H3. left. exists 0. by split; [|apply mk_BBLOCK].
Qed.

(** ** Sectors *)

Lemma sector_small k : 0 <= k < FSSIZE -> sector k = Z.to_nat k.
Proof.
  change FSSIZE with 1000. intros Hk. unfold sector. change BSIZE with 512. rewrite u32_small by cint. by rewrite Z.div_mul.
Qed.
Lemma rsect_holds s V k : holds s V -> 0 <= k < FSSIZE -> k <> 58 -> rsect k s = Some (V k, s).
Proof. intros H Hk Hne. unfold rsect. by rewrite sector_small, (hd_img _ _ H). Qed.
Lemma wsect_holds s V k d :
  holds s V -> 0 <= k < freeblock s -> k < FSSIZE -> k <> 58 -> length d = Z.to_nat BSIZE ->
  exists s', wsect k d s = Some (tt, s') /\ holds s' (vset V k d) /\ freeblock s' = freeblock s /\ freeinode s' = freeinode s.
Proof.
  intros [H1 H2 H3 H4 H5 H6] Hk Hlt Hne Hd. exists (s <| mk_img := <[Z.to_nat k := d]> (mk_img s) |>). split; [|split; [|done]].
  { unfold wsect. rewrite sector_small by lia. assert ((Z.to_nat k <? length (mk_img s))%nat = true) as E by (apply Nat.ltb_lt; lia).
    do 2 f_equal. destruct s; unfold upd; cbn -[Nat.ltb] in *. by rewrite E. }
  split; cbn; try done.
  - by rewrite length_insert.
  - intros j Hj Hj'. unfold vset. destruct (decide (j = k)) as [->|].
    + by rewrite list_lookup_insert_eq by lia.
    + rewrite list_lookup_insert_ne by lia. by apply H2.
  - by rewrite vset_ne by done.
  - intros j Hj. unfold vset. destruct (decide (j = k)); [done|by apply H4].
  - intros j Hj. rewrite vset_ne by lia. by apply H5.
Qed.
Lemma next_block_holds s V :
  holds s V -> freeblock s < FSSIZE ->
  let b := freeblock s in
  exists s', next_block s = Some (b, s') /\ holds s' (allocated mk_sb V b) /\ freeblock s' = b + 1 /\ freeinode s' = freeinode s /\
    mk_fresh V b /\ (forall k, 0 <= k < FSSIZE -> bit (allocated mk_sb V b) mk_sb k = (b =? k) || bit V mk_sb k).
Proof.
  intros H Hlt b. pose proof H as [H1 H2 H3 H4 H5 H6]. fold b in H3, H5, H6, Hlt. change nmeta with 59 in H6.
  change FSSIZE with 1000 in *. assert (mk_fresh V b) as Hb by (by apply (holds_fresh s); [|fold b]).
  assert (allocated mk_sb V b = vset (vset V 58 (bitmap (b + 1))) b zero_block) as E.
  { unfold allocated, mark. rewrite mk_BBLOCK, bitmap_S, H3, Z.mod_small by (change BPB with 4096; change FSSIZE with 1000; lia). done. }
  eexists. split; [reflexivity|]. cbn [freeblock freeinode]. fold b. rewrite u32_small by cint.
  assert (holds (s <| freeblock := b + 1 |>) (allocated mk_sb V b)) as Hh.
  { rewrite E. split; cbn; try done.
    - intros k Hk Hne. unfold vset. destruct (decide (k = b)) as [->|]; [|rewrite decide_False by done; by apply H2].
      rewrite H2 by done. f_equal. apply H5. lia.
    - rewrite vset_ne, vset_eq by lia. done.
    - intros k Hk. unfold vset. destruct (decide (k = b)); [done|]. destruct (decide (k = 58)); [|by apply H4].
      apply bitmap_spec. change BPB with 4096. lia.
    - intros k Hk. rewrite !vset_ne by lia. apply H5. mk_lia.
    - mk_lia. }
  split_and!; try done. intros k Hk. rewrite (holds_bit _ _ k Hh Hk), (holds_bit _ _ k H Hk). cbn. fold b.
  destruct (Z.eqb_spec b k), (Z.ltb_spec k b), (Z.ltb_spec k (b + 1)); try done; lia.
Qed.

Lemma xint_small x : is_u32 x -> xint x = x.
Proof.
  intros Hx. rewrite <-(u32_small x Hx) at 2. rewrite <-split32, <-join32 by apply u8_range. done.
Qed.

(** ** Blocks of a file *)

(** The inode [n] of the device, with the fields of [din]. *)
Definition file_of (n : Z) (din : inode) : inode := din <| i_dev := 1 |> <| i_inum := n |>.

Lemma used_u32 s V a : holds s V -> mk_used V a -> is_u32 a.
Proof. intros H Hu. pose proof (holds_used s V a H Hu). change FSSIZE with 1000 in *. cint. Qed.
Lemma faddr_u32 s V ip n : holds s V -> mk_file V ip -> inr n -> xint (faddr V ip n) = faddr V ip n.
Proof.
  intros H Hf Hn. apply xint_small. destruct (decide (faddr V ip n = 0)) as [->|H0]; [cint|].
  by eapply used_u32, (fo_used _ _ _ _ _ Hf).
Qed.
Lemma ind_u32 s V ip : holds s V -> mk_file V ip -> xint (ind ip) = ind ip.
Proof.
  intros H Hf. apply xint_small. destruct (decide (ind ip = 0)) as [->|H0]; [cint|].
  by eapply used_u32, (fo_ind _ _ _ _ _ Hf).
Qed.
Lemma pbind_Some {A B} (m : P A) (f : A -> P B) s a s' : m s = Some (a, s') -> pbind m f s = f a s'.
Proof. intros E. unfold pbind. by rewrite E. Qed.

Lemma next_u32 s V : holds s V -> xint (freeblock s) = freeblock s /\ freeblock s <> 0.
Proof.
  intros H. pose proof (hd_next s V H). change nmeta with 59 in *. change FSSIZE with 1000 in *.
  split; [apply xint_small; cint|lia].
Qed.

Notation mk_grows V ip V' ip' := (mk_changes V ip V' ip' (content V ip)).

(** A file that has grown, by [c] blocks. *)
Record more (s : mkst) (V : Z -> list Z) (ip : inode) (s' : mkst) (V' : Z -> list Z) (ip' : inode) (c : Z) : Prop := {
  mo_holds : holds s' V';
  mo_next : freeblock s' = freeblock s + c;
  mo_ino : freeinode s' = freeinode s;
  mo_grows : mk_grows V ip V' ip'
}.
Lemma more_refl s V ip : holds s V -> mk_file V ip -> more s V ip s V ip 0.
Proof. intros H Hf. split; [done|lia|done|]. apply grows_none; [done|by eapply holds_marked]. Qed.
(** The only new address is that of the new block. *)
Lemma more_addr s V ip s' V' ip' c m :
  holds s V -> more s V ip s' V' ip' c -> c <= 1 -> inr m ->
  faddr V' ip' m = faddr V ip m \/ faddr V' ip' m = freeblock s /\ freeblock s <> 0.
Proof.
  intros H [H' E _ G] Hc Hm. destruct (gr_addr _ _ _ _ _ _ _ _ G m Hm) as [?|[E1 Hfr]]; [by left|right].
  apply (holds_fresh s) in Hfr; [|done]. pose proof (hd_next _ _ H). change nmeta with 59 in *. split; [|lia].
  pose proof (fo_used _ _ _ _ _ (gr_file _ _ _ _ _ _ _ _ G) m Hm ltac:(lia)) as Hu.
  pose proof (holds_used s' V' _ H' Hu). lia.
Qed.
Lemma more_ind s V ip s' V' ip' c :
  holds s V -> more s V ip s' V' ip' c -> c <= 1 -> ind ip' = ind ip \/ ind ip' = freeblock s /\ freeblock s <> 0.
Proof.
  intros H [H' E _ G] Hc. destruct (gr_ind _ _ _ _ _ _ _ _ G) as [?|[E1 Hfr]]; [by left|right].
  apply (holds_fresh s) in Hfr; [|done]. pose proof (hd_next _ _ H). change nmeta with 59 in *. split; [|lia].
  pose proof (fo_ind _ _ _ _ _ (gr_file _ _ _ _ _ _ _ _ G) ltac:(lia)) as Hu.
  pose proof (holds_used s' V' _ H' Hu). lia.
Qed.
(** A new block at [n] is the only change of the addresses. *)
Lemma more_only s V ip s' V' ip' c n :
  holds s V -> more s V ip s' V' ip' c -> c <= 1 -> inr n -> (faddr V ip n = 0 -> faddr V' ip' n = freeblock s) ->
  (faddr V ip n <> 0 -> c = 0) ->
  (forall m, inr m -> m <> n -> faddr V' ip' m = faddr V ip m) /\ ind ip' = ind ip.
Proof.
  intros H Hmo Hc Hn Hnew Hold. pose proof (gr_file _ _ _ _ _ _ _ _ (mo_grows _ _ _ _ _ _ _ Hmo)) as Hf.
  destruct (decide (faddr V ip n = 0)) as [E0|H0].
  - specialize (Hnew E0). pose proof (next_u32 s V H) as [_ Hb]. split.
    + intros m Hm Hne. destruct (more_addr _ _ _ _ _ _ _ m H Hmo Hc Hm) as [?|[E _]]; [done|]. exfalso. apply Hne.
      apply (fo_inj _ _ _ _ _ Hf); [done|done|congruence|congruence].
    + destruct (more_ind _ _ _ _ _ _ _ H Hmo Hc) as [?|[E _]]; [done|]. exfalso.
      apply (fo_apart _ _ _ _ _ Hf n Hn); congruence.
  - specialize (Hold H0). subst c. destruct Hmo as [H' E _ G]. rewrite Z.add_0_r in E. split.
    + intros m Hm _. destruct (gr_addr _ _ _ _ _ _ _ _ G m Hm) as [?|[E1 Hfr]]; [done|]. exfalso.
      apply (holds_fresh s) in Hfr; [|done]. pose proof (hd_next _ _ H). change nmeta with 59 in *.
      pose proof (holds_used s' V' _ H' (fo_used _ _ _ _ _ Hf m Hm ltac:(lia))). lia.
    + destruct (gr_ind _ _ _ _ _ _ _ _ G) as [?|[E1 Hfr]]; [done|]. exfalso.
      apply (holds_fresh s) in Hfr; [|done]. pose proof (hd_next _ _ H). change nmeta with 59 in *.
      pose proof (holds_used s' V' _ H' (fo_ind _ _ _ _ _ Hf ltac:(lia))). lia.
Qed.

(** The blocks that block [n] of a file needs. *)
Definition new_one (a : Z) : Z := if a =? 0 then 1 else 0.
Lemma new_one_bounds a : 0 <= new_one a <= 1 /\ (a <> 0 -> new_one a = 0).
Proof. unfold new_one. by destruct (Z.eqb_spec a 0). Qed.
Definition cost (V : Z -> list Z) (ip : inode) (n : Z) : Z :=
  (if n <? NDIRECT then 0 else new_one (ind ip)) + new_one (faddr V ip n).

Lemma file_block_direct s V n din fbn :
  let ip := file_of n din in
  holds s V -> mk_file V ip -> 0 <= fbn < NDIRECT -> freeblock s + new_one (faddr V ip fbn) <= FSSIZE ->
  exists din' s' V', let ip' := file_of n din' in
    file_block din fbn s = Some ((din', faddr V' ip' fbn), s') /\ more s V ip s' V' ip' (new_one (faddr V ip fbn)) /\
    faddr V' ip' fbn <> 0 /\ (faddr V ip fbn = 0 -> faddr V' ip' fbn = freeblock s).
Proof.
  intros ip H Hf Hn Hfree. assert (inr fbn) as Hr by (unfold inr; change MAXFILE with 140; change NDIRECT with 12 in *; lia).
  unfold file_block. destruct (Z.ltb_spec fbn NDIRECT) as [Hlt|]; [|lia].
  assert (forall V din', faddr V (file_of n din') fbn = nthz 0 (i_addrs din') fbn) as Ea.
  { intros V' din'. unfold faddr. by destruct (Z.ltb_spec fbn NDIRECT); [|lia]. }
  pose proof (faddr_u32 s V ip fbn H Hf Hr) as Eu. unfold ip in Eu, Hfree |- *. rewrite Ea in *. rewrite Eu. unfold new_one in *.
  destruct (Z.eqb_spec (nthz 0 (i_addrs din) fbn) 0) as [E0|H0].
  - destruct (next_block_holds s V H) as (s1 & R1 & H1 & E1 & E2 & Hb & Hbit); [lia|].
    destruct (next_u32 s V H) as [Eb Hb0]. set (b := freeblock s) in *.
    destruct (grows_direct (nblk := FSSIZE) 2 30 mk_sb V ip b fbn Hf (holds_marked s V H) Hb Hn) as [Hg Hfa];
      [by unfold ip; rewrite Ea|done|].
    exists (with_addr fbn b din), s1, (allocated mk_sb V b).
    change (with_addr fbn b ip) with (file_of n (with_addr fbn b din)) in *. cbv zeta. split_and!; try done; try congruence.
    erewrite pbind_Some by (erewrite pbind_Some by exact R1; reflexivity). rewrite Eb. change (din <| i_addrs ::= _ |>) with (with_addr fbn b din).
    rewrite Hfa. rewrite Ea in Hfa. rewrite Hfa, Eb. done.
  - exists din, s, V. cbv zeta. rewrite Ea. split_and!; try done; [|by apply more_refl].
    erewrite pbind_Some by reflexivity. by rewrite Eu.
Qed.

Lemma ind_block s V n din :
  let ip := file_of n din in
  holds s V -> mk_file V ip -> freeblock s + new_one (ind ip) <= FSSIZE ->
  exists din' s' V', let ip' := file_of n din' in
    (if xint (ind ip) =? 0
     then pbind next_block (fun b => pret (din <| i_addrs ::= <[Z.to_nat NDIRECT := xint b]> |>))
     else pret din) s = Some (din', s') /\
    more s V ip s' V' ip' (new_one (ind ip)) /\ ind ip' <> 0 /\ (forall m, inr m -> faddr V' ip' m = faddr V ip m).
Proof.
  intros ip H Hf Hfree. rewrite (ind_u32 s V) by done. unfold new_one in *. destruct (Z.eqb_spec (ind ip) 0) as [E0|H0].
  - destruct (next_block_holds s V H) as (s1 & R1 & H1 & E1 & E2 & Hb & Hbit); [lia|].
    destruct (next_u32 s V H) as [Eb Hb0].
    destruct (grows_ind (nblk := FSSIZE) 2 30 mk_sb V ip (freeblock s) Hf (holds_marked s V H) Hb E0) as [Hg Hi]; [done|].
    set (b := freeblock s) in *. exists (with_addr NDIRECT b din), s1, (allocated mk_sb V b).
    change (with_addr NDIRECT b ip) with (file_of n (with_addr NDIRECT b din)) in *. cbv zeta.
    assert (more s V ip s1 (allocated mk_sb V b) (file_of n (with_addr NDIRECT b din)) 1) as Hmo by done.
    split_and!; try done; [|congruence|].
    + erewrite pbind_Some by exact R1. by rewrite Eb.
    + intros m Hm. destruct (more_addr _ _ _ _ _ _ _ m H Hmo ltac:(done) Hm) as [?|[E _]]; [done|]. exfalso.
      apply (fo_apart _ _ _ _ _ (gr_file _ _ _ _ _ _ _ _ Hg) m Hm); fold b in E; congruence.
  - exists din, s, V. cbv zeta. split_and!; try done. by apply more_refl.
Qed.

Lemma holds_block s V a : holds s V -> mk_used V a ->
  rsect a s = Some (V a, s) /\ length (V a) = Z.to_nat BSIZE /\ 0 <= a < freeblock s /\ a < FSSIZE /\ a <> 58.
Proof.
  intros H Hu. pose proof (holds_used s V a H Hu). split_and!; try lia.
  - apply rsect_holds; [done|lia|lia].
  - apply (hd_size _ _ H). lia.
Qed.

Lemma entry_block s V n din fbn :
  let ip := file_of n din in
  let o := 4 * (fbn - NDIRECT) in
  holds s V -> mk_file V ip -> ind ip <> 0 -> NDIRECT <= fbn < MAXFILE -> freeblock s + new_one (faddr V ip fbn) <= FSSIZE ->
  exists d s' V',
    (if rd32 (V (ind ip)) o =? 0 then
       pbind next_block (fun b => pbind (wsect (ind ip) (wr32 (V (ind ip)) o (xint b))) (fun _ => pret (wr32 (V (ind ip)) o (xint b))))
     else pret (V (ind ip))) s = Some (d, s') /\
    more s V ip s' V' ip (new_one (faddr V ip fbn)) /\ rd32 d o = faddr V' ip fbn /\ faddr V' ip fbn <> 0 /\
    (faddr V ip fbn = 0 -> faddr V' ip fbn = freeblock s).
Proof.
  intros ip o H Hf Hi Hn Hfree.
  assert (forall V, faddr V ip fbn = rd32 (V (ind ip)) o) as Ea.
  { intros V'. unfold faddr. destruct (Z.ltb_spec fbn NDIRECT); [lia|]. by destruct (Z.eqb_spec (ind ip) 0). }
  rewrite <-Ea. unfold new_one in *. destruct (Z.eqb_spec (faddr V ip fbn) 0) as [E0|H0].
  - destruct (next_block_holds s V H) as (s1 & R1 & H1 & E1 & E2 & Hb & Hbit); [lia|].
    destruct (next_u32 s V H) as [Eb Hb0]. set (b := freeblock s) in *.
    pose proof (fo_ind _ _ _ _ _ Hf Hi) as Hu. destruct (holds_block s V _ H Hu) as (_ & Hl & Hr & Hr' & H58).
    destruct (grows_entry (nblk := FSSIZE) 2 30 mk_geometry mk_sb mk_geom V ip b fbn Hf (holds_marked s V H) Hb Hi Hn E0 Hl) as (Hg & Hfa & _);
      [done|]. set (V' := entered _ _ _ _) in *.
    assert (allocated mk_sb V b (ind ip) = V (ind ip)) as Ev by (by eapply (allocated_used (nblk := FSSIZE) 2 30)).
    destruct (wsect_holds s1 (allocated mk_sb V b) (ind ip) (wr32 (V (ind ip)) o b) H1) as (s2 & R2 & H2 & E3 & E4);
      [lia|done|done|by rewrite wr32_length|].
    assert (vset (allocated mk_sb V b) (ind ip) (wr32 (V (ind ip)) o b) = V') as EV by (unfold V', entered; by rewrite Ev).
    rewrite EV in H2. exists (wr32 (V (ind ip)) o b), s2, V'. split_and!; try done; try congruence.
    + erewrite pbind_Some by exact R1. rewrite Eb. by erewrite pbind_Some by exact R2.
    + split; [done|fold b; lia|congruence|done].
    + rewrite Ea, <-EV. by rewrite vset_eq.
  - exists (V (ind ip)), s, V. split_and!; try done. by apply more_refl.
Qed.

Lemma file_block_holds s V n din fbn :
  let ip := file_of n din in
  holds s V -> mk_file V ip -> inr fbn -> freeblock s + cost V ip fbn <= FSSIZE ->
  exists din' s' V', let ip' := file_of n din' in
    file_block din fbn s = Some ((din', faddr V' ip' fbn), s') /\ more s V ip s' V' ip' (cost V ip fbn) /\
    faddr V' ip' fbn <> 0 /\ (forall m, inr m -> m <> fbn -> faddr V' ip' m = faddr V ip m) /\
    (fbn < NDIRECT -> ind ip' = ind ip).
Proof.
  intros ip H Hf Hr. unfold cost. destruct (Z.ltb_spec fbn NDIRECT) as [Hd|Hd]; intros Hfree.
  - rewrite Z.add_0_l in *.
    destruct (file_block_direct s V n din fbn H Hf) as (din1 & s1 & V1 & R1 & M1 & H0 & Hb); [destruct Hr; lia|done|].
    exists din1, s1, V1. cbv zeta in *. fold ip in M1, Hb.
    destruct (more_only s V ip s1 V1 (file_of n din1) (new_one (faddr V ip fbn)) fbn H M1) as [Ho Hi];
      [apply new_one_bounds|done|done|apply new_one_bounds|done].
  - assert (0 <= new_one (ind ip) /\ 0 <= new_one (faddr V ip fbn)) as [P1 P2] by (unfold new_one; split; by destruct (_ =? 0)).
    destruct (ind_block s V n din H Hf) as (din1 & s1 & V1 & R1 & M1 & Hi & Hsame); [fold ip; lia|].
    cbv zeta in *. fold ip in R1, M1, Hsame.
    pose proof M1 as [H1 E1 F1 G1]. pose proof (gr_file _ _ _ _ _ _ _ _ G1) as Hf1.
    assert (faddr V1 (file_of n din1) fbn = faddr V ip fbn) as Ef by (by apply Hsame).
    destruct (entry_block s1 V1 n din1 fbn H1 Hf1 Hi) as (d & s2 & V2 & R2 & M2 & E & H0 & Hb); [destruct Hr; lia|rewrite Ef; lia|].
    destruct (more_only s1 V1 _ s2 V2 (file_of n din1) (new_one (faddr V1 (file_of n din1) fbn)) fbn H1 M2) as [Ho _];
      [apply new_one_bounds|done|done|apply new_one_bounds|].
    rewrite Ef in M2. destruct M2 as [H2 E2 F2 G2].
    exists din1, s2, V2. cbv zeta. split_and!; try done; [|split; [done|lia|congruence|by eapply grows_more]| |lia].
    + unfold file_block. destruct (Z.ltb_spec fbn NDIRECT); [lia|]. erewrite pbind_Some by exact R1.
      change (nthz 0 (i_addrs din1) NDIRECT) with (ind (file_of n din1)). rewrite (ind_u32 s1 V1) by done.
      destruct (holds_block s1 V1 _ H1 (fo_ind _ _ _ _ _ Hf1 Hi)) as (R3 & _).
      erewrite pbind_Some by exact R3. erewrite pbind_Some by exact R2. rewrite E.
      by rewrite (faddr_u32 s2 V2) by (done || apply (gr_file _ _ _ _ _ _ _ _ G2)).
    + intros m Hm Hne. by rewrite Ho, Hsame.
Qed.

(** ** Files without holes *)

(** The blocks of a file of [z] bytes. *)
Definition blocks (z : Z) : Z := (z + (BSIZE - 1)) / BSIZE + (if NDIRECT * BSIZE <? z then 1 else 0).
(** The blocks of the first [z] bytes are there, and no others. *)
Record exact (V : Z -> list Z) (ip : inode) (z : Z) : Prop := {
  ex_max : 0 <= z <= MAXFILE * BSIZE;
  ex_there : forall m, inr m -> m * BSIZE < z -> faddr V ip m <> 0;
  ex_none : forall m, inr m -> z <= m * BSIZE -> faddr V ip m = 0;
  ex_ind : ind ip = 0 <-> z <= NDIRECT * BSIZE
}.
Lemma exact_filled V ip z : exact V ip z -> filled V ip z.
Proof.
  intros [H1 H2 _ _]. split; [done|]. intros j Hj. apply H2; unfold inr; change MAXFILE with 140 in *; change BSIZE with 512 in *;
    Z.to_euclidean_division_equations; lia.
Qed.

Lemma exact_at V ip off :
  exact V ip off -> inr (off / BSIZE) ->
  (faddr V ip (off / BSIZE) = 0 <-> off mod BSIZE = 0) /\ (ind ip = 0 <-> off <= NDIRECT * BSIZE).
Proof.
  intros [H1 H2 H3 H4] Hn. split; [|done]. destruct (off_pos off ltac:(lia)) as (E & Hmod & Hdiv). split; intros H0.
  - destruct (Z.eq_dec (off mod BSIZE) 0); [done|]. exfalso. apply (H2 (off / BSIZE) Hn); [lia|done].
  - apply H3; [done|lia].
Qed.
Lemma exact_cost V ip off k :
  exact V ip off -> 0 < k -> off mod BSIZE + k <= BSIZE -> off + k <= MAXFILE * BSIZE ->
  cost V ip (off / BSIZE) = blocks (off + k) - blocks off.
Proof.
  intros He Hk Hle Hmax. pose proof (ex_max _ _ _ He) as Ho.
  assert (inr (off / BSIZE)) as Hn by (unfold inr; change MAXFILE with 140 in *; change BSIZE with 512 in *; Z.to_euclidean_division_equations; lia).
  destruct (exact_at V ip off He Hn) as [E1 E2]. unfold cost, new_one, blocks.
  change MAXFILE with 140 in *. change NDIRECT with 12 in *. change BSIZE with 512 in *.
  destruct (Z.eqb_spec (faddr V ip (off / 512)) 0), (Z.eqb_spec (ind ip) 0), (Z.ltb_spec (off / 512) 12),
    (Z.ltb_spec (12 * 512) (off + k)), (Z.ltb_spec (12 * 512) off);
    Z.to_euclidean_division_equations; lia.
Qed.
Lemma exact_step V ip V' ip' off k :
  exact V ip off -> 0 < k -> off mod BSIZE + k <= BSIZE -> off + k <= MAXFILE * BSIZE ->
  faddr V' ip' (off / BSIZE) <> 0 -> (forall m, inr m -> m <> off / BSIZE -> faddr V' ip' m = faddr V ip m) ->
  (off / BSIZE < NDIRECT -> ind ip' = ind ip) -> exact V' ip' (off + k).
Proof.
  intros He Hk Hle Hmax Hthere Hsame Hi. pose proof (ex_max _ _ _ He) as Ho. destruct (off_pos off ltac:(lia)) as (E & Hmod & Hdiv).
  split; [lia|..].
  - intros m Hm Hlt. destruct (decide (m = off / BSIZE)) as [->|Hne]; [done|]. rewrite Hsame by done.
    apply (ex_there _ _ _ He m Hm). change BSIZE with 512 in *. lia.
  - intros m Hm Hge. rewrite Hsame; [|done|change BSIZE with 512 in *; lia]. apply (ex_none _ _ _ He m Hm). lia.
  - destruct (decide (off / BSIZE < NDIRECT)) as [Hd|Hd].
    + rewrite (Hi Hd). pose proof (ex_ind _ _ _ He). change NDIRECT with 12 in *. change BSIZE with 512 in *. lia.
    + split; [|change NDIRECT with 12 in *; change BSIZE with 512 in *; lia]. intros E0. exfalso. apply Hthere.
      unfold faddr. destruct (Z.ltb_spec (off / BSIZE) NDIRECT); [lia|]. by rewrite E0.
Qed.
Lemma exact_ext V ip V' ip' z :
  (forall m, inr m -> faddr V' ip' m = faddr V ip m) -> ind ip' = ind ip -> exact V ip z -> exact V' ip' z.
Proof.
  intros H Hi [H1 H2 H3 H4]. split; [done|..|by rewrite Hi]; intros m Hm; rewrite H by done; auto.
Qed.
Lemma faddr_data V ip a d m : a <> ind ip -> faddr (vset V a d) ip m = faddr V ip m.
Proof. intros Ha. unfold faddr. by rewrite vset_ne by congruence. Qed.

(** ** Appending to a file *)

Lemma blocks_mono z z' : z <= z' -> blocks z <= blocks z'.
Proof.
  intros H. unfold blocks. change NDIRECT with 12. change BSIZE with 512.
  destruct (Z.ltb_spec (12 * 512) z), (Z.ltb_spec (12 * 512) z'); Z.to_euclidean_division_equations; lia.
Qed.

Lemma iappend_loop_holds fuel s V n din off p :
  let ip := file_of n din in
  let len := Z.of_nat (length p) in
  holds s V -> mk_file V ip -> exact V ip off -> off + len <= MAXFILE * BSIZE -> (turns off len < fuel)%nat ->
  freeblock s + (blocks (off + len) - blocks off) <= FSSIZE ->
  exists din' s' V', let ip' := file_of n din' in
    iappend_loop fuel din off p s = Some ((din', off + len), s') /\ holds s' V' /\
    freeblock s' = freeblock s + (blocks (off + len) - blocks off) /\ freeinode s' = freeinode s /\
    mk_changes V ip V' ip' (overwrite (content V ip) off p) /\ exact V' ip' (off + len).
Proof.
  revert s V din off p. induction fuel as [|fuel IH]; intros s V din off p ip len H Hf He Hmax Hfuel Hfree; [lia|].
  cbn [iappend_loop]. fold len. destruct (Z.ltb_spec 0 len) as [Hlt|Hge].
  2: { assert (p = []) as -> by (apply nil_length_inv; lia). exists din, s, V. cbv zeta. change len with 0. rewrite Z.add_0_r.
       split_and!; try done; [lia|].
       eapply changes_ext; [|apply grows_none; [done|by eapply holds_marked]]. intros j Hj. by rewrite overwrite_nil. }
  pose proof (ex_max _ _ _ He) as [Ho _]. destruct (off_pos off Ho) as (Eoff & Hmod & Hdiv).
  rewrite turns_step in Hfuel by lia.
  set (k := Z.min len (BSIZE - off mod BSIZE)) in *.
  assert (0 < k /\ k <= len /\ off mod BSIZE + k <= BSIZE) as (Hk1 & Hk2 & Hk3) by lia.
  assert (inr (off / BSIZE)) as Hin by (unfold inr; change MAXFILE with 140 in *; change BSIZE with 512 in *; lia).
  assert (off < 140 * 512) as Hoff by (change MAXFILE with 140 in *; change BSIZE with 512 in *; lia).
  destruct (Z.ltb_spec (off / BSIZE) MAXFILE) as [_|]; [|destruct Hin; lia].
  pose proof (exact_cost V ip off k He Hk1 Hk3 ltac:(lia)) as Ec. pose proof (blocks_mono (off + k) (off + len) ltac:(lia)) as Hmono.
  destruct (file_block_holds s V n din (off / BSIZE) H Hf Hin) as (din1 & s1 & V1 & R1 & [H1 F1 F1' G1] & H0 & Hsame & Hi);
    [change (file_of n din) with ip; lia|]. cbv zeta in *.
  set (ip1 := file_of n din1) in *. pose proof (gr_file _ _ _ _ _ _ _ _ G1) as Hf1.
  pose proof (exact_step V ip V1 ip1 off k He Hk1 Hk3 ltac:(lia) H0 Hsame Hi) as He1.
  set (a := faddr V1 ip1 (off / BSIZE)) in *.
  destruct (holds_block s1 V1 a H1) as (R2 & Hl & Ha1 & Ha2 & Ha3); [by apply (fo_used _ _ _ _ _ Hf1)|].
  set (bs := take (Z.to_nat k) p). assert (Z.of_nat (length bs) = k) as Hbs by (unfold bs; rewrite length_take; lia).
  destruct (wsect_holds s1 V1 a (wr_bytes (V1 a) (off mod BSIZE) bs) H1) as (s2 & R3 & H2 & E3 & E4);
    [done|done|done|by rewrite wr_bytes_length|].
  pose proof (changes_data (nblk := FSSIZE) 2 30 mk_sb V1 ip1 off bs Hf1 (holds_marked s1 V1 H1) Ho Hin H0 ltac:(lia) Hl) as G2.
  fold a in G2. set (V2 := vset V1 a _) in *.
  assert (exact V2 ip1 (off + k)) as He2.
  { eapply exact_ext; [|done|exact He1]. intros m Hm. apply faddr_data. by apply (fo_apart _ _ _ _ _ Hf1). }
  assert (Z.of_nat (length (drop (Z.to_nat k) p)) = len - k) as Hdl by (rewrite length_drop; lia).
  pose proof (IH s2 V2 din1 (off + k) (drop (Z.to_nat k) p) H2 (gr_file _ _ _ _ _ _ _ _ G2) He2) as IH'. cbv zeta in IH'.
  rewrite Hdl in IH'. replace (off + k + (len - k)) with (off + len) in IH' by lia. fold ip in F1.
  destruct IH' as (din3 & s3 & V3 & R4 & H3 & F3 & F3' & G3 & He3); [lia..|]. clear IH.
  exists din3, s3, V3. cbv zeta. split_and!; [|done|lia|congruence| |done].
  - cbn [assert]. erewrite pbind_Some by reflexivity. erewrite pbind_Some by exact R1. cbn [fst snd].
    assert (Z.min len (u32 ((off / BSIZE + 1) * BSIZE - off)) = k) as ->.
    { unfold k. f_equal. change BSIZE with 512 in *. rewrite u32_small by cint. lia. }
    erewrite pbind_Some by exact R2.
    replace (u32 (off - off / BSIZE * BSIZE)) with (off mod BSIZE) by (change BSIZE with 512 in *; rewrite u32_small by cint; lia).
    erewrite pbind_Some by exact R3. change BSIZE with 512 in *. rewrite u32_small by cint. exact R4.
  - eapply changes_ext; [|eapply changes_trans; [exact G1|eapply changes_trans; [exact G2|exact G3]]]. intros j Hj.
    rewrite <-(take_drop (Z.to_nat k) p) at 2. fold bs. rewrite <-overwrite_app, Hbs. apply overwrite_ext.
    rewrite (gr_content _ _ _ _ _ _ _ _ G2) by done. apply overwrite_ext. by apply (gr_content _ _ _ _ _ _ _ _ G1).
Qed.

(** ** Inodes of the image *)

(** The inode [n] of the image. *)
Definition disk_inode (V : Z -> list Z) (n : Z) : inode := file_of n (dinode mk_sb V n zero_inode).

Lemma file_of_size n din : i_size (file_of n din) = i_size din.
Proof. reflexivity. Qed.
Lemma winode_file_of n m din z : winode m ((file_of n din) <| i_size := z |>) = winode m (din <| i_size := z |>).
Proof. reflexivity. Qed.

Lemma winode_holds s V n ip :
  holds s V -> 0 <= n < NINODES ->
  exists s', winode n ip s = Some (tt, s') /\ holds s' (stored mk_sb V n ip) /\ freeblock s' = freeblock s /\ freeinode s' = freeinode s.
Proof.
  intros H Hn. pose proof (mk_IBLOCK n Hn) as Hb. pose proof (hd_next _ _ H). unfold winode.
  erewrite pbind_Some by (apply (rsect_holds s V); [done|mk_lia|lia]).
  apply wsect_holds; [done|mk_lia|mk_lia|lia|]. rewrite store_length. apply (hd_size _ _ H). mk_lia.
Qed.
Lemma rinode_holds s V n : holds s V -> 0 <= n < NINODES -> rinode n s = Some (dinode mk_sb V n zero_inode, s).
Proof.
  intros H Hn. pose proof (mk_IBLOCK n Hn) as Hb. unfold rinode.
  by erewrite pbind_Some by (apply (rsect_holds s V); [done|mk_lia|lia]).
Qed.
(** An inode as mkfs has it in memory. *)
Definition mk_inode (n : Z) (ip : inode) : Prop := i_dev ip = 1 /\ i_inum ip = n /\ i_ref ip = 0 /\ i_valid ip = 0.
Lemma disk_inode_stored s V n ip :
  holds s V -> 0 <= n < NINODES -> inode_ok ip -> mk_inode n ip ->
  disk_inode (stored mk_sb V n ip) n = ip /\ synced mk_sb (stored mk_sb V n ip) ip.
Proof.
  intros H Hn Hok (E1 & E2 & E3 & E4). pose proof (mk_IBLOCK n Hn). unfold disk_inode, synced. rewrite E2.
  rewrite !dinode_stored by (try apply (hd_size _ _ H); done || mk_lia). destruct ip; cbn in *; subst. done.
Qed.
Lemma disk_mk_inode V n : mk_inode n (disk_inode V n).
Proof. done. Qed.

(** ** Files of the image *)

Record is_file (V : Z -> list Z) (n ty : Z) (bs : list Z) : Prop := {
  if_good : mk_good V (disk_inode V n);
  if_type : i_type (disk_inode V n) = ty;
  if_nlink : i_nlink (disk_inode V n) = 1;
  if_size : i_size (disk_inode V n) = Z.of_nat (length bs);
  if_exact : exact V (disk_inode V n) (Z.of_nat (length bs));
  if_bytes : forall j, inr (j / BSIZE) -> content V (disk_inode V n) j = u8 (nthz 0 bs j)
}.

Lemma nthz_beyond (l : list Z) j : Z.of_nat (length l) <= j -> nthz 0 l j = 0.
Proof. intros Hj. unfold nthz. destruct (Z.ltb_spec j 0); [lia|]. by rewrite lookup_ge_None_2 by lia. Qed.

(** The inode written with a size. *)
Lemma size_holds s V n ip z ip' V' :
  ip' = ip <| i_size := z |> -> V' = stored mk_sb V n ip' ->
  holds s V -> mk_file V ip -> shorts_ok ip -> 0 <= n < NINODES -> mk_inode n ip -> 0 <= z <= MAXFILE * BSIZE ->
  exists s', winode n ip' s = Some (tt, s') /\ holds s' V' /\ freeblock s' = freeblock s /\ freeinode s' = freeinode s /\
    disk_inode V' n = ip' /\ synced mk_sb V' ip' /\ mk_file V' ip' /\ mk_spares V ip V' ip' /\ keeps_log 2 30 V V' /\
    (forall m, inr m -> faddr V' ip' m = faddr V ip m) /\ (forall j, inr (j / BSIZE) -> content V' ip' j = content V ip j).
Proof.
  intros -> -> H Hf Hsh Hn Hmk Hz. set (ip' := ip <| i_size := z |>). set (V' := stored mk_sb V n ip').
  pose proof Hmk as (_ & En & _).
  assert (is_u32 z) as Hz' by (change MAXFILE with 140 in *; change BSIZE with 512 in *; cint).
  assert (inode_ok ip') as Hok.
  { apply (file_inode_ok (nblk := FSSIZE) 2 30 mk_geometry mk_sb mk_geom V); [by apply file_ok_size|done|done]. }
  destruct (winode_holds s V n ip' H Hn) as (s2 & R2 & H2 & E2 & E2').
  destruct (disk_inode_stored s V n ip' H Hn Hok Hmk) as [Ed Es].
  destruct (iblock_meta (nblk := FSSIZE) 2 30 mk_geometry mk_sb mk_geom n Hn) as [Hk Hnb].
  destruct (stored_spares (nblk := FSSIZE) 2 30 mk_geometry mk_sb mk_geom V ip z (holds_marked _ _ H) Hf) as [S2 L2]; rewrite ?En; try done.
  { apply (hd_size _ _ H). pose proof (mk_IBLOCK n Hn). mk_lia. }
  rewrite En in S2, L2.
  exists s2. split_and!; try done.
  - by apply file_ok_vset; [..|apply file_ok_size].
  - intros m Hm. unfold V', stored. by rewrite (faddr_vset (nblk := FSSIZE) 2 30 mk_sb V) by (done || by apply file_ok_size).
  - intros j Hj. unfold V', stored. by rewrite (content_vset (nblk := FSSIZE) 2 30 mk_sb V) by (done || by apply file_ok_size).
Qed.

Lemma iappend_holds s V n ty bs p :
  let z := Z.of_nat (length bs) in
  let z' := Z.of_nat (length (bs ++ p)) in
  holds s V -> is_file V n ty bs -> z' <= MAXFILE * BSIZE -> freeblock s + (blocks z' - blocks z) <= FSSIZE ->
  exists s' V', iappend n p s = Some (tt, s') /\ holds s' V' /\ freeblock s' = freeblock s + (blocks z' - blocks z) /\
    freeinode s' = freeinode s /\ is_file V' n ty (bs ++ p) /\ mk_spares V (disk_inode V n) V' (disk_inode V' n) /\ keeps_log 2 30 V V'.
Proof.
  intros z z' H [[Gm Gf Gt Gs Gn [Gz Gfl] Gy] Hty Hnl Hsz He Hc] Hmax Hfree. change (0 <= n < NINODES) in Gn.
  set (ip := disk_inode V n) in *. set (din := dinode mk_sb V n zero_inode). set (len := Z.of_nat (length p)).
  assert (z + len = z') as Ez by (unfold z, z', len; rewrite length_app; lia).
  destruct (iappend_loop_holds (S (Z.to_nat (len / BSIZE + 2))) s V n din z p H Gf He) as (din1 & s1 & V1 & R1 & H1 & F1 & F1' & G1 & He1);
    try (fold len); rewrite ?Ez; [done|apply turns_bound; lia|done|]. cbv zeta in *. fold len in R1, F1, He1. rewrite Ez in R1, F1, He1.
  change (file_of n din) with ip in *. set (ip1 := file_of n din1) in *.
  pose proof (gr_file _ _ _ _ _ _ _ _ G1) as Hf1. pose proof (gr_same _ _ _ _ _ _ _ _ G1) as Hsame.
  set (ip2 := ip1 <| i_size := z' |>) in *. set (V2 := stored mk_sb V1 n ip2) in *.
  destruct (size_holds s1 V1 n ip1 z' ip2 V2 eq_refl eq_refl H1 Hf1) as (s2 & R2 & H2 & E2 & E2' & Ed & Es & Hf2 & S2 & L2 & Ha & Hc2);
    [by rewrite Hsame|done|by rewrite Hsame|lia|].
  destruct (changes_spares (nblk := FSSIZE) 2 30 mk_geometry mk_sb mk_geom _ _ _ _ _ Gm Gf G1) as [S1 L1].
  assert (exact V2 ip2 z') as He2 by (by eapply exact_ext).
  exists s2, V2. rewrite Ed. split_and!; [|done|congruence|congruence| |by eapply spares_trans|].
  - unfold iappend. erewrite pbind_Some by (by apply (rinode_holds s V)). fold din. rewrite <-(file_of_size n din). change (file_of n din) with ip.
    rewrite xint_small by (change MAXFILE with 140 in *; change BSIZE with 512 in *; cint). rewrite Hsz. fold len z.
    erewrite pbind_Some by exact R1. cbn [fst snd]. rewrite xint_small by (change MAXFILE with 140 in *; change BSIZE with 512 in *; cint). by rewrite <-(winode_file_of n).
  - split; rewrite Ed; try done.
    + split; [by eapply holds_marked|done|by unfold ip2; rewrite Hsame|by unfold ip2; rewrite Hsame|done|by apply exact_filled|done].
    + unfold ip2. by rewrite Hsame.
    + unfold ip2. by rewrite Hsame.
    + intros j Hr. assert (0 <= j) as Hj by (destruct Hr; change BSIZE with 512 in *; Z.to_euclidean_division_equations; lia).
      rewrite Hc2, (gr_content _ _ _ _ _ _ _ _ G1) by done. unfold overwrite. fold len. rewrite nthz_app by lia. fold z.
      destruct (decide (z <= j < z + len)), (decide (j < z)); try lia; rewrite Hc by done; [done|]. by rewrite !nthz_beyond by lia.
  - intros k Hk. rewrite <-(L1 k Hk). by apply L2.
Qed.

(** ** The files of an image *)

Notation file_data := (Z * list Z)%type.
Definition file_len (f : file_data) : Z := Z.of_nat (length f.2).
Fixpoint total (fs : list file_data) : Z := match fs with [] => 0 | f :: fs => blocks (file_len f) + total fs end.

Lemma total_app fs gs : total (fs ++ gs) = total fs + total gs.
Proof. induction fs as [|f fs IH]; cbn [total app]; lia. Qed.
Lemma total_insert fs i f g : fs !! i = Some f -> total (<[i := g]> fs) = total fs + (blocks (file_len g) - blocks (file_len f)).
Proof.
  revert i. induction fs as [|f' fs IH]; intros [|i] E; try done.
  - injection E as ->. cbn. lia.
  - change (<[S i := g]> (f' :: fs)) with (f' :: <[i := g]> fs). cbn [total]. rewrite (IH i E). lia.
Qed.

(** Inode [1 + i] is that of the file [i]. *)
Definition inum_of (i : nat) : Z := 1 + Z.of_nat i.
Record image (s : mkst) (V : Z -> list Z) (fs : list file_data) : Prop := {
  im_holds : holds s V;
  im_ino : freeinode s = inum_of (length fs) /\ inum_of (length fs) <= NINODES;
  im_next : freeblock s = nmeta + total fs;
  im_file : forall i ty bs, fs !! i = Some (ty, bs) -> is_file V (inum_of i) ty bs;
  im_apart : forall i j, i <> j -> (i < length fs)%nat -> (j < length fs)%nat -> apart V (disk_inode V (inum_of i)) (disk_inode V (inum_of j));
  im_super : V 1 = sb_bytes;
  im_log : forall k, 2 <= k < 32 -> V k = zero_block
}.

Notation mk_spares_good := (spares_good (nblk := FSSIZE) 2 30 mk_sb).

(** The other files, when one of them changes. *)
Lemma other_inode V ip V' ip' n :
  mk_spares V ip V' ip' -> 0 <= n < NINODES -> n <> i_inum ip -> disk_inode V' n = disk_inode V n.
Proof. intros S Hn Hne. unfold disk_inode. by rewrite (sp_inodes _ _ _ _ _ _ _ S). Qed.
Lemma other_file V ip V' ip' n ty bs :
  mk_spares V ip V' ip' -> mk_marked V' -> is_file V n ty bs -> apart V ip (disk_inode V n) -> n <> i_inum ip ->
  is_file V' n ty bs.
Proof.
  intros S Hm [G1 G2 G0 G3 G4 G5] Ha Hne. pose proof (gd_inum _ _ _ _ _ G1) as Hn. pose proof (gd_file _ _ _ _ _ G1) as Hf.
  pose proof (other_inode V ip V' ip' n S Hn Hne) as E. split; rewrite E; try done.
  - by eapply mk_spares_good.
  - eapply exact_ext; [|done|exact G4]. intros m Hmr. by eapply (spares_faddr (nblk := FSSIZE) 2 30 mk_sb).
  - intros j Hj. rewrite <-G5 by done. by eapply (spares_content (nblk := FSSIZE) 2 30 mk_sb).
Qed.
Lemma other_apart V ip V' ip' jp kp :
  mk_spares V ip V' ip' -> mk_file V jp -> mk_file V kp -> apart V ip jp -> apart V ip kp -> apart V jp kp -> apart V' jp kp.
Proof.
  intros S H1 H2 A1 A2 A a Ho1 Ho2. apply (A a); by eapply (spares_owns (nblk := FSSIZE) 2 30 mk_sb V ip V' ip').
Qed.
Lemma super_kept V ip V' ip' : mk_spares V ip V' ip' -> keeps_log 2 30 V V' -> V 1 = sb_bytes ->
  (forall k, 2 <= k < 32 -> V k = zero_block) -> V' 1 = sb_bytes /\ forall k, 2 <= k < 32 -> V' k = zero_block.
Proof.
  intros S L H1 H2. rewrite (sp_super _ _ _ _ _ _ _ S). split; [done|]. intros k Hk. rewrite L by lia. by apply H2.
Qed.

Lemma image_append s V fs i ty bs p :
  image s V fs -> fs !! i = Some (ty, bs) -> Z.of_nat (length (bs ++ p)) <= MAXFILE * BSIZE ->
  nmeta + total (<[i := (ty, bs ++ p)]> fs) <= FSSIZE ->
  exists s' V', iappend (inum_of i) p s = Some (tt, s') /\ image s' V' (<[i := (ty, bs ++ p)]> fs).
Proof.
  intros [H [Hi1 Hi2] Hn Hf Ha Hs Hlog] Ei Hmax Hfree. pose proof (lookup_lt_Some _ _ _ Ei) as Hlt.
  rewrite (total_insert fs i (ty, bs)) in Hfree by done. unfold file_len in Hfree. cbn [snd] in Hfree.
  destruct (iappend_holds s V (inum_of i) ty bs p H (Hf _ _ _ Ei) Hmax) as (s' & V' & R & H' & E1 & E2 & F & S & L); [lia|].
  assert (forall j, (j < length fs)%nat -> 0 <= inum_of j < NINODES) as Hr by (unfold inum_of in *; lia).
  assert (forall j, (j < length fs)%nat -> mk_file V (disk_inode V (inum_of j))) as Hok.
  { intros j [[ty' bs'] Ej]%lookup_lt_is_Some. eapply gd_file, if_good, Hf, Ej. }
  assert (forall j, j <> i -> (j < length fs)%nat -> disk_inode V' (inum_of j) = disk_inode V (inum_of j)) as Ho.
  { intros j Hne Hj. eapply other_inode; [exact S|by apply Hr|]. cbn. unfold inum_of. lia. }
  exists s', V'. split; [done|]. destruct (super_kept _ _ _ _ S L Hs Hlog) as [Hs' Hl']. split; [done|..|done|done].
  - rewrite length_insert. split; [congruence|done].
  - rewrite (total_insert fs i (ty, bs)) by done. unfold file_len. cbn [snd]. lia.
  - intros j ty' bs' Ej. destruct (decide (j = i)) as [->|Hne].
    + rewrite list_lookup_insert_eq in Ej by done. by injection Ej as <- <-.
    + rewrite list_lookup_insert_ne in Ej by done. pose proof (lookup_lt_Some _ _ _ Ej) as Hj.
      eapply other_file; [exact S|by eapply holds_marked|by apply Hf|by apply Ha|]. cbn. unfold inum_of. lia.
  - rewrite length_insert. intros j k Hne Hj Hk.
    destruct (decide (j = i)) as [->|Hji], (decide (k = i)) as [->|Hki]; [done|..].
    + rewrite (Ho k) by done. eapply (spares_apart (nblk := FSSIZE) 2 30 mk_sb); [exact S|by apply Hok|by apply Ha].
    + rewrite (Ho j) by done. eapply apart_sym, (spares_apart (nblk := FSSIZE) 2 30 mk_sb); [exact S|by apply Hok|by apply Ha].
    + rewrite !Ho by done. eapply other_apart; [exact S|by apply Hok|by apply Hok|by apply Ha|by apply Ha|by apply Ha].
Qed.

(** A new inode has no blocks. *)
Definition new_inode (ty n : Z) : inode := file_of n (zero_inode <| i_type := ty |> <| i_nlink := 1 |>).
Lemma new_faddr V ty n m : inr m -> faddr V (new_inode ty n) m = 0.
Proof.
  intros [Hm _]. unfold faddr. change (ind (new_inode ty n)) with 0. cbn [Z.eqb].
  destruct (Z.ltb_spec m NDIRECT); [|done]. change NDIRECT with 12 in *.
  unfold nthz. destruct (Z.ltb_spec m 0); [lia|]. cbn [new_inode file_of i_addrs zero_inode].
  destruct (_ !! _) eqn:E; [|done]. by apply lookup_replicate in E as [-> _].
Qed.
Lemma new_file V ty n : mk_file V (new_inode ty n).
Proof.
  split; try done.
  - intros m Hm. by rewrite new_faddr.
  - intros m m' Hm _ _ H0. by rewrite new_faddr in H0.
Qed.
Lemma new_owns V ty n a : ~ owns V (new_inode ty n) a.
Proof. intros [H0 [->|(m & Hm & E)]]; [done|]. rewrite new_faddr in E by done. congruence. Qed.
Lemma new_shorts ty n : ty = T_DIR \/ ty = T_FILE -> shorts_ok (new_inode ty n).
Proof. intros [-> | ->]; repeat (apply List.Forall_cons; [by split|]); by apply Forall_nil. Qed.
Lemma new_is_file V ty n :
  mk_marked V -> ty = T_DIR \/ ty = T_FILE -> 0 <= n < NINODES -> disk_inode V n = new_inode ty n ->
  synced mk_sb V (new_inode ty n) -> is_file V n ty [].
Proof.
  intros Hm Hty Hn Ed Es. assert (exact V (new_inode ty n) 0) as He.
  { split; [done|..|done]; intros m Hm'; [|by rewrite new_faddr]. destruct Hm'. change BSIZE with 512. lia. }
  split; rewrite Ed; [|done|done|done|done|intros j Hj; unfold content, nthz; rewrite new_faddr by done; by destruct (j <? 0)].
  split; [done|apply new_file|by destruct Hty as [-> | ->]|by apply new_shorts|done| |done].
  by apply exact_filled.
Qed.

Lemma image_alloc s V fs ty :
  image s V fs -> ty = T_DIR \/ ty = T_FILE -> inum_of (S (length fs)) <= NINODES ->
  exists s' V', ialloc ty s = Some (inum_of (length fs), s') /\ image s' V' (fs ++ [(ty, [])]).
Proof.
  intros [H [Hi1 Hi2] Hn Hf Ha Hs Hlog] Hty Hmax. set (n := inum_of (length fs)).
  assert (0 <= n < NINODES) as Hnr by (unfold n, inum_of in *; lia).
  assert (u32 (n + 1) = n + 1) as En by (change NINODES with 200 in *; apply u32_small; cint).
  set (s1 := s <| freeinode := u32 (n + 1) |>). assert (holds s1 V) as H1 by (by destruct H).
  set (V' := stored mk_sb V n (new_inode ty n)).
  destruct (size_holds s1 V n (new_inode ty n) 0 (new_inode ty n) V' eq_refl eq_refl H1) as (s2 & R2 & H2 & E2 & E2' & Ed & Es & Hf2 & S & L & Hfa & Hc);
    [apply new_file|by apply new_shorts|done|done|done|].
  assert (forall j, (j < length fs)%nat -> 0 <= inum_of j < NINODES /\ inum_of j <> n) as Hr by (unfold n, inum_of in *; lia).
  assert (forall jp, apart V (new_inode ty n) jp) as Hap by (intros jp a Ho; by apply new_owns in Ho).
  assert (forall j, (j < length fs)%nat -> mk_file V (disk_inode V (inum_of j))) as Hok.
  { intros j [[ty' bs'] Ej]%lookup_lt_is_Some. eapply gd_file, if_good, Hf, Ej. }
  assert (forall j, (j < length fs)%nat -> disk_inode V' (inum_of j) = disk_inode V (inum_of j)) as Ho.
  { intros j Hj. destruct (Hr j Hj). by apply (other_inode V (new_inode ty n) V' (new_inode ty n)). }
  exists s2, V'. split. { unfold ialloc. rewrite Hi1. fold n s1. erewrite pbind_Some; [done|]. rewrite <-R2. by destruct Hty as [-> | ->]. }
  destruct (super_kept _ _ _ _ S L Hs Hlog) as [Hs' Hl']. split; [done|..|done|done].
  - rewrite E2', length_app, Nat.add_1_r. split; [|done]. change (u32 (n + 1) = inum_of (Datatypes.S (length fs))). rewrite En. unfold n, inum_of. lia.
  - rewrite E2. unfold s1. cbn [freeblock]. rewrite total_app. change (total [(ty, [])]) with 0. change (freeblock s = nmeta + (total fs + 0)). lia.
  - intros j ty' bs' Ej. apply lookup_app_Some in Ej as [Ej|[Hge Ej]].
    + pose proof (lookup_lt_Some _ _ _ Ej) as Hj. eapply other_file; [exact S|by eapply holds_marked|by apply Hf|done|by apply Hr].
    + apply list_lookup_singleton_Some in Ej as [E [= <- <-]]. replace (inum_of j) with n by (unfold n, inum_of; lia).
      by eapply new_is_file; [eapply holds_marked|..].
  - rewrite length_app. cbn. intros j k Hne Hj Hk.
    destruct (decide (j = length fs)) as [->|Hji], (decide (k = length fs)) as [->|Hki]; [done|..].
    + fold n. rewrite Ed. intros a Ha'. by apply new_owns in Ha'.
    + fold n. rewrite Ed. apply apart_sym. intros a Ha'. by apply new_owns in Ha'.
    + rewrite !Ho by lia. eapply other_apart; [exact S|apply Hok; lia|apply Hok; lia|done|done|apply Ha; lia].
Qed.

(** ** The empty image *)

Lemma pfor_zero k n s :
  mk_img s = replicate k zero_block -> (k + n <= Z.to_nat FSSIZE)%nat ->
  pfor (seqZ (Z.of_nat k) (Z.of_nat n)) (fun i => wsect i zero_block) s =
    Some (tt, s <| mk_img := replicate (k + n) zero_block |>).
Proof.
  revert k s. induction n as [|n IH]; intros k s E Hle.
  - rewrite Nat.add_0_r, <-E. by destruct s.
  - rewrite seqZ_cons by lia. cbn [pfor]. unfold pbind at 1, wsect at 1. rewrite sector_small by lia. rewrite Nat2Z.id.
    replace (Z.pred (Z.of_nat (S n))) with (Z.of_nat n) by lia. rewrite <-Nat2Z.inj_succ.
    assert ((k <? length (mk_img s))%nat = false) as El by (rewrite E, length_replicate; apply Nat.ltb_irrefl).
    rewrite (IH (S k)); [|destruct s; unfold upd; cbn -[Nat.ltb] in *; rewrite El, E, length_replicate, Nat.sub_diag|lia].
    + destruct s; unfold upd; cbn. by replace (k + S n)%nat with (S (k + n)) by lia.
    + cbn [replicate app]. by rewrite <-replicate_S_end.
Qed.

Definition blank_view (k : Z) : list Z := if k =? 1 then sb_bytes else if k =? 58 then bitmap nmeta else zero_block.

Lemma blank_image s :
  freeblock s = nmeta -> freeinode s = 1 -> mk_img s = <[Z.to_nat 1 := sb_bytes]> (replicate (Z.to_nat FSSIZE) zero_block) ->
  image s blank_view [].
Proof.
  intros E1 E2 E3. split; try done.
  - split; rewrite ?E1, ?E3.
    + by rewrite length_insert, length_replicate.
    + intros k Hk Hne. unfold blank_view. destruct (Z.eqb_spec k 1) as [->|].
      * by rewrite list_lookup_insert_eq by (rewrite length_replicate; mk_lia).
      * rewrite list_lookup_insert_ne by lia. rewrite lookup_replicate_2 by lia. by destruct (Z.eqb_spec k 58).
    + done.
    + intros k Hk. unfold blank_view. destruct (Z.eqb_spec k 1); [done|]. destruct (Z.eqb_spec k 58); [|done].
      by apply bitmap_spec.
    + intros k Hk. unfold blank_view. destruct (Z.eqb_spec k 1); [mk_lia|]. destruct (Z.eqb_spec k 58); [mk_lia|done].
    + done.
  - cbn. lia.
  - intros k Hk. unfold blank_view. destruct (Z.eqb_spec k 1); [lia|]. destruct (Z.eqb_spec k 58); [lia|done].
Qed.

(** ** The files of the command line *)

Lemma chunks_concat fuel bs : (length bs <= fuel)%nat -> concat (chunks fuel bs) = bs.
Proof.
  revert bs. induction fuel as [|fuel IH]; intros [|b bs] Hl; cbn in Hl; try done; [lia|].
  cbn [chunks]. change (concat (?a :: ?l)) with (a ++ concat l). rewrite IH; [apply take_drop|].
  rewrite length_drop. change (Z.to_nat BSIZE) with 512%nat. cbn [length]. lia.
Qed.

Lemma total_mono fs i f g : fs !! i = Some f -> file_len f <= file_len g -> total fs <= total (<[i := g]> fs).
Proof. intros E Hle. rewrite (total_insert fs i f) by done. pose proof (blocks_mono _ _ Hle). lia. Qed.

(** A file appended to, piece by piece. *)
Lemma image_appends l s V fs i ty bs :
  image s V fs -> fs !! i = Some (ty, bs) -> Z.of_nat (length (bs ++ concat l)) <= MAXFILE * BSIZE ->
  nmeta + total (<[i := (ty, bs ++ concat l)]> fs) <= FSSIZE ->
  exists s' V', pfor l (iappend (inum_of i)) s = Some (tt, s') /\ image s' V' (<[i := (ty, bs ++ concat l)]> fs).
Proof.
  revert s V fs bs. induction l as [|p l IH]; intros s V fs bs H Ei Hmax Hfree; cbn [pfor].
  { cbn [concat] in *. rewrite app_nil_r in *. exists s, V. by rewrite list_insert_id. }
  change (concat (p :: l)) with (p ++ concat l) in *. rewrite app_assoc in *.
  pose proof (lookup_lt_Some _ _ _ Ei) as Hlt. set (f := (ty, (bs ++ p) ++ concat l)) in *.
  assert (<[i := (ty, bs ++ p)]> fs !! i = Some (ty, bs ++ p)) as Ei' by (by apply list_lookup_insert_eq).
  assert (<[i := f]> (<[i := (ty, bs ++ p)]> fs) = <[i := f]> fs) as Ef by apply list_insert_insert_eq.
  assert (total (<[i := (ty, bs ++ p)]> fs) <= total (<[i := f]> fs)) as Hle.
  { rewrite <-Ef. eapply total_mono; [done|]. unfold file_len. cbn. rewrite !length_app. lia. }
  destruct (image_append s V fs i ty bs p H Ei) as (s1 & V1 & R1 & H1); [rewrite length_app in Hmax; lia|lia|].
  destruct (IH s1 V1 _ (bs ++ p) H1 Ei') as (s2 & V2 & R2 & H2); [done|fold f; by rewrite Ef|].
  exists s2, V2. fold f in H2. rewrite Ef in H2. split; [|done]. by erewrite pbind_Some by exact R1.
Qed.

Definition no_slash (name : list Z) : bool := forallb (fun c => negb (c =? slash)) name.
Lemma dirent_length inum name : Z.of_nat (length (dirent inum name)) = 16.
Proof.
  unfold dirent, mk_dirent. rewrite length_app. change (Z.to_nat DIRSIZ) with 14%nat.
  assert (forall n m, length (strncpy_list n m) = n) as ->; [|done].
  intros n. induction n as [|n IH]; intros m; cbn; [done|]. by rewrite IH.
Qed.

(** The directory, with an entry more for a file at [i]. *)
Definition linked (d : list Z) (i : nat) (f : list Z * list Z) : list Z := d ++ dirent (inum_of i) (strip f.1).

Lemma add_file_image s V d fs f :
  image s V ((T_DIR, d) :: fs) -> no_slash f.1 = true -> inum_of (S (S (length fs))) <= NINODES ->
  Z.of_nat (length d) + 16 <= MAXFILE * BSIZE -> Z.of_nat (length f.2) <= MAXFILE * BSIZE ->
  nmeta + (blocks (Z.of_nat (length d) + 16) + (total fs + blocks (Z.of_nat (length f.2)))) <= FSSIZE ->
  exists s' V', add_file ROOTINO f s = Some (tt, s') /\
    image s' V' ((T_DIR, linked d (S (length fs)) f) :: fs ++ [(T_FILE, f.2)]).
Proof.
  intros H Hs Hino Hd Hf Hfree. unfold add_file. fold (no_slash (fst f)). rewrite Hs. cbn [assert].
  erewrite pbind_Some by reflexivity.
  destruct (image_alloc s V _ T_FILE H) as (s1 & V1 & R1 & H1); [by right|done|]. cbn [length] in R1. erewrite pbind_Some by exact R1.
  cbn [app] in H1. set (n := inum_of (S (length fs))) in *. pose proof (dirent_length n (strip f.1)) as El.
  assert (blocks 0 = 0) as B0 by done.
  assert (0 <= blocks (Z.of_nat (length f.2))) as Bf by (rewrite <-B0; apply blocks_mono; lia).
  destruct (image_append s1 V1 _ 0 T_DIR d (dirent n (strip f.1)) H1) as (s2 & V2 & R2 & H2); [done|rewrite length_app; lia| |].
  { change (<[0%nat := ?y]> (?x :: ?l)) with (y :: l). cbn [total]. rewrite total_app. unfold file_len. cbn [snd total length]. rewrite length_app, Nat2Z.inj_add, El. change (blocks (file_len (T_FILE, []))) with 0. lia. }
  change (inum_of 0) with ROOTINO in R2. change (fst f) with (f.1). erewrite pbind_Some by exact R2.
  change (<[0%nat := _]> (?x :: ?l)) with ((T_DIR, linked d (S (length fs)) f) :: l) in H2.
  destruct (image_appends (reads f.2) s2 V2 _ (S (length fs)) T_FILE [] H2) as (s3 & V3 & R3 & H3);
    unfold reads; rewrite ?chunks_concat by done; cbn [app].
  - by apply (list_lookup_middle (_ :: fs)).
  - done.
  - change (<[S (length fs) := ?y]> (?x :: ?l)) with (x :: <[length fs := y]> l).
    rewrite insert_app_r_alt, Nat.sub_diag by done. cbn [total]. rewrite total_app. unfold linked, file_len. cbn [insert list_insert snd total].
    rewrite length_app, Nat2Z.inj_add, dirent_length. change (blocks (file_len (T_FILE, f.2))) with (blocks (Z.of_nat (length f.2))). lia.
  - exists s3, V3. split; [exact R3|]. unfold reads in H3. rewrite chunks_concat in H3 by done. cbn [app] in H3.
    change (<[S (length fs) := ?y]> (?x :: ?l)) with (x :: <[length fs := y]> l) in H3.
    by rewrite insert_app_r_alt, Nat.sub_diag in H3 by done.
Qed.

Definition data_of (f : list Z * list Z) : file_data := (T_FILE, f.2).
Fixpoint links (d : list Z) (i : nat) (files : list (list Z * list Z)) : list Z :=
  match files with
  | [] => d
  | f :: files => links (linked d i f) (S i) files
  end.
Lemma linked_length d i f : Z.of_nat (length (linked d i f)) = Z.of_nat (length d) + 16.
Proof. unfold linked. by rewrite length_app, Nat2Z.inj_add, dirent_length. Qed.
Lemma links_length d i files : Z.of_nat (length (links d i files)) = Z.of_nat (length d) + 16 * Z.of_nat (length files).
Proof. revert d i. induction files as [|f files IH]; intros d i; cbn [links length]; [lia|]. rewrite IH, linked_length. lia. Qed.
Lemma total_pos fs : 0 <= total fs.
Proof.
  induction fs as [|f fs IH]; cbn [total]; [lia|]. pose proof (blocks_mono 0 (file_len f) ltac:(unfold file_len; lia)).
  change (blocks 0) with 0 in *. lia.
Qed.

Lemma files_image files s V d fs :
  image s V ((T_DIR, d) :: fs) -> Forall (fun f => no_slash f.1 = true) files ->
  Forall (fun f => Z.of_nat (length f.2) <= MAXFILE * BSIZE) files ->
  inum_of (S (length fs + length files)) <= NINODES ->
  Z.of_nat (length d) + 16 * Z.of_nat (length files) <= MAXFILE * BSIZE ->
  nmeta + (blocks (Z.of_nat (length d) + 16 * Z.of_nat (length files)) + (total fs + total (data_of <$> files))) <= FSSIZE ->
  exists s' V', pfor files (add_file ROOTINO) s = Some (tt, s') /\
    image s' V' ((T_DIR, links d (S (length fs)) files) :: fs ++ (data_of <$> files)).
Proof.
  revert s V d fs. induction files as [|f files IH]; intros s V d fs H Hs Hl Hino Hd Hfree; cbn [pfor links].
  { rewrite app_nil_r. by exists s, V. }
  apply Forall_cons in Hs as [Hs1 Hs2], Hl as [Hl1 Hl2]. cbn [length fmap list_fmap total] in *.
  change (file_len (data_of f)) with (Z.of_nat (length f.2)) in *. pose proof (total_pos (data_of <$> files)) as Htot.
  pose proof (blocks_mono (Z.of_nat (length d) + 16) (Z.of_nat (length d) + 16 * Z.of_nat (S (length files))) ltac:(lia)) as Hmono.
  destruct (add_file_image s V d fs f H Hs1) as (s1 & V1 & R1 & H1); [unfold inum_of in *; lia|lia|done|lia|].
  destruct (IH s1 V1 _ _ H1 Hs2 Hl2) as (s2 & V2 & R2 & H2); rewrite ?linked_length, ?length_app, ?total_app; cbn [length total].
  - unfold inum_of in *. lia.
  - lia.
  - change (file_len (T_FILE, f.2)) with (Z.of_nat (length f.2)).
    replace (Z.of_nat (length d) + 16 + 16 * Z.of_nat (length files)) with (Z.of_nat (length d) + 16 * Z.of_nat (S (length files))) by lia. lia.
  - exists s2, V2. split; [by erewrite pbind_Some by exact R1|]. rewrite length_app, <-app_assoc, Nat.add_1_r in H2. exact H2.
Qed.

(** ** The image as a whole *)

(** What mkfs asks of the files of its command line. *)
Record fits (files : list (list Z * list Z)) : Prop := {
  ft_names : Forall (fun f => no_slash f.1 = true) files;
  ft_sizes : Forall (fun f => Z.of_nat (length f.2) <= MAXFILE * BSIZE) files;
  ft_inodes : inum_of (S (length files)) <= NINODES;
  ft_blocks : nmeta + (blocks (16 * (2 + Z.of_nat (length files))) + total (data_of <$> files)) <= FSSIZE
}.

Definition root_bytes (files : list (list Z * list Z)) : list Z :=
  links (dirent ROOTINO [dot] ++ dirent ROOTINO [dot; dot]) 1 files.
Lemma root_length files : Z.of_nat (length (root_bytes files)) = 16 * (2 + Z.of_nat (length files)).
Proof. unfold root_bytes. rewrite links_length, length_app, Nat2Z.inj_add, !dirent_length. lia. Qed.

Record built (V : Z -> list Z) (files : list (list Z * list Z)) : Prop := {
  bt_size : forall k, 0 <= k < FSSIZE -> length (V k) = Z.to_nat BSIZE;
  bt_super : sb_of (V 1) = mk_sb /\ sb_places 2 30 (V 1);
  bt_log : head_of (V 2) [];
  bt_bits : forall b, 0 <= b < FSSIZE ->
    bit V mk_sb b = (b <? nmeta + (blocks (16 * (2 + Z.of_nat (length files))) + total (data_of <$> files)));
  bt_file : forall i name bs, files !! i = Some (name, bs) -> is_file V (inum_of (S i)) T_FILE bs;
  bt_apart : forall i j, i <> j -> (i <= length files)%nat -> (j <= length files)%nat ->
    apart V (disk_inode V (inum_of i)) (disk_inode V (inum_of j));
  bt_root_type : i_type (disk_inode V ROOTINO) = T_DIR /\ i_nlink (disk_inode V ROOTINO) = 1;
  bt_root_size : i_size (disk_inode V ROOTINO) = ((16 * (2 + Z.of_nat (length files))) / BSIZE + 1) * BSIZE;
  bt_root_file : mk_file V (disk_inode V ROOTINO);
  bt_root_blocks : exact V (disk_inode V ROOTINO) (16 * (2 + Z.of_nat (length files)));
  bt_root_bytes : forall j, inr (j / BSIZE) -> content V (disk_inode V ROOTINO) j = u8 (nthz 0 (root_bytes files) j)
}.

(** The zeroed blocks and the super block. *)
Lemma main_blank :
  exists s, image s blank_view [] /\
    forall B (k : P B),
      pbind (pfor (range 0 FSSIZE) (fun i => wsect i zero_block)) (fun _ => pbind (wsect 1 sb_bytes) (fun _ => k)) (mkMk [] 1 nmeta) = k s.
Proof.
  set (img := replicate (Z.to_nat FSSIZE) zero_block).
  exists (mkMk (<[Z.to_nat 1 := sb_bytes]> img) 1 nmeta). split; [by apply blank_image|]. intros B k.
  pose proof (pfor_zero 0 (Z.to_nat FSSIZE) (mkMk [] 1 nmeta) eq_refl ltac:(lia)) as R0. erewrite pbind_Some by exact R0.
  erewrite pbind_Some; [reflexivity|]. unfold wsect. rewrite sector_small by mk_lia.
  assert ((Z.to_nat 1 <? length img)%nat = true) as E by (unfold img; by rewrite length_replicate).
  change (0 + Z.to_nat FSSIZE)%nat with (Z.to_nat FSSIZE). fold img.
  transitivity (Some (tt, mkMk (if (Z.to_nat 1 <? length img)%nat then <[Z.to_nat 1 := sb_bytes]> img
    else img ++ replicate (Z.to_nat 1 - length img) zero_block ++ [sb_bytes]) 1 nmeta)); [reflexivity|]. rewrite E. reflexivity.
Qed.

Lemma main_files files :
  fits files ->
  exists s' V', image s' V' ((T_DIR, root_bytes files) :: (data_of <$> files)) /\
    main files (mkMk [] 1 0) = pbind (fix_root ROOTINO) (fun _ s => balloc (freeblock s) s) s'.
Proof.
  intros [F1 F2 F3 F4]. pose proof (total_pos (data_of <$> files)) as Htot. destruct main_blank as (s & H & R).
  unfold main. erewrite pbind_Some by reflexivity. change (upd freeblock _ _) with (mkMk [] 1 nmeta). rewrite R. clear R.
  destruct (image_alloc s _ _ T_DIR H) as (s1 & V1 & R1 & H1); [by left|done|]. erewrite pbind_Some by exact R1. cbn [app] in H1.
  change (inum_of (length (@nil file_data))) with ROOTINO. cbn [assert Z.eqb]. erewrite pbind_Some by reflexivity.
  destruct (image_append s1 V1 _ 0 T_DIR [] (dirent ROOTINO [dot]) H1) as (s2 & V2 & R2 & H2); [done|done|done|].
  change (inum_of 0) with ROOTINO in R2. erewrite pbind_Some by exact R2.
  destruct (image_append s2 V2 _ 0 T_DIR (dirent ROOTINO [dot]) (dirent ROOTINO [dot; dot]) H2) as (s3 & V3 & R3 & H3); [done|done|done|].
  change (inum_of 0) with ROOTINO in R3. erewrite pbind_Some by exact R3.
  set (d := dirent ROOTINO [dot] ++ dirent ROOTINO [dot; dot]) in *.
  assert (Z.of_nat (length d) + 16 * Z.of_nat (length files) = 16 * (2 + Z.of_nat (length files))) as El by (change (Z.of_nat (length d)) with 32; lia).
  destruct (files_image files s3 V3 d [] H3 F1 F2) as (s4 & V4 & R4 & H4); rewrite ?El; try done.
  { unfold inum_of in F3. change NINODES with 200 in F3. change (MAXFILE * BSIZE) with 71680. lia. }
  exists s4, V4. split; [done|]. by erewrite pbind_Some by exact R4.
Qed.

Lemma fix_root_image s V d fs :
  let off := Z.of_nat (length d) in
  let z := (off / BSIZE + 1) * BSIZE in
  image s V ((T_DIR, d) :: fs) -> z <= MAXFILE * BSIZE ->
  exists s' V', fix_root ROOTINO s = Some (tt, s') /\ holds s' V' /\ freeblock s' = freeblock s /\
    V' 1 = sb_bytes /\ (forall k, 2 <= k < 32 -> V' k = zero_block) /\
    mk_file V' (disk_inode V' ROOTINO) /\ (i_type (disk_inode V' ROOTINO) = T_DIR /\ i_nlink (disk_inode V' ROOTINO) = 1) /\ i_size (disk_inode V' ROOTINO) = z /\
    exact V' (disk_inode V' ROOTINO) off /\
    (forall j, inr (j / BSIZE) -> content V' (disk_inode V' ROOTINO) j = u8 (nthz 0 d j)) /\
    (forall i ty bs, fs !! i = Some (ty, bs) -> is_file V' (inum_of (S i)) ty bs) /\
    (forall i j, i <> j -> (i <= length fs)%nat -> (j <= length fs)%nat ->
       apart V' (disk_inode V' (inum_of i)) (disk_inode V' (inum_of j))).
Proof.
  intros off z [H [Hi1 Hi2] Hn Hf Ha Hs Hlog] Hmax. destruct (Hf 0%nat T_DIR d eq_refl) as [Hg Hty Hnl Hsz He Hc].
  assert (inum_of 0 = ROOTINO) as E0 by reflexivity. assert (0 <= ROOTINO < NINODES) as Hroot by done.
  assert (forall j, j <> 0%nat -> inum_of j <> ROOTINO) as Hne0 by (unfold inum_of; change ROOTINO with 1; lia).
  remember ROOTINO as ROOTINO eqn:Ert. clear Ert. rewrite E0 in *. pose proof (disk_mk_inode V ROOTINO) as Hmk.
  remember (disk_inode V ROOTINO) as ip eqn:Eip. pose proof Hg as [Gm Gf Gt Gs Gn Gfl Gy].
  assert (0 <= z) as Hz by (apply Z.mul_nonneg_nonneg; [|done]; pose proof (Z.div_pos off BSIZE); unfold off in *; change BSIZE with 512 in *; lia).
  set (V' := stored mk_sb V ROOTINO (ip <| i_size := z |>)).
  destruct (size_holds s V ROOTINO ip z _ V' eq_refl eq_refl H Gf Gs) as (s' & R & H' & E1 & E2 & Ed & Es & Hf' & S & L & Hfa & Hc'); [done|done|done|].
  assert (i_inum ip = ROOTINO) as En by apply Hmk.
  clearbody V'.
  assert (forall j, (j <= length fs)%nat -> 0 <= inum_of j < NINODES) as Hr by (cbn in Hi2; unfold inum_of in *; lia).
  assert (forall j, (j <= length fs)%nat -> mk_file V (disk_inode V (inum_of j))) as Hok.
  { intros j Hj. destruct (lookup_lt_is_Some_2 ((T_DIR, d) :: fs) j) as [[ty' bs'] Ej]; [cbn; lia|]. eapply gd_file, if_good, Hf, Ej. }
  assert (forall j, j <> 0%nat -> inum_of j <> i_inum ip) as Hne by (rewrite En; done).
  assert (forall j, j <> 0%nat -> (j <= length fs)%nat -> disk_inode V' (inum_of j) = disk_inode V (inum_of j)) as Ho.
  { intros j H0 Hj. eapply other_inode; [exact S|by apply Hr|by apply Hne]. }
  assert (forall j, j <> 0%nat -> (j <= length fs)%nat -> apart V ip (disk_inode V (inum_of j))) as Ha0.
  { intros j H0 Hj. subst ip. rewrite <-E0. apply (Ha 0%nat j); cbn; lia. }
  destruct (super_kept _ _ _ _ S L Hs Hlog) as [Hs' Hl'].
  exists s', V'. rewrite Ed.
  split_and!; [|exact H'|exact E1|exact Hs'|exact Hl'|exact Hf'|exact Hty|exact Hnl|reflexivity| | | |].
  - unfold fix_root. erewrite pbind_Some by (by apply (rinode_holds s V)). cbv zeta.
    rewrite <-(file_of_size ROOTINO). fold (disk_inode V ROOTINO). rewrite <-Eip, Hsz. fold off.
    change MAXFILE with 140 in *. change BSIZE with 512 in *. fold z.
    rewrite (xint_small off) by (unfold off, z in *; Z.to_euclidean_division_equations; cint). fold z.
    rewrite u32_small by cint. rewrite xint_small by cint. rewrite <-R, Eip. unfold disk_inode. by rewrite winode_file_of.
  - by eapply exact_ext; [| |exact He].
  - intros j Hj. by rewrite Hc', Hc.
  - intros i ty bs Ei. pose proof (lookup_lt_Some _ _ _ Ei). eapply other_file; [exact S|by eapply holds_marked|by apply Hf|apply Ha0; lia|by apply Hne].
  - intros i j Hij Hi Hj. destruct (decide (i = 0%nat)) as [->|H0], (decide (j = 0%nat)) as [->|H0']; [done|..].
    + rewrite E0, Ed, Ho by done. eapply (spares_apart (nblk := FSSIZE) 2 30 mk_sb); [exact S|by apply Hok|by apply Ha0].
    + rewrite E0, Ed, Ho by done. eapply apart_sym, (spares_apart (nblk := FSSIZE) 2 30 mk_sb); [exact S|by apply Hok|by apply Ha0].
    + rewrite !Ho by done. eapply other_apart; [exact S|by apply Hok|by apply Hok|by apply Ha0|by apply Ha0|]. apply Ha; cbn; lia.
Qed.

(** The bitmap completes the image. *)
Definition holds_all (img : list (list Z)) (V : Z -> list Z) : Prop :=
  length img = Z.to_nat FSSIZE /\ forall k, 0 <= k < FSSIZE -> img !! Z.to_nat k = Some (V k).

Lemma balloc_holds s V :
  holds s V -> exists s', balloc (freeblock s) s = Some (tt, s') /\ holds_all (mk_img s') V.
Proof.
  intros [H1 H2 H3 H4 H5 H6]. unfold balloc. change (sb_bmapstart mk_sb) with 58.
  assert ((freeblock s <? BSIZE * 8) = true) as -> by (apply Z.ltb_lt; change (BSIZE * 8) with 4096; mk_lia).
  cbn [assert]. erewrite pbind_Some by reflexivity. fold (bitmap (freeblock s)). rewrite <-H3.
  exists (s <| mk_img := <[Z.to_nat 58 := V 58]> (mk_img s) |>). split.
  - unfold wsect. rewrite sector_small by mk_lia. assert ((Z.to_nat 58 <? length (mk_img s))%nat = true) as E by (apply Nat.ltb_lt; mk_lia).
    do 2 f_equal. destruct s; unfold upd; cbn -[Nat.ltb] in *. by rewrite E.
  - change (mk_img (s <| mk_img := ?l |>)) with l. split; [by rewrite length_insert|]. intros k Hk. destruct (decide (k = 58)) as [->|Hne].
    + rewrite list_lookup_insert_eq by mk_lia. done.
    + rewrite list_lookup_insert_ne by lia. by apply H2.
Qed.

Lemma root_max n : 16 * (2 + n) <= 3200 -> (16 * (2 + n) / BSIZE + 1) * BSIZE <= MAXFILE * BSIZE.
Proof. change MAXFILE with 140. change BSIZE with 512. intros H. Z.to_euclidean_division_equations; lia. Qed.

Lemma sb_bytes_ok : sb_of sb_bytes = mk_sb /\ sb_places 2 30 sb_bytes.
Proof. split_and!; vm_compute; done. Qed.
Lemma zero_head : head_of zero_block [].
Proof. split; [vm_compute; done|]. intros t h E. done. Qed.

Lemma mkfs_built files :
  fits files -> exists s V, mkfs files = Some s /\ holds_all (mk_img s) V /\ built V files.
Proof.
  intros Hfits. pose proof Hfits as [F1 F2 F3 F4]. destruct (main_files files Hfits) as (s1 & V1 & H1 & R1).
  pose proof (root_length files) as El. pose proof (im_next _ _ _ H1) as En. cbn [total] in En.
  change (file_len (T_DIR, root_bytes files)) with (Z.of_nat (length (root_bytes files))) in En.
  assert (16 * (2 + Z.of_nat (length files)) <= 3200) as Hle by (unfold inum_of in F3; change NINODES with 200 in F3; lia).
  destruct (fix_root_image s1 V1 (root_bytes files) (data_of <$> files) H1)
    as (s2 & V2 & R2 & H2 & E2 & Hs & Hl & G1 & G2 & G3 & G4 & G5 & G6 & G7).
  { rewrite El. by apply root_max. }
  destruct (balloc_holds s2 V2 H2) as (s3 & R3 & H3). rewrite El in En, G3, G4. rewrite length_fmap in G7.
  exists s3, V2. split_and!; [|done|].
  - unfold mkfs. rewrite R1. erewrite pbind_Some by exact R2. by rewrite R3.
  - split.
    + exact (hd_size _ _ H2).
    + rewrite Hs. apply sb_bytes_ok.
    + rewrite Hl by lia. apply zero_head.
    + intros b Hb. rewrite (holds_bit s2 V2 b H2 Hb), E2, En. reflexivity.
    + intros i name bs Ei. apply G6. by rewrite list_lookup_fmap, Ei.
    + exact G7.
    + exact G2.
    + exact G3.
    + exact G1.
    + exact G4.
    + exact G5.
Qed.
