(* ===== verification/BootProofs.v ===== *)
(** * From mkfs to the kernel

    The disk image of mkfs, booted by the kernel: the log is empty, and namei, ilock and readi
    find every file of the command line of mkfs under its name, with its contents. *)

From stdpp Require Import base list gmap strings fin_maps.
From S2P Require Import Prelude State Monad Spinlock Console Kalloc Str Vm VmProofs VmUser Umem Sched Sleeplock Calm.
From S2P Require Import Disk Bio BioProofs Log LogLayout LogProofs Inode BlockProofs InodeProofs ConsoleDev Fs FileProofs.
From S2P Require Import Pipe File WriteProofs DirProofs Mkfs MkfsProofs.
Open Scope Z_scope.

(** ** Names *)

Notation nonzero := (Forall (fun c : Z => c <> 0)).

Lemma nthz_first (c : Z) l : nthz 0 (c :: l) 0 = c.
Proof. done. Qed.
Lemma strncmp_take n p q : strncmp_list n (take n p) q = strncmp_list n p q.
Proof.
  revert p q. induction n as [|n IH]; intros p q; [done|]. destruct p as [|a p]; [done|]. cbn [strncmp_list take tail].
  change (nthz 0 (a :: take n p) 0) with a. change (nthz 0 (a :: p) 0) with a. by rewrite IH.
Qed.
(** A name, ended by a zero, against a name as strncpy stores it. *)
Lemma strncmp_strncpy n s junk s' :
  nonzero s -> nonzero s' -> strncmp_list n (s ++ 0 :: junk) (strncpy_list n s') = 0 <-> take n s = take n s'.
Proof.
  intros Hs. revert n s'. induction Hs as [|a s Ha Hs IH]; intros [|n] s' Hs'; [done| |done|].
  - cbn [app strncmp_list strncpy_list take]. change (nthz 0 (0 :: junk) 0) with 0. cbn [Z.eqb negb andb].
    destruct Hs' as [|b s' Hb _]; [done|]. rewrite !nthz_first. split; [lia|done].
  - cbn [app strncmp_list strncpy_list take tail]. rewrite !nthz_first.
    destruct (Z.eqb_spec a 0); [done|]. cbn [negb andb]. destruct Hs' as [|b s' Hb Hs'].
    + change (nthz 0 [] 0) with 0. rewrite ?nthz_first. destruct (Z.eqb_spec a 0); [done|]. split; [lia|done].
    + rewrite !nthz_first. cbn [tail]. destruct (Z.eqb_spec b 0); [done|]. destruct (Z.eqb_spec a b) as [->|Hne].
      * rewrite IH by done. split; [by intros ->|by intros [= ?]].
      * split; [lia|]. intros [= ? _]. done.
Qed.
Lemma namecmp_elem s name q : namecmp (elem_in s name) q = namecmp (s ++ 0 :: drop (S (length s)) name) q.
Proof.
  unfold namecmp, elem_in. destruct (Z.leb_spec DIRSIZ (Z.of_nat (length s))) as [Hle|Hlt]; [|done].
  rewrite <-(strncmp_take _ (s ++ _)). rewrite take_app_le by lia. done.
Qed.
Lemma namecmp_entry s name s' :
  nonzero s -> nonzero s' ->
  (namecmp (elem_in s name) (strncpy_list (Z.to_nat DIRSIZ) s') =? 0) = bool_decide (take (Z.to_nat DIRSIZ) s = take (Z.to_nat DIRSIZ) s').
Proof.
  intros H1 H2. rewrite namecmp_elem. unfold namecmp. apply eq_true_iff_eq. rewrite Z.eqb_eq, bool_decide_eq_true. by apply strncmp_strncpy.
Qed.

(** ** The entries of the root directory *)

Definition root_entries (files : list (list Z * list Z)) : list (Z * list Z) :=
  (ROOTINO, [dot]) :: (ROOTINO, [dot; dot]) :: imap (fun i f => (inum_of (S i), strip f.1)) files.
Lemma root_entries_lookup files k : root_entries files !! S (S k) = (fun f => (inum_of (S k), strip f.1)) <$> files !! k.
Proof. unfold root_entries. apply (list_lookup_imap (fun i f => (inum_of (S i), strip f.1)) files k). Qed.
Definition dirent_of (e : Z * list Z) : list Z := dirent e.1 e.2.

Lemma links_concat d i files :
  links d i files = d ++ concat (imap (fun j f => dirent (inum_of (i + j)) (strip f.1)) files).
Proof.
  revert d i. induction files as [|f files IH]; intros d i; cbn [links imap concat]; [by rewrite app_nil_r|].
  rewrite IH. unfold linked. rewrite <-app_assoc. rewrite Nat.add_0_r. do 3 f_equal.
  apply imap_ext. intros j g _. change ((?F ∘ S) j g) with (F (S j) g). cbv beta. by rewrite Nat.add_succ_comm.
Qed.
Lemma root_bytes_concat files : root_bytes files = concat (dirent_of <$> root_entries files).
Proof.
  unfold root_bytes. rewrite links_concat. unfold root_entries. cbn [fmap list_fmap concat]. rewrite <-app_assoc. do 3 f_equal.
  rewrite fmap_imap. apply imap_ext. intros j f _. done.
Qed.
Lemma slice_concat (l : list (list Z)) n k d :
  Forall (fun e => length e = n) l -> l !! k = Some d -> take n (drop (n * k) (concat l)) = d.
Proof.
  revert k. induction l as [|e l IH]; intros k Hl; [done|]. apply Forall_cons in Hl as [He Hl]. destruct k as [|k]; intros Hk.
  - injection Hk as <-. rewrite Nat.mul_0_r. cbn [concat]. rewrite drop_0, <-He. apply take_app_length.
  - cbn in Hk. rewrite <-(IH k Hl Hk). cbn [concat]. f_equal. rewrite drop_app_ge by lia. f_equal. lia.
Qed.

Lemma nthz_slice (l : list Z) o n :
  (o + n <= length l)%nat -> (nthz 0 l <$> seqZ (Z.of_nat o) (Z.of_nat n)) = take n (drop o l).
Proof.
  intros Hle. apply list_eq. intros t. rewrite list_lookup_fmap. destruct (decide (t < n)%nat) as [Ht|Ht].
  - rewrite lookup_seqZ_lt by lia. cbn. rewrite lookup_take_lt, lookup_drop by done. unfold nthz.
    destruct (Z.ltb_spec (Z.of_nat o + Z.of_nat t) 0); [lia|]. replace (Z.to_nat (Z.of_nat o + Z.of_nat t)) with (o + t)%nat by lia.
    destruct (lookup_lt_is_Some_2 l (o + t)) as [b ->]; [lia|done].
  - rewrite lookup_seqZ_ge, lookup_take_ge by lia. done.
Qed.

Lemma nthz_all (l : list Z) : l = nthz 0 l <$> seqZ 0 (Z.of_nat (length l)).
Proof. symmetry. etransitivity; [apply (nthz_slice l 0); lia|]. by rewrite drop_0, take_ge. Qed.

Lemma dirent_nat n s : length (dirent n s) = 16%nat.
Proof. pose proof (dirent_length n s). lia. Qed.
Lemma root_entry_bytes files k e : root_entries files !! k = Some e -> (16 * k + 16 <= length (root_bytes files))%nat /\
  take 16 (drop (16 * k) (root_bytes files)) = dirent_of e.
Proof.
  intros Hk. split.
  - apply lookup_lt_Some in Hk. unfold root_entries in Hk. cbn in Hk. rewrite length_imap in Hk.
    pose proof (root_length files). lia.
  - rewrite root_bytes_concat. apply slice_concat; [|by rewrite list_lookup_fmap, Hk].
    apply Forall_fmap, Forall_true. intros [n s]. apply dirent_nat.
Qed.

(** The names mkfs is given: not empty, not reserved, and different in their first DIRSIZ bytes. *)
Definition short (s : list Z) : list Z := take (Z.to_nat DIRSIZ) s.
Record named (files : list (list Z * list Z)) : Prop := {
  nm_bytes : Forall (fun f => Forall (fun c => 0 < c < 256) (strip f.1) /\ strip f.1 <> []) files;
  nm_dots : Forall (fun f => strip f.1 <> [dot] /\ strip f.1 <> [dot; dot]) files;
  nm_differ : forall i j f g, files !! i = Some f -> files !! j = Some g -> short (strip f.1) = short (strip g.1) -> i = j
}.

Lemma u8_bytes s : Forall (fun c => 0 < c < 256) s -> u8 <$> s = s.
Proof. induction 1 as [|c s Hc _ IH]; [done|]. cbn. rewrite IH, u8_small by cint. done. Qed.
Lemma strncpy_u8 n s : Forall (fun c => 0 < c < 256) s -> u8 <$> strncpy_list n s = strncpy_list n s.
Proof.
  intros Hs. revert n. induction Hs as [|c s Hc Hs IH]; intros n.
  - induction n as [|n IH]; [done|]. cbn. f_equal. exact IH.
  - destruct n as [|n]; [done|]. cbn [strncpy_list fmap list_fmap]. rewrite nthz_first.
    destruct (Z.eqb_spec c 0); [lia|]. cbn [tail]. rewrite IH, u8_small by cint. done.
Qed.
Lemma strncpy_length n s : length (strncpy_list n s) = n.
Proof. revert s. induction n as [|n IH]; intros s; cbn; [done|]. by rewrite IH. Qed.

Lemma dirent_fields n s :
  0 <= n < 2 ^ 16 -> Forall (fun c => 0 < c < 256) s ->
  de_inum (u8 <$> dirent n s) = n /\ de_name (u8 <$> dirent n s) = strncpy_list (Z.to_nat DIRSIZ) s.
Proof.
  intros Hn Hs. unfold dirent, mk_dirent. rewrite fmap_app, strncpy_u8 by done. split.
  - assert (xshort n = n) as ->.
    { unfold xshort, bytes16, rd16, rd8. change (nthz 0 [u8 n; u8 (Z.shiftr n 8)] 0) with (u8 n).
      change (nthz 0 [u8 n; u8 (Z.shiftr n 8)] (0 + 1)) with (u8 (Z.shiftr n 8)).
      rewrite (lor_high _ _ 8) by (try apply u8_range; lia). rewrite Z.shiftr_div_pow2 by lia. unfold u8.
      change (2 ^ 8) with 256 in *. change (2 ^ 16) with 65536 in *. Z.to_euclidean_division_equations. lia. }
    unfold de_inum, rd16, rd8, bytes16. cbn [fmap list_fmap app]. rewrite nthz_first.
    change (nthz 0 (u8 (u8 n) :: ?b :: ?l) (0 + 1)) with b. rewrite !u8_idem.
    rewrite (lor_high _ _ 8) by (try apply u8_range; lia). rewrite Z.shiftr_div_pow2 by lia. unfold u8.
    change (2 ^ 8) with 256 in *. change (2 ^ 16) with 65536 in *. Z.to_euclidean_division_equations. lia.
  - unfold de_name, bytes16. cbn [fmap list_fmap app drop]. apply take_ge. rewrite strncpy_length. done.
Qed.

Definition name_ok (s : list Z) : Prop := Forall (fun c => 0 < c < 256) s.
Lemma name_nonzero s : name_ok s -> nonzero s.
Proof. intros H. eapply Forall_impl; [exact H|]. cbn. lia. Qed.
Lemma hit_dirent n s name s' :
  0 < n < 2 ^ 16 -> name_ok s -> name_ok s' ->
  hit (elem_in s name) (u8 <$> dirent n s') = bool_decide (short s = short s').
Proof.
  intros Hn Hs Hs'. unfold hit. destruct (dirent_fields n s' ltac:(lia) Hs') as [-> ->].
  destruct (Z.eqb_spec n 0); [lia|]. cbn [negb andb]. by apply namecmp_entry; apply name_nonzero.
Qed.

Lemma root_read V d files k e :
  (forall j, inr (j / BSIZE) -> content V d j = u8 (nthz 0 (root_bytes files) j)) ->
  Z.of_nat (length (root_bytes files)) <= MAXFILE * BSIZE -> root_entries files !! k = Some e ->
  entry V d (Z.of_nat k) = u8 <$> dirent_of e.
Proof.
  intros Hc Hmax Hk. destruct (root_entry_bytes files k e Hk) as [Hle <-]. unfold entry, file_bytes, dirent_size.
  change 16 with (Z.of_nat 16). rewrite <-Nat2Z.inj_mul, <-nthz_slice, <-list_fmap_compose by lia.
  apply list_fmap_ext. intros t j Hj. apply list_elem_of_lookup_2, elem_of_seqZ in Hj. apply Hc.
  unfold inr. change MAXFILE with 140 in *. change BSIZE with 512 in *. Z.to_euclidean_division_equations; lia.
Qed.

(** The entry of a file is the first one with its name. *)
Lemma root_find files i f name :
  named files -> inum_of (S (length files)) <= NINODES -> files !! i = Some f ->
  let find e := hit (elem_in (strip f.1) name) (u8 <$> dirent_of e) in
  exists e, root_entries files !! (2 + i)%nat = Some e /\ find e = true /\ de_inum (u8 <$> dirent_of e) = inum_of (S i) /\
    forall k e, (k < 2 + i)%nat -> root_entries files !! k = Some e -> find e = false.
Proof.
  intros [N1 N2 N3] Hino Hf find. pose proof (lookup_lt_Some _ _ _ Hf) as Hlt.
  destruct (Forall_lookup_1 _ _ _ _ N1 Hf) as [Hb _]. destruct (Forall_lookup_1 _ _ _ _ N2 Hf) as [Hd1 Hd2].
  assert (forall j, (j < length files)%nat -> 0 < inum_of (S j) < 2 ^ 16) as Hr.
  { intros j Hj. unfold inum_of in *. change NINODES with 200 in Hino. lia. }
  exists (inum_of (S i), strip f.1). split_and!.
  - change (2 + i)%nat with (S (S i)). by rewrite root_entries_lookup, Hf.
  - unfold find, dirent_of. cbn [fst snd]. rewrite hit_dirent by (done || by apply Hr). by apply bool_decide_true.
  - unfold dirent_of. cbn [fst snd]. apply dirent_fields; [|done]. specialize (Hr i Hlt). lia.
  - intros k e Hk He. unfold find. destruct k as [|[|k]].
    + injection He as <-. unfold dirent_of. cbn [fst snd]. rewrite hit_dirent; [|done|done|by repeat constructor].
      apply bool_decide_false. intros E. apply Hd1. destruct (strip f.1) as [|a [|b s]]; done.
    + injection He as <-. unfold dirent_of. cbn [fst snd]. rewrite hit_dirent; [|done|done|by repeat constructor].
      apply bool_decide_false. intros E. apply Hd2. destruct (strip f.1) as [|a [|b [|c s]]]; done.
    + rewrite root_entries_lookup in He. destruct (files !! k) as [g|] eqn:Hg; [|done]. cbn in He. injection He as <-.
      unfold dirent_of. cbn [fst snd]. destruct (Forall_lookup_1 _ _ _ _ N1 Hg) as [Hbg _].
      rewrite hit_dirent; [|apply Hr; by eapply lookup_lt_Some|done|done]. apply bool_decide_false. intros E.
      pose proof (N3 i k f g Hf Hg E). lia.
Qed.

(** ** Boot *)

Section boot.
Context {dv : BlockDriver} {up : diskst -> Prop} {Hdrv : DriverOk dv FSSIZE up}.
Context (p : nat) (pr : proc) (s0 : kstate) (Hcalm : calm p pr s0).
Notation run := (mrun s0).
Notation cached := (cache (p_pid pr) FSSIZE up).
Notation mk_agree := (agree (nblk := FSSIZE) 2 30).

(** binit and initlog on a disk that mkfs made. *)
Lemma boot_run y V :
  (forall k, 0 <= k < FSSIZE -> read_disk (fd y) 1 k = V k) -> (forall k, 0 <= k < FSSIZE -> length (V k) = Z.to_nat BSIZE) ->
  sb_places 2 30 (V 1) -> head_of (V 2) [] -> sb (ff y) = mk_sb -> blank (bufs (ff y)) -> log_boot y -> no_inodes y -> up (fd y) ->
  exists y' V', run (binit ;; initlog 1) y tt y' /\ cached y' V' ∅ ∅ ∅ /\ mk_agree V V' /\ sb (ff y') = mk_sb /\ no_inodes y'.
Proof.
  intros Hv Hsz Hp Hh Hsb Hb Hlb [N1 N2 N3] Hup.
  destruct (binit_run p pr s0 Hcalm y Hb Hup) as (y1 & R1 & C1 & F1 & E1).
  { intros k Hk. rewrite Hv by done. by apply Hsz. }
  destruct (initlog_run p pr s0 Hcalm 2 30 y1 (read_disk (fd y) 1) [] mk_geometry) as (y2 & R2 & C2 & L2 & [F2 _ _] & E2); try done.
  { split_and!; [apply NoDup_nil_2|set_solver|done]. }
  { unfold log_boot. by rewrite (bf_ff _ _ F1). }
  { by rewrite Hv. }
  { by rewrite Hv. }
  pose proof (lf_ff _ _ F2) as E2f. rewrite (bf_ff _ _ F1) in E2f.
  eexists y2, _. split_and!; [eapply mrun_bind; [exact R1|exact R2]|exact C2| | |].
  - intros k [Hk Hl]. cbn. rewrite vset_ne by lia. by apply Hv.
  - by rewrite E2f.
  - split; [by rewrite E2f|by rewrite E2f|]. intros j. rewrite (lf_fl _ _ F2) by done. by rewrite (bf_fl _ _ F1).
Qed.

(** Two copies of an inode in memory. *)
Definition same_file (ip jp : inode) : Prop := i_dev jp = i_dev ip /\ i_addrs jp = i_addrs ip.
Lemma same_faddr V ip jp n : same_file ip jp -> faddr V jp n = faddr V ip n.
Proof. intros [_ E]. unfold faddr, ind. by rewrite E. Qed.
Lemma same_content V ip jp j : same_file ip jp -> content V jp j = content V ip j.
Proof. intros H. unfold content. by rewrite (same_faddr V ip jp). Qed.
Lemma same_file_ok V ip jp : same_file ip jp -> mk_file V ip -> mk_file V jp.
Proof.
  intros H [F1 F2 F3 F4 F5 F6]. pose proof H as [E1 E2]. assert (ind jp = ind ip) as Ei by (unfold ind; by rewrite E2).
  split; [congruence|congruence| |by rewrite Ei| |]; intros n; rewrite ?(same_faddr V ip jp n) by done.
  - by apply F3.
  - rewrite Ei. by apply F5.
  - intros m. rewrite (same_faddr V ip jp m) by done. by apply F6.
Qed.

Lemma boot_lookup x V V' files i nm bs name :
  built V files -> fits files -> named files -> files !! i = Some (nm, bs) -> mk_agree V V' ->
  cached x V' ∅ ∅ ∅ -> sb (ff x) = mk_sb -> no_inodes x ->
  exists x' ip, run (namei name (slash :: strip nm)) x (Some 1%nat) x' /\ cached x' V' ∅ ∅ ∅ /\ sb (ff x') = mk_sb /\
    icache (ff x') !! 1%nat = Some (fresh_entry 1 (inum_of (S i)) ip) /\ fl x' !! SL_inode 1 = None.
Proof.
  intros [B1 B2 B3 B4 B5 B6 [B7 B7'] B8 B9 B10 B11] [F1 F2 F3 F4] Hn Hf Ha Hc Hsb Hni.
  destruct (root_find files i (nm, bs) name Hn F3 Hf) as (e & He & Hhit & Hin & Hbefore). cbn [fst] in *.
  pose proof (root_length files) as Hlen. pose proof (lookup_lt_Some _ _ _ Hf) as Hlt.
  assert (16 * (2 + Z.of_nat (length files)) <= 3200) as Hle by (unfold inum_of in F3; change NINODES with 200 in F3; lia).
  assert (forall ip, same_file (disk_inode V ROOTINO) (root_entry mk_sb V' ip)) as Hsame.
  { intros ip. unfold root_entry. by rewrite (agree_dinode (nblk := FSSIZE) 2 30 mk_geometry mk_sb mk_geom V V'). }
  assert (forall ip k e, root_entries files !! k = Some e -> entry V' (root_entry mk_sb V' ip) (Z.of_nat k) = u8 <$> dirent_of e) as Hent.
  { intros ip k e' Hk. eapply root_read; [|rewrite Hlen; change (MAXFILE * BSIZE) with 71680; lia|exact Hk]. intros j Hj.
    rewrite (same_content _ _ _ _ (Hsame ip)), (agree_content (nblk := FSSIZE) 2 30 mk_sb V V') by done. by apply B11. }
  destruct Hn as [N1 N2 N3]. destruct (Forall_lookup_1 _ _ _ _ N1 Hf) as [_ Hne]. cbn [fst] in Hne.
  destruct (namei_root_run p pr s0 Hcalm 2 30 mk_geometry mk_sb mk_geom x V' (strip nm) name (2 + Z.of_nat i) Hc Hsb Hni)
    as (x' & ip & R & C & Es & _ & Hi & Hl); [done|done| | |].
  { apply (Forall_lookup_1 _ _ _ _ F1) in Hf. cbn [fst] in Hf. unfold no_slash in Hf.
    assert (Forall (fun c => c <> slash) nm) as Hnm.
    { apply Forall_forall. intros c Hc'. rewrite forallb_forall in Hf. specialize (Hf c).
      rewrite <-list_elem_of_In in Hf. specialize (Hf Hc'). by destruct (Z.eqb_spec c slash). }
    destruct nm as [|c nm]; [done|]. cbn [strip]. apply Forall_cons in Hnm as [? ?].
    destruct (c =? underscore); [done|]. by apply Forall_cons. }
  { intros ip. replace (2 + Z.of_nat i) with (Z.of_nat (2 + i)) by lia.
    rewrite (Hent ip _ _ He), Hin, Hhit. split_and!.
    - unfold root_entry. by rewrite (agree_dinode (nblk := FSSIZE) 2 30 mk_geometry mk_sb mk_geom V V').
    - unfold root_entry. rewrite (agree_dinode (nblk := FSSIZE) 2 30 mk_geometry mk_sb mk_geom V V') by done.
      change (i_nlink (disk_inode V ROOTINO) <> 0). by rewrite B7'.
    - apply (same_file_ok V' (disk_inode V ROOTINO)); [apply Hsame|]. by apply (agree_file (nblk := FSSIZE) 2 30 mk_geometry mk_sb mk_geom V).
    - unfold readable, dirent_size. split_and!; [lia| |].
      + apply exact_filled in B10. destruct B10 as [_ B10]. split; [change (MAXFILE * BSIZE) with 71680; lia|]. intros j Hj.
        rewrite (same_faddr _ _ _ _ (Hsame ip)), (agree_faddr (nblk := FSSIZE) 2 30 mk_sb V V') by done. apply B10. lia.
      + unfold root_entry. rewrite (agree_dinode (nblk := FSSIZE) 2 30 mk_geometry mk_sb mk_geom V V') by done.
        change (16 * Z.of_nat (2 + i) + 16 <= i_size (disk_inode V ROOTINO)). rewrite B8. change BSIZE with 512.
        Z.to_euclidean_division_equations; lia.
    - intros j Hj. replace j with (Z.of_nat (Z.to_nat j)) by lia.
      destruct (lookup_lt_is_Some_2 (root_entries files) (Z.to_nat j)) as [e' He'].
      { apply lookup_lt_Some in He. lia. }
      rewrite (Hent ip _ _ He'). eapply Hbefore; [|exact He']. lia.
    - done.
    - unfold inum_of. change ROOTINO with 1. lia. }
  exists x', ip. split_and!; try done. replace (2 + Z.of_nat i) with (Z.of_nat (2 + i)) in Hi by lia. by rewrite (Hent ip _ _ He), Hin in Hi.
Qed.

(** ilock and readi of the inode of a file. *)
Lemma boot_contents x V V' n i ip bs :
  is_file V n T_FILE bs -> Forall is_u8 bs -> mk_agree V V' -> cached x V' ∅ ∅ ∅ -> sb (ff x) = mk_sb ->
  icache (ff x) !! i = Some (fresh_entry 1 n ip) -> fl x !! SL_inode i = None ->
  let len := Z.of_nat (length bs) in
  exists x1 x2, run (ilock i) x tt x1 /\ run (readi i no_sink 0 len) x1 (len, bs) x2 /\ cached x2 V' ∅ ∅ ∅.
Proof.
  intros [Hg Hty Hnl Hsz He Hc] Hu8 Ha Hca Hsb Hi Hl len. pose proof Hg as [_ Gf _ _ Gn _ _]. change (0 <= n < NINODES) in Gn.
  assert (dinode mk_sb V' n (fresh_entry 1 n ip) = dinode mk_sb V n (fresh_entry 1 n ip)) as Ed.
  { by rewrite (agree_dinode (nblk := FSSIZE) 2 30 mk_geometry mk_sb mk_geom V V'). }
  set (d := (dinode mk_sb V' n (fresh_entry 1 n ip)) <| i_valid := 1 |>).
  assert (same_file (disk_inode V n) d) as Hsame by (unfold d; by rewrite Ed).
  assert (i_type d = T_FILE) as Ht by (unfold d; rewrite Ed; exact Hty).
  assert (i_size d = len) as Hsd by (unfold d; rewrite Ed; exact Hsz).
  destruct (ilock_run p pr s0 Hcalm 2 30 mk_geometry mk_sb mk_geom x V' ∅ ∅ i _ Hca Hsb Hi) as (x1 & R1 & C1 & _ & _ & Hi1 & _);
    [done|done|done| |done|done|done| |].
  { rewrite size_empty, map_size_empty. change bhead with 30%nat. lia. }
  { change (i_type d <> 0). by rewrite Ht. }
  change (i_inum (fresh_entry 1 n ip)) with n in Hi1. fold d in Hi1.
  destruct (readi_part_run p pr s0 Hcalm 2 30 mk_geometry mk_sb mk_geom no_sink x1 V' i d 0 len) as (x2 & R2 & C2 & _); try done.
  - intros y tot b. apply mrun_ret.
  - by rewrite Ht.
  - apply (same_file_ok V' (disk_inode V n)); [done|]. by apply (agree_file (nblk := FSSIZE) 2 30 mk_geometry mk_sb mk_geom V).
  - pose proof (exact_filled _ _ _ He) as [Hm Hfl]. rewrite Z.add_0_l. split; [done|]. intros j Hj.
    rewrite (same_faddr _ _ _ _ Hsame), (agree_faddr (nblk := FSSIZE) 2 30 mk_sb V V') by done. by apply Hfl.
  - lia.
  - lia.
  - exists x1, x2. split_and!; [done| |done]. replace (file_bytes V' d 0 len) with bs in R2; [done|].
    unfold file_bytes. transitivity (u8 <$> bs).
    { symmetry. rewrite <-(list_fmap_id bs) at 2. apply list_fmap_ext. intros t b Hb. apply u8_small. by eapply (Forall_lookup_1 is_u8). }
    rewrite (nthz_all bs) at 1. rewrite <-list_fmap_compose. apply list_fmap_ext. intros t j Hj.
    apply list_elem_of_lookup_2, elem_of_seqZ in Hj. cbn. pose proof (ex_max _ _ _ He).
    assert (inr (j / BSIZE)) as Hr by (unfold inr; change MAXFILE with 140 in *; change BSIZE with 512 in *; Z.to_euclidean_division_equations; lia).
    by rewrite (same_content _ _ _ _ Hsame), (agree_content (nblk := FSSIZE) 2 30 mk_sb V V'), Hc.
Qed.
End boot.
