(* ===== verification/Exec.v ===== *)
(** * Loading programs: exec.c and elf.h

    The strings of the argument vector are given by their bytes: they lie in the memory of the
    calling process, which exec does not change before it commits. *)

From stdpp Require Import base list gmap strings fin_maps.
From S2P Require Import Prelude State Monad Spinlock Console Kalloc Str Vm VmProofs VmUser Umem Sched.
From S2P Require Import Sleeplock Disk Bio Log Inode ConsoleDev Fs.
Open Scope Z_scope.

(** ** elf.h *)

Definition ELF_MAGIC : Z := 0x464C457F.
Definition elfhdr_size : Z := 52.
Definition elf_magic (h : list Z) : Z := rd32 h 0.
Definition elf_entry (h : list Z) : Z := rd32 h 24.
Definition elf_phoff (h : list Z) : Z := rd32 h 28.
Definition elf_phnum (h : list Z) : Z := rd16 h 44.

Definition proghdr_size : Z := 32.
Definition ph_type (h : list Z) : Z := rd32 h 0.
Definition ph_off (h : list Z) : Z := rd32 h 4.
Definition ph_vaddr (h : list Z) : Z := rd32 h 8.
Definition ph_filesz (h : list Z) : Z := rd32 h 16.
Definition ph_memsz (h : list Z) : Z := rd32 h 20.
Definition ELF_PROG_LOAD : Z := 1.

(** safestrcpy(name, src, n) where [name] is an array of [n] bytes. *)
Definition safestrcpy_list (n : Z) (name src : list Z) : list Z :=
  let s := take (Z.to_nat (n - 1)) src in
  s ++ [0] ++ drop (S (length s)) name.

(** The part of a path after its last slash. *)
Fixpoint last_elem (last s : list Z) : list Z :=
  match s with
  | [] => last
  | c :: rest => last_elem (if c =? slash then rest else last) rest
  end.

Section driver.
Context `{BlockDriver}.

(** The segments of the program headers from [off] on, [n] of them: the new size, [None] for a
    jump to the label bad. *)
Fixpoint exec_load (n : nat) (ip : nat) (pgdir off sz : Z) : M (option Z) :=
  match n with
  | O => ret (Some sz)
  | S n =>
      r ← readi ip no_sink (u32 off) proghdr_size ;
      if negb (fst r =? proghdr_size) then ret None else
      let ph := snd r in
      if negb (ph_type ph =? ELF_PROG_LOAD) then exec_load n ip pgdir (off + proghdr_size) sz else
      if ph_memsz ph <? ph_filesz ph then ret None else
      if u32 (ph_vaddr ph + ph_memsz ph) <? ph_vaddr ph then ret None else
      sz ← allocuvm pgdir sz (u32 (ph_vaddr ph + ph_memsz ph)) ;
      if sz =? 0 then ret None else
      if negb (ph_vaddr ph mod PGSIZE =? 0) then ret None else
      r ← loaduvm pgdir (ph_vaddr ph) ip (ph_off ph) (ph_filesz ph) ;
      if r <? 0 then ret None else
      exec_load n ip pgdir (off + proghdr_size) sz
  end.

(** The argument strings pushed below [sp]: the new [sp] and their addresses. *)
Fixpoint exec_args (pgdir : Z) (argv : list (list Z)) (argc sp : Z) : M (option (Z * list Z)) :=
  match argv with
  | [] => ret (Some (sp, []))
  | s :: argv =>
      if MAXARG <=? argc then ret None else
      let len := Z.of_nat (length s) in
      let sp := Z.land (u32 (sp - (len + 1))) (Z.lnot 3) in
      r ← copyout pgdir sp (s ++ [0]) (len + 1) ;
      if r <? 0 then ret None else
      rest ← exec_args pgdir argv (argc + 1) sp ;
      ret ((fun '(sp', l) => (sp', sp :: l)) <$> rest)
  end.

(** From the stack on: the new size, stack pointer and arguments; [None] for bad. *)
Definition exec_stack (pgdir sz : Z) (argv : list (list Z)) : M (option (Z * Z)) :=
  let sz := PGROUNDUP sz in
  sz ← allocuvm pgdir sz (u32 (sz + 2 * PGSIZE)) ;
  if sz =? 0 then ret None else
  clearpteu pgdir (u32 (sz - 2 * PGSIZE)) ;;
  r ← exec_args pgdir argv 0 sz ;
  match r with
  | None => ret None
  | Some (sp, ptrs) =>
      let argc := Z.of_nat (length argv) in
      let ustack := [0xffffffff; argc; u32 (sp - (argc + 1) * 4)] ++ ptrs ++ [0] in
      let sp := u32 (sp - (3 + argc + 1) * 4) in
      r ← copyout pgdir sp (ustack ≫= bytes32) ((3 + argc + 1) * 4) ;
      if r <? 0 then ret None else ret (Some (sz, sp))
  end.

(** [name] is the path buffer on namei's stack. *)
Definition exec (name path : list Z) (argv : list (list Z)) : M Z :=
  p ← myproc ;
  begin_op ;;
  r ← namei name path ;
  match r with
  | None =>
      end_op ;;
      cprintf "exec: fail
" [] ;;
      ret (-1)
  | Some ip =>
      ilock ip ;;
      let bad_ip (pgdir : Z) :=
        when (negb (pgdir =? 0)) (freevm pgdir) ;;
        iunlockput ip ;;
        end_op ;;
        ret (-1) in
      r ← readi ip no_sink 0 elfhdr_size ;
      if negb (fst r =? elfhdr_size) then bad_ip 0 else
      let elf := snd r in
      if negb (elf_magic elf =? ELF_MAGIC) then bad_ip 0 else
      pgdir ← setupkvm ;
      if pgdir =? 0 then bad_ip 0 else
      r ← exec_load (Z.to_nat (elf_phnum elf)) ip pgdir (s32 (elf_phoff elf)) 0 ;
      match r with
      | None => bad_ip pgdir
      | Some sz =>
          iunlockput ip ;;
          end_op ;;
          r ← exec_stack pgdir sz argv ;
          match r with
          | None => freevm pgdir ;; ret (-1)
          | Some (sz, sp) =>
              p ← the_proc p ;
              setp p (fun pr => pr <| p_name ::= fun nm => safestrcpy_list 16 nm (last_elem path path) |>) ;;
              pr ← getp p ;
              let oldpgdir := p_pgdir pr in
              setp p (fun pr => pr <| p_pgdir := pgdir |>) ;;
              setp p (fun pr => pr <| p_sz := sz |>) ;;
              setp p (fun pr => pr <| p_tf ::= fun tf => tf <| eip := elf_entry elf |> |>) ;;
              setp p (fun pr => pr <| p_tf ::= fun tf => tf <| esp := sp |> |>) ;;
              switchuvm (Some p) ;;
              freevm oldpgdir ;;
              ret 0
          end
      end
  end.

End driver.
