(* ===== verification/Proc.v ===== *)
(** * Life of a process: userinit, fork, exit, wait and forkret of proc.c *)

From stdpp Require Import base list gmap strings fin_maps.
From S2P Require Import Prelude State Monad Spinlock Console Kalloc Str Vm VmProofs VmUser Umem Sched.
From S2P Require Import Sleeplock Disk Bio Log Inode ConsoleDev Fs Pipe File Exec.
Open Scope Z_scope.

Section driver.
Context `{BlockDriver}.

(** [name] is the path buffer on namei's stack. *)
Definition userinit (name : list Z) : M unit :=
  p ← allocproc ;
  modify (fun s => s <| pt ::= fun t => t <| initproc := p |> |>) ;;
  p ← the_proc p ;
  pgdir ← setupkvm ;
  setp p (fun pr => pr <| p_pgdir := pgdir |>) ;;
  if pgdir =? 0 then panic "userinit: out of memory?" else
  lk ← gets link ;
  inituvm pgdir (l_initcode lk) (Z.of_nat (length (l_initcode lk))) ;;
  setp p (fun pr => pr <| p_sz := PGSIZE |>) ;;
  let ucs := Z.lor (Z.shiftl SEG_UCODE 3) DPL_USER in
  let uds := Z.lor (Z.shiftl SEG_UDATA 3) DPL_USER in
  setp p (fun pr => pr <| p_tf :=
    zero_tf <| cs := ucs |> <| ds := uds |> <| es := uds |> <| ss := uds |>
            <| eflags := FL_IF |> <| esp := PGSIZE |> <| eip := 0 |> |>) ;;
  setp p (fun pr => pr <| p_name ::= fun nm => safestrcpy_list 16 nm (str "initcode") |>) ;;
  cwd ← namei name (str "/") ;
  setp p (fun pr => pr <| p_cwd := cwd |>) ;;
  acquire L_ptable ;;
  setp p (fun pr => pr <| p_state := RUNNABLE |>) ;;
  release L_ptable.

Definition fork : M Z :=
  cur ← myproc ;
  np ← allocproc ;
  match np with
  | None => ret (-1)
  | Some np =>
      cur ← the_proc cur ;
      pr ← getp cur ;
      pgdir ← copyuvm (p_pgdir pr) (p_sz pr) ;
      setp np (fun n => n <| p_pgdir := pgdir |>) ;;
      if pgdir =? 0 then
        n ← getp np ;
        kfree (p_kstack n) ;;
        setp np (fun n => n <| p_kstack := 0 |>) ;;
        setp np (fun n => n <| p_state := UNUSED |>) ;;
        ret (-1)
      else
      pr ← getp cur ;
      setp np (fun n => n <| p_sz := p_sz pr |>) ;;
      setp np (fun n => n <| p_parent := Some cur |>) ;;
      setp np (fun n => n <| p_tf := p_tf pr |>) ;;
      setp np (fun n => n <| p_tf ::= fun tf => tf <| eax := 0 |> |>) ;;
      for_each (seq 0 (Z.to_nat NOFILE)) (fun i =>
        pr ← getp cur ;
        match p_ofile pr !! i with
        | Some (Some f) =>
            f ← filedup f ;
            setp np (fun n => n <| p_ofile ::= <[i := Some f]> |>)
        | _ => ret tt
        end) ;;
      pr ← getp cur ;
      cwd ← the_inode (p_cwd pr) ;
      cwd ← idup cwd ;
      setp np (fun n => n <| p_cwd := Some cwd |>) ;;
      setp np (fun n => n <| p_name ::= fun nm => safestrcpy_list 16 nm (cstring (p_name pr)) |>) ;;
      n ← getp np ;
      let pid := p_pid n in
      acquire L_ptable ;;
      setp np (fun n => n <| p_state := RUNNABLE |>) ;;
      release L_ptable ;;
      ret pid
  end.

(** exit does not return. *)
Definition exit : M unit :=
  cur ← myproc ;
  init ← gets (fun s => initproc (pt s)) ;
  if bool_decide (cur = init) then panic "init exiting" else
  cur ← the_proc cur ;
  for_each (seq 0 (Z.to_nat NOFILE)) (fun fd =>
    pr ← getp cur ;
    match p_ofile pr !! fd with
    | Some (Some f) =>
        fileclose f ;;
        setp cur (fun pr => pr <| p_ofile ::= <[fd := None]> |>)
    | _ => ret tt
    end) ;;
  begin_op ;;
  pr ← getp cur ;
  cwd ← the_inode (p_cwd pr) ;
  iput cwd ;;
  end_op ;;
  setp cur (fun pr => pr <| p_cwd := None |>) ;;
  acquire L_ptable ;;
  pr ← getp cur ;
  wakeup1 (Ch_proc <$> p_parent pr) ;;
  for_each slots (fun i =>
    p ← getp i ;
    when (bool_decide (p_parent p = Some cur))
      (init ← gets (fun s => initproc (pt s)) ;
       setp i (fun p => p <| p_parent := init |>) ;;
       when (is_state ZOMBIE p)
         (wakeup1 (Ch_proc <$> init)))) ;;
  setp cur (fun pr => pr <| p_state := ZOMBIE |>) ;;
  sched ;;
  panic "zombie exit".

(** One scan of wait: the pid of a child that has exited, or whether there are children. *)
Definition wait_scan (cur : nat) : M (Z + bool) :=
  (fix scan (l : list nat) (havekids : bool) : M (Z + bool) :=
     match l with
     | [] => ret (inr havekids)
     | i :: l =>
         p ← getp i ;
         if bool_decide (p_parent p <> Some cur) then scan l havekids else
         if is_state ZOMBIE p then
           let pid := p_pid p in
           kfree (p_kstack p) ;;
           setp i (fun p => p <| p_kstack := 0 |>) ;;
           freevm (p_pgdir p) ;;
           setp i (fun p => p <| p_pid := 0 |>) ;;
           setp i (fun p => p <| p_parent := None |>) ;;
           setp i (fun p => p <| p_name ::= <[0%nat := 0]> |>) ;;
           setp i (fun p => p <| p_killed := 0 |>) ;;
           setp i (fun p => p <| p_state := UNUSED |>) ;;
           release L_ptable ;;
           ret (inl pid)
         else scan l true
     end) slots false.

(** The loop of wait; every turn but the last sleeps. *)
Fixpoint wait_loop (fuel : nat) (cur : nat) : M Z :=
  match fuel with
  | O => nofuel
  | S fuel =>
      r ← wait_scan cur ;
      match r with
      | inl pid => ret pid
      | inr havekids =>
          pr ← getp cur ;
          if negb havekids || negb (p_killed pr =? 0) then
            release L_ptable ;;
            ret (-1)
          else
            sleep (Ch_proc cur) L_ptable ;;
            wait_loop fuel cur
      end
  end.

Definition wait : M Z :=
  cur ← myproc ;
  acquire L_ptable ;;
  cur ← the_proc cur ;
  (fun e => wait_loop (S (length e)) cur e).

Definition forkret : M unit :=
  release L_ptable ;;
  f ← gets (fun s => first (pt s)) ;
  when (negb (f =? 0))
    (modify (fun s => s <| pt ::= fun t => t <| first := 0 |> |>) ;;
     iinit ROOTDEV ;;
     initlog ROOTDEV).

End driver.
