(* ===== verification/Sysproc.v ===== *)
(** * System calls on processes: sysproc.c *)

From stdpp Require Import base list gmap strings fin_maps.
From S2P Require Import Prelude State Monad Spinlock Console Kalloc Str Vm VmProofs VmUser Umem Sched Ipc.
From S2P Require Import Container Syscall Sleeplock Disk Bio Log Inode ConsoleDev Fs Pipe File Exec Proc.
Open Scope Z_scope.

(** Continue with an argument, or fail with -1. *)
Definition with_arg {A} (m : M (option A)) (k : A -> M Z) : M Z :=
  r ← m ;
  match r with None => ret (-1) | Some a => k a end.

Section driver.
Context `{BlockDriver}.

Definition sys_fork : M Z := fork.
Definition sys_exit : M Z := exit ;; ret 0.
Definition sys_wait : M Z := wait.
Definition sys_kill : M Z := with_arg (argint 0) kill.
Definition sys_getpid : M Z := pr ← curproc ; ret (p_pid pr).

Definition sys_sbrk : M Z :=
  with_arg (argint 0) (fun n =>
    pr ← curproc ;
    let addr := s32 (p_sz pr) in
    r ← growproc n ;
    if r <? 0 then ret (-1) else ret addr).

(** [while(ticks - ticks0 < n)], an unsigned comparison; every turn sleeps. *)
Fixpoint sleep_ticks (fuel : nat) (ticks0 n : Z) : M Z :=
  match fuel with
  | O => nofuel
  | S fuel =>
      t ← gets ticks ;
      if u32 (t - ticks0) <? u32 n then
        pr ← curproc ;
        if negb (p_killed pr =? 0) then
          release L_tick ;;
          ret (-1)
        else
          sleep Ch_ticks L_tick ;;
          sleep_ticks fuel ticks0 n
      else
        release L_tick ;;
        ret 0
  end.

Definition sys_sleep : M Z :=
  with_arg (argint 0) (fun n =>
    acquire L_tick ;;
    ticks0 ← gets ticks ;
    (fun e => sleep_ticks (S (length e)) ticks0 n e)).

Definition sys_uptime : M Z :=
  acquire L_tick ;;
  xticks ← gets ticks ;
  release L_tick ;;
  ret (s32 xticks).

Definition sys_halt : M Z :=
  halt ;;
  cprintf "Command for shutdown
" [] ;;
  ret 0.

Definition sys_toggle : M Z := toggle ;; ret 0.
Definition sys_print_count : M Z := print_count ;; ret 0.
Definition sys_ps : M Z := ps ;; ret 0.

Definition sys_send : M Z :=
  with_arg (argint 0) (fun a =>
  with_arg (argint 1) (fun b =>
  with_arg (argptr 2 MSGSIZE) (fun msg =>
    send a b msg ;;
    ret 0))).

Definition sys_recv : M Z := with_arg (argptr 0 MSGSIZE) recv.

(** The words at [d], read from user memory without a check of the pointer. *)
Fixpoint load_ints (n : nat) (d : Z) : M (list Z) :=
  match n with
  | O => ret []
  | S n => w ← uload32 d ; ws ← load_ints n (u32 (d + 4)) ; ret (s32 w :: ws)
  end.

(** The array [arr] on the kernel stack has [len] entries: a length that is not positive is
    undefined, and one that exceeds the kernel stack overwrites what lies below it. *)
Definition sys_send_multi : M Z :=
  with_arg (argint 0) (fun a =>
  with_arg (argint 3) (fun len =>
  with_arg (argptr 2 MSGSIZE) (fun msg =>
  with_arg (argint 1) (fun b =>
    if (len <=? 0) || (KSTACKSIZE <? 4 * len) then undef "int arr[len]" else
    arr ← load_ints (Z.to_nat len) (u32 b) ;
    send_multi a arr msg len ;;
    ret 0)))).

Definition sys_store : M Z :=
  with_arg (argint 0) (fun a =>
  with_arg (argint 1) (fun b =>
    store a b ;;
    ret 0)).

Definition sys_sleepcustom : M Z := with_arg (argint 0) (fun a => sleepcustom a ;; ret 0).
Definition sys_wakeupcustom : M Z := with_arg (argint 0) (fun a => wakeupcustom a ;; ret 0).
Definition sys_read_mean : M Z := with_arg (argptr 0 MSGSIZE) read_mean.

(** [c] is the uninitialised container on the stack. *)
Definition sys_create_container (c : container) : M Z := create_container c.
Definition sys_destroy_container : M Z := with_arg (argint 0) destroy_container.
Definition sys_join_container : M Z := with_arg (argint 0) join_container.
Definition sys_leave_container : M Z := leave_container.

(** [container_malloc] of proc.c uses the value of a function that returns none and does not
    compile; it is left open. *)
Definition sys_container_malloc (container_malloc : Z -> M Z) : M Z :=
  with_arg (argint 0) (fun a =>
    cprintf "malloc
" [] ;;
    container_malloc a).

End driver.
