(* ===== verification/Sysfile.v ===== *)
(** * System calls on files: sysfile.c

    Character arrays on the kernel stack that are not initialised ([name]) are arguments. *)

From stdpp Require Import base list gmap strings fin_maps.
From S2P Require Import Prelude State Monad Spinlock Console Kalloc Str Vm VmProofs VmUser Umem Sched.
From S2P Require Import Syscall Sleeplock Disk Bio Log Inode ConsoleDev Fs Pipe File Exec Proc Ipc Container Sysproc.
Open Scope Z_scope.

(** ** fcntl.h *)

Definition O_RDONLY : Z := 0x000.
Definition O_WRONLY : Z := 0x001.
Definition O_RDWR : Z := 0x002.
Definition O_CREATE : Z := 0x200.

(** ** Descriptors *)

(** The descriptor and its file. *)
Definition argfd (n : Z) : M (option (Z * nat)) :=
  fd ← argint n ;
  match fd with
  | None => ret None
  | Some fd =>
      if (fd <? 0) || (NOFILE <=? fd) then ret None else
      pr ← curproc ;
      ret ((fun f => (fd, f)) <$> default None (p_ofile pr !! Z.to_nat fd))
  end.

Definition fdalloc (f : nat) : M Z :=
  p ← myproc ;
  p ← the_proc p ;
  pr ← getp p ;
  match findi (fun o => bool_decide (o = None)) (take (Z.to_nat NOFILE) (p_ofile pr)) with
  | Some fd =>
      setp p (fun pr => pr <| p_ofile ::= <[fd := Some f]> |>) ;;
      ret (Z.of_nat fd)
  | None => ret (-1)
  end.

(** myproc()->ofile[fd] = 0 *)
Definition clear_fd (fd : Z) : M unit :=
  p ← myproc ;
  p ← the_proc p ;
  setp p (fun pr => pr <| p_ofile ::= <[Z.to_nat fd := None]> |>).

(** A string argument: its bytes. *)
Definition argpath (n : Z) : M (option (list Z)) :=
  r ← argstr n ;
  match r with
  | None => ret None
  | Some (a, len) => bs ← uloads (Z.to_nat len) a ; ret (Some bs)
  end.

Section driver.
Context `{BlockDriver}.

Definition sys_dup : M Z :=
  with_arg (argfd 0) (fun '(_, f) =>
    fd ← fdalloc f ;
    if fd <? 0 then ret (-1) else
    filedup f ;;
    ret fd).

Definition sys_read : M Z :=
  with_arg (argfd 0) (fun '(_, f) =>
  with_arg (argint 2) (fun n =>
  with_arg (argptr 1 n) (fun p =>
    fileread f (user_sink p) n))).

Definition sys_write : M Z :=
  with_arg (argfd 0) (fun '(_, f) =>
  with_arg (argint 2) (fun n =>
  with_arg (argptr 1 n) (fun p =>
    filewrite f (user_source p) n))).

Definition sys_close : M Z :=
  with_arg (argfd 0) (fun '(fd, f) =>
    clear_fd fd ;;
    fileclose f ;;
    ret 0).

(** struct stat in memory: type at 0, dev at 4, ino at 8, nlink at 12, size at 16. *)
Definition stat_size : Z := 20.
Definition put_stat (st : Z) (v : stat) : M unit :=
  ustores (u32 (st + 4)) (bytes32 (st_dev v)) ;;
  ustores (u32 (st + 8)) (bytes32 (st_ino v)) ;;
  ustores st (bytes16 (st_type v)) ;;
  ustores (u32 (st + 12)) (bytes16 (st_nlink v)) ;;
  ustores (u32 (st + 16)) (bytes32 (st_size v)).

Definition sys_fstat : M Z :=
  with_arg (argfd 0) (fun '(_, f) =>
  with_arg (argptr 1 stat_size) (fun st =>
    filestat f (put_stat st))).

(** ** Links *)

Definition sys_link (nbuf name : list Z) : M Z :=
  with_arg (argpath 0) (fun old =>
  with_arg (argpath 1) (fun new =>
    begin_op ;;
    ip ← namei nbuf old ;
    match ip with
    | None => end_op ;; ret (-1)
    | Some ip =>
        ilock ip ;;
        x ← geti ip ;
        if i_type x =? T_DIR then iunlockput ip ;; end_op ;; ret (-1) else
        seti ip (fun x => x <| i_nlink := s16 (i_nlink x + 1) |>) ;;
        iupdate ip ;;
        iunlock ip ;;
        let bad :=
          ilock ip ;;
          seti ip (fun x => x <| i_nlink := s16 (i_nlink x - 1) |>) ;;
          iupdate ip ;;
          iunlockput ip ;;
          end_op ;;
          ret (-1) in
        r ← nameiparent new name ;
        match fst r with
        | None => bad
        | Some dp =>
            ilock dp ;;
            d ← geti dp ;
            x ← geti ip ;
            ok ← (if negb (i_dev d =? i_dev x) then ret false
                  else k ← dirlink dp (snd r) (i_inum x) ; ret (negb (k <? 0))) ;
            if negb ok then iunlockput dp ;; bad else
            iunlockput dp ;;
            iput ip ;;
            end_op ;;
            ret 0
        end
    end)).

Definition isdirempty (dp : nat) : M bool :=
  d ← geti dp ;
  r ← for_until (dir_offsets (2 * dirent_size) (i_size d)) (fun off =>
        de ← read_dirent "isdirempty: readi" dp off ;
        if negb (de_inum de =? 0) then ret (Some tt) else ret None) ;
  ret (bool_decide (r = None)).

Definition sys_unlink (name : list Z) : M Z :=
  with_arg (argpath 0) (fun path =>
    begin_op ;;
    r ← nameiparent path name ;
    match fst r with
    | None => end_op ;; ret (-1)
    | Some dp =>
        let name := snd r in
        ilock dp ;;
        let bad :=
          iunlockput dp ;;
          end_op ;;
          ret (-1) in
        if (namecmp name (str ".") =? 0) || (namecmp name (str "..") =? 0) then bad else
        r ← dirlookup dp name ;
        match r with
        | None => bad
        | Some (ip, off) =>
            ilock ip ;;
            x ← geti ip ;
            if i_nlink x <? 1 then panic "unlink: nlink < 1" else
            busy ← (if i_type x =? T_DIR then b ← isdirempty ip ; ret (negb b) else ret false) ;
            if busy : bool then iunlockput ip ;; bad else
            w ← writei dp (bytes_source (replicate (Z.to_nat dirent_size) 0)) off dirent_size ;
            if negb (w =? dirent_size) then panic "unlink: writei" else
            x ← geti ip ;
            when (i_type x =? T_DIR)
              (seti dp (fun d => d <| i_nlink := s16 (i_nlink d - 1) |>) ;;
               iupdate dp) ;;
            iunlockput dp ;;
            seti ip (fun x => x <| i_nlink := s16 (i_nlink x - 1) |>) ;;
            iupdate ip ;;
            iunlockput ip ;;
            end_op ;;
            ret 0
        end
    end).

(** ** Creating and opening *)

(** A locked inode. *)
Definition create (path : list Z) (type major minor : Z) (name : list Z) : M (option nat) :=
  r ← nameiparent path name ;
  match fst r with
  | None => ret None
  | Some dp =>
      let name := snd r in
      ilock dp ;;
      r ← dirlookup dp name ;
      match r with
      | Some (ip, _) =>
          iunlockput dp ;;
          ilock ip ;;
          x ← geti ip ;
          if (type =? T_FILE) && (i_type x =? T_FILE) then ret (Some ip) else
          iunlockput ip ;;
          ret None
      | None =>
          d ← geti dp ;
          ip ← ialloc (i_dev d) type ;
          ilock ip ;;
          seti ip (fun x => x <| i_major := s16 major |>) ;;
          seti ip (fun x => x <| i_minor := s16 minor |>) ;;
          seti ip (fun x => x <| i_nlink := 1 |>) ;;
          iupdate ip ;;
          when (type =? T_DIR)
            (seti dp (fun d => d <| i_nlink := s16 (i_nlink d + 1) |>) ;;
             iupdate dp ;;
             x ← geti ip ;
             r1 ← dirlink ip (str ".") (i_inum x) ;
             if r1 <? 0 then panic "create dots" else
             d ← geti dp ;
             r2 ← dirlink ip (str "..") (i_inum d) ;
             if r2 <? 0 then panic "create dots" else ret tt) ;;
          x ← geti ip ;
          r ← dirlink dp name (i_inum x) ;
          if r <? 0 then panic "create: dirlink" else
          iunlockput dp ;;
          ret (Some ip)
      end
  end.

Definition sys_open (nbuf name : list Z) : M Z :=
  with_arg (argpath 0) (fun path =>
  with_arg (argint 1) (fun omode =>
    begin_op ;;
    ip ← (if has omode O_CREATE then create path T_FILE 0 0 name
          else
            ip ← namei nbuf path ;
            match ip with
            | None => ret None
            | Some ip =>
                ilock ip ;;
                x ← geti ip ;
                if (i_type x =? T_DIR) && negb (omode =? O_RDONLY)
                then iunlockput ip ;; ret None
                else ret (Some ip)
            end) ;
    match ip with
    | None => end_op ;; ret (-1)
    | Some ip =>
        f ← filealloc ;
        match f with
        | None => iunlockput ip ;; end_op ;; ret (-1)
        | Some f =>
            fd ← fdalloc f ;
            if fd <? 0 then
              fileclose f ;;
              iunlockput ip ;;
              end_op ;;
              ret (-1)
            else
            iunlock ip ;;
            end_op ;;
            setf f (fun x => x <| f_type := FD_INODE |>) ;;
            setf f (fun x => x <| f_ip := Some ip |>) ;;
            setf f (fun x => x <| f_off := 0 |>) ;;
            setf f (fun x => x <| f_readable := b2z (negb (has omode O_WRONLY)) |>) ;;
            setf f (fun x => x <| f_writable := b2z (has omode O_WRONLY || has omode O_RDWR) |>) ;;
            ret fd
        end
    end)).

Definition sys_mkdir (name : list Z) : M Z :=
  begin_op ;;
  path ← argpath 0 ;
  ip ← match path with None => ret None | Some path => create path T_DIR 0 0 name end ;
  match ip with
  | None => end_op ;; ret (-1)
  | Some ip =>
      iunlockput ip ;;
      end_op ;;
      ret 0
  end.

Definition sys_mknod (name : list Z) : M Z :=
  begin_op ;;
  path ← argpath 0 ;
  ip ← match path with
       | None => ret None
       | Some path =>
           major ← argint 1 ;
           match major with
           | None => ret None
           | Some major =>
               minor ← argint 2 ;
               match minor with
               | None => ret None
               | Some minor => create path T_DEV (s16 major) (s16 minor) name
               end
           end
       end ;
  match ip with
  | None => end_op ;; ret (-1)
  | Some ip =>
      iunlockput ip ;;
      end_op ;;
      ret 0
  end.

Definition sys_chdir (nbuf : list Z) : M Z :=
  cur ← myproc ;
  begin_op ;;
  path ← argpath 0 ;
  ip ← match path with None => ret None | Some path => namei nbuf path end ;
  match ip with
  | None => end_op ;; ret (-1)
  | Some ip =>
      ilock ip ;;
      x ← geti ip ;
      if negb (i_type x =? T_DIR) then iunlockput ip ;; end_op ;; ret (-1) else
      iunlock ip ;;
      cur ← the_proc cur ;
      pr ← getp cur ;
      cwd ← the_inode (p_cwd pr) ;
      iput cwd ;;
      end_op ;;
      setp cur (fun pr => pr <| p_cwd := Some ip |>) ;;
      ret 0
  end.

(** The argument vector at [uargv], from entry [i] on; [None] for the return of -1. *)
Fixpoint exec_argv (n : nat) (uargv i : Z) : M (option (list (list Z))) :=
  match n with
  | O => ret None
  | S n =>
      uarg ← fetchint (u32 (uargv + 4 * i)) ;
      match uarg with
      | None => ret None
      | Some uarg =>
          if uarg =? 0 then ret (Some []) else
          len ← fetchstr (u32 uarg) ;
          match len with
          | None => ret None
          | Some len =>
              bs ← uloads (Z.to_nat len) (u32 uarg) ;
              rest ← exec_argv n uargv (i + 1) ;
              ret ((fun l => bs :: l) <$> rest)
          end
      end
  end.

Definition sys_exec (nbuf : list Z) : M Z :=
  with_arg (argpath 0) (fun path =>
  with_arg (argint 1) (fun uargv =>
  with_arg (exec_argv (Z.to_nat MAXARG) (u32 uargv) 0) (fun argv =>
    exec nbuf path argv))).

Definition sys_pipe : M Z :=
  with_arg (argptr 0 8) (fun fd =>
  with_arg pipealloc (fun '(rf, wf) =>
    let bad :=
      fileclose rf ;;
      fileclose wf ;;
      ret (-1) in
    fd0 ← fdalloc rf ;
    if fd0 <? 0 then bad else
    fd1 ← fdalloc wf ;
    if fd1 <? 0 then clear_fd fd0 ;; bad else
    ustores fd (bytes32 fd0) ;;
    ustores (u32 (fd + 4)) (bytes32 fd1) ;;
    ret 0)).

End driver.
