(* ===== verification/Trap.v ===== *)
(** * Traps and interrupts: trap.c, and the table of system calls

    The registers the hardware sets ([tf], [cr2]) and the characters the keyboard and the serial
    port have ready ([kbd], [com]) are arguments; acknowledging an interrupt (lapiceoi) has no
    effect on the kernel's state. *)

From stdpp Require Import base list gmap strings fin_maps.
From S2P Require Import Prelude State Monad Spinlock Console Kalloc Str Vm VmProofs VmUser Umem Sched Ipc.
From S2P Require Import Container Syscall Sleeplock Disk Bio Log Inode ConsoleDev Fs Pipe File Exec Proc Sysproc Sysfile.
Open Scope Z_scope.

(** ** traps.h and the gates of mmu.h *)

Definition T_IRQ0 : Z := 32.
Definition T_SYSCALL : Z := 64.
Definition IRQ_TIMER : Z := 0.
Definition IRQ_KBD : Z := 1.
Definition IRQ_COM1 : Z := 4.
Definition IRQ_IDE : Z := 14.
Definition IRQ_SPURIOUS : Z := 31.
Definition STS_IG32 : Z := 0xE.
Definition STS_TG32 : Z := 0xF.

Record gatedesc := mkGate {
  g_off_15_0 : Z; g_cs : Z; g_args : Z; g_rsv1 : Z; g_type : Z; g_s : Z; g_dpl : Z; g_p : Z;
  g_off_31_16 : Z }.

Definition SETGATE (istrap sel off d : Z) : gatedesc :=
  mkGate (Z.land off 0xffff) sel 0 0 (if istrap =? 0 then STS_IG32 else STS_TG32) 0 d 1
         (Z.shiftr off 16).

(** The interrupt descriptor table tvinit builds from the entry points [vectors]. *)
Definition idt (vectors : Z -> Z) : list gatedesc :=
  <[Z.to_nat T_SYSCALL := SETGATE 1 (Z.shiftl SEG_KCODE 3) (vectors T_SYSCALL) DPL_USER]>
    ((fun i => SETGATE 0 (Z.shiftl SEG_KCODE 3) (vectors i) 0) <$> range 0 256).

Definition tvinit : M unit := initlock L_tick.

Section driver.
Context `{BlockDriver}.

(** ** syscall.c: syscalls[] *)

(** [name], [nbuf] and [c] are the uninitialised variables on the stacks of the handlers, and
    [container_malloc] is the function that does not compile. *)
Definition syscalls (name nbuf : list Z) (c : container) (container_malloc : Z -> M Z)
    : list (option (M Z)) :=
  None :: (Some <$>
  [ sys_fork; sys_exit; sys_wait; sys_pipe; sys_read; sys_kill; sys_exec nbuf; sys_fstat;
    sys_chdir nbuf; sys_dup; sys_getpid; sys_sbrk; sys_sleep; sys_uptime; sys_open nbuf name;
    sys_write; sys_mknod name; sys_unlink name; sys_link nbuf name; sys_mkdir name; sys_close;
    sys_halt; sys_toggle; sys_print_count; sys_ps; sys_send; sys_recv; sys_send_multi;
    sys_store; sys_sleepcustom; sys_wakeupcustom; sys_read_mean; sys_create_container c;
    sys_destroy_container; sys_join_container; sys_leave_container;
    sys_container_malloc container_malloc ]).

(** ** trap *)

(** [if(myproc() && myproc()->killed && user) exit();] *)
Definition exit_if_killed (user : bool) : M unit :=
  p ← myproc ;
  match p with
  | None => ret tt
  | Some _ => pr ← curproc ; when (negb (p_killed pr =? 0) && user) exit
  end.

Definition tick : M unit :=
  acquire L_tick ;;
  modify (fun s => s <| ticks ::= fun t => u32 (t + 1) |>) ;;
  wakeup Ch_ticks ;;
  release L_tick.

Definition trap (table : list (option (M Z))) (pcs : nat -> list Z) (kbd com : list Z) (cr2 : Z)
    (tf : trapframe) : M unit :=
  if trapno tf =? T_SYSCALL then
    pr ← curproc ;
    when (negb (p_killed pr =? 0)) exit ;;
    p ← myproc ;
    p ← the_proc p ;
    setp p (fun pr => pr <| p_tf := tf |>) ;;
    syscall table ;;
    pr ← curproc ;
    when (negb (p_killed pr =? 0)) exit
  else
  let user := Z.land (cs tf) 3 =? DPL_USER in
  (if trapno tf =? T_IRQ0 + IRQ_TIMER then
     c ← cpuid ;
     when (c =? 0) tick
   else if trapno tf =? T_IRQ0 + IRQ_IDE then ideintr
   else if trapno tf =? T_IRQ0 + IRQ_IDE + 1 then ret tt
   else if trapno tf =? T_IRQ0 + IRQ_KBD then consoleintr pcs kbd
   else if trapno tf =? T_IRQ0 + IRQ_COM1 then consoleintr pcs com
   else if (trapno tf =? T_IRQ0 + 7) || (trapno tf =? T_IRQ0 + IRQ_SPURIOUS) then
     c ← cpuid ;
     cprintf "cpu%d: spurious interrupt at %x:%x
" [AInt c; AInt (cs tf); AInt (eip tf)]
   else
     p ← myproc ;
     if bool_decide (p = None) || (Z.land (cs tf) 3 =? 0) then
       c ← cpuid ;
       cprintf "unexpected trap %d from cpu %d eip %x (cr2=0x%x)
" [AInt (trapno tf); AInt c; AInt (eip tf); AInt cr2] ;;
       panic "trap"
     else
       pr ← curproc ;
       c ← cpuid ;
       cprintf "pid %d %s: trap %d err %d on cpu %d eip 0x%x addr 0x%x--kill proc
" [AInt (p_pid pr); AStr (cstring (p_name pr)); AInt (trapno tf); AInt (err tf); AInt c;
   AInt (eip tf); AInt cr2] ;;
       p ← the_proc p ;
       setp p (fun pr => pr <| p_killed := 1 |>)) ;;
  exit_if_killed user ;;
  p ← myproc ;
  match p with
  | None => ret tt
  | Some _ =>
      pr ← curproc ;
      when (is_state RUNNING pr && (trapno tf =? T_IRQ0 + IRQ_TIMER)) yield
  end ;;
  exit_if_killed user.

End driver.
