(* ===== verification/Example.v ===== *)
(** * Concrete kernel states

    A machine with one processor and a small kernel image, idle and with a process running, on
    which the theorems are instantiated. *)

From stdpp Require Import base list gmap strings fin_maps.
From S2P Require Import Prelude State Monad Spinlock Console Kalloc Str Vm VmProofs VmUser VmCopy.
From S2P Require Import Umem Sched Syscall.
Open Scope Z_scope.

Definition ex_link : linkmap :=
  mkLink (KERNBASE + 0x120000) (KERNBASE + 0x110000) (KERNBASE + 0x111000) (KERNBASE + 0x105000)
         (KERNBASE + 0x103000) [].

(** The kernel as loaded. *)
Definition ex_boot : kstate := loaded ex_link ∅.

(** Process 0, with pid 1, runs on the processor; interrupts are on. *)
Definition ex_proc : proc := zero_proc <| p_state := RUNNING |> <| p_pid := 1 |> <| p_container_id := -1 |>.
Definition ex_run : kstate :=
  ex_boot <| sync ::= fun sy => sy <| IF := true |> <| cpus ::= alter (fun c => c <| c_proc := Some 0%nat |>) 0%nat |> |>
          <| pt ::= fun t => t <| procs ::= <[0%nat := ex_proc]> |> <| nextpid := 2 |> |>
          <| con ::= fun k => k <| cons_locking := 1 |> |>.

Lemma ex_boot_ok : sync_ok (sync ex_boot).
Proof. exists 0%nat, zero_cpu. split_and!; done. Qed.
Lemma ex_run_ok : sync_ok (sync ex_run).
Proof. exists 0%nat, (zero_cpu <| c_proc := Some 0%nat |>). split_and!; done. Qed.
Lemma ex_run_free l : free l (sync ex_run).
Proof. done. Qed.
#[export] Hint Resolve ex_boot_ok ex_run_ok ex_run_free : xv6.

Lemma ex_run_print : can_print ex_run.
Proof. split; [done|]. auto with xv6. Qed.
#[export] Hint Resolve ex_run_print : xv6.

(** Sixteen megabytes of free pages. *)
Definition state_of {A} (o : outcome A) (d : kstate) : kstate :=
  match o with Ret _ _ s => s | _ => d end.
Definition ex_lo : Z := KERNBASE + 0x400000.
Definition ex_hi : Z := KERNBASE + 0x1400000.
Definition ex_pages : list Z := reverse (kpages ex_lo 4096).
Definition ex_mem : kstate := state_of (freerange ex_lo ex_hi [] ex_run) ex_run.

Lemma ex_run_kmem : kmem_inv ex_run [].
Proof. split; [done|]. split; [constructor|]. split; constructor. Qed.

Lemma ex_mem_inv : kmem_inv ex_mem ex_pages /\ kmem_frame ex_run ex_mem.
Proof.
  unfold ex_mem.
  destruct (freerange_spec ex_lo ex_hi [] ex_run) as (s' & Hrun & Hfr & Hinv).
  - exact ex_run_kmem.
  - by left.
  - by vm_compute.
  - by vm_compute.
  - done.
  - rewrite Hrun. split; [exact Hinv|exact Hfr].
Qed.

Lemma ex_mem_ready : kmem_ready ex_mem.
Proof. eapply kmem_frame_ready; [apply ex_mem_inv|]. by left. Qed.
Lemma ex_mem_link : link ex_mem = ex_link.
Proof. apply (kmem_frame_link _ _ (proj2 ex_mem_inv)). Qed.
#[export] Hint Resolve ex_mem_ready : xv6.

Lemma ex_link_ok : link_ok ex_link.
Proof. unfold link_ok. by vm_compute. Qed.
Lemma ex_pages_length : Z.of_nat (length ex_pages) = 4096.
Proof. unfold ex_pages, kpages. rewrite length_reverse, length_fmap, length_seqZ. lia. Qed.
Lemma ex_mem_print : can_print ex_mem.
Proof. eapply can_print_vframe, ex_run_print. apply vframe_kmem, ex_mem_inv. Qed.
#[export] Hint Resolve ex_link_ok ex_mem_print : xv6.

(** An address space of two zeroed pages, and more than two thousand pages left. *)
Lemma ex_space :
  exists R dir tabs ufr fr s, as_inv R dir tabs ufr fr s /\ can_print s /\ link s = ex_link /\
    pt s = pt ex_run /\ trc s = trc ex_run /\ ipc s = ipc ex_run /\ c_proc (my (sync s)) = Some 0%nat /\
    (forall l, free l (sync s)) /\
    (forall v, 0 <= v -> v * PGSIZE < 8192 -> fresh_at dir ufr s v) /\
    (forall v, 8192 <= v * PGSIZE -> ufr !! v = None) /\ (2048 <= length fr)%nat.
Proof.
  destruct ex_mem_inv as [Hinv Hfr0]. pose proof ex_pages_length as Hlen.
  pose proof ex_mem_ready as Hrdy. pose proof ex_mem_link as Hlk. pose proof ex_mem_print as Hcp.
  revert Hinv Hlen Hfr0 Hrdy Hlk Hcp. generalize ex_pages, ex_mem. intros [|d fr] s0 Hinv Hlen Hfr0 Hrdy Hlk Hcp; [done|].
  destruct (kalloc_spec [] s0 (d :: fr) Hinv Hrdy) as (s1 & _ & Hfr & Hinv1 & Hm).
  destruct (fresh_dir d fr s0 s1 Hinv Hrdy) as (H2 & _ & _); [by rewrite Hlk|done..|].
  match type of H2 with as_inv _ _ _ _ _ ?st => set (s2 := st) in * end.
  assert (vframe ex_run s2) as Hv2.
  { eapply vframe_trans; [by apply vframe_kmem|]. apply vframe_kmem.
    eapply kmem_frame_trans; [exact Hfr|]. apply kmem_frame_mem. }
  clearbody s2.
  destruct (allocuvm_spec d 0 8192 [] ltac:(done) ltac:(done) _ _ _ _ _ H2)
    as (r & tabs & ufr & fr' & s3 & _ & Hk & _ & Hr).
  { by eapply can_print_vframe, ex_run_print. }
  { done. }
  { done. }
  assert (vframe ex_run s3) as Hv3 by (eapply vframe_trans; [exact Hv2|apply Hk]).
  change ((0 + PGSIZE - 1) / PGSIZE) with 0 in *. cbn [length] in Hlen.
  destruct Hr as [[_ Hfresh]|(_ & _ & Hn)].
  2:{ change (_ + _ / _) with 1026 in Hn. lia. }
  destruct Hk as (H3 & _ & _ & HU & _). destruct Hv3 as (m & fl & sy & k & -> & Hsy & Hc) eqn:E.
  exists (d :: fr), d, tabs, ufr, fr'. eexists. split; [exact H3|].
  split; [by eapply can_print_vframe, ex_run_print|]. clear E.
  do 4 (split; [done|]).
  split; [exact (settled_cproc _ _ ex_run_ok Hsy)|].
  split; [intros l; by eapply settled_free, ex_run_free|]. split; [done|].
  assert (forall v, 8192 <= v * PGSIZE -> ufr !! v = None) as Hnone.
  { intros v Hv. rewrite HU by (unfold out_range; lia). apply lookup_empty. }
  split; [done|]. destruct (pgt_length _ _ _ _ _ _ (proj1 H3)) as [Hl Ht].
  rewrite length_tpages in Hl. cbn [length] in Hl.
  assert (size ufr <= length (seqZ 0 2))%nat as Hu; [|rewrite length_seqZ in Hu; lia].
  apply size_keys. intros v f Hv. apply elem_of_seqZ.
  destruct (decide (v * PGSIZE < 8192)); [|by rewrite Hnone in Hv by lia].
  pose proof (proj1 (proj1 (proj2 H3)) _ _ Hv). unfold PGSIZE in *. lia.
Qed.

(** Process 0 with that address space, its page table in use, and the trap frame [tf]. *)
Definition ex_uproc (dir : Z) (tf : trapframe) : proc :=
  ex_proc <| p_pgdir := dir |> <| p_sz := 8192 |> <| p_tf := tf |>.
Definition in_space (dir : Z) (tf : trapframe) (s : kstate) : kstate :=
  s <| vm ::= fun v => v <| cr3 := V2P dir |> |>
    <| pt ::= fun t => t <| procs ::= <[0%nat := ex_uproc dir tf]> |> |>.

Lemma ex_uspace tf :
  exists dir R tabs ufr fr s, uspace 0 (ex_uproc dir tf) R tabs ufr fr s /\ can_print s /\
    nprocs s /\ trc s = trc ex_run /\ ipc s = ipc ex_run /\ (forall l, free l (sync s)) /\
    (forall va, 0 <= va < 8192 -> ubyte ufr s va = 0) /\
    forall va, 0 <= va < 8192 -> has (pte_of (mem (vm s)) dir va) PTE_W = true.
Proof.
  destruct ex_space as (R & dir & tabs & ufr & fr & s & H & Hc & _ & Hp & Ht & Hi & Hcp & Hfree & Hf & _ & _).
  exists dir, R, tabs, ufr, fr, (in_space dir tf s). split; [|split; [exact Hc|]].
  { split; [apply Hc|]. split; [split; [exact Hcp|cbn; by rewrite Hp]|].
    split; [by apply (as_inv_ext _ _ _ _ _ s)|]. split; [done|]. split; [done|].
    intros va Hva. destruct (Hf (va / PGSIZE)) as (f & Hf1 & _); [| |by exists f];
      unfold PGSIZE; cbn in Hva; Z.div_mod_to_equations; lia. }
  split; [unfold nprocs; cbn; by rewrite Hp|]. split; [done|]. split; [done|]. split; [done|].
  assert (forall va, 0 <= va < 8192 -> 0 <= va / PGSIZE /\ va / PGSIZE * PGSIZE < 8192) as Hpg.
  { intros va Hva. unfold PGSIZE. Z.div_mod_to_equations; lia. }
  split; intros va Hva; destruct (Hf _ (proj1 (Hpg va Hva)) (proj2 (Hpg va Hva))) as (f & Hf1 & Hz & Hpte).
  - unfold ubyte, uphys. rewrite Hf1. cbn. unfold byte_at, word_at.
    pose proof (V2P_aligned _ _ ltac:(apply H) (frame_page _ _ _ _ _ _ H _ _ Hf1)) as Hal.
    assert ((V2P f + va mod PGSIZE) / 4 = (V2P f + 4 * (va mod PGSIZE / 4)) / 4) as ->.
    { unfold PGSIZE in *. Z.div_mod_to_equations; lia. }
    fold (word_at (mem (vm s)) (V2P f + 4 * (va mod PGSIZE / 4))).
    rewrite Hz by (unfold PGSIZE; Z.div_mod_to_equations; lia). unfold get_byte. by rewrite Z.shiftr_0_l.
  - assert (V2P f mod PGSIZE = 0) as Hal
      by (eapply V2P_aligned; [apply H|exact (frame_page _ _ _ _ _ _ H _ _ Hf1)]).
    cbn. rewrite Hpte, has_W, testbit_join; try done; unfold is_u32; lia.
Qed.
