(* ===== verification/ExampleFs.v ===== *)
(** * A small file system

    Process 0 runs uncontended, the kernel is linked with the disk image (memide.c) of 1000
    blocks, laid out as mkfs does: the log is in blocks 2 to 31, the inodes in blocks 32 to 57
    and the bitmap in block 58.  Inode 1 is an empty file, which is open at entry 0 of the file
    table and cached in entry 0 of the inode cache. *)

From stdpp Require Import base list gmap strings fin_maps.
From S2P Require Import Prelude State Monad Spinlock Console Kalloc Str Vm Sched Sleeplock Calm Disk Bio.
From S2P Require Import BioProofs Log LogLayout LogProofs Inode BlockProofs InodeProofs ConsoleDev Fs FileProofs Pipe File.
From S2P Require Import WriteProofs Example.
Open Scope Z_scope.

(** [ex_run] after its first use of a spin lock. *)
Definition ex_quiet : kstate := ex_run <| sync ::= settle |>.
Lemma ex_calm : calm 0%nat ex_proc ex_quiet.
Proof.
  split.
  - apply sync_ok_settle, ex_run_ok.
  - apply settle_settle.
  - reflexivity.
  - reflexivity.
  - split; reflexivity.
  - split; reflexivity.
  - reflexivity.
  - intros i q ch Hq Hs. exfalso. cbn in Hq. apply list_lookup_insert_Some in Hq as [(_ & <- & _)|[_ Hq]].
    + done.
    + apply lookup_replicate in Hq as [-> _]. done.
Qed.
#[export] Hint Resolve ex_calm : xv6.

(** Processes 0, 1 and 2 share the processor; it is the turn of process [n]. *)
Definition ex_peer (n i : nat) : proc :=
  ex_proc <| p_pid := Z.of_nat i + 1 |> <| p_state := if decide (i = n) then RUNNING else RUNNABLE |>.
Definition ex_turn (n : nat) : kstate :=
  ex_quiet <| sync ::= fun sy => sy <| cpus ::= alter (fun c => c <| c_proc := Some n |>) 0%nat |> |>
           <| pt ::= fun t => t <| procs := (ex_peer n <$> seq 0 3) ++ drop 3 (procs t) |> |>.
Lemma ex_turn_calm n : (n < 3)%nat -> calm n (ex_peer n n) (ex_turn n).
Proof.
  intros Hn. split.
  - exists 0%nat, (my (sync (ex_turn n))). by destruct n as [|[|[|]]]; [split_and!..|lia].
  - by destruct n as [|[|[|]]]; [..|lia].
  - reflexivity.
  - by destruct n as [|[|[|]]]; [..|lia].
  - by destruct n as [|[|[|]]]; [split..|lia].
  - by destruct n as [|[|[|]]]; [split..|lia].
  - reflexivity.
  - intros i q ch Hq Hs. exfalso. apply list_elem_of_lookup_2 in Hq. cbn in Hq.
    rewrite !elem_of_cons in Hq. destruct Hq as [->|[->|[->|Hq]]]; [cbn in Hs; by destruct (decide _)..|].
    change (drop 3 _) with (replicate 61 zero_proc) in Hq. by apply elem_of_replicate in Hq as [-> _].
Qed.

Definition ex_size : Z := 512000.
Definition ex_sb : list Z :=
  wr32 (wr32 (wr32 (wr32 (wr32 (wr32 (wr32 zero_block 0 1000) 4 900) 8 200) 12 30) 16 2) 20 32) 24 58.
Definition ex_sblock : superblock := mkSb 1000 900 200 30 2 32 58.
Definition ex_bitmap : list Z := wr32 (wr32 zero_block 0 (2 ^ 32 - 1)) 4 (2 ^ 27 - 1).
Definition ex_inode : inode := mkInode 1 1 1 1 T_FILE 0 0 1 0 (replicate (Z.to_nat (NDIRECT + 1)) 0).
Definition ex_inodes : list Z := store_dinode zero_block (dip_off 1) ex_inode.
Definition ex_file : file := mkFile FD_INODE 1 1 1 0 (Some 0%nat) 0.
Definition ex_image : gmap (Z * Z) (list Z) := {[(1, 1) := ex_sb; (1, 58) := ex_bitmap; (1, 32) := ex_inodes]}.
Definition ex_fs : fsys :=
  mkFsys ∅ ((fst_ (loaded ex_link ∅)) <| sb := ex_sblock |> <| icache ::= <[0%nat := ex_inode]> |>
                                      <| ftable ::= <[0%nat := ex_file]> |>)
         (mkDisk ex_image [] [] 0 1000).

Notation ex_cache := (cache 1 1000 (fun d => disksize d = 1000)).
#[export] Instance ex_dv : BlockDriver := memide_driver ex_size.
#[export] Instance ex_driver : DriverOk ex_dv 1000 (fun d => disksize d = 1000) := memide_ok ex_size.

Lemma ex_read k : k <> 1 -> k <> 58 -> k <> 32 -> read_disk (fd ex_fs) 1 k = zero_block.
Proof.
  intros H1 H2 H3. unfold read_disk, disk. cbn. unfold ex_image. rewrite !lookup_insert_ne by congruence.
  rewrite lookup_singleton_ne; [done|congruence].
Qed.
Lemma ex_read_sb : read_disk (fd ex_fs) 1 1 = ex_sb.
Proof. reflexivity. Qed.
Lemma ex_read_size k : length (read_disk (fd ex_fs) 1 k) = Z.to_nat BSIZE.
Proof.
  destruct (decide (k = 1)) as [->|]; [rewrite ex_read_sb; unfold ex_sb; by rewrite !wr32_length|].
  destruct (decide (k = 58)) as [->|]; [reflexivity|]. destruct (decide (k = 32)) as [->|]; [reflexivity|].
  by rewrite ex_read.
Qed.

Lemma ex_blank : blank (bufs (ff ex_fs)).
Proof.
  split; [reflexivity|]. intros i b Hi Hb. cbn in Hb.
  apply (lookup_replicate (S (Z.to_nat NBUF)) zero_buf) in Hb as [-> _]. done.
Qed.

Lemma ex_cached :
  exists x, mrun ex_quiet binit ex_fs tt x /\ ex_cache x (read_disk (fd ex_fs) 1) ∅ ∅ ∅ /\
    bframe ex_fs x /\ fd x = fd ex_fs.
Proof.
  apply (binit_run (nblk := 1000) 0%nat ex_proc ex_quiet ex_calm ex_fs ex_blank); [done|].
  intros k _. apply ex_read_size.
Qed.

Lemma ex_geometry : geometry 1000 2 30.
Proof. by split_and!. Qed.
Lemma ex_txn0 : txn 1000 2 30 [].
Proof. split_and!; [apply NoDup_nil_2|set_solver|done]. Qed.
Lemma ex_head : head_of (read_disk (fd ex_fs) 1 2) [].
Proof. by rewrite ex_read. Qed.
Lemma ex_places : sb_places 2 30 (read_disk (fd ex_fs) 1 1).
Proof. by split. Qed.

(** After binit and initlog. *)
Lemma ex_booted :
  exists x V, mrun ex_quiet (binit ;; initlog 1) ex_fs tt x /\
    ex_cache x V ∅ ∅ ∅ /\ log_at x 2 30 [] /\ idle_log x /\ head_of (V 2) [] /\
    (forall k, k <> 2 -> V k = read_disk (fd ex_fs) 1 k) /\ sb_places 2 30 (V 1) /\ lframe ex_fs x.
Proof.
  destruct ex_cached as (x1 & R1 & C1 & F1 & E1).
  destruct (initlog_run (nblk := 1000) 0%nat ex_proc ex_quiet ex_calm 2 30 x1 (read_disk (fd ex_fs) 1) [] ex_geometry ex_txn0)
    as (x2 & R2 & C2 & L2 & F2 & E2); try done.
  - unfold log_boot. rewrite (bf_ff _ _ F1). by split.
  - eexists x2, _. split_and!; [|exact C2|exact L2| | | | |].
    + eapply mrun_bind; [exact R1|exact R2].
    + destruct F2 as [_ G1 G2]. split; [rewrite G1|rewrite G2]; by rewrite (bf_ff _ _ F1).
    + rewrite wview_app. cbn [wview foldl fst snd]. rewrite vset_eq. apply put_empty_head. by rewrite ex_read.
    + intros k Hk. cbn. by rewrite vset_ne by lia.
    + cbn. rewrite vset_ne by lia. apply ex_places.
    + etransitivity; [by apply bframe_lframe|apply F2].
Qed.

(** The disk image of block 700 of a transaction in progress, and its state before end_op. *)
Lemma ex_home : home 1000 2 30 700.
Proof. split; lia. Qed.
Lemma ex_txn1 : txn 1000 2 30 [700].
Proof. split_and!; [apply NoDup_singleton|intros h ->%list_elem_of_singleton; apply ex_home|done]. Qed.
Definition ex_data : list Z := wr32 zero_block 0 42.
Lemma ex_in_txn :
  exists x V, let V' := vset V 700 ex_data in
    ex_cache x V' {[700]} ∅ ∅ /\ log_at x 2 30 [700] /\ lg_outstanding (logs (ff x)) = 1 /\
    lg_committing (logs (ff x)) = 0 /\ head_of (V' 2) [] /\ sb_places 2 30 (V' 1).
Proof.
  destruct ex_booted as (x & V & _ & C & L & I & Hh & Hz & Hs & _).
  destruct (write_one_run 0%nat ex_proc ex_quiet ex_calm 2 30 x V 700 ex_data ex_geometry ltac:(done))
    as (x' & _ & C' & L' & O1 & O2 & _); [apply ex_home|done..|].
  exists x', V. cbn zeta. rewrite !vset_ne by done. split_and!; done.
Qed.

(** ** The file of inode 1, at rest *)

Lemma ex_BBLOCK b : 0 <= b < 1000 -> b / BPB + 58 = 58.
Proof. intros H. rewrite Z.div_small; [done|]. unfold BPB. change BSIZE with 512. lia. Qed.
Lemma ex_IBLOCK n : 0 <= n < 200 -> 32 <= n / IPB + 32 < 58.
Proof. change IPB with 8. intros H. Z.to_euclidean_division_equations; lia. Qed.
Lemma ex_geom : fs_geom (nblk := 1000) 2 30 ex_sblock.
Proof.
  split; cbn [sb_size sb_bmapstart sb_inodestart sb_ninodes ex_sblock]; try lia.
  - intros b Hb. rewrite ex_BBLOCK by done. split; lia.
  - intros n Hn. pose proof (ex_IBLOCK n Hn). split; lia.
  - intros b n Hb Hn. rewrite ex_BBLOCK by done. pose proof (ex_IBLOCK n Hn). lia.
Qed.
Lemma ex_home1 : home 1000 2 30 1.
Proof. split; lia. Qed.

Lemma ex_bit V b : V 58 = ex_bitmap -> 0 <= b < 1000 -> bit V ex_sblock b = bit_of ex_bitmap (b mod BPB).
Proof.
  intros E Hb. rewrite (bit_as_of (nblk := 1000) 2 30 V ex_sblock b ex_geom Hb).
  destruct (BBLOCK_eq 2 30 ex_geometry ex_sblock b ex_geom Hb) as [-> _].
  change (sb_bmapstart ex_sblock) with 58. by rewrite ex_BBLOCK, E.
Qed.
Lemma ex_bits : forallb (bit_of ex_bitmap) (range 0 59) = true.
Proof. vm_compute. reflexivity. Qed.
Lemma ex_marked V : V 58 = ex_bitmap -> marked (nblk := 1000) 2 30 ex_sblock V.
Proof.
  intros E b Hb. rewrite ex_bit by done. cbn [sb_size ex_sblock] in Hb.
  rewrite Z.mod_small by (unfold BPB; change BSIZE with 512; lia). intros Hbit.
  assert (59 <= b) as Hge.
  { destruct (decide (59 <= b)) as [|Hlt]; [done|]. pose proof ex_bits as Hall. rewrite forallb_forall in Hall.
    rewrite Hall in Hbit; [done|]. apply list_elem_of_In, elem_of_seqZ. lia. }
  split; [lia|]. split; [split; lia|]. intros [(a & Ha & Ea)|[(n & Hn & En)|Hle]]; [| |lia].
  - destruct (BBLOCK_eq 2 30 ex_geometry ex_sblock a ex_geom Ha) as [Ea' _]. rewrite Ea in Ea'.
    cbn [sb_bmapstart ex_sblock] in Ea'. rewrite ex_BBLOCK in Ea' by done. lia.
  - destruct (IBLOCK_eq 2 30 ex_geometry ex_sblock n ex_geom Hn) as [En' _]. rewrite En in En'.
    cbn [sb_inodestart ex_sblock] in En'. pose proof (ex_IBLOCK n Hn). lia.
Qed.
Lemma ex_free V : V 58 = ex_bitmap -> free_blocks ex_sblock V 8.
Proof.
  intros E. exists (range 100 108). split_and!; [apply NoDup_seqZ|done|].
  intros b Hb%elem_of_seqZ. split; [cbn; lia|]. rewrite ex_bit by (done || lia).
  rewrite Z.mod_small by (unfold BPB; change BSIZE with 512; lia).
  assert (b = 100 \/ b = 101 \/ b = 102 \/ b = 103 \/ b = 104 \/ b = 105 \/ b = 106 \/ b = 107) as Hor by lia.
  repeat destruct Hor as [->|Hor]; [vm_compute; reflexivity..|]. subst b. vm_compute. reflexivity.
Qed.

Lemma ex_faddr V n : inr n -> faddr V ex_inode n = 0.
Proof.
  intros _. unfold faddr. change (ind ex_inode) with 0. destruct (n <? NDIRECT); [|done].
  unfold nthz. destruct (n <? 0); [done|]. destruct (i_addrs ex_inode !! Z.to_nat n) as [a|] eqn:Ha; [|done].
  cbn [i_addrs ex_inode] in Ha. by apply lookup_replicate in Ha as [-> _].
Qed.
Lemma ex_good V : V 58 = ex_bitmap -> V 32 = ex_inodes -> file_good (nblk := 1000) 2 30 ex_sblock V ex_inode.
Proof.
  intros E1 E2. split; [by apply ex_marked| | | | | |].
  - split; try done; intros n; intros; rewrite ?ex_faddr in *; done.
  - done.
  - unfold shorts_ok. repeat (apply Forall_cons; split; [by vm_compute|]). by apply Forall_nil.
  - cbn. lia.
  - split; [split; [done|unfold MAXFILE; by vm_compute]|]. cbn. lia.
  - unfold synced, dinode. change (IBLOCK (i_inum ex_inode) ex_sblock) with 32. rewrite E2. vm_compute. reflexivity.
Qed.
Lemma ex_rest :
  exists x V, rest (nblk := 1000) (up := fun d => disksize d = 1000) ex_proc 2 30 ex_sblock x V 0 ex_inode /\
    V 58 = ex_bitmap /\ ftable (ff x) !! 0%nat = Some ex_file /\ V 1 = ex_sb /\
    lframe ex_fs x.
Proof.
  destruct ex_booted as (x & V & _ & C & L & I & Hh & Hz & Hs & F). exists x, V.
  assert (V 58 = ex_bitmap) as E1 by (by rewrite Hz by lia).
  split_and!; [|done|by rewrite (lf_ff _ _ F)|by rewrite Hz by lia|done]. split; try done.
  - by rewrite (lf_ff _ _ F).
  - by rewrite (lf_ff _ _ F).
  - by rewrite (lf_fl _ _ F).
  - apply ex_good; [done|]. by rewrite Hz by lia.
Qed.

(** ** ... and in an operation *)
Lemma ex_opened :
  exists x V, file_at (nblk := 1000) (up := fun d => disksize d = 1000) ex_proc 2 30 ex_sblock x V [] 0 ex_inode /\
    V 58 = ex_bitmap /\ V 1 = ex_sb /\ icache (ff x) = icache (ff ex_fs) /\ fl x !! SL_inode 1 = None.
Proof.
  destruct ex_rest as (x & V & Hx & Hb & _ & Hs & F).
  destruct (open_run 0%nat ex_proc ex_quiet ex_calm 2 30 ex_geometry ex_sblock ex_geom x V 0 ex_inode Hx ex_home1) as (_ & _ & Hat).
  exists (opened ex_proc 0 x), V. split_and!; try done.
  - cbn. by rewrite (lf_ff _ _ F).
  - unfold opened. cbn. rewrite lookup_insert_ne by done. by rewrite (lf_fl _ _ F).
Qed.
