(* ===== verification/PropBase.v ===== *)
(** * Properties of the base layers: locks, console output, pages, strings *)

From stdpp Require Import base list gmap strings fin_maps.
From S2P Require Import Prelude State Monad Spinlock Console Kalloc Str Example.
Open Scope Z_scope.

(** ** Spin locks *)

(** Any set of free locks can be taken one after the other and given back in any order: all
    of them are held by this processor in between, with interrupts off, and at the end the
    state is the one before, up to the saved interrupt flag of the processor. *)
Theorem locks_any_order (ls ls' : list lockid) e s :
  sync_ok (sync s) -> NoDup ls -> (forall l, l ∈ ls -> free l (sync s)) -> ls <> [] ->
  ls' ≡ₚ ls ->
  exists s1, acquire_all ls e s = Ret tt e s1 /\
    (forall l, l ∈ ls -> held (sync s1) !! l = Some (me (sync s))) /\ IF (sync s1) = false /\
    release_all ls' e s1 = Ret tt e (s <| sync ::= settle |>).
Proof.
  intros Hok Hnd Hfree Hne Hp. eexists. split; [by apply acquire_all_run|].
  split; [|split].
  - intros l Hl. cbn. by apply held_lock_all.
  - cbn. by apply IF_lock_all.
  - by rewrite (release_all_run ls ls' e _ (sync s)).
Qed.
Lemma locks_any_order_witness :
  exists s1, acquire_all [L_ide; L_ptable; L_kmem] [] ex_run = Ret tt [] s1 /\
    (forall l, l ∈ [L_ide; L_ptable; L_kmem] -> held (sync s1) !! l = Some (me (sync ex_run))) /\
    IF (sync s1) = false /\
    release_all [L_ptable; L_kmem; L_ide] [] s1 = Ret tt [] (ex_run <| sync ::= settle |>).
Proof.
  apply (locks_any_order [L_ide; L_ptable; L_kmem] [L_ptable; L_kmem; L_ide] [] ex_run).
  - exact ex_run_ok.
  - by apply (bool_decide_unpack _).
  - intros l _. exact (ex_run_free l).
  - done.
  - by apply (bool_decide_unpack _).
Defined.

(** C23. Mutual exclusion.  acquire on a lock this processor holds panics; on a free lock it
    returns with the lock held by this processor; on a lock held elsewhere it does not return as
    long as no other thread releases it. *)
Theorem acquire_excludes l e s :
  sync_ok (sync s) ->
  (held (sync s) !! l = Some (me (sync s)) -> exists s', acquire l e s = Panic "acquire" s') /\
  (held (sync s) !! l = None ->
     exists s', acquire l e s = Ret tt e s' /\ held (sync s') !! l = Some (me (sync s'))) /\
  (forall j, held (sync s) !! l = Some j -> j <> me (sync s) ->
     (forall f st, f ∈ e -> held (sync st) !! l <> None -> held (sync (f st)) !! l <> None) ->
     exists s', acquire l e s = Blocked s').
Proof.
  intros Hok. split_and!.
  - intros Hh. eexists. by apply acquire_held.
  - intros Hf. eexists. split; [by apply acquire_run|]. cbn. rewrite me_lock. apply lookup_insert_eq.
  - intros j Hj Hne Hkeep. apply acquire_blocks; [done|congruence|congruence|done].
Qed.
Lemma acquire_excludes_witness :
  exists s', acquire L_ptable [] (ex_run <| sync ::= lock_sync L_ptable |>) = Panic "acquire" s'.
Proof.
  apply (acquire_excludes L_ptable [] (ex_run <| sync ::= lock_sync L_ptable |>)).
  - exact (sync_ok_lock L_ptable _ ex_run_ok).
  - reflexivity.
Defined.

(** ** Console output *)

(** A number is printed so that it can be read back: printint in base 10 sends an optional
    minus sign and the digits of the absolute value, most significant first, for every 32-bit
    integer, the most negative one included. *)
Theorem printint_roundtrip xx e s :
  is_s32 xx -> con_ok (con s) ->
  exists ds, printint xx 10 1 e s =
      Ret tt e (s <| con ::= puts ((if xx <? 0 then [45] else []) ++ reverse ds) |>) /\
    numeral 10 ds = Z.abs xx.
Proof.
  intros Hx Hok. rewrite printint_run by (lia || done).
  destruct (int_text_decimal xx Hx) as (ds & -> & Hn). by exists ds.
Qed.
Lemma printint_roundtrip_witness :
  exists ds, printint (- 2 ^ 31) 10 1 [] ex_run =
      Ret tt [] (ex_run <| con ::= puts ((if - 2 ^ 31 <? 0 then [45] else []) ++ reverse ds) |>) /\
    numeral 10 ds = Z.abs (- 2 ^ 31).
Proof.
  apply (printint_roundtrip (- 2 ^ 31) [] ex_run).
  - unfold is_s32. lia.
  - exact (proj1 ex_run_print).
Defined.

(** cprintf prints the text its format and arguments denote, keeps the cursor inside the
    screen and the screen buffer intact, and changes nothing else but the saved interrupt flag. *)
Theorem cprintf_prints fmt argp text e s :
  render (str fmt) argp = Some text -> can_print s ->
  exists sy, cprintf fmt argp e s = Ret tt e (s <| con ::= puts text |> <| sync := sy |>) /\
    settled (sync s) sy /\ con_ok (puts text (con s)).
Proof.
  intros Hr (Hc & Hok & Hf). destruct (cprintf_run fmt argp text e s) as (sy & Hsy & Hrun); [done..|].
  exists sy. split; [done|]. split; [done|]. by apply puts_ok.
Qed.
Lemma cprintf_prints_witness :
  exists sy, cprintf "pid:%d name:%s" [AInt 42; AStr (str "sh")] [] ex_run =
      Ret tt [] (ex_run <| con ::= puts (str "pid:42 name:sh") |> <| sync := sy |>) /\
    settled (sync ex_run) sy /\ con_ok (puts (str "pid:42 name:sh") (con ex_run)).
Proof.
  apply (cprintf_prints "pid:%d name:%s" [AInt 42; AStr (str "sh")] (str "pid:42 name:sh") [] ex_run).
  - reflexivity.
  - exact ex_run_print.
Defined.

(** ** The page allocator *)

(** C1. No page is handed out twice.  Start with the pages [P] free, and let kernel code allocate,
    free what it was given, and write to the pages it holds, in any order: kalloc returns a page
    of [P] that is not in use, and it returns 0 only when every page of [P] is in use. *)
Theorem kalloc_no_alias (P : gset Z) s used st e :
  kmem_part P (s, ∅) -> rtc kstep (s, ∅) (st, used) ->
  exists r st', kalloc e st = Ret r e st' /\
    (r = 0 /\ used = P \/ r ∈ P ∖ used /\ is_page (l_end (link st)) r).
Proof.
  intros HP Hsteps.
  assert (kmem_part P (st, used)) as (pages & Hinv & Hready & Hdis & Hun & Hpg).
  { revert Hsteps. apply rtc_ind_r; [done|]. intros y z _ Hyz Hy. by eapply kmem_part_step. }
  destruct (kalloc_spec e st pages) as (s' & Hrun & _); [done..|].
  exists (default 0 (head pages)), s'. split; [done|]. cbn in *.
  destruct pages as [|v pages]; cbn in *; [left; set_solver|right].
  split; [set_solver|]. apply Hpg. set_solver.
Qed.
Lemma kalloc_no_alias_witness :
  exists r st', kalloc [] ex_mem = Ret r [] st' /\
    (r = 0 /\ ∅ = (list_to_set ex_pages : gset Z) \/
     r ∈ (list_to_set ex_pages : gset Z) ∖ ∅ /\ is_page (l_end (link ex_mem)) r).
Proof.
  apply (kalloc_no_alias (list_to_set ex_pages) ex_mem ∅ ex_mem []).
  - exists ex_pages. cbn. split; [apply ex_mem_inv|]. split; [exact ex_mem_ready|].
    split; [apply disjoint_empty_r|]. split; [apply (right_id_L ∅ (∪))|].
    intros v Hv. apply elem_of_list_to_set in Hv. revert v Hv. apply Forall_forall, ex_mem_inv.
  - constructor.
Defined.

(** freerange puts exactly the whole pages between its two addresses on the free list, each
    once. *)
Theorem freerange_frees vstart vend e s :
  kmem_inv s [] -> kmem_ready s -> l_end (link s) <= vstart ->
  vstart <= vend <= KERNBASE + PHYSTOP -> vend mod PGSIZE = 0 ->
  exists s' pages, freerange vstart vend e s = Ret tt e s' /\ kmem_frame s s' /\
    kmem_inv s' pages /\
    forall v, v ∈ pages <-> v mod PGSIZE = 0 /\ vstart <= v < vend.
Proof.
  intros Hinv Hready Hst Hend Hal.
  destruct (freerange_spec vstart vend e s) as (s' & Hrun & Hfr & Hinv'); [done..|].
  exists s', (reverse (kpages (PGROUNDUP vstart) ((vend - PGROUNDUP vstart) / PGSIZE))).
  split_and!; [done..|]. intros v. rewrite elem_of_reverse, elem_of_kpages.
  apply kpages_range; [|done..]. destruct Hinv as (Hen & _).
  unfold KERNBASE, PHYSTOP, PGSIZE in *. lia.
Qed.
Lemma freerange_frees_witness :
  exists s' pages, freerange ex_lo ex_hi [] ex_run = Ret tt [] s' /\ kmem_frame ex_run s' /\
    kmem_inv s' pages /\ forall v, v ∈ pages <-> v mod PGSIZE = 0 /\ ex_lo <= v < ex_hi.
Proof.
  apply (freerange_frees ex_lo ex_hi [] ex_run).
  - exact ex_run_kmem.
  - by left.
  - by vm_compute.
  - by vm_compute.
  - reflexivity.
Defined.

(** ** Strings *)

(** memmove copies [n] bytes whatever the overlap of the two blocks: every byte of the
    destination gets the byte the source had before the call, and no other byte changes. *)
Theorem memmove_copies {T} `{!ByteMem T} (t : T) dst src n a :
  block dst n -> block src n -> src + n < 2 ^ 32 -> is_addr a ->
  ldb (memmove t dst src n) a = if within dst n a then ldb t (a - dst + src) else ldb t a.
Proof. apply memmove_bytes. Qed.
Lemma memmove_copies_witness :
  ldb (memmove (<[0 := 0x44332211]> (∅ : gmap Z Z)) (KERNBASE + 1) KERNBASE 3) (KERNBASE + 3) = 0x33.
Proof.
  rewrite (memmove_copies (<[0 := 0x44332211]> (∅ : gmap Z Z)) (KERNBASE + 1) KERNBASE 3 (KERNBASE + 3)).
  - reflexivity.
  - unfold block, KERNBASE. lia.
  - unfold block, KERNBASE. lia.
  - unfold KERNBASE. lia.
  - unfold is_addr, KERNBASE. lia.
Defined.

(** safestrcpy leaves a terminated string: the destination holds the source string cut to
    n - 1 characters, and nothing outside its [n] bytes changes. *)
Theorem safestrcpy_terminates {T} `{!ByteMem T} (t : T) s src n :
  0 < n -> block s n -> is_addr src -> block src (n - 1) -> s + n <= src \/ src + n <= s + 1 ->
  cstr (safestrcpy t s src n) s (Z.to_nat n) = cstr t src (Z.to_nat (n - 1)) /\
  (length (cstr (safestrcpy t s src n) s (Z.to_nat n)) < Z.to_nat n)%nat /\
  forall a, is_addr a -> within s n a = false -> ldb (safestrcpy t s src n) a = ldb t a.
Proof.
  intros Hn Hs Ha Hsrc Hd. destruct (safestrcpy_cstr t s src n Hn Hs Ha Hsrc Hd) as [Hc Ho].
  split; [done|]. split; [|done]. rewrite Hc. pose proof (cstr_length t src (Z.to_nat (n - 1))). lia.
Qed.
Lemma safestrcpy_terminates_witness :
  cstr (safestrcpy (<[16 := 0x44332211]> (∅ : gmap Z Z)) KERNBASE (KERNBASE + 64) 3) KERNBASE 3 =
  [0x11; 0x22].
Proof.
  destruct (safestrcpy_terminates (<[16 := 0x44332211]> (∅ : gmap Z Z)) KERNBASE (KERNBASE + 64) 3)
    as [H _].
  - lia.
  - unfold block, KERNBASE. lia.
  - unfold is_addr, KERNBASE. lia.
  - unfold block, KERNBASE. lia.
  - left. lia.
  - exact H.
Defined.
