(* ===== verification/PropVm.v ===== *)
(** * Properties of virtual memory *)

From stdpp Require Import base list gmap strings fin_maps.
From S2P Require Import Prelude State Monad Spinlock Console Kalloc Str Vm VmProofs VmUser VmCopy Example.
Open Scope Z_scope.

(** ** The kernel part of a page table *)

(** The bits of an entry put together from a page address and flags. *)
Lemma entry_bits pa f :
  pa mod PGSIZE = 0 -> f = 1 \/ f = 3 ->
  has (pa + f) PTE_U = false /\ has (pa + f) PTE_P = true /\ has (pa + f) PTE_W = (f =? 3) /\
  PTE_ADDR (pa + f) = pa.
Proof.
  intros Hp Hf. assert (0 <= f < PGSIZE) by (unfold PGSIZE; lia).
  rewrite has_U, has_P, has_W, !testbit_join, PTE_ADDR_join by (done || lia).
  by destruct Hf as [-> | ->].
Qed.

(** The entry the rows of kmap give to [va]. *)
Lemma kmap_cases lk va :
  link_ok lk -> is_u32 va ->
  kmap_pte (kmap lk) va 0 =
  if DEVSPACE <=? va then PGROUNDDOWN va + 3
  else if (l_data lk <=? va) && (va <? KERNBASE + PHYSTOP) then PGROUNDDOWN (va - KERNBASE) + 3
  else if (KERNLINK <=? va) && (va <? l_data lk) then PGROUNDDOWN (va - KERNBASE) + 1
  else if (KERNBASE <=? va) && (va <? KERNLINK) then PGROUNDDOWN (va - KERNBASE) + 3
  else 0.
Proof.
  intros Hlk Hva. pose proof (in_kmap lk va Hlk Hva) as E.
  destruct Hlk as (Hal & Hd & He & Hp). rewrite !PGROUNDDOWN_eq.
  assert (V2P (l_data lk) = l_data lk - KERNBASE) as HV.
  { unfold V2P, KERNLINK, EXTMEM, KERNBASE, PHYSTOP in *. cint. }
  unfold kmap in *. cbn [map kmap_pte] in *. unfold mapped. unfold in_seg, seg_size in *.
  injection E as E1 E2 E3 E4. rewrite E1, E2, E3, E4, HV. clear E1 E2 E3 E4.
  change (Z.lor PTE_W PTE_P) with 3. change (Z.lor 0 PTE_P) with 1.
  change (V2P KERNLINK) with EXTMEM.
  repeat (destruct (_ <=? _)); repeat (destruct (_ <? _)); cbn [andb]; try done.
  all: unfold KERNLINK, EXTMEM, KERNBASE, DEVSPACE, PGSIZE in *; Z.div_mod_to_equations; lia.
Qed.

(** ** Page tables *)

(** C20. setupkvm builds the kernel part of an address space: exactly the kernel's own pages and
    the device space are mapped, each to its physical page, none is accessible to the user, and
    all but the kernel text are writable.  It fails only when few pages are free, and then gives
    every page back. *)
Theorem setupkvm_maps fr s e :
  kmem_inv s fr -> kmem_ready s -> KERNBASE < l_end (link s) -> link_ok (link s) ->
  exists dir s', setupkvm e s = Ret dir e s' /\ kmem_frame s s' /\
    same_outside fr (mem (vm s)) (mem (vm s')) /\
    if dir =? 0 then (length fr <= 1025)%nat /\ exists fr', kmem_inv s' fr' /\ fr' ≡ₚ fr
    else (exists tabs fr', as_inv fr dir tabs ∅ fr' s') /\
      forall va, is_u32 va ->
        let w := pte_of (mem (vm s')) dir va in
        let low := (KERNBASE <=? va) && (va <? KERNBASE + PHYSTOP) in
        let high := DEVSPACE <=? va in
        has w PTE_U = false /\ has w PTE_P = low || high /\
        has w PTE_W = (low || high) && negb ((KERNLINK <=? va) && (va <? l_data (link s))) /\
        (low || high = true -> PTE_ADDR w = PGROUNDDOWN (if high then va else va - KERNBASE)).
Proof.
  intros Hinv Hr He Hlk. destruct (setupkvm_spec fr s e Hinv Hr He Hlk) as (d & s' & Hrun & Hfr & Ho & Hd).
  exists d, s'. split_and!; try done. destruct Hd as [(-> & Hn & fr' & Hi & _ & HP)|(tabs & fr' & Has & Hp)].
  { split; [done|]. by exists fr'. }
  assert (d <> 0) as Hd0.
  { pose proof (pgt_dir_ok _ _ _ _ _ _ (proj1 Has)) as Hd. pose proof (do_dir _ _ _ Hd).
    pose proof (do_en _ _ _ Hd). unfold is_page, KERNBASE in *. lia. }
  rewrite (proj2 (Z.eqb_neq _ _) Hd0). split; [by exists tabs, fr'|]. intros va Hva. cbn zeta.
  rewrite Hp, kmap_cases by done. destruct Hlk as (_ & Hd1 & He1 & Hp1).
  assert (forall z, PGROUNDDOWN z mod PGSIZE = 0) as Hal.
  { intros z. rewrite PGROUNDDOWN_eq. unfold PGSIZE. Z.div_mod_to_equations; lia. }
  unfold KERNLINK, EXTMEM, KERNBASE, DEVSPACE, PHYSTOP in *.
  goal_bools; cbn [andb orb negb]; try lia; try done.
  all: match goal with |- context [has (?p + ?f) PTE_U] =>
    destruct (entry_bits p f (Hal _) ltac:(lia)) as (-> & -> & -> & ->) end; done.
Qed.
Lemma setupkvm_maps_witness :
  exists dir s', setupkvm [] ex_mem = Ret dir [] s' /\ dir <> 0.
Proof.
  destruct (setupkvm_maps ex_pages ex_mem []) as (dir & s' & Hrun & _ & _ & Hd).
  - apply ex_mem_inv.
  - exact ex_mem_ready.
  - by rewrite ex_mem_link.
  - rewrite ex_mem_link. exact ex_link_ok.
  - exists dir, s'. split; [exact Hrun|]. intros ->. destruct Hd as [Hn _].
    pose proof ex_pages_length. lia.
Defined.

(** C16. allocuvm grows an address space: every page between the two sizes gets a fresh frame of
    zeroes that the user can write, no other page changes its frame, contents or entry, and
    nothing outside the pages of this address space and the free list is touched.  It fails only
    when free pages are short.  Then every user page is as before, page by page, and the frames
    it had taken are free again; what the free list may still lack are pages that now serve as
    page tables of this address space, which deallocuvm leaves in place. *)
Theorem allocuvm_grows R dir tabs ufr fr s oldsz newsz e :
  as_inv R dir tabs ufr fr s -> can_print s -> 0 <= oldsz <= newsz -> newsz < KERNBASE ->
  let lo := (oldsz + PGSIZE - 1) / PGSIZE in
  (forall v, lo <= v -> v * PGSIZE < newsz -> ufr !! v = None) ->
  exists r tabs' ufr' fr' s', allocuvm dir oldsz newsz e s = Ret r e s' /\
    keeps (out_range lo newsz) R dir ufr s tabs' ufr' fr' s' /\ tabs ⊆ tabs' /\
    ((r = newsz /\ forall v, lo <= v -> v * PGSIZE < newsz -> fresh_at dir ufr' s' v) \/
     (r = 0 /\ ufr' = ufr /\ tpages tabs' ++ fr' ≡ₚ tpages tabs ++ fr /\
      Z.of_nat (length fr) <= 1024 + (newsz - PGSIZE * lo + PGSIZE - 1) / PGSIZE)).
Proof.
  intros H Hc [Ho Hle] Hn lo Hnone.
  destruct (allocuvm_spec dir oldsz newsz e Ho Hn R tabs ufr fr s H Hc Hle Hnone)
    as (r & tabs' & ufr' & fr' & s' & Hrun & Hk & Ht & Hr).
  exists r, tabs', ufr', fr', s'. do 3 (split; [done|]).
  destruct Hr as [?|(-> & -> & Hfr)]; [by left|right]. split_and!; try done.
  eapply pgt_region; [apply H|apply Hk].
Qed.
Lemma allocuvm_grows_witness :
  exists R dir tabs ufr fr s, as_inv R dir tabs ufr fr s /\
  exists s', allocuvm dir 8192 20000 [] s = Ret 20000 [] s'.
Proof.
  destruct ex_space as (R & dir & tabs & ufr & fr & s & H & Hc & _ & _ & _ & _ & _ & _ & _ & Hnone & Hn).
  exists R, dir, tabs, ufr, fr, s. split; [exact H|].
  destruct (allocuvm_grows R dir tabs ufr fr s 8192 20000 []) as (r & ? & ? & ? & s' & Hrun & _ & _ & Hr).
  - exact H.
  - exact Hc.
  - lia.
  - done.
  - intros v Hv _. apply Hnone. change ((8192 + PGSIZE - 1) / PGSIZE) with 2 in Hv. unfold PGSIZE. lia.
  - exists s'. destruct Hr as [[-> _]|(_ & _ & _ & Hx)]; [exact Hrun|].
    change (_ + _ / _) with 1027 in Hx. lia.
Defined.

(** C22. deallocuvm shrinks an address space: exactly the pages that start between the two sizes
    are unmapped and their frames freed, whatever page tables are missing; all other pages keep
    frame, contents and entry. *)
Theorem deallocuvm_shrinks R dir tabs ufr fr s oldsz newsz e :
  as_inv R dir tabs ufr fr s -> 0 <= newsz -> oldsz <= KERNBASE ->
  exists fr' s', deallocuvm dir oldsz newsz e s = Ret (Z.min oldsz newsz) e s' /\
    shrunk R dir tabs ufr s (drop_range ((newsz + PGSIZE - 1) / PGSIZE) oldsz ufr) fr' s'.
Proof. apply deallocuvm_spec. Qed.
Lemma deallocuvm_shrinks_witness :
  exists R dir tabs ufr fr s, as_inv R dir tabs ufr fr s /\ is_Some (ufr !! 1) /\
  exists s', deallocuvm dir 8192 4096 [] s = Ret 4096 [] s'.
Proof.
  destruct ex_space as (R & dir & tabs & ufr & fr & s & H & _ & _ & _ & _ & _ & _ & _ & Hf & _ & _).
  exists R, dir, tabs, ufr, fr, s. split; [exact H|]. split.
  { destruct (Hf 1) as (f & Hf1 & _); [lia|unfold PGSIZE; lia|]. by exists f. }
  destruct (deallocuvm_shrinks R dir tabs ufr fr s 8192 4096 []) as (fr' & s' & Hrun & _).
  - exact H.
  - lia.
  - unfold KERNBASE. lia.
  - exists s'. exact Hrun.
Defined.

(** C21. freevm leaks nothing: the directory, every page table and every user frame are back on
    the free list, each once, and nothing outside these pages is touched. *)
Theorem freevm_frees_all R dir tabs ufr fr s e :
  as_inv R dir tabs ufr fr s ->
  exists fr' s', freevm dir e s = Ret tt e s' /\ kmem_frame s s' /\
    kmem_inv s' fr' /\ fr' ≡ₚ R /\ same_outside R (mem (vm s)) (mem (vm s')).
Proof.
  intros H. destruct (freevm_spec R dir tabs ufr fr s e H) as (fr' & s' & Hr & Hi & _ & Hf & HP & Ho).
  by exists fr', s'.
Qed.
Lemma freevm_frees_all_witness :
  exists R dir s, (2 < length R)%nat /\
  exists fr' s', freevm dir [] s = Ret tt [] s' /\ kmem_inv s' fr' /\ fr' ≡ₚ R.
Proof.
  destruct ex_space as (R & dir & tabs & ufr & fr & s & H & _ & _ & _ & _ & _ & _ & _ & _ & _ & Hn).
  exists R, dir, s. split.
  { pose proof (pgt_length _ _ _ _ _ _ (proj1 H)). lia. }
  destruct (freevm_frees_all R dir tabs ufr fr s []) as (fr' & s' & Hrun & _ & Hi & HP & _).
  - exact H.
  - by exists fr', s'.
Defined.

(** C6. copyuvm gives the child a private copy of the parent's memory: the child's pages come
    from the free list, each page below [sz] has the parent's bytes and flags, nothing else is
    mapped but the kernel, and the parent's pages are untouched.  It fails only when free pages
    are short, and then the free pages are those of before. *)
Theorem copyuvm_isolates R pgdir tabs ufr fr s sz e :
  as_inv R pgdir tabs ufr fr s -> link_ok (link s) -> 0 <= sz <= KERNBASE ->
  (forall v, 0 <= v -> v * PGSIZE < sz -> is_Some (ufr !! v)) ->
  exists d s', copyuvm pgdir sz e s = Ret d e s' /\ vframe s s' /\
    agree (pgdir :: tpages tabs ++ tpages ufr) (mem (vm s)) (mem (vm s')) /\
    ((d = 0 /\ Z.of_nat (length fr) <= 1025 + (sz + PGSIZE - 1) / PGSIZE /\
      exists fr', kmem_inv s' fr' /\ fr' ≡ₚ fr) \/
     (exists tabs' ufr' fr', as_inv fr d tabs' ufr' fr' s' /\
        (forall v, 0 <= v -> v * PGSIZE < sz -> copy_at pgdir ufr s d ufr' s' v) /\
        (forall v, sz <= v * PGSIZE -> ufr' !! v = None) /\
        forall va, is_u32 va -> KERNBASE <= va ->
          pte_of (mem (vm s')) d va = kmap_pte (kmap (link s)) va 0)).
Proof.
  intros H Hlk Hsz Hall.
  destruct (copyuvm_spec R pgdir tabs ufr fr s sz e H Hlk Hsz Hall) as (d & s' & Hrun & Hv & Ho & Hd).
  exists d, s'. split; [done|]. split; [done|]. split.
  - pose proof (pgt_nodup _ _ _ _ _ _ (proj1 H)) as Hnd. rewrite app_assoc, app_comm_cons in Hnd.
    eapply outside_agree; [apply H|exact Ho| |].
    + intros p Hp. eapply pgt_is_page; [apply H|]. revert Hp. in_list.
    + intros p Hp Hp'. by eapply (NoDup_apart _ _ p p Hnd).
  - destruct Hd as [(-> & Hn & fr' & Hi & _ & HP)|Hd]; [left|by right]. split_and!; try done. by exists fr'.
Qed.
Lemma copyuvm_isolates_witness :
  exists R pgdir tabs ufr fr s, as_inv R pgdir tabs ufr fr s /\
  exists d s' ufr', copyuvm pgdir 8192 [] s = Ret d [] s' /\ copy_at pgdir ufr s d ufr' s' 1.
Proof.
  destruct ex_space as (R & dir & tabs & ufr & fr & s & H & _ & Hl & _ & _ & _ & _ & _ & Hf & _ & Hn).
  exists R, dir, tabs, ufr, fr, s. split; [exact H|].
  destruct (copyuvm_isolates R dir tabs ufr fr s 8192 []) as (d & s' & Hrun & _ & _ & Hd).
  - exact H.
  - rewrite Hl. exact ex_link_ok.
  - unfold KERNBASE. lia.
  - intros v Hv1 Hv2. destruct (Hf v Hv1 Hv2) as (f & Hf1 & _). by exists f.
  - destruct Hd as [(_ & Hx & _)|(tabs' & ufr' & fr' & _ & Hc & _)].
    + change (_ + _ / _) with 1027 in Hx. lia.
    + exists d, s', ufr'. split; [exact Hrun|]. apply Hc; unfold PGSIZE; lia.
Defined.
