(* ===== verification/PropIpc.v ===== *)
(** * Properties of message passing and containers *)

From stdpp Require Import base list gmap strings fin_maps.
From S2P Require Import Prelude State Monad Spinlock Console Kalloc Str Vm VmProofs VmUser Umem Sched.
From S2P Require Import Ipc Container Syscall Example.
Open Scope Z_scope.

(** ** The message queue against a bounded list *)

Inductive qop := Enq (item : list Z) | Deq.

Definition queue_step (op : qop) (q : queue) : Z * queue :=
  match op with Enq item => enqueue q item | Deq => dequeue q end.
Definition list_step (op : qop) (l : list (list Z)) : Z * list (list Z) :=
  match op, l with
  | Enq item, _ => if Z.of_nat (length l) =? MSGBUFFSIZE then (-1, l) else (0, l ++ [item])
  | Deq, [] => (-1, [])
  | Deq, _ :: l => (0, l)
  end.
Definition op_ok (op : qop) : Prop :=
  match op with Enq item => length item = 8%nat | Deq => True end.

(** The results of a sequence of operations, and what is left. *)
Fixpoint run_ops {A} (step : qop -> A -> Z * A) (ops : list qop) (a : A) : list Z * A :=
  match ops with
  | [] => ([], a)
  | op :: ops => let '(r, a) := step op a in let '(rs, a) := run_ops step ops a in (r :: rs, a)
  end.

Lemma queue_step_sim op q :
  queue_ok q -> op_ok op ->
  let '(r, q') := queue_step op q in
  queue_ok q' /\ list_step op (queue_list q) = (r, queue_list q').
Proof.
  intros Hq Hop. pose proof (qk_size _ Hq) as Hsz. destruct op as [item|]; cbn [queue_step list_step].
  - pose proof (enqueue_spec q item Hq Hop) as H. destruct (enqueue q item) as [r q'].
    destruct H as [Hq' H]. split; [done|].
    rewrite queue_list_length, Z2Nat.id by lia. destruct (q_size q =? MSGBUFFSIZE).
    + by destruct H as [-> ->].
    + by destruct H as [-> ->].
  - pose proof (dequeue_spec q Hq) as H. destruct (dequeue q) as [r q']. destruct H as [Hq' H].
    split; [done|]. destruct (queue_list q) as [|m rest] eqn:E.
    + destruct H as [-> ->]. by rewrite E.
    + destruct H as (-> & -> & _). done.
Qed.

Lemma run_ops_sim ops q :
  queue_ok q -> Forall op_ok ops ->
  let '(rs, q') := run_ops queue_step ops q in
  queue_ok q' /\ run_ops list_step ops (queue_list q) = (rs, queue_list q').
Proof.
  intros Hq Hops. revert q Hq. induction Hops as [|op ops Hop Hops IH]; intros q Hq; [done|].
  cbn [run_ops]. pose proof (queue_step_sim op q Hq Hop) as H.
  destruct (queue_step op q) as [r q1]. destruct H as [Hq1 ->].
  specialize (IH q1 Hq1). destruct (run_ops queue_step ops q1) as [rs q2].
  destruct IH as [Hq2 ->]. done.
Qed.

(** C7. The ring buffer of a message queue is a first-in first-out queue of at most 200
    messages: from the initial queue, any sequence of enqueue and dequeue gives the return codes
    and leaves the messages, in order, that a bounded list gives. *)
Theorem queue_is_fifo ops :
  Forall op_ok ops ->
  let '(rs, q) := run_ops queue_step ops zero_queue in
  queue_ok q /\ run_ops list_step ops [] = (rs, queue_list q).
Proof.
  intros Hops. destruct zero_queue_ok as [Hq Hl].
  pose proof (run_ops_sim ops zero_queue Hq Hops) as H. rewrite Hl in H. exact H.
Qed.
Lemma queue_is_fifo_witness :
  (run_ops queue_step [Deq; Enq (replicate 8 7); Enq (replicate 8 9); Deq] zero_queue).1 = [-1; 0; 0; 0].
Proof.
  pose proof (queue_is_fifo [Deq; Enq (replicate 8 7); Enq (replicate 8 9); Deq]) as H.
  destruct (run_ops queue_step _ zero_queue) as [rs q]. cbn in H.
  destruct H as [_ [= <- _]]; [|reflexivity]. by repeat constructor.
Defined.

(** ** send and recv *)

(** C30. send wakes the receiver if it sleeps on its own channel and appends the eight bytes of
    the message to the receiver's queue when there is room; memory and every other queue stay. *)
Theorem send_appends sp pid msg p pr q pas e s :
  nprocs s -> sync_ok (sync s) -> free L_ptable (sync s) ->
  findi (fun pr => p_pid pr =? pid) (procs (pt s)) = Some p -> procs (pt s) !! p = Some pr ->
  1 <= pid -> msg_queue (ipc s) !! Z.to_nat (pid - 1) = Some q ->
  free (L_msgq (Z.to_nat (pid - 1))) (sync s) ->
  is_u32 msg -> ubuf (vm s) msg pas -> length pas = 8%nat ->
  queue_ok q -> q_size q <> MSGBUFFSIZE ->
  exists q' s', send sp pid msg e s = Ret 0 e s' /\
    msg_queue (ipc s') = <[Z.to_nat (pid - 1) := q']> (msg_queue (ipc s)) /\
    queue_ok q' /\ queue_list q' = queue_list q ++ [byte_at (mem (vm s)) <$> pas] /\
    vm s' = vm s /\ held (sync s') = held (sync s) /\
    procs (pt s') = (if is_state SLEEPING pr then map (wake (Some (Ch_proc p))) else id) (procs (pt s)).
Proof.
  intros Hn Hok Hpt Hp Hpr Hpid Hq Hfree Hmsg Hbuf Hlen Hqok Hroom.
  edestruct (send_ok pid msg p pr q pas s) as (q' & Hq' & Hl & Hrun); try done.
  exists q'. eexists. split; [exact Hrun|].
  destruct (roused_keep p pr s) as (Hi & Hv & Hs). cbn. rewrite Hi, Hv.
  split_and!; try done.
  - by rewrite (settled_held _ _ Hs).
  - unfold roused. by destruct (is_state SLEEPING pr).
Qed.
Lemma send_appends_witness :
  exists s q' s', send 1 1 0 [] s = Ret 0 [] s' /\ msg_queue (ipc s') !! 0%nat = Some q' /\
    queue_list q' = [replicate 8 0].
Proof.
  destruct (ex_uspace zero_tf) as (dir & R & tabs & ufr & fr & s & Hu & Hc & Hn & _ & Hi & Hf & Hb & Hw).
  pose proof Hu as (Hok & [Hcp Hp] & Has & Hcr & _ & Hmap). exists s.
  destruct (send_appends 1 1 0 0%nat (ex_uproc dir zero_tf) zero_queue (uphys ufr <$> seqZ 0 8) [] s)
    as (q' & s' & Hrun & Hq & _ & Hl & _).
  - exact Hn.
  - exact Hok.
  - apply Hf.
  - apply findi_Some. split; [by eexists|lia].
  - exact Hp.
  - lia.
  - by rewrite Hi.
  - apply Hf.
  - unfold is_u32. lia.
  - apply (as_ubuf _ _ _ _ _ _ Has); [exact Hcr|lia|unfold KERNBASE; lia|].
    intros a Ha. split; [apply Hmap; cbn; lia|apply Hw; lia].
  - reflexivity.
  - apply zero_queue_ok.
  - done.
  - exists q', s'. split; [exact Hrun|]. split; [rewrite Hq, Hi; reflexivity|].
    rewrite Hl, (proj2 zero_queue_ok). cbn [app]. f_equal.
    rewrite <-list_fmap_compose. change (replicate 8 0) with ((fun _ => 0) <$> seqZ 0 8).
    apply list_fmap_ext. intros i a Ha%list_elem_of_lookup_2%elem_of_seqZ. cbn. apply Hb. lia.
Defined.

(** C34. When the queue is full, send returns -1 and keeps the queue's lock: the next send to
    that process from this processor panics. *)
Theorem send_full_wedges sp pid msg p pr q pas e s :
  nprocs s -> sync_ok (sync s) -> free L_ptable (sync s) ->
  findi (fun pr => p_pid pr =? pid) (procs (pt s)) = Some p -> procs (pt s) !! p = Some pr ->
  1 <= pid -> msg_queue (ipc s) !! Z.to_nat (pid - 1) = Some q ->
  free (L_msgq (Z.to_nat (pid - 1))) (sync s) ->
  is_u32 msg -> ubuf (vm s) msg pas -> length pas = 8%nat ->
  q_size q = MSGBUFFSIZE ->
  exists s1, send sp pid msg e s = Ret (-1) e s1 /\
    held (sync s1) !! L_msgq (Z.to_nat (pid - 1)) = Some (me (sync s1)) /\
    forall sp' msg' e', exists s2, send sp' pid msg' e' s1 = Panic "acquire" s2.
Proof.
  intros Hn Hok Hpt Hp Hpr Hpid Hq Hfree Hmsg Hbuf Hlen Hfull.
  destruct (roused_keep p pr s) as (Hi & Hv & Hs). destruct (roused_pids p pr pid s) as [Hf Hn1].
  destruct (receiver_roused pid p pr s Hp Hpr) as (pr' & Hpr' & _).
  eexists. split; [by eapply send_full|]. split.
  - cbn. by rewrite me_lock, lookup_insert_eq.
  - intros sp' msg' e'. eapply (send_locked pid msg' p pr' q); cbn; eauto with xv6.
    + by rewrite Hf.
    + by rewrite Hi.
    + by rewrite me_lock, lookup_insert_eq.
Qed.
(** A queue that took 200 messages. *)
Definition full_queue : queue :=
  (run_ops queue_step (replicate 200 (Enq (replicate 8 7))) zero_queue).2.
Lemma send_full_wedges_witness :
  exists s s1 s2, send 1 1 0 [] s = Ret (-1) [] s1 /\ send 1 1 0 [] s1 = Panic "acquire" s2.
Proof.
  destruct (ex_uspace zero_tf) as (dir & R & tabs & ufr & fr & s & Hu & Hc & Hn & _ & Hi & Hf & Hb & Hw).
  pose proof Hu as (Hok & [Hcp Hp] & Has & Hcr & _ & Hmap).
  exists (s <| ipc ::= fun x => x <| msg_queue ::= <[0%nat := full_queue]> |> |>).
  destruct (send_full_wedges 1 1 0 0%nat (ex_uproc dir zero_tf) full_queue (uphys ufr <$> seqZ 0 8) []
              (s <| ipc ::= fun x => x <| msg_queue ::= <[0%nat := full_queue]> |> |>))
    as (s1 & Hrun & _ & Hnext).
  - exact Hn.
  - exact Hok.
  - apply Hf.
  - apply findi_Some. split; [by eexists|lia].
  - exact Hp.
  - lia.
  - cbn. by rewrite Hi.
  - apply Hf.
  - unfold is_u32. lia.
  - apply (as_ubuf _ _ _ _ _ _ Has); [exact Hcr|lia|unfold KERNBASE; lia|].
    intros a Ha. split; [apply Hmap; cbn; lia|apply Hw; lia].
  - reflexivity.
  - by vm_compute.
  - destruct (Hnext 1 0 []) as (s2 & H2). by exists s1, s2.
Defined.

(** C31. recv takes the oldest message off the caller's queue and writes its bytes, up to the
    first zero byte and zeros after it, to the caller's buffer; the lock is free again. *)
Theorem recv_pops p pr q m rest msg pas e s :
  sync_ok (sync s) -> running p pr s -> 1 <= p_pid pr ->
  msg_queue (ipc s) !! Z.to_nat (p_pid pr - 1) = Some q -> queue_ok q ->
  free (L_msgq (Z.to_nat (p_pid pr - 1))) (sync s) ->
  queue_list q = m :: rest -> q_front q <> MSGBUFFSIZE - 1 ->
  is_u32 msg -> ubuf (vm s) msg pas -> length pas = 8%nat ->
  exists q' s', recv msg e s = Ret 0 e s' /\
    msg_queue (ipc s') = <[Z.to_nat (p_pid pr - 1) := q']> (msg_queue (ipc s)) /\
    queue_ok q' /\ queue_list q' = rest /\ pt s' = pt s /\ held (sync s') = held (sync s) /\
    (forall pa, pa ∉ pas -> byte_at (mem (vm s')) pa = byte_at (mem (vm s)) pa) /\
    byte_at (mem (vm s')) <$> pas = u8 <$> strn 8 m.
Proof.
  intros Hok [Hc Hp] Hpid Hq Hqok Hfree Hl Hfr Hmsg Hbuf Hlen.
  rewrite recv_run by done. rewrite Hc. cbn [the_proc]. erewrite bind_Ret by reflexivity.
  erewrite bind_Ret by (by apply getp_run).
  erewrite bind_Ret by (apply get_queue_run; [lia|exact Hq]).
  assert (q_size q <> 0) as Hsz.
  { intros E. pose proof (queue_list_length q). rewrite Hl, E in H. by specialize (H ltac:(lia)). }
  rewrite (proj2 (Z.eqb_neq _ _) Hsz). cbn [when]. erewrite bind_Ret by reflexivity.
  destruct (recv_takes (p_pid pr - 1) msg q pas (s <| sync ::= settle |>)) with (m := m) (rest := rest) (e := e)
    as (q' & Hq' & Hl' & Hrun); try done; cbn; auto with xv6; [lia|].
  exists q'. eexists. split; [exact Hrun|]. cbn -[strn]. split_and!; try done.
  - intros pa Hpa. by apply set_bytes_out.
  - apply set_bytes_in; [apply Hbuf|]. by rewrite strn_length.
Qed.

(** A queue that holds one message. *)
Definition one_queue : queue := (enqueue zero_queue (str "messages")).2.
Lemma recv_pops_witness :
  exists s q' s', recv 0 [] s = Ret 0 [] s' /\ msg_queue (ipc s') !! 0%nat = Some q' /\
    queue_list q' = [] /\
    exists pas, length pas = 8%nat /\ byte_at (mem (vm s')) <$> pas = str "messages".
Proof.
  destruct (ex_uspace zero_tf) as (dir & R & tabs & ufr & fr & s & Hu & Hc & Hn & _ & Hi & Hf & Hb & Hw).
  pose proof Hu as (Hok & [Hcp Hp] & Has & Hcr & _ & Hmap).
  exists (s <| ipc ::= fun x => x <| msg_queue ::= <[0%nat := one_queue]> |> |>).
  destruct (recv_pops 0%nat (ex_uproc dir zero_tf) one_queue (str "messages") [] 0 (uphys ufr <$> seqZ 0 8) []
              (s <| ipc ::= fun x => x <| msg_queue ::= <[0%nat := one_queue]> |> |>))
    as (q' & s' & Hrun & Hq & _ & Hl & _ & _ & _ & Hbytes).
  - exact Hok.
  - by split.
  - cbn. lia.
  - cbn. by rewrite Hi.
  - pose proof (enqueue_spec zero_queue (str "messages") (proj1 zero_queue_ok) eq_refl) as H.
    unfold one_queue. destruct (enqueue zero_queue (str "messages")). apply H.
  - apply Hf.
  - reflexivity.
  - by vm_compute.
  - unfold is_u32. lia.
  - apply (as_ubuf _ _ _ _ _ _ Has); [exact Hcr|lia|unfold KERNBASE; lia|].
    intros a Ha. split; [apply Hmap; cbn; lia|apply Hw; lia].
  - reflexivity.
  - exists q', s'. split; [exact Hrun|]. split; [rewrite Hq; cbn; by rewrite Hi|].
    split; [exact Hl|]. exists (uphys ufr <$> seqZ 0 8). split; [reflexivity|exact Hbytes].
Defined.

(** C32. front() does not reduce its index modulo the ring size: once the front of the ring is
    its last row, recv reads the message outside the array. *)
Theorem recv_overruns p pr q m rest msg e s :
  sync_ok (sync s) -> running p pr s -> 1 <= p_pid pr ->
  msg_queue (ipc s) !! Z.to_nat (p_pid pr - 1) = Some q -> queue_ok q ->
  free (L_msgq (Z.to_nat (p_pid pr - 1))) (sync s) ->
  queue_list q = m :: rest -> q_front q = MSGBUFFSIZE - 1 ->
  exists s', recv msg e s = Undef "array[front + 1]" s'.
Proof.
  intros Hok [Hc Hp] Hpid Hq Hqok Hfree Hl Hfr.
  rewrite recv_run by done. rewrite Hc. cbn [the_proc]. erewrite bind_Ret by reflexivity.
  erewrite bind_Ret by (by apply getp_run).
  erewrite bind_Ret by (apply get_queue_run; [lia|exact Hq]).
  assert (q_size q <> 0) as Hsz.
  { intros E. pose proof (queue_list_length q). rewrite Hl, E in H. by specialize (H ltac:(lia)). }
  rewrite (proj2 (Z.eqb_neq _ _) Hsz). cbn [when]. erewrite bind_Ret by reflexivity.
  eapply (recv_wraps (p_pid pr - 1) msg q); try done; cbn; auto with xv6. lia.
Qed.
(** A queue through which 199 messages went and that holds the next one. *)
Definition wrapped_queue : queue :=
  (run_ops queue_step (concat (replicate 199 [Enq (str "messages"); Deq]) ++ [Enq (str "messages")])
           zero_queue).2.
Lemma wrapped_queue_ok : queue_ok wrapped_queue.
Proof.
  unfold wrapped_queue. set (ops := concat _ ++ _).
  pose proof (run_ops_sim ops zero_queue (proj1 zero_queue_ok)) as H.
  destruct (run_ops queue_step ops zero_queue) as [rs q]. apply H.
  apply Forall_app. split; [|by repeat constructor].
  apply Forall_concat, Forall_replicate. by repeat constructor.
Qed.
Lemma recv_overruns_witness :
  exists s s', recv 0 [] s = Undef "array[front + 1]" s'.
Proof.
  exists (ex_run <| ipc ::= fun x => x <| msg_queue ::= <[0%nat := wrapped_queue]> |> |>).
  apply (recv_overruns 0%nat ex_proc wrapped_queue (str "messages") []).
  - exact ex_run_ok.
  - by split.
  - cbn. lia.
  - reflexivity.
  - exact wrapped_queue_ok.
  - apply ex_run_free.
  - by vm_compute.
  - by vm_compute.
Defined.

(** C33. recv tests the size of its queue before it takes ptable.lock.  When the lock is held
    elsewhere at that moment and a message has come into the queue by the time it is released,
    recv goes to sleep with the message in its queue: it does not test the queue again. *)
Theorem recv_loses_wakeup p pr q f msg s s1 sy1 q1 :
  sync_ok (sync s) -> running p pr s -> ncli (my (sync s)) = 0 -> 1 <= p_pid pr ->
  msg_queue (ipc s) !! Z.to_nat (p_pid pr - 1) = Some q -> q_size q = 0 ->
  held (sync s) !! L_ptable <> Some (me (sync s)) -> held (sync s) !! L_ptable <> None ->
  f (s <| sync ::= push |>) = s1 ->
  sync s1 = push sy1 -> sync_ok sy1 -> free L_ptable sy1 -> ncli (my sy1) = 0 ->
  c_proc (my sy1) = Some p -> is_Some (procs (pt s1) !! p) ->
  msg_queue (ipc s1) !! Z.to_nat (p_pid pr - 1) = Some q1 -> queue_list q1 <> [] ->
  exists s', recv msg [f] s = Blocked s' /\
    msg_queue (ipc s') !! Z.to_nat (p_pid pr - 1) = Some q1 /\
    exists pr', procs (pt s') !! p = Some pr' /\ p_state pr' = SLEEPING /\ p_chan pr' = Some (Ch_proc p).
Proof.
  intros Hok [Hc Hp] Hn Hpid Hq Hz Hh Hh' Hf Hs1 Hok1 Hf1 Hn1 Hc1 [pr1 Hp1] Hq1 _. eexists.
  split; [by eapply (recv_sleeps p pr q f msg s s1 sy1)|]. split; [done|].
  eexists. split; [cbn; by rewrite list_lookup_alter_eq, Hp1|done].
Qed.
(** Another processor holds ptable.lock; by the time it releases the lock a message is queued. *)
Definition ex_busy : kstate :=
  ex_run <| sync ::= fun sy => sy <| held := {[L_ptable := 1%nat]} |> |>.
Definition ex_sender (s : kstate) : kstate :=
  s <| ipc ::= fun x => x <| msg_queue ::= <[0%nat := one_queue]> |> |>
    <| sync ::= fun sy => sy <| held ::= delete L_ptable |> |>.
Lemma recv_loses_wakeup_witness :
  exists s', recv 0 [ex_sender] ex_busy = Blocked s' /\ msg_queue (ipc s') !! 0%nat = Some one_queue.
Proof.
  destruct (recv_loses_wakeup 0%nat ex_proc zero_queue ex_sender 0 ex_busy
              (ex_sender (ex_busy <| sync ::= push |>)) (sync ex_run) one_queue) as (s' & Hrun & Hq & _).
  - exact ex_run_ok.
  - by split.
  - reflexivity.
  - cbn. lia.
  - reflexivity.
  - reflexivity.
  - by vm_compute.
  - by vm_compute.
  - reflexivity.
  - by vm_compute.
  - exact ex_run_ok.
  - apply ex_run_free.
  - reflexivity.
  - reflexivity.
  - by eexists.
  - reflexivity.
  - by vm_compute.
  - exists s'. split; [exact Hrun|exact Hq].
Defined.

(** ** Containers *)

Inductive ctn_op := Create (c : container) | Destroy (id : Z).

Definition ctn_exec (op : ctn_op) : M Z :=
  match op with Create c => create_container c | Destroy id => destroy_container id end.
Fixpoint ctn_run (ops : list ctn_op) : M (list Z) :=
  match ops with
  | [] => ret []
  | op :: ops => r ← ctn_exec op ; rs ← ctn_run ops ; ret (r :: rs)
  end.

(** An allocator of the identifiers [ids]: the results a sequence of operations may have. *)
Inductive alloc_run : gset Z -> list ctn_op -> list Z -> gset Z -> Prop :=
| alloc_done A : alloc_run A [] [] A
| alloc_new A c ops r rs B :
    r ∈ ids ∖ A -> alloc_run ({[r]} ∪ A) ops rs B -> alloc_run A (Create c :: ops) (r :: rs) B
| alloc_full c ops rs B :
    alloc_run ids ops rs B -> alloc_run ids (Create c :: ops) (-1 :: rs) B
| alloc_drop A id ops rs B :
    id ∈ A -> alloc_run (A ∖ {[id]}) ops rs B -> alloc_run A (Destroy id :: ops) (0 :: rs) B
| alloc_unknown A id ops rs B :
    id ∉ A -> alloc_run A ops rs B -> alloc_run A (Destroy id :: ops) (-1 :: rs) B.

Definition op_container_ok (op : ctn_op) : Prop :=
  match op with Create c => container_ok c | Destroy _ => True end.

Lemma ctn_step_ctn x s s' : ctn_step x s s' -> ctn s' = x.
Proof. by intros (k & sy & -> & _). Qed.

(** C29. The container table is an allocator of identifiers: in any sequence of create_container
    and destroy_container every call returns, create gives an identifier not in use, or -1
    exactly when all are in use, and destroy succeeds exactly on identifiers in use. *)
Theorem containers_allocate ops e s :
  ctn_ok (ctn s) -> can_print s -> Forall op_container_ok ops ->
  exists rs s', ctn_run ops e s = Ret rs e s' /\ ctn_ok (ctn s') /\ can_print s' /\
    alloc_run (live (ctn s)) ops rs (live (ctn s')).
Proof.
  intros Hok Hcp Hops. revert s Hok Hcp.
  induction Hops as [|op ops Hop Hops IH]; intros s Hok Hcp; cbn [ctn_run].
  { exists [], s. split; [done|]. split; [done|]. split; [done|]. constructor. }
  destruct op as [c|id]; cbn [ctn_exec].
  - destruct (create_run c e s Hok Hop Hcp) as (s1 & Hrun & Hst).
    pose proof (ctn_step_ctn _ _ _ Hst) as Hx. erewrite bind_Ret by exact Hrun.
    assert (can_print s1) as Hcp1 by (eapply can_print_talk; [exact Hst|exact Hcp]).
    destruct (Z.eqb_spec (c_pointer (ctn s)) (-1)) as [E|E].
    + destruct (IH s1) as (rs & s2 & Hrun2 & Hok2 & Hcp2 & Hal); [by rewrite Hx|done|].
      exists (-1 :: rs), s2. erewrite bind_Ret by exact Hrun2. rewrite E.
      split; [done|]. split; [done|]. split; [done|].
      rewrite Hx, pointer_full in * by done. by apply alloc_full.
    + destruct (created_ok c (ctn s) Hok Hop E) as [Hok1 Hl].
      destruct (IH s1) as (rs & s2 & Hrun2 & Hok2 & Hcp2 & Hal); [by rewrite Hx|done|].
      exists (c_pointer (ctn s) :: rs), s2. erewrite bind_Ret by exact Hrun2.
      split; [done|]. split; [done|]. split; [done|].
      apply alloc_new; [by apply pointer_free|]. by rewrite Hx, Hl in Hal.
  - destruct (destroy_run id e s Hok Hcp) as (x & s1 & Hrun & Hst & Hok1 & Hl).
    pose proof (ctn_step_ctn _ _ _ Hst) as Hx. erewrite bind_Ret by exact Hrun.
    assert (can_print s1) as Hcp1 by (eapply can_print_talk; [exact Hst|exact Hcp]).
    destruct (IH s1) as (rs & s2 & Hrun2 & Hok2 & Hcp2 & Hal); [by rewrite Hx|done|].
    eexists (_ :: rs), s2. erewrite bind_Ret by exact Hrun2. rewrite Hx, Hl in Hal.
    split; [done|]. split; [done|]. split; [done|]. case_bool_decide as Hin.
    + by apply alloc_drop.
    + apply alloc_unknown; [done|]. by rewrite difference_disjoint_L in Hal by set_solver.
Qed.
Lemma ex_run_ctn : ctn_ok (ctn ex_run).
Proof.
  split; [split; [done|done|]|right; done]. by repeat constructor.
Qed.
Lemma containers_allocate_witness :
  exists rs s', ctn_run [Create zero_container; Create zero_container; Create zero_container; Destroy 0;
                         Create zero_container] [] ex_run = Ret rs [] s' /\
    alloc_run (live (ctn ex_run)) [Create zero_container; Create zero_container; Create zero_container;
                                   Destroy 0; Create zero_container] rs (live (ctn s')).
Proof.
  destruct (containers_allocate [Create zero_container; Create zero_container; Create zero_container;
    Destroy 0; Create zero_container] [] ex_run) as (rs & s' & Hrun & _ & _ & Hal).
  - exact ex_run_ctn.
  - exact ex_run_print.
  - by repeat constructor.
  - exists rs, s'. split; [exact Hrun|exact Hal].
Defined.

(** C35. A process that joins a container cannot leave it: join_container returns 0 and records
    the process as an active member, but sets the container of a copy of the process structure
    only, so leave_container finds no container, returns -1 and the membership stays. *)
Theorem join_cannot_leave id c p pr e s :
  ctn_ok (ctn s) -> can_print s -> running p pr s -> p_container_id pr = -1 ->
  id ∈ live (ctn s) -> container_table (ctn s) !! Z.to_nat id = Some c ->
  0 <= ct_process_pointer c < NPROC_CONTAINER ->
  exists s1 s2, join_container id e s = Ret 0 e s1 /\ leave_container e s1 = Ret (-1) e s2 /\
    exists c', container_table (ctn s2) !! Z.to_nat id = Some c' /\
      lookupz (ct_process_active c') (ct_process_pointer c) = Some 1.
Proof.
  intros Hok Hcp Hr Hcid Hlive Hc Hpp.
  destruct (join_run id c p pr e s Hok Hcp Hr Hlive Hc Hpp) as (s1 & Hrun & Hst).
  pose proof (ctn_step_ctn _ _ _ Hst) as Hx. destruct Hok as [Hsh Hptr].
  assert (running p pr s1) as Hr1.
  { destruct Hst as (k & sy & -> & _ & Hsy). destruct Hr as [Hr1 Hr2]. split; [|done]. cbn.
    rewrite <-Hr1. apply settled_cproc; [apply Hcp|done]. }
  assert (can_print s1) as Hcp1 by (eapply can_print_talk; [exact Hst|exact Hcp]).
  assert (ctn_ok (ctn s1)) as Hok1.
  { rewrite Hx. split; [|exact Hptr]. apply shape_table; [done|]. intros c0 Hc0.
    destruct (enrol_ok (pr <| p_container_id := c_pointer (ctn s) |> <| p_cont := Some (Z.to_nat id) |>) c0 Hc0).
    by split. }
  destruct (leave_refused p pr e s1 Hok1 Hcp1 Hr1) as (s2 & Hrun2 & Ht2).
  { rewrite Hcid. intros [H _]%elem_of_live. lia. }
  exists s1, s2. split; [done|]. split; [done|].
  assert (ctn s2 = ctn s1) as -> by (by destruct Ht2 as (? & ? & -> & _)).
  rewrite Hx. unfold joined. cbn. rewrite list_lookup_alter_eq, Hc. eexists. split; [done|].
  apply elem_of_live in Hlive as [Hid _].
  destruct (container_entry (ctn s) id Hsh Hid) as (c0 & Hc0 & _ & Hlen).
  apply lookupz_Some in Hc0 as [_ Hc0]. rewrite Hc in Hc0. injection Hc0 as <-.
  cbn. unfold lookupz. destruct (Z.ltb_spec (ct_process_pointer c) 0); [lia|].
  apply list_lookup_insert_eq. rewrite Hlen. lia.
Qed.
(** One container is active. *)
Definition ex_ctn : kstate := state_of (create_container zero_container [] ex_run) ex_run.
Lemma ex_ctn_ok :
  ctn_ok (ctn ex_ctn) /\ can_print ex_ctn /\ running 0 ex_proc ex_ctn /\ 0 ∈ live (ctn ex_ctn) /\
  container_table (ctn ex_ctn) !! 0%nat = Some (init_container zero_container 0).
Proof.
  unfold ex_ctn.
  destruct (create_run zero_container [] ex_run ex_run_ctn) as (s' & Hrun & Hst); [done|exact ex_run_print|].
  rewrite Hrun. clear Hrun. cbn [state_of]. change (c_pointer (ctn ex_run) =? -1) with false in Hst. cbv iota in Hst.
  pose proof (ctn_step_ctn _ _ _ Hst) as Hx.
  destruct (created_ok zero_container (ctn ex_run) ex_run_ctn) as [Hok Hl]; [by split|by vm_compute|].
  rewrite Hx. split; [exact Hok|]. split; [eapply can_print_talk; [exact Hst|exact ex_run_print]|].
  split; [|split; [rewrite Hl; apply elem_of_union_l, elem_of_singleton_2; reflexivity|reflexivity]].
  destruct Hst as (k & sy & -> & _ & Hsy). split; [|reflexivity].
  apply (settled_cproc _ _ ex_run_ok Hsy).
Qed.
Lemma join_cannot_leave_witness :
  exists s1 s2, join_container 0 [] ex_ctn = Ret 0 [] s1 /\ leave_container [] s1 = Ret (-1) [] s2.
Proof.
  destruct ex_ctn_ok as (Hok & Hcp & Hr & Hl & Hc).
  destruct (join_cannot_leave 0 (init_container zero_container 0) 0%nat ex_proc [] ex_ctn)
    as (s1 & s2 & H1 & H2 & _).
  - exact Hok.
  - exact Hcp.
  - exact Hr.
  - reflexivity.
  - exact Hl.
  - exact Hc.
  - cbn. unfold NPROC_CONTAINER. lia.
  - exists s1, s2. split; [exact H1|exact H2].
Defined.
