(* ===== verification/PropProc.v ===== *)
(** * Properties of scheduling, the process table and system calls *)

From stdpp Require Import base list gmap strings fin_maps.
From S2P Require Import Prelude State Monad Spinlock Console Kalloc Str Vm VmProofs VmUser Umem Sched Interfere.
From S2P Require Import Syscall Trap Example.
Open Scope Z_scope.

(** ** Sleeping and waking *)

(** C8. No wakeup is lost.  A process tests a condition under [lk], finds it false and calls
    sleep; around each lock operation of sleep the other processors take steps of their own,
    [f1] to [f4], and may change the condition under [lk], or wake sleepers under ptable.lock,
    whenever sleep does not hold that lock.  When sleep gives the processor up, ptable.lock is
    held, the process is recorded as asleep on the channel and no other entry of the table has
    changed since the lock was taken; if the condition has become true by then, the processor
    that made it true still holds [lk], so that its wakeup is yet to come; and a wakeup on the
    channel that finds the process so makes it runnable. *)
Theorem sleep_is_atomic ch lk (cond : kstate -> Prop) p pr sy s f1 f2 f3 f4 e :
  lk <> L_ptable -> (forall t sy', cond (t <| sync := sy' |>) <-> cond t) ->
  (forall t g, cond (upd_procs g t) <-> cond t) ->
  only_lock lk p sy s -> ~ cond s -> (forall f, f ∈ [f1; f2; f3; f4] -> forall t, others lk cond t (f t)) ->
  free L_ptable (sync (f1 s)) -> procs (pt (f1 s)) !! p = Some pr ->
  exists s1, sleep_on acquire_i release_i ch lk (f1 :: f2 :: f3 :: f4 :: e) s =
      (switch ;; sleep_tail_i lk p (IF sy)) e s1 /\
    held (sync s1) !! L_ptable = Some (me (sync s1)) /\
    procs (pt s1) !! p = Some (pr <| p_chan := Some ch |> <| p_state := SLEEPING |>) /\
    (forall j, j <> p -> procs (pt s1) !! j = procs (pt (f1 s)) !! j) /\
    (cond s1 -> exists o, held (sync s1) !! lk = Some o /\ o <> me (sync s1)) /\
    forall st e', nprocs st -> procs (pt st) !! p = procs (pt s1) !! p ->
      exists st', wakeup1 (Some ch) e' st = Ret tt e' st' /\
        procs (pt st') !! p = Some (pr <| p_chan := Some ch |> <| p_state := RUNNABLE |>).
Proof.
  intros Hne Hcs Hcp Hl Hc Hf Hfree Hp.
  destruct (sleep_interfered ch lk Hne cond Hcs Hcp p pr sy s f1 f2 f3 f4 e Hl Hc Hf Hfree Hp)
    as (s1 & Hrun & Hm & Hw & Ht).
  assert (procs (pt s1) !! p = Some (pr <| p_chan := Some ch |> <| p_state := SLEEPING |>)) as E.
  { by rewrite Ht, list_lookup_alter_eq, Hp. }
  exists s1. split; [exact Hrun|]. split; [exact Hm|]. split; [exact E|].
  split; [intros j Hj; rewrite Ht; by apply list_lookup_alter_ne|]. split; [exact Hw|].
  intros st e' Hn Hst. eexists. split; [by apply wakeup1_run|].
  change (map (wake (Some ch))) with (fmap (M := list) (wake (Some ch))). cbn.
  rewrite list_lookup_fmap, Hst, E. cbn. unfold wake. cbn. by rewrite bool_decide_true.
Qed.
(** Process 0 holds the tick lock; processor 1 handles the clock interrupt, which counts a tick
    and wakes the sleepers on it, and tries to do so at each of its turns. *)
Definition ex_ticking : kstate := ex_run <| sync ::= lock_sync L_tick |>.
Definition ex_clock : kstate -> kstate :=
  waker 1 Ch_ticks L_tick (fun t => t <| ticks ::= Z.succ |>).
Lemma sleep_is_atomic_witness :
  exists s1, sleep_on acquire_i release_i Ch_ticks L_tick [ex_clock; ex_clock; ex_clock; ex_clock] ex_ticking =
      (switch ;; sleep_tail_i L_tick 0 (IF (sync ex_run))) [] s1 /\
    (ticks s1 <> 0 -> exists o, held (sync s1) !! L_tick = Some o /\ o <> me (sync s1)).
Proof.
  destruct (sleep_is_atomic Ch_ticks L_tick (fun t => ticks t <> 0) 0%nat ex_proc (sync ex_run) ex_ticking
              ex_clock ex_clock ex_clock ex_clock []) as (s1 & Hrun & _ & _ & _ & Hw & _).
  - done.
  - done.
  - done.
  - repeat split. exact ex_run_ok.
  - intros H. by apply H.
  - intros f Hf t. assert (f = ex_clock) as -> by set_solver. by apply waker_others.
  - by vm_compute.
  - reflexivity.
  - exists s1. split; [exact Hrun|exact Hw].
Defined.

(** kill marks exactly the first process with the given pid, and makes it runnable if it
    sleeps; without such a process it returns -1 and changes nothing. *)
Theorem kill_marks pid e s :
  nprocs s -> sync_ok (sync s) -> free L_ptable (sync s) ->
  exists r s', kill pid e s = Ret r e s' /\ held (sync s') = held (sync s) /\
    match findi (fun p => p_pid p =? pid) (procs (pt s)) with
    | Some i => r = 0 /\ procs (pt s') = alter killed_proc i (procs (pt s))
    | None => r = -1 /\ procs (pt s') = procs (pt s)
    end.
Proof.
  intros Hn Hok Hf. rewrite kill_run by done.
  destruct (findi _ _) as [i|]; eexists _, _; (split; [done|]); done.
Qed.
Lemma kill_marks_witness :
  exists r s', kill 1 [] ex_run = Ret r [] s' /\ r = 0.
Proof.
  destruct (kill_marks 1 [] ex_run) as (r & s' & Hrun & _ & H).
  - reflexivity.
  - exact ex_run_ok.
  - apply ex_run_free.
  - exists r, s'. split; [exact Hrun|]. apply H.
Defined.

(** ** Allocation of processes *)

Definition pids_below (s : kstate) : Prop :=
  forall i p, procs (pt s) !! i = Some p -> p_pid p < nextpid (pt s).

(** C24. allocproc takes a slot that was UNUSED, gives it a pid no other process has and a page
    of its own as kernel stack, and leaves every other slot alone; it fails only when there is
    no UNUSED slot or no free page. *)
Theorem allocproc_fresh e s pages :
  nprocs s -> sync_ok (sync s) -> free L_ptable (sync s) -> free L_kmem (sync s) ->
  kmem_inv s pages -> pids_below s -> nextpid (pt s) < 2 ^ 31 - 1 ->
  exists r s', allocproc e s = Ret r e s' /\ proc_frame s s' /\ pids_below s' /\
    match r with
    | None => findi (is_state UNUSED) (procs (pt s)) = None \/ pages = []
    | Some i => exists k rest old, pages = k :: rest /\ kmem_inv s' rest /\
        procs (pt s) !! i = Some old /\ p_state old = UNUSED /\
        procs (pt s') !! i = Some (fresh_proc (nextpid (pt s)) k old) /\
        (forall j p, procs (pt s') !! j = Some p -> p_pid p = nextpid (pt s) -> j = i) /\
        (forall j, j <> i -> procs (pt s') !! j = procs (pt s) !! j) /\
        forall a, ~ in_page k a -> word_at (mem (vm s')) a = word_at (mem (vm s)) a
    end.
Proof.
  intros Hn Hok Hf Hk Hinv Hpids Hnp.
  pose proof (allocproc_spec e s pages Hn Hok Hf Hk Hinv Hnp) as H.
  destruct (findi (is_state UNUSED) (procs (pt s))) as [i|] eqn:Hi.
  2:{ exists None. eexists. split; [exact H|]. split; [|split; [exact Hpids|by left]].
      exists (pt s), (mem (vm s)), (freelist (vm s)), (settle (sync s)). split; [|apply settled_settle].
      by destruct s as [? ? ? ? ? ? [] ? ? ? ?]. }
  destruct H as (s' & Hrun & Hps & Hnx & Hfr & Hinv' & Hmem).
  eexists _, s'. split; [exact Hrun|]. split; [done|].
  apply findi_Some in Hi as [(old & Hold & Hun) _]. apply bool_decide_eq_true in Hun.
  assert (forall k p, p_pid (fresh_proc (nextpid (pt s)) k p) = nextpid (pt s)) as Hpid.
  { intros k p. unfold fresh_proc. by destruct (k =? 0). }
  split.
  { intros j p. rewrite Hps, Hnx. destruct (decide (j = i)) as [->|Hne].
    - rewrite list_lookup_alter_eq, Hold. intros [= <-]. rewrite Hpid. lia.
    - rewrite list_lookup_alter_ne by done. intros Hp. specialize (Hpids _ _ Hp). lia. }
  destruct pages as [|k rest]; [by right|]. cbn in *. unfold id in *.
  assert (k <> 0) as Hk0.
  { destruct Hinv as (? & _ & _ & Hpg). apply Forall_cons in Hpg as [Hpg _].
    unfold is_page, KERNBASE in *. lia. }
  rewrite (proj2 (Z.eqb_neq _ _) Hk0). exists k, rest, old. rewrite Hps. split_and!; try done.
  - by rewrite list_lookup_alter_eq, Hold.
  - intros j p. destruct (decide (j = i)) as [->|Hne]; [done|].
    rewrite list_lookup_alter_ne by done. intros Hp. specialize (Hpids _ _ Hp). lia.
  - intros j Hne. by apply list_lookup_alter_ne.
  - intros a Ha. by apply Hmem.
Qed.
Lemma ex_mem_frame : exists m fl sy,
  ex_mem = ex_run <| vm ::= fun w => w <| mem := m |> <| freelist := fl |> |> <| sync := sy |> /\
  settled (sync ex_run) sy.
Proof. exact (proj2 ex_mem_inv). Qed.
Lemma ex_mem_sync : sync_ok (sync ex_mem) /\ (forall l, free l (sync ex_mem)) /\ pt ex_mem = pt ex_run.
Proof.
  destruct ex_mem_frame as (m & fl & sy & -> & Hs). split; [|split; [|reflexivity]].
  - exact (settled_ok _ _ Hs ex_run_ok).
  - intros l. exact (settled_free l _ _ Hs (ex_run_free l)).
Qed.
Lemma ex_run_pids : pids_below ex_run.
Proof.
  intros i p. cbn. destruct i as [|i]; cbn; [by intros [= <-]|].
  intros [-> _]%lookup_replicate. done.
Qed.
Lemma allocproc_fresh_witness :
  exists i s', allocproc [] ex_mem = Ret (Some i) [] s'.
Proof.
  destruct ex_mem_sync as (Hok & Hf & Hpt).
  destruct (allocproc_fresh [] ex_mem ex_pages) as (r & s' & Hrun & _ & _ & Hr).
  - unfold nprocs. by rewrite Hpt.
  - exact Hok.
  - apply Hf.
  - apply Hf.
  - apply ex_mem_inv.
  - unfold pids_below. rewrite Hpt. exact ex_run_pids.
  - by rewrite Hpt.
  - destruct r as [i|]; [exists i, s'; exact Hrun|]. exfalso. rewrite Hpt in Hr.
    destruct Hr as [Hr|Hr]; [by vm_compute in Hr|]. pose proof ex_pages_length as Hl. by rewrite Hr in Hl.
Defined.

(** C39. kill(0) finds an UNUSED slot, whose pid is 0, and marks it killed.  allocproc does not
    clear the mark: the next process created there is born killed. *)
Theorem kill_zero_taints i e s pages :
  nprocs s -> sync_ok (sync s) -> free L_ptable (sync s) -> free L_kmem (sync s) ->
  kmem_inv s pages -> pages <> [] -> nextpid (pt s) < 2 ^ 31 - 1 ->
  findi (is_state UNUSED) (procs (pt s)) = Some i ->
  findi (fun p => p_pid p =? 0) (procs (pt s)) = Some i ->
  exists s1 s2 pr, kill 0 e s = Ret 0 e s1 /\ allocproc e s1 = Ret (Some i) e s2 /\
    procs (pt s2) !! i = Some pr /\ p_state pr = EMBRYO /\ p_pid pr = nextpid (pt s) /\ p_killed pr = 1.
Proof.
  intros Hn Hok Hf Hk Hinv Hne Hnp Hu Hz. rewrite kill_run, Hz by done.
  eexists. set (s1 := _ <| sync ::= settle |>).
  pose proof (proj1 (findi_Some _ _ _) Hu) as [(old & Hold & Hun) Hbefore].
  assert (findi (is_state UNUSED) (procs (pt s1)) = Some i) as Hu1.
  { apply findi_Some. cbn. split.
    - exists (killed_proc old). rewrite list_lookup_alter_eq, Hold. split; [done|].
      apply bool_decide_eq_true in Hun. unfold is_state, killed_proc. cbn. by rewrite Hun.
    - intros j y Hj. rewrite list_lookup_alter_ne by lia. by apply Hbefore. }
  pose proof (allocproc_spec e s1 pages) as H. rewrite Hu1 in H.
  destruct H as (s2 & Hrun & Hps & _); try done.
  { unfold nprocs. cbn. by rewrite length_alter. }
  { cbn. auto with xv6. }
  destruct pages as [|k rest]; [done|]. cbn in Hrun. unfold id in Hrun.
  assert (k <> 0) as Hk0.
  { destruct Hinv as (? & _ & _ & Hpg). apply Forall_cons in Hpg as [Hpg _].
    unfold is_page, KERNBASE in *. lia. }
  rewrite (proj2 (Z.eqb_neq _ _) Hk0) in Hrun.
  exists s2. eexists. split; [done|]. split; [exact Hrun|]. rewrite Hps. cbn.
  rewrite !list_lookup_alter_eq, Hold. split; [done|]. unfold fresh_proc, id.
  rewrite (proj2 (Z.eqb_neq _ _) Hk0). done.
Qed.
Lemma kill_zero_taints_witness :
  exists s1 s2, kill 0 [] ex_mem = Ret 0 [] s1 /\ allocproc [] s1 = Ret (Some 1%nat) [] s2.
Proof.
  destruct ex_mem_sync as (Hok & Hf & Hpt).
  destruct (kill_zero_taints 1%nat [] ex_mem ex_pages) as (s1 & s2 & pr & H1 & H2 & _).
  - unfold nprocs. by rewrite Hpt.
  - exact Hok.
  - apply Hf.
  - apply Hf.
  - apply ex_mem_inv.
  - intros Hr. pose proof ex_pages_length as Hl. by rewrite Hr in Hl.
  - by rewrite Hpt.
  - rewrite Hpt. by vm_compute.
  - rewrite Hpt. by vm_compute.
  - exists s1, s2. split; [exact H1|exact H2].
Defined.

(** ** System calls *)

(** C25. The kernel never follows a bad user pointer while it fetches arguments: a word, a string
    or a block is accepted exactly when all its bytes lie below the size of the process, the word
    and the string length are those of the process's memory, and anything else gives an error
    value. *)
Theorem arguments_checked p pr R tabs ufr fr s n size e :
  uspace p pr R tabs ufr fr s -> is_s32 size ->
  let s1 := s <| sync ::= settle |> in
  argint n e s = Ret (arg_at pr ufr s n) e s1 /\
  argptr n size e s =
    Ret (arg_at pr ufr s n ≫= fun a =>
           if bool_decide (0 <= size /\ u32 a < p_sz pr /\ u32 a + size <= p_sz pr)
           then Some (u32 a) else None) e s1 /\
  argstr n e s =
    Ret (arg_at pr ufr s n ≫= fun a =>
           (fun l => (u32 a, Z.of_nat l)) <$>
             findi (fun b => b =? 0) (ubyte ufr s <$> seqZ (u32 a) (p_sz pr - u32 a))) e s1.
Proof.
  intros Hu Hs. split; [by eapply argint_run|]. split; [by eapply argptr_run|by eapply argstr_run].
Qed.
Lemma arguments_checked_witness :
  exists s, argptr 0 100 [] s = Ret (Some 0) [] (s <| sync ::= settle |>) /\
    argptr 0 9000 [] s = Ret None [] (s <| sync ::= settle |>).
Proof.
  destruct (ex_uspace (zero_tf <| esp := 64 |>)) as (dir & R & tabs & ufr & fr & s & Hu & _ & _ & _ & _ & _ & Hb & _).
  assert (arg_at (ex_uproc dir (zero_tf <| esp := 64 |>)) ufr s 0 = Some 0) as Ha.
  { unfold arg_at. cbn. change (u32 (64 + 4 + 4 * 0)) with 68. unfold le32. rewrite !Hb by lia. reflexivity. }
  exists s. split.
  - destruct (arguments_checked 0%nat (ex_uproc dir (zero_tf <| esp := 64 |>)) R tabs ufr fr s 0 100 [])
      as (_ & H & _); [exact Hu|unfold is_s32; lia|]. rewrite H, Ha. reflexivity.
  - destruct (arguments_checked 0%nat (ex_uproc dir (zero_tf <| esp := 64 |>)) R tabs ufr fr s 0 9000 [])
      as (_ & H & _); [exact Hu|unfold is_s32; lia|]. rewrite H, Ha. reflexivity.
Defined.

(** Process 0 makes call [n], with tracing on or off. *)
Definition ex_calling (n tr : Z) : kstate :=
  ex_run <| trc ::= fun t => t <| trace := tr |> |>
         <| pt ::= fun t => t <| procs ::= <[0%nat := ex_proc <| p_tf := zero_tf <| eax := n |> |>]> |> |>.

(** C40. The counters have 33 entries for 37 calls: with tracing on, the calls numbered 34 and up
    are counted outside the array. *)
Theorem trace_overruns p pr e s :
  sync_ok (sync s) -> running p pr s -> length (counter (trc s)) = Z.to_nat num_syscall ->
  trace (trc s) = 1 -> forall table h, let num := s32 (eax (p_tf pr)) in
  num_syscall < num -> lookupz table num = Some (Some h) ->
  syscall table e s = Undef "counter[num-1]" (s <| sync ::= settle |>).
Proof.
  intros Hok Hr Hl Ht table h num Hnum Hh. eapply (syscall_overrun table p pr h); try done.
  apply lookupz_Some in Hh as [Hx _]. unfold num_syscall in *. lia.
Qed.
(** Tracing is on and process 0 makes call 35. *)
Definition ex_traced : kstate := ex_calling 35 1.
Lemma trace_overruns_witness :
  syscall (replicate 38 (Some (ret 0))) [] ex_traced = Undef "counter[num-1]" (ex_traced <| sync ::= settle |>).
Proof.
  apply (trace_overruns 0%nat (ex_proc <| p_tf := zero_tf <| eax := 35 |> |>) [] ex_traced) with (h := ret 0).
  - exact ex_run_ok.
  - by split.
  - reflexivity.
  - reflexivity.
  - by vm_compute.
  - reflexivity.
Defined.

(** The names print_count prints are those of syscall.h up to number 28; from SYS_store on
    every count is printed under the name of another call. *)
Theorem trace_names_shift i nm nm' :
  syscall_arr !! i = Some nm -> syscall_names !! i = Some nm' ->
  nm = String.append "sys_" nm' <-> (i < 28)%nat.
Proof.
  intros Hn Hn'. split.
  - intros E. destruct (decide (i < 28)%nat); [done|]. exfalso.
    by apply (names_differ i nm nm' Hn Hn'); [lia|].
  - intros Hi. pose proof names_agree as E.
    assert (take 28 syscall_arr !! i = Some nm) as H1 by (by rewrite lookup_take_lt).
    rewrite E, list_lookup_fmap, lookup_take_lt, Hn' in H1 by done. by injection H1.
Qed.
Lemma trace_names_shift_witness : "sys_leave_container"%string <> String.append "sys_" "read_mean".
Proof.
  intros E. apply (trace_names_shift 31%nat "sys_leave_container" "read_mean") in E.
  - lia.
  - reflexivity.
  - reflexivity.
Defined.
