(* ===== verification/PropFs.v ===== *)
(** * Properties of the file system *)

From stdpp Require Import base list gmap strings fin_maps.
From S2P Require Import Prelude State Monad Spinlock Console Kalloc Str Vm Sched Sleeplock Calm Disk Bio.
From S2P Require Import BioProofs Log LogLayout LogProofs Inode BlockProofs InodeProofs ConsoleDev Fs FileProofs Pipe File.
From S2P Require Import WriteProofs Example ExampleFs.
Open Scope Z_scope.

(** C2. A commit is atomic.  Let the transaction [hs] be in the log of a running system, with
    the old contents of its blocks on the disk and the new contents [V] in the buffer cache.
    commit completes, and if the machine stops after any number of its block writes [ws1] and
    is rebooted, binit and initlog bring the disk to a state in which every block outside the
    log has its old contents, or every one has its new contents. *)
Theorem commit_is_atomic {dv nblk up} {Hdrv : DriverOk dv nblk up} p pr s0 start sz x V hs :
  calm p pr s0 -> geometry nblk start sz -> home nblk start sz 1 -> read_disk (fd x) 1 1 = V 1 ->
  txn nblk start sz hs -> hs <> [] -> log_at x start sz hs ->
  cache (p_pid pr) nblk up x V (list_to_set hs) ∅ ∅ ->
  head_of (V start) [] -> sb_places start sz (V 1) ->
  exists ws x', mrun s0 commit x tt x' /\ fd x' = wrote ws (fd x) /\
    (forall k, home nblk start sz k -> read_disk (fd x') 1 k = V k) /\
    forall ws1 ws2, ws = ws1 ++ ws2 ->
    forall p' pr' s1 y, calm p' pr' s1 -> blank (bufs (ff y)) -> log_boot y -> fd y = wrote ws1 (fd x) ->
    exists y', mrun s1 (binit ;; initlog 1) y tt y' /\ log_at y' start sz [] /\
      ((forall k, home nblk start sz k -> read_disk (fd y') 1 k = read_disk (fd x) 1 k) \/
       (forall k, home nblk start sz k -> read_disk (fd y') 1 k = V k)).
Proof.
  intros Hcalm Hg H1 Hsame Ht Hne Hl Hc Hh Hsb.
  destruct (commit_run p pr s0 Hcalm start sz x V hs Hg Ht Hne Hl Hc) as (x' & R & C & F & E).
  exists (commit_writes start V hs), x'. split_and!; [done|done| |].
  - intros k Hk. pose proof (ca_disk _ _ _ _ _ _ _ _ C k (proj1 Hk)) as ->; [|set_solver..].
    apply (crash_done V V hs Hg Ht); [done|by eapply ca_size|done].
  - intros ws1 ws2 Hws p' pr' s1 y Hcalm' Hb Hlb Hy.
    apply (crash_run p' pr' s1 Hcalm' start sz (p_pid pr) x V hs ws1 ws2); try done. by destruct hs.
Qed.

Lemma commit_is_atomic_witness :
  exists x V ws x', V 700 = ex_data /\ mrun ex_quiet commit x tt x' /\ fd x' = wrote ws (fd x) /\
    read_disk (fd x') 1 700 = ex_data /\
    exists y', mrun ex_quiet (binit ;; initlog 1) (mkFsys ∅ (ff ex_fs) (wrote [] (fd x))) tt y' /\
      (read_disk (fd y') 1 700 = read_disk (fd x) 1 700 \/ read_disk (fd y') 1 700 = ex_data).
Proof.
  destruct ex_in_txn as (x & V & C & L & O1 & O2 & Hh & Hs).
  destruct (commit_is_atomic 0%nat ex_proc ex_quiet 2 30 x (vset V 700 ex_data) [700] ex_calm ex_geometry)
    as (ws & x' & R & E & Hd & Hcrash); try done.
  - split; lia.
  - eapply ca_disk; [exact C|lia|apply not_elem_of_singleton; lia|set_solver].
  - apply ex_txn1.
  - exists x, (vset V 700 ex_data), ws, x'. split_and!; [apply vset_eq|exact R|exact E| |].
    + rewrite (Hd 700 ex_home). apply vset_eq.
    + destruct (Hcrash [] ws eq_refl 0%nat ex_proc ex_quiet (mkFsys ∅ (ff ex_fs) (wrote [] (fd x))) ex_calm)
        as (y' & R' & _ & Hor); [apply ex_blank|done|done|].
      exists y'. split; [done|]. destruct Hor as [Hor|Hor]; [left|right]; rewrite (Hor 700 ex_home); [done|apply vset_eq].
Defined.

(** C12. The buffer cache is coherent.  In a cache of the contents [V] in which the blocks [D]
    are pinned and the buffers [L] are in use, bread of a block [k] no one holds returns a free
    buffer, locked, whose data is [V k]: whether it was cached, or read from the disk into a
    buffer that was neither in use nor pinned.  Nothing is written, and the cache stays coherent.
    It needs a buffer that is not in use or pinned only if the block is not itself pinned. *)
Theorem bread_coherent {dv nblk up} {Hdrv : DriverOk dv nblk up} p pr s0 x V D W L k :
  calm p pr s0 -> cache (p_pid pr) nblk up x V D W L -> 0 <= k < nblk -> (forall j, L !! j <> Some k) ->
  k ∈ D \/ (size D + size L < bhead)%nat ->
  exists i x' b, mrun s0 (bread 1 k) x i x' /\ L !! i = None /\
    bufs (ff x') !! i = Some b /\ b_data b = V k /\ fl x' !! SL_buf i = Some (p_pid pr) /\
    cache (p_pid pr) nblk up x' V D W (<[i := k]> L) /\ fd x' = fd x.
Proof.
  intros Hcalm Hc Hk Hf Hsz. destruct (bread_run p pr s0 Hcalm k x V D W L Hc Hk Hf Hsz) as (i & x' & R & Hi & C & _ & E).
  destruct (slots_held _ _ _ _ _ _ _ i k (ca_slots _ _ _ _ _ _ _ _ C)) as (b & Hb & _ & Hl & _ & _ & _ & _ & Ed & _).
  { apply lookup_insert_eq. }
  by exists i, x', b.
Qed.

Lemma bread_coherent_witness :
  exists x i x' b, mrun ex_quiet (bread 1 1) x i x' /\ bufs (ff x') !! i = Some b /\ b_data b = ex_sb.
Proof.
  destruct ex_cached as (x & _ & C & _ & _).
  destruct (bread_coherent 0%nat ex_proc ex_quiet x (read_disk (fd ex_fs) 1) ∅ ∅ ∅ 1 ex_calm C)
    as (i & x' & b & R & _ & Hb & Ed & _).
  - lia.
  - intros j. by rewrite lookup_empty.
  - right. rewrite size_empty, map_size_empty. change bhead with 30%nat. lia.
  - exists x, i, x', b. by rewrite Ed.
Defined.

(** A transaction is durable: begin_op, a write of block [k] through bread, log_write and
    brelse, and end_op end with the new block on the disk, every other block outside the log
    as it was, no block pinned or locked and the log empty. *)
Theorem transaction_durable {dv nblk up} {Hdrv : DriverOk dv nblk up} p pr s0 start sz x V k d :
  calm p pr s0 -> geometry nblk start sz -> 2 < sz -> home nblk start sz k ->
  log_at x start sz [] -> idle_log x -> cache (p_pid pr) nblk up x V ∅ ∅ ∅ -> length d = Z.to_nat BSIZE ->
  exists x' V', mrun s0 (write_one k d ;; end_op) x tt x' /\ cache (p_pid pr) nblk up x' V' ∅ ∅ ∅ /\
    log_at x' start sz [] /\ idle_log x' /\ read_disk (fd x') 1 k = d /\
    forall j, home nblk start sz j -> j <> k -> read_disk (fd x') 1 j = read_disk (fd x) 1 j.
Proof.
  intros Hcalm Hg Hsz Hk L I C Hd.
  destruct (write_one_run p pr s0 Hcalm start sz x V k d Hg Hsz Hk L I C Hd) as (x1 & R1 & C1 & L1 & O1 & O2 & E1).
  assert (txn nblk start sz [k]) as Ht.
  { split_and!; [apply NoDup_singleton|intros h ->%list_elem_of_singleton; done|cbn; lia]. }
  destruct (end_op_run p pr s0 Hcalm start sz x1 (vset V k d) [k] Hg Ht L1) as (x2 & R2 & C2 & L2 & I2 & F2 & E2);
    [cbn; by rewrite union_empty_r_L|done|done|].
  assert (forall j, home nblk start sz j -> read_disk (fd x2) 1 j = vset V k d j) as Hr.
  { intros j Hj. pose proof (ca_disk _ _ _ _ _ _ _ _ C2 j (proj1 Hj)) as ->; [|set_solver..].
    eapply end_writes_home; [exact Hg|exact Ht|apply (ca_size _ _ _ _ _ _ _ _ C1)|done]. }
  exists x2, (wview (end_writes start (vset V k d) [k]) (vset V k d)). split_and!; try done.
  - by eapply mrun_bind.
  - rewrite Hr by done. apply vset_eq.
  - intros j Hj Hne. rewrite Hr, vset_ne by done. symmetry. eapply ca_disk; [exact C|apply Hj|set_solver..].
Qed.

Lemma transaction_durable_witness :
  exists x x', mrun ex_quiet (write_one 700 ex_data ;; end_op) x tt x' /\ read_disk (fd x') 1 700 = ex_data.
Proof.
  destruct ex_booted as (x & V & _ & C & L & I & _).
  destruct (transaction_durable 0%nat ex_proc ex_quiet 2 30 x V 700 ex_data ex_calm ex_geometry)
    as (x' & V' & R & _ & _ & _ & Hd & _); [done|apply ex_home|done..|].
  by exists x, x'.
Defined.

(** C37. begin_op admits operations that the log has no room for.  mkfs makes a log of LOGSIZE
    blocks, one of which is the header.  From a file system at rest, three processes in turn call
    begin_op and all three are admitted, since three times MAXOPBLOCKS is LOGSIZE; each then
    writes MAXOPBLOCKS blocks, no more than it may.  Every write of the first two processes and
    all but the last of the third succeed; at the third process's last block log_write panics. *)
Theorem reservation_exceeds_log {dv nblk up} {Hdrv : DriverOk dv nblk up} p pr s start x V d ks0 ks1 ks2 k :
  (forall n, (n < 3)%nat -> calm (p n) (pr n) (s n)) -> geometry nblk start LOGSIZE ->
  log_at x start LOGSIZE [] -> idle_log x -> cache (p_pid (pr 0%nat)) nblk up x V ∅ ∅ ∅ ->
  (forall k, length (d k) = Z.to_nat BSIZE) ->
  NoDup (ks0 ++ ks1 ++ ks2 ++ [k]) -> (forall k', k' ∈ ks0 ++ ks1 ++ ks2 ++ [k] -> home nblk start LOGSIZE k') ->
  Z.of_nat (length ks0) = MAXOPBLOCKS -> Z.of_nat (length ks1) = MAXOPBLOCKS ->
  Z.of_nat (length (ks2 ++ [k])) = MAXOPBLOCKS ->
  exists x1 x2 x3 y0 y1 y2 i y,
    mrun (s 0%nat) begin_op x tt x1 /\ mrun (s 1%nat) begin_op x1 tt x2 /\ mrun (s 2%nat) begin_op x2 tt x3 /\
    mrun (s 0%nat) (log_all d ks0) x3 tt y0 /\ mrun (s 1%nat) (log_all d ks1) y0 tt y1 /\
    mrun (s 2%nat) (log_all d ks2) y1 tt y2 /\ mrun (s 2%nat) (bread 1 k) y2 i y /\
    forall e, log_write i e (at_fs (s 2%nat) y) = Panic "too big a transaction" (at_fs (s 2%nat) y).
Proof.
  intros Hs Hg L [I1 I2] C Hd Hnd Hh H0 H1 H2. rewrite length_app in H2. cbn in H2. unfold MAXOPBLOCKS in *.
  set (op := fun x : fsys => x <| ff ::= fun y => y <| logs ::= fun l => l <| lg_outstanding ::= Z.succ |> |> |>).
  rewrite !app_assoc in Hnd, Hh. apply NoDup_app in Hnd as (Hnd & Hk & _).
  assert (forall hs ks, hs ++ ks = (ks0 ++ ks1) ++ ks2 -> txn nblk start LOGSIZE hs) as Ht.
  { intros hs ks E. rewrite <-E in *. split_and!.
    - by apply NoDup_app in Hnd as [? _].
    - intros h Hin. apply Hh. set_solver.
    - apply (f_equal length) in E. rewrite !length_app in E. unfold LOGSIZE, MAXOPBLOCKS. lia. }
  destruct (log_all_run (p 0%nat) (pr 0%nat) (s 0%nat) (Hs 0%nat ltac:(lia)) start LOGSIZE d ks0 (op (op (op x))) V [] Hg)
    as (y0 & R0 & C0 & L0 & O0 & _).
  { apply (Ht ks0 (ks1 ++ ks2)). by rewrite app_assoc. }
  { done. }
  { destruct L. by split. }
  { cbn. lia. }
  { by do 3 apply cache_logs. }
  destruct (log_all_run (p 1%nat) (pr 1%nat) (s 1%nat) (Hs 1%nat ltac:(lia)) start LOGSIZE d ks1 y0 (vsets V d ks0) ks0 Hg)
    as (y1 & R1 & C1 & L1 & O1 & _); [by eapply Ht|done|done|rewrite O0; cbn; lia|by eapply cache_pid|].
  destruct (log_all_run (p 2%nat) (pr 2%nat) (s 2%nat) (Hs 2%nat ltac:(lia)) start LOGSIZE d ks2 y1
              (vsets (vsets V d ks0) d ks1) (ks0 ++ ks1) Hg)
    as (y2 & R2 & C2 & L2 & O2 & _);
    [apply (Ht _ []); by rewrite app_nil_r|done|done|rewrite O1, O0; cbn; lia|by eapply cache_pid|].
  destruct (bread_run (p 2%nat) (pr 2%nat) (s 2%nat) (Hs 2%nat ltac:(lia)) k _ _ _ _ _ C2) as (i & y & R & _ & _ & F & _).
  { apply Hh. set_solver. }
  { intros j. by rewrite lookup_empty. }
  { right. rewrite size_list_to_set, map_size_empty by done. rewrite !length_app. change bhead with 30%nat. lia. }
  exists (op x), (op (op x)), (op (op (op x))), y0, y1, y2, i, y. split_and!; try done.
  1-3: eapply begin_op_run; [apply Hs; lia|done|]; cbn; rewrite (lo_n _ _ _ _ L), I1; cbn; unfold LOGSIZE, MAXOPBLOCKS; lia.
  intros e. eapply log_write_full; [by eapply log_at_frame|]. rewrite !length_app. unfold LOGSIZE, MAXOPBLOCKS. lia.
Qed.

Lemma reservation_exceeds_log_witness :
  exists x x' i, mrun ex_quiet (binit ;; initlog 1) ex_fs tt x /\
    (exists x1, mrun (ex_turn 0) begin_op x tt x1) /\
    log_write i [] (at_fs (ex_turn 2) x') = Panic "too big a transaction" (at_fs (ex_turn 2) x').
Proof.
  destruct ex_booted as (x & V & Rb & C & L & I & _).
  destruct (reservation_exceeds_log (fun n => n) (fun n => ex_peer n n) ex_turn 2 x V (fun _ => ex_data)
              (seqZ 700 10) (seqZ 710 10) (seqZ 720 9) 729 ex_turn_calm ex_geometry)
    as (x1 & _ & _ & _ & _ & _ & i & y & R & _ & _ & _ & _ & _ & _ & Hp); try done.
  - exact (NoDup_seqZ 700 30).
  - intros k Hk. apply (elem_of_seqZ 700 30) in Hk. unfold LOGSIZE, MAXOPBLOCKS. split; lia.
  - exists x, y, i. split; [exact Rb|]. split; [by exists x1|]. apply Hp.
Defined.

(** C4. filewrite writes the file and nothing else.  From a file system at rest, filewrite of [n]
    bytes of [data] at the offset of an open file returns [n] and ends at rest: the file has the
    [n] bytes in place of those at the offset and is as long as it needs to be, all of this is on
    the disk, and the offset has advanced.  Every block in use elsewhere, every other inode and the super block
    are unchanged. *)
Theorem filewrite_writes {dv nblk up} {Hdrv : DriverOk dv nblk up} p pr s0 start sz sb0 x V i ip fi f src data n :
  calm p pr s0 -> geometry nblk start sz -> fs_geom (nblk := nblk) start sz sb0 -> 25 < sz -> home nblk start sz 1 ->
  yields s0 src data -> rest (nblk := nblk) (up := up) pr start sz sb0 x V i ip ->
  ftable (ff x) !! fi = Some f -> f_ip f = Some i -> f_type f = FD_INODE -> f_writable f <> 0 ->
  0 <= n <= Z.of_nat (length data) -> 0 <= f_off f <= i_size ip -> f_off f + n <= MAXFILE * BSIZE ->
  free_blocks sb0 V (8 * chunks n) ->
  exists x' V' ip', mrun s0 (filewrite fi src n) x n x' /\
    rest (nblk := nblk) (up := up) pr start sz sb0 x' V' i ip' /\
    ftable (ff x') = alter (fun f => f <| f_off ::= Z.add n |>) fi (ftable (ff x)) /\
    i_size ip' = Z.max (i_size ip) (f_off f + n) /\
    (forall j, inr (j / BSIZE) -> content V' ip' j = overwrite (content V ip) (f_off f) (take (Z.to_nat n) data) j) /\
    (forall k, home nblk start sz k -> read_disk (fd x') 1 k = V' k) /\
    spares (nblk := nblk) start sz sb0 V ip V' ip'.
Proof.
  intros Hcalm Hg Hfs Hsz H1 Hsrc Hx Hfi Hip Hty Hwr Hn Hoff Hmax Hfree.
  destruct (filewrite_run p pr s0 Hcalm start sz Hg sb0 Hfs x V i ip fi f src data n) as
    (ws & x' & V' & ip' & [W1 W2 W3 [W4 W5] W6] & R & _); try done.
  exists x', V', ip'. split_and!; try done. intros k Hk. eapply ca_disk; [apply W1|apply Hk|set_solver..].
Qed.

Lemma filewrite_writes_witness :
  exists x x' V' ip', mrun ex_quiet (filewrite 0 (bytes_source [104; 105; 10]) 3) x 3 x' /\
    icache (ff x') !! 0%nat = Some ip' /\ i_size ip' = 3 /\ content V' ip' 1 = 105 /\ 
    forall k, home 1000 2 30 k -> read_disk (fd x') 1 k = V' k.
Proof.
  destruct ex_rest as (x & V & Hx & Hb & Hf & _).
  destruct (filewrite_writes 0%nat ex_proc ex_quiet 2 30 ex_sblock x V 0%nat ex_inode 0%nat ex_file (bytes_source [104; 105; 10])
              [104; 105; 10] 3 ex_calm ex_geometry ex_geom) as (x' & V' & ip' & R & Hx' & _ & Hs & Hc & Hd & _); try done.
  - apply ex_home1.
  - apply bytes_yields.
  - by apply ex_free.
  - exists x, x', V', ip'. split_and!; [exact R|apply Hx'|exact Hs|by rewrite Hc|exact Hd].
Defined.

(** C3. A crash during filewrite tears nothing.  Stopped after any number of the block writes of
    filewrite and started again, binit and initlog bring the disk to a state in which the inode of the
    file and its blocks give the old contents overwritten by the first [t] bytes of the data, for
    some [t], with the size that fits; blocks in use elsewhere and other inodes are unchanged. *)
Theorem filewrite_crash_safe {dv nblk up} {Hdrv : DriverOk dv nblk up} p pr s0 start sz sb0 x V i ip fi f src data n :
  calm p pr s0 -> geometry nblk start sz -> fs_geom (nblk := nblk) start sz sb0 -> 25 < sz -> home nblk start sz 1 ->
  yields s0 src data -> rest (nblk := nblk) (up := up) pr start sz sb0 x V i ip ->
  ftable (ff x) !! fi = Some f -> f_ip f = Some i -> f_type f = FD_INODE -> f_writable f <> 0 ->
  0 <= n <= Z.of_nat (length data) -> 0 <= f_off f <= i_size ip -> f_off f + n <= MAXFILE * BSIZE ->
  free_blocks sb0 V (8 * chunks n) ->
  exists ws x', mrun s0 (filewrite fi src n) x n x' /\ fd x' = wrote ws (fd x) /\
    forall ws1 ws2, ws = ws1 ++ ws2 ->
    forall p' pr' s1 y, calm p' pr' s1 -> blank (bufs (ff y)) -> log_boot y -> fd y = wrote ws1 (fd x) ->
    exists y' t, mrun s1 (binit ;; initlog 1) y tt y' /\ log_at y' start sz [] /\ 0 <= t <= n /\
      file_on (nblk := nblk) start sz sb0 V (read_disk (fd y') 1) ip (overwrite (content V ip) (f_off f) (take (Z.to_nat t) data))
        (Z.max (i_size ip) (f_off f + t)).
Proof.
  intros Hcalm Hg Hfs Hsz H1 Hsrc Hx Hfi Hip Hty Hwr Hn Hoff Hmax Hfree.
  destruct (filewrite_run p pr s0 Hcalm start sz Hg sb0 Hfs x V i ip fi f src data n) as
    (ws & x' & V' & ip' & W & R & S); try done.
  exists ws, x'. split_and!; [done|apply W|]. intros ws1 ws2 Hws p' pr' s1 y C1 C2 C3 C4.
  destruct (S ws1 ws2 Hws p' pr' s1 y C1 C2 C3 C4) as (y' & Ry & Ly & t & Ht & Hon). by exists y', t.
Qed.

Lemma filewrite_crash_safe_witness :
  exists x ws x' y' t, mrun ex_quiet (filewrite 0 (bytes_source [104; 105; 10]) 3) x 3 x' /\ fd x' = wrote ws (fd x) /\
    mrun ex_quiet (binit ;; initlog 1) (mkFsys ∅ (ff ex_fs) (wrote (take 4 ws) (fd x))) tt y' /\ 0 <= t <= 3 /\
    i_size (dinode ex_sblock (read_disk (fd y') 1) 1 ex_inode) = t.
Proof.
  destruct ex_rest as (x & V & Hx & Hb & Hf & _).
  destruct (filewrite_crash_safe 0%nat ex_proc ex_quiet 2 30 ex_sblock x V 0%nat ex_inode 0%nat ex_file (bytes_source [104; 105; 10])
              [104; 105; 10] 3 ex_calm ex_geometry ex_geom) as (ws & x' & R & E & Hcrash); try done.
  - apply ex_home1.
  - apply bytes_yields.
  - by apply ex_free.
  - destruct (Hcrash (take 4 ws) (drop 4 ws) (eq_sym (take_drop 4 ws)) 0%nat ex_proc ex_quiet
                (mkFsys ∅ (ff ex_fs) (wrote (take 4 ws) (fd x))) ex_calm ex_blank) as (y' & t & Ry & _ & Ht & [[Hs _] _]); try done.
    exists x, ws, x', y', t. split_and!; try done; try lia. change (i_inum ex_inode) with 1 in Hs. rewrite Hs. cbn. lia.
Defined.

(** C17. What writei writes, readi reads.  In an operation on a file, writei of [n] bytes of [data]
    returns [n], and readi at the same offset then returns them. *)
Theorem writei_readi {dv nblk up} {Hdrv : DriverOk dv nblk up} p pr s0 start sz sb0 x V hs i ip src data off n :
  let t := turns off n in
  calm p pr s0 -> geometry nblk start sz -> fs_geom (nblk := nblk) start sz sb0 ->
  yields s0 src data -> file_at (nblk := nblk) (up := up) pr start sz sb0 x V hs i ip ->
  0 <= off <= i_size ip -> 0 <= n <= Z.of_nat (length data) -> off + n <= MAXFILE * BSIZE ->
  free_blocks sb0 V (2 * t) -> room sz (6 * t + 1) hs -> (length hs + 6 * t + 1 < bhead)%nat ->
  exists x1 x2, mrun s0 (writei i src off n) x n x1 /\
    mrun s0 (readi i no_sink off n) x1 (n, u8 <$> take (Z.to_nat n) data) x2.
Proof.
  intros t Hcalm Hg Hfs Hsrc Hat Ho Hn Hmax Hfree Hr Hs.
  destruct (writei_run p pr s0 Hcalm start sz Hg sb0 Hfs src data x V hs i ip off n 0 Hsrc Hat Ho Hn Hmax) as
    (x1 & V1 & hs1 & ip1 & R1 & Hat1 & _ & Es & Hc & Hl & _); [by rewrite Nat.add_0_r|done|fold t; lia|].
  pose proof Hat1 as [[[Htx _ _ Hca] _ _ _ Hf1 Hi1] Ht1 _ _ Hfl1 _].
  destruct (readi_run p pr s0 Hcalm start sz Hg sb0 Hfs no_sink x1 V1 (list_to_set hs1) ∅ i ip1 off n) as (x2 & R2 & _); try done; try lia.
  { intros y o bs. apply mrun_ret. }
  { change MAXFILE with 140 in *. change BSIZE with 512 in *. lia. }
  { rewrite map_size_empty, size_list_to_set by apply Htx. fold t in Hl. lia. }
  exists x1, x2. split; [done|]. rewrite Z.min_l in R2 by lia.
  rewrite (written_bytes V1 ip1 (content V ip) off (take (Z.to_nat n) data)) in R2; try done; try lia.
  - by rewrite length_take; lia.
  - intros j Hj. apply Hc. change MAXFILE with 140 in *. change BSIZE with 512 in *.
    unfold inr. change MAXFILE with 140. Z.to_euclidean_division_equations; lia.
Qed.

Lemma writei_readi_witness :
  exists x x1 x2, mrun ex_quiet (writei 0 (bytes_source [104; 105; 10]) 0 3) x 3 x1 /\
    mrun ex_quiet (readi 0 no_sink 0 3) x1 (3, [104; 105; 10]) x2.
Proof.
  destruct ex_opened as (x & V & Hat & Hb & _).
  destruct (writei_readi 0%nat ex_proc ex_quiet 2 30 ex_sblock x V [] 0%nat ex_inode (bytes_source [104; 105; 10])
              [104; 105; 10] 0 3 ex_calm ex_geometry ex_geom) as (x1 & x2 & R1 & R2); try done.
  - apply bytes_yields.
  - by eapply free_blocks_le; [|by apply ex_free]; vm_compute; lia.
  - by vm_compute; lia.
  - by exists x, x1, x2.
Defined.

(** C18. The bitmap implements an allocator.  In an operation with a free block, balloc returns a
    block that was free, marks it and no other, fills it with zeros and changes no other block
    outside the bitmap; bfree of that block then marks it free again, and all
    blocks are as free as they were. *)
Theorem balloc_bfree {dv nblk up} {Hdrv : DriverOk dv nblk up} p pr s0 start sz sb0 x V hs :
  calm p pr s0 -> geometry nblk start sz -> fs_geom (nblk := nblk) start sz sb0 -> home nblk start sz 1 ->
  in_op (nblk := nblk) (up := up) pr start sz x V hs ∅ -> sb (ff x) = sb0 -> sb_of (V 1) = sb0 ->
  marked (nblk := nblk) start sz sb0 V -> (exists b, 0 <= b < sb_size sb0 /\ bit V sb0 b = false) ->
  room sz 3 hs -> (length hs + 3 <= bhead)%nat ->
  exists b x1 V1 hs1, mrun s0 (balloc 1) x b x1 /\ in_op (nblk := nblk) (up := up) pr start sz x1 V1 hs1 ∅ /\
    bit V sb0 b = false /\ home nblk start sz b /\ ~ meta sb0 b /\ V1 b = zero_block /\
    (forall k, 0 <= k < sb_size sb0 -> bit V1 sb0 k = (b =? k) || bit V sb0 k) /\
    (forall k, k <> b -> ~ bmap_block sb0 k -> V1 k = V k) /\
    exists x2 V2 hs2, mrun s0 (bfree 1 b) x1 tt x2 /\ in_op (nblk := nblk) (up := up) pr start sz x2 V2 hs2 ∅ /\
      (forall k, 0 <= k < sb_size sb0 -> bit V2 sb0 k = bit V sb0 k) /\
      (forall k, ~ bmap_block sb0 k -> V2 k = V1 k).
Proof.
  intros Hcalm Hg Hfs H1 Ho Hsb Hsb1 Hm Hfree Hr Hs.
  destruct (balloc_run p pr s0 Hcalm start sz Hg x V hs ∅ sb0 Ho Hfs Hm) as (b & x1 & R1 & Hb & Hbit & O1 & F1); try done.
  { unfold room in *. lia. }
  { rewrite map_size_empty. lia. }
  destruct (Hm b Hb Hbit) as (Hb1 & Hbh & Hbm). pose proof (alloc_log_length sb0 b hs) as Hl.
  assert (forall k, 0 <= k < sb_size sb0 -> bit (allocated sb0 V b) sb0 k = (b =? k) || bit V sb0 k) as Hbits.
  { intros k Hk. by eapply allocated_bit. }
  assert (bmap_block sb0 (BBLOCK b sb0)) as Hbb by (by exists b).
  assert (forall k, k <> b -> ~ bmap_block sb0 k -> allocated sb0 V b k = V k) as Hother.
  { intros k Hk Hkb. apply allocated_other; [done|]. by intros ->. }
  destruct (bfree_run p pr s0 Hcalm start sz Hg x1 (allocated sb0 V b) _ ∅ sb0 b O1 Hfs H1) as (x2 & R2 & O2 & F2); try done.
  { rewrite Hother; [done|lia|]. intros (a & Ha & E). pose proof (fg_start _ _ _ Hfs) as [Hst _].
    destruct (BBLOCK_eq start sz Hg sb0 a Hfs Ha) as [E1 _]. assert (0 <= a / BPB) by (apply Z.div_pos; [lia|done]). lia. }
  { by rewrite (oframe_sb _ _ F1). }
  { by rewrite Hbits, Z.eqb_refl by done. }
  { unfold room in *. lia. }
  { rewrite map_size_empty. lia. }
  eexists b, x1, _, _. split_and!; [exact R1|exact O1|done|done|done|apply allocated_new|done|done|].
  eexists x2, _, _. split_and!; [exact R2|exact O2| |].
  - intros k Hk. rewrite (bit_unmark start sz Hg), Hbits; try done.
    + destruct (Z.eqb_spec b k) as [<-|]; [by rewrite Hbit|done].
    + eapply in_op_size; [exact O1|]. apply (BBLOCK_eq start sz Hg sb0 b Hfs Hb).
  - intros k Hk. apply vset_ne. by intros ->.
Qed.

Lemma balloc_bfree_witness :
  exists x b x1 x2, mrun ex_quiet (balloc 1) x b x1 /\ mrun ex_quiet (bfree 1 b) x1 tt x2.
Proof.
  destruct ex_opened as (x & V & [[Ho Hsb Hm _ _ _] _ _ _ _ _] & Hb & Hs & _).
  destruct (balloc_bfree 0%nat ex_proc ex_quiet 2 30 ex_sblock x V [] ex_calm ex_geometry ex_geom ex_home1 Ho Hsb) as
    (b & x1 & V1 & hs1 & R1 & _ & _ & _ & _ & _ & _ & _ & x2 & V2 & hs2 & R2 & _).
  - rewrite Hs. vm_compute. reflexivity.
  - exact Hm.
  - destruct (free_blocks_S _ _ _ (ex_free V Hb)) as (b & H1 & H2). by exists b.
  - unfold room. cbn. lia.
  - cbn. change bhead with 30%nat. lia.
  - by exists x, b, x1, x2.
Defined.

(** C19. An inode written by iupdate is the inode ilock reads back.  iupdate of entry [i] and
    then ilock of an entry [j] that has not been read yet, for the same inode, gives [j] the
    type, device numbers, links, size and addresses of [i]; no other inode on the disk changes. *)
Theorem inode_roundtrip {dv nblk up} {Hdrv : DriverOk dv nblk up} p pr s0 start sz sb0 x V hs i j ip jp :
  calm p pr s0 -> geometry nblk start sz -> fs_geom (nblk := nblk) start sz sb0 ->
  in_op (nblk := nblk) (up := up) pr start sz x V hs ∅ -> sb (ff x) = sb0 ->
  icache (ff x) !! i = Some ip -> i_dev ip = 1 -> inode_ok ip -> i_type ip <> 0 ->
  icache (ff x) !! j = Some jp -> i_dev jp = 1 -> i_inum jp = i_inum ip -> i_valid jp = 0 -> 1 <= i_ref jp ->
  fl x !! SL_inode j = None -> 0 <= i_inum ip < sb_ninodes sb0 -> room sz 1 hs -> (length hs + 1 < bhead)%nat ->
  exists x1 x2 V1 hs1, mrun s0 (iupdate i) x tt x1 /\ in_op (nblk := nblk) (up := up) pr start sz x1 V1 hs1 ∅ /\
    (forall n kp, 0 <= n < sb_ninodes sb0 -> n <> i_inum ip -> dinode sb0 V1 n kp = dinode sb0 V n kp) /\
    mrun s0 (ilock j) x1 tt x2 /\ fl x2 !! SL_inode j = Some (p_pid pr) /\
    icache (ff x2) !! j = Some ((with_dinode ip jp) <| i_valid := 1 |>).
Proof.
  intros Hcalm Hg Hfs Ho Hsb Hi Hd Hok Hty Hj Hdj Hn Hv Hrj Hlk Hin Hr Hs.
  assert (length (V (IBLOCK (i_inum ip) sb0)) = Z.to_nat BSIZE) as Hl.
  { eapply in_op_size; [exact Ho|]. apply (IBLOCK_eq start sz Hg sb0 _ Hfs Hin). }
  destruct (iupdate_run p pr s0 Hcalm start sz Hg sb0 Hfs x V hs ∅ i ip Ho Hsb Hi Hd Hin) as (x1 & R1 & O1 & F1); try done.
  { rewrite map_size_empty. lia. }
  pose proof (dinode_stored sb0 V (i_inum ip) ip jp Hl (proj1 Hin) Hok) as Ed.
  pose proof (absorb_length (IBLOCK (i_inum ip) sb0) hs) as Hal. pose proof O1 as [Htx _ _ Hc].
  destruct (ilock_run p pr s0 Hcalm start sz Hg sb0 Hfs x1 _ _ ∅ j jp Hc) as (x2 & R2 & _ & _ & Hf2 & Hj2 & _); rewrite ?Hn, ?Ed; try done.
  { by rewrite (oframe_sb _ _ F1). }
  { by rewrite (oframe_icache _ _ F1). }
  { rewrite map_size_empty, size_list_to_set by apply Htx. lia. }
  { by rewrite (lf_fl _ _ (rf_lframe _ _ (of_frame _ _ F1))). }
  rewrite Hn, Ed in Hj2. eexists x1, x2, _, _. split_and!; [exact R1|exact O1| |exact R2|done|done].
  intros n kp Hn' Hne. by apply (dinode_stored_other start sz Hg sb0 Hfs).
Qed.

Lemma inode_roundtrip_witness :
  exists x x1 x2, mrun ex_quiet (iupdate 0) x tt x1 /\ mrun ex_quiet (ilock 1) x1 tt x2 /\
    i_type <$> icache (ff x2) !! 1%nat = Some T_FILE.
Proof.
  destruct ex_opened as (x & V & [[Ho Hsb _ _ _ Hi] _ _ _ _ _] & _ & _ & Ei & Hl).
  set (jp := mkInode 1 1 1 0 0 0 0 0 0 []).
  destruct (inode_roundtrip 0%nat ex_proc ex_quiet 2 30 ex_sblock (on_inode 1 (fun _ => jp) x) V [] 0%nat 1%nat ex_inode jp
              ex_calm ex_geometry ex_geom) as (x1 & x2 & V1 & hs1 & R1 & _ & _ & R2 & _ & Hj); try done.
  - by apply in_op_inode.
  - unfold on_inode. cbn. by rewrite list_lookup_alter_ne.
  - split; [|done|split; [done|]].
    + repeat (apply Forall_cons; split; [by vm_compute|]). by apply Forall_nil.
    + by repeat (apply Forall_cons; split; [by vm_compute|]).
  - unfold on_inode. cbn. by rewrite list_lookup_alter_eq, Ei.
  - cbn. change bhead with 30%nat. lia.
  - exists (on_inode 1 (fun _ => jp) x), x1, x2. split_and!; [exact R1|exact R2|]. by rewrite Hj.
Defined.
