(* ===== verification/PropMkfs.v ===== *)
(** * Properties of mkfs and of the kernel on its disk images *)

From stdpp Require Import base list gmap strings fin_maps.
From S2P Require Import Prelude State Monad Spinlock Console Kalloc Str Vm VmProofs VmUser Umem Sched Sleeplock Calm.
From S2P Require Import Disk Bio BioProofs Log LogLayout LogProofs Inode BlockProofs InodeProofs ConsoleDev Fs FileProofs.
From S2P Require Import Pipe File WriteProofs DirProofs Mkfs MkfsProofs BootProofs Example ExampleFs.
Open Scope Z_scope.

(** ** A disk with an image *)

(** The image in the blocks of disk 1. *)
Definition image_disk (img : list (list Z)) : diskst :=
  mkDisk (list_to_map (imap (fun k d => ((1, Z.of_nat k), d)) img)) [] [] 0 1000.
Lemma image_disk_read img V : holds_all img V -> forall k, 0 <= k < FSSIZE -> read_disk (image_disk img) 1 k = V k.
Proof.
  intros [Hl Hv] k Hk. unfold read_disk, disk. cbn [image_disk writes State.image apply_writes foldl].
  rewrite (elem_of_list_to_map_1 _ (1, k) (V k)); [done| |].
  - rewrite fmap_imap. apply NoDup_alt. intros i j a. rewrite !list_lookup_imap.
    destruct (img !! i), (img !! j); cbn; try done. intros [= <-] [= E]. lia.
  - apply list_elem_of_lookup. exists (Z.to_nat k). rewrite list_lookup_imap, (Hv k Hk). cbn. do 3 f_equal. lia.
Qed.

Definition ex_files : list (list Z * list Z) := [([95; 97], [104; 105; 10]); ([98], [])].
Lemma ex_fits : fits ex_files.
Proof. split; [by repeat constructor|repeat constructor; vm_compute; done|done|vm_compute; done]. Qed.
Lemma ex_named : named ex_files.
Proof.
  split.
  - repeat constructor; done.
  - repeat constructor; done.
  - intros [|[|i]] [|[|j]] f g; cbn; try done; intros [= <-] [= <-]; done.
Qed.
Definition ex_booting (img : list (list Z)) : fsys := mkFsys ∅ ((fst_ (loaded ex_link ∅)) <| sb := mk_sb |>) (image_disk img).
Lemma ex_no_inodes img : no_inodes (ex_booting img).
Proof.
  split; [vm_compute; lia| |done]. intros j ip Hj. cbn in Hj. apply (lookup_replicate (Z.to_nat NINODE) zero_inode) in Hj as [-> _]. done.
Qed.

(** C5. What mkfs puts into the image, the kernel reads from it.  For files that fit, with names that differ
    in their first DIRSIZ bytes, mkfs succeeds; a kernel that boots from the image finds, for each file, an
    inode under the path of its name, and readi returns exactly the bytes of the file. *)
Theorem mkfs_readable {dv up} {Hdrv : DriverOk dv FSSIZE up} files i nm bs :
  fits files -> named files -> files !! i = Some (nm, bs) -> Forall is_u8 bs ->
  exists s, mkfs files = Some s /\
    forall p pr s0 y name, calm p pr s0 -> holds_all (mk_img s) (read_disk (fd y) 1) ->
      sb (ff y) = sb_of (read_disk (fd y) 1 1) -> blank (bufs (ff y)) -> log_boot y -> no_inodes y -> up (fd y) ->
    let len := Z.of_nat (length bs) in
    exists y1 y2 y3 y4 ip, mrun s0 (binit ;; initlog 1) y tt y1 /\ mrun s0 (namei name (slash :: strip nm)) y1 (Some ip) y2 /\
      mrun s0 (ilock ip) y2 tt y3 /\ mrun s0 (readi ip no_sink 0 len) y3 (len, bs) y4.
Proof.
  intros Hfits Hnamed Hf Hu8. destruct (mkfs_built files Hfits) as (s & V & Hs & Hall & Hb). exists s. split; [done|].
  intros p pr s0 y name Hcalm [_ Hd] Hsb Hbl Hlb Hni Hup len. pose proof Hb as [B1 [B2 B2'] B3 B4 B5 _ _ _ _ _ _].
  assert (forall k, 0 <= k < FSSIZE -> read_disk (fd y) 1 k = V k) as Hv.
  { intros k Hk. destruct Hall as [_ Hi]. pose proof (Hi k Hk) as E. rewrite (Hd k Hk) in E. by injection E. }
  assert (0 <= 1 < FSSIZE) as H1 by mk_lia. rewrite (Hv 1 H1), B2 in Hsb.
  destruct (boot_run p pr s0 Hcalm y V Hv B1 B2' B3) as (y1 & V1 & R1 & C1 & A1 & S1 & N1);
    [exact Hsb|exact Hbl|exact Hlb|exact Hni|exact Hup|].
  destruct (boot_lookup p pr s0 Hcalm y1 V V1 files i nm bs name Hb Hfits Hnamed Hf A1 C1 S1 N1) as (y2 & ip & R2 & C2 & S2 & Hi2 & L2).
  destruct (boot_contents p pr s0 Hcalm y2 V V1 (inum_of (S i)) 1 ip bs (B5 _ _ _ Hf) Hu8 A1 C2 S2 Hi2 L2) as (y3 & y4 & R3 & R4 & _).
  exists y1, y2, y3, y4, 1%nat. split_and!; [exact R1|exact R2|exact R3|exact R4].
Qed.

Lemma mkfs_readable_witness :
  exists s y1 y2 y3 y4 ip, mkfs ex_files = Some s /\ mrun ex_quiet (binit ;; initlog 1) (ex_booting (mk_img s)) tt y1 /\
    mrun ex_quiet (namei (replicate 14 0) [slash; 97]) y1 (Some ip) y2 /\
    mrun ex_quiet (ilock ip) y2 tt y3 /\ mrun ex_quiet (readi ip no_sink 0 3) y3 (3, [104; 105; 10]) y4.
Proof.
  destruct (mkfs_readable (Hdrv := ex_driver) ex_files 0 [95; 97] [104; 105; 10] ex_fits ex_named eq_refl) as (s & Hs & H).
  { repeat constructor; cint. }
  destruct (mkfs_built ex_files ex_fits) as (s' & V & Hs' & Hall & Hb). assert (s' = s) as -> by congruence.
  pose proof (image_disk_read _ _ Hall) as Hv.
  destruct (H 0%nat ex_proc ex_quiet (ex_booting (mk_img s)) (replicate 14 0) ex_calm) as (y1 & y2 & y3 & y4 & ip & R).
  - destruct Hall as [H1 H2]. split; [done|]. intros k Hk. change (fd (ex_booting (mk_img s))) with (image_disk (mk_img s)).
    by rewrite Hv, H2.
  - change (mk_sb = sb_of (read_disk (image_disk (mk_img s)) 1 1)). rewrite (Hv 1 ltac:(mk_lia)).
    exact (eq_sym (proj1 (bt_super _ _ Hb))).
  - apply ex_blank.
  - exact (conj eq_refl eq_refl).
  - apply ex_no_inodes.
  - exact eq_refl.
  - exists s, y1, y2, y3, y4, ip. exact (conj Hs R).
Defined.

(** ** The root directory *)

Lemma root_max_blocks V files : fits files -> built V files ->
  let m := 2 + Z.of_nat (length files) in
  i_size (disk_inode V ROOTINO) = (m / 32 + 1) * 512 /\ 2 <= m <= 200 /\ exact V (disk_inode V ROOTINO) (16 * m).
Proof.
  intros [_ _ F3 _] Hb m. pose proof (bt_root_size _ _ Hb) as Es. fold m in Es. change BSIZE with 512 in Es.
  assert (16 * m / 512 = m / 32) as E by (Z.to_euclidean_division_equations; lia).
  split_and!; [by rewrite Es, E|lia| |apply (bt_root_blocks _ _ Hb)].
  unfold inum_of in F3. change NINODES with 200 in F3. lia.
Qed.
Lemma root_last V files : fits files -> built V files ->
  let root := disk_inode V ROOTINO in
  (2 + Z.of_nat (length files)) mod 32 = 0 -> faddr V root ((i_size root - 1) / BSIZE) = 0.
Proof.
  intros Hf Hb root Hm. destruct (root_max_blocks V files Hf Hb) as (Es & Hr & He). fold root in Es, He. set (m := 2 + _) in *.
  rewrite Es. change BSIZE with 512. replace (((m / 32 + 1) * 512 - 1) / 512) with (m / 32) by (Z.to_euclidean_division_equations; lia).
  apply (ex_none _ _ _ He); [unfold inr; change MAXFILE with 140|change BSIZE with 512]; Z.to_euclidean_division_equations; lia.
Qed.
Lemma root_filled V files : fits files -> built V files ->
  let root := disk_inode V ROOTINO in
  filled V root (i_size root) <-> (2 + Z.of_nat (length files)) mod 32 <> 0.
Proof.
  intros Hf Hb root. destruct (root_max_blocks V files Hf Hb) as (Es & Hr & He). fold root in Es, He. split.
  - intros [_ Hfl] Hm. apply (Hfl (i_size root - 1)); [|by apply (root_last V files)].
    rewrite Es. Z.to_euclidean_division_equations; lia.
  - intros Hm. rewrite Es. split; [change (MAXFILE * BSIZE) with 71680; Z.to_euclidean_division_equations; lia|].
    intros j Hj. apply (ex_there _ _ _ He); [unfold inr; change MAXFILE with 140|]; change BSIZE with 512;
      Z.to_euclidean_division_equations; lia.
Qed.

(** C38. The size mkfs gives to the root directory.  It is the size of the entries rounded up to whole
    blocks, with a further block when they fill their blocks; then the last block of the directory is not
    there, although its size includes it. *)
Theorem mkfs_root_hole files :
  fits files ->
  exists s V, mkfs files = Some s /\ holds_all (mk_img s) V /\
    let root := disk_inode V ROOTINO in
    (filled V root (i_size root) <-> (2 + Z.of_nat (length files)) mod 32 <> 0) /\
    ((2 + Z.of_nat (length files)) mod 32 = 0 -> faddr V root ((i_size root - 1) / BSIZE) = 0).
Proof.
  intros Hfits. destruct (mkfs_built files Hfits) as (s & V & Hs & Hall & Hb). exists s, V. split_and!; [exact Hs|exact Hall|].
  exact (conj (root_filled V files Hfits Hb) (root_last V files Hfits Hb)).
Qed.

Lemma mkfs_root_hole_witness :
  exists s V, mkfs (replicate 30 ([97], [])) = Some s /\ faddr V (disk_inode V ROOTINO) ((i_size (disk_inode V ROOTINO) - 1) / BSIZE) = 0.
Proof.
  destruct (mkfs_root_hole (replicate 30 ([97], []))) as (s & V & Hs & _ & _ & Hlast).
  - split; [by apply Forall_replicate|by apply Forall_replicate|done|vm_compute; done].
  - exists s, V. split; [exact Hs|]. apply Hlast. reflexivity.
Defined.
