(* ===== verification/Kbd.v ===== *)
(** * The keyboard driver: kbd.c and kbd.h

    A scan code of the controller becomes a character or changes the state of the modifier keys.
    The three tables are those of kbd.h; entries they do not list are 0. *)

From stdpp Require Import base list.
From S2P Require Import Prelude State.
Open Scope Z_scope.

Definition KBS_DIB : Z := 0x01.
Definition NO : Z := 0.
Definition SHIFT : Z := 1.
Definition CTL : Z := 2.
Definition ALT : Z := 4.
Definition CAPSLOCK : Z := 8.
Definition NUMLOCK : Z := 16.
Definition SCROLLLOCK : Z := 32.
Definition E0ESC : Z := 64.

Definition KEY_HOME : Z := 0xE0.
Definition KEY_END : Z := 0xE1.
Definition KEY_UP : Z := 0xE2.
Definition KEY_DN : Z := 0xE3.
Definition KEY_LF : Z := 0xE4.
Definition KEY_RT : Z := 0xE5.
Definition KEY_PGUP : Z := 0xE6.
Definition KEY_PGDN : Z := 0xE7.
Definition KEY_INS : Z := 0xE8.
Definition KEY_DEL : Z := 0xE9.

Definition C (x : Z) : Z := x - 64.

(** A table of 256 bytes: the first ones in order, and others by index. *)
Definition table (first : list Z) (others : list (nat * Z)) : list Z :=
  u8 <$> foldl (fun t e => <[e.1 := e.2]> t) (first ++ replicate (256 - length first) NO) others.

Definition shiftcode : list Z := table []
  [(0x1D%nat, CTL); (0x2A%nat, SHIFT); (0x36%nat, SHIFT); (0x38%nat, ALT); (0x9D%nat, CTL); (0xB8%nat, ALT)].

Definition togglecode : list Z := table []
  [(0x3A%nat, CAPSLOCK); (0x45%nat, NUMLOCK); (0x46%nat, SCROLLLOCK)].

Definition arrows : list (nat * Z) :=
  [(0xC8%nat, KEY_UP); (0xD0%nat, KEY_DN); (0xC9%nat, KEY_PGUP); (0xD1%nat, KEY_PGDN);
   (0xCB%nat, KEY_LF); (0xCD%nat, KEY_RT); (0x97%nat, KEY_HOME); (0xCF%nat, KEY_END);
   (0xD2%nat, KEY_INS); (0xD3%nat, KEY_DEL)].
Definition keypad : list (nat * Z) := (0x9C%nat, 10) :: (0xB5%nat, 47) :: arrows.
Definition keypad_ctl : list (nat * Z) := (0x9C%nat, 13) :: (0xB5%nat, C 47) :: arrows.

Definition normalmap : list Z := table
  [NO; 27; 49; 50; 51; 52; 53; 54;
   55; 56; 57; 48; 45; 61; 8; 9;
   113; 119; 101; 114; 116; 121; 117; 105;
   111; 112; 91; 93; 10; NO; 97; 115;
   100; 102; 103; 104; 106; 107; 108; 59;
   39; 96; NO; 92; 122; 120; 99; 118;
   98; 110; 109; 44; 46; 47; NO; 42;
   NO; 32; NO; NO; NO; NO; NO; NO;
   NO; NO; NO; NO; NO; NO; NO; 55;
   56; 57; 45; 52; 53; 54; 43; 49;
   50; 51; 48; 46; NO; NO; NO; NO]
  keypad.

Definition shiftmap : list Z := table
  [NO; 27; 33; 64; 35; 36; 37; 94;
   38; 42; 40; 41; 95; 43; 8; 9;
   81; 87; 69; 82; 84; 89; 85; 73;
   79; 80; 123; 125; 10; NO; 65; 83;
   68; 70; 71; 72; 74; 75; 76; 58;
   34; 126; NO; 124; 90; 88; 67; 86;
   66; 78; 77; 60; 62; 63; NO; 42;
   NO; 32; NO; NO; NO; NO; NO; NO;
   NO; NO; NO; NO; NO; NO; NO; 55;
   56; 57; 45; 52; 53; 54; 43; 49;
   50; 51; 48; 46; NO; NO; NO; NO]
  keypad.

Definition ctlmap : list Z := table
  [NO; NO; NO; NO; NO; NO; NO; NO;
   NO; NO; NO; NO; NO; NO; NO; NO;
   (C 81); (C 87); (C 69); (C 82); (C 84); (C 89); (C 85); (C 73);
   (C 79); (C 80); NO; NO; 13; NO; (C 65); (C 83);
   (C 68); (C 70); (C 71); (C 72); (C 74); (C 75); (C 76); NO;
   NO; NO; NO; (C 92); (C 90); (C 88); (C 67); (C 86);
   (C 66); (C 78); (C 77); NO; NO; (C 47); NO; NO]
  keypad_ctl.

(** charcode[shift & (CTL | SHIFT)] *)
Definition charcode (shift : Z) : list Z :=
  let i := Z.land shift (Z.lor CTL SHIFT) in
  if i =? 0 then normalmap else if i =? 1 then shiftmap else ctlmap.

(** kbdgetc with the status and the data byte of the controller: the value returned and the
    static variable shift. *)
Definition kbdgetc (st data shift : Z) : Z * Z :=
  if Z.land st KBS_DIB =? 0 then (-1, shift) else
  if data =? 0xE0 then (0, Z.lor shift E0ESC) else
  if negb (Z.land data 0x80 =? 0) then
    let data := if negb (Z.land shift E0ESC =? 0) then data else Z.land data 0x7F in
    (0, Z.land shift (u32 (Z.lnot (Z.lor (nthz 0 shiftcode data) E0ESC))))
  else
  let esc := negb (Z.land shift E0ESC =? 0) in
  let data := if esc then Z.lor data 0x80 else data in
  let shift := if esc then Z.land shift (u32 (Z.lnot E0ESC)) else shift in
  let shift := Z.lor shift (nthz 0 shiftcode data) in
  let shift := Z.lxor shift (nthz 0 togglecode data) in
  let c := nthz 0 (charcode shift) data in
  let c := if negb (Z.land shift CAPSLOCK =? 0) then
             if (97 <=? c) && (c <=? 122) then c + (65 - 97)
             else if (65 <=? c) && (c <=? 90) then c + (97 - 65) else c
           else c in
  (c, shift).

(** What consoleintr gets from kbdgetc while the controller holds the bytes [codes]. *)
Fixpoint kbd_chars (codes : list Z) (shift : Z) : list Z * Z :=
  match codes with
  | [] => ([], shift)
  | d :: codes =>
      let '(c, shift) := kbdgetc KBS_DIB d shift in
      let '(cs, shift) := kbd_chars codes shift in (c :: cs, shift)
  end.

(** ** Typing *)

(** Pressing and releasing a key, with or without the left shift key. *)
Definition key (code : Z) : list Z := [code; Z.lor code 0x80].
Definition shift_key (code : Z) : list Z := [0x2A] ++ key code ++ [0xAA].

(** The visible characters that a list of scan codes produces from the state [shift]. *)
Definition types (codes : list Z) (shift : Z) : list Z * Z :=
  let '(cs, shift) := kbd_chars codes shift in (filter (fun c => c <> 0) cs, shift).

(** Every printable character can be typed, and leaves the modifiers as they were; with caps
    lock on the letters change their case. *)
Definition typable (c : Z) : bool :=
  existsb (fun code =>
    bool_decide (types (key code) 0 = ([c], 0)) || bool_decide (types (shift_key code) 0 = ([c], 0)))
    (seqZ 0 128).

Lemma all_typable : Forall (fun c => typable c = true) (seqZ 32 95).
Proof. apply (bool_decide_unpack _). by vm_compute. Qed.

Definition swapcase (c : Z) : Z :=
  if (97 <=? c) && (c <=? 122) then c - 32 else if (65 <=? c) && (c <=? 90) then c + 32 else c.

(** The release code of the key 0x60 would be the escape byte 0xE0. *)
Lemma capslock_swaps :
  Forall (fun code => types (key code) CAPSLOCK = (swapcase <$> (types (key code) 0).1, CAPSLOCK))
    (filter (fun code => nthz 0 shiftcode code = 0 /\ nthz 0 togglecode code = 0 /\ code <> 0x60)
       (seqZ 0 128)).
Proof. apply (bool_decide_unpack _). by vm_compute. Qed.

(** The modifier state stays within its seven bits. *)
Lemma kbdgetc_state st data shift :
  0 <= data < 256 -> 0 <= shift < 128 -> 0 <= (kbdgetc st data shift).2 < 128.
Proof.
  intros Hd Hs. assert (forallb (fun d => forallb (fun s =>
      (0 <=? (kbdgetc 1 d s).2) && ((kbdgetc 1 d s).2 <? 128)) (seqZ 0 128)) (seqZ 0 256) = true) as Hall
    by by vm_compute.
  assert (kbdgetc st data shift = if Z.land st KBS_DIB =? 0 then (-1, shift) else kbdgetc 1 data shift) as ->.
  { unfold kbdgetc at 1. by destruct (Z.land st KBS_DIB =? 0). }
  destruct (Z.land st KBS_DIB =? 0); [done|]. rewrite forallb_forall in Hall.
  assert (forall n x, 0 <= x < n -> In x (seqZ 0 n)) as Hin
    by (intros n x Hx; apply list_elem_of_In, elem_of_seqZ; lia).
  specialize (Hall data (Hin _ _ Hd)). rewrite forallb_forall in Hall.
  specialize (Hall shift (Hin _ _ Hs)). apply andb_prop in Hall as [H1 H2].
  apply Z.leb_le in H1. apply Z.ltb_lt in H2. by split.
Qed.
