(* ===== verification/Mp.v ===== *)
(** * Multiprocessor tables: mp.c and mp.h

    The search for the MP floating pointer structure and the configuration table in physical
    memory, and the walk over the entries of the table.  Memory is any [ByteMem], read at
    kernel addresses. *)

From stdpp Require Import base list strings gmap fin_maps.
From S2P Require Import Prelude State Monad Console Kalloc Str.
Open Scope Z_scope.

Definition MPPROC : Z := 0x00.
Definition MPBUS : Z := 0x01.
Definition MPIOAPIC : Z := 0x02.
Definition MPIOINTR : Z := 0x03.
Definition MPLINTR : Z := 0x04.

(** Sizes of struct mp, struct mpconf, struct mpproc and struct mpioapic. *)
Definition sizeof_mp : Z := 16.
Definition sizeof_mpconf : Z := 44.
Definition sizeof_mpproc : Z := 20.
Definition sizeof_mpioapic : Z := 8.

(** What mpinit finds out: the processors and their APIC ids, the I/O APIC, and the address of the
    local APIC. *)
Record mpinfo := mkMp { ncpu : Z; apicids : list Z; ioapicid : Z; lapic : Z; ismp : bool }.
#[export] Instance eta_mpinfo : Eta mpinfo :=
  fun i => mkMp (ncpu i) (apicids i) (ioapicid i) (lapic i) (ismp i).

Inductive mpresult :=
| MpDone (i : mpinfo) (imcr : bool)
| MpPanic (msg : string)
| MpLoops.

Section mp.
Context {T : Type} `{!ByteMem T} (t : T).

Definition byte_at (a : Z) : Z := ldb t a.
Definition short_at (a : Z) : Z := byte_at a + 256 * byte_at (a + 1).
Definition word_at (a : Z) : Z := short_at a + 65536 * short_at (a + 2).
Definition bytes_at (a : Z) (n : nat) : list Z := (fun i => byte_at (a + i)) <$> seqZ 0 (Z.of_nat n).

(** The sum in an int is truncated to a byte at the end. *)
Definition sum (addr len : Z) : Z := u8 (foldl (fun s i => s32 (s + byte_at (addr + i))) 0 (seqZ 0 len)).

Definition is_mp (p : Z) : bool := bool_decide (bytes_at p 4 = str "_MP_") && (sum p sizeof_mp =? 0).

Fixpoint mpsearch_loop (n : nat) (p e : Z) : option Z :=
  match n with
  | O => None
  | S n => if p <? e then if is_mp p then Some p else mpsearch_loop n (p + sizeof_mp) e else None
  end.

Definition mpsearch1 (a len : Z) : option Z :=
  let addr := P2V a in
  mpsearch_loop (S (Z.to_nat (len / sizeof_mp))) addr (addr + len).

Definition mpsearch : option Z :=
  let bda := P2V 0x400 in
  let p := Z.shiftl (Z.lor (Z.shiftl (byte_at (bda + 0x0F)) 8) (byte_at (bda + 0x0E))) 4 in
  match (if negb (p =? 0) then mpsearch1 p 1024
         else let p := Z.lor (Z.shiftl (byte_at (bda + 0x14)) 8) (byte_at (bda + 0x13)) * 1024 in
              mpsearch1 (u32 (p - 1024)) 1024) with
  | Some mp => Some mp
  | None => mpsearch1 0xF0000 0x10000
  end.

(** The structure and the configuration table. *)
Definition mpconfig : option (Z * Z) :=
  match mpsearch with
  | None => None
  | Some mp =>
      if word_at (mp + 4) =? 0 then None else
      let conf := P2V (word_at (mp + 4)) in
      if negb (bool_decide (bytes_at conf 4 = str "PCMP")) then None else
      if negb (byte_at (conf + 6) =? 1) && negb (byte_at (conf + 6) =? 4) then None else
      if negb (sum conf (short_at (conf + 4)) =? 0) then None else
      Some (mp, conf)
  end.

(** The loop over the entries, at most [n] turns; None when it has not ended by then. *)
Fixpoint entries_loop (n : nat) (p e : Z) (i : mpinfo) : option mpinfo :=
  match n with
  | O => None
  | S n =>
      if p <? e then
        let ty := byte_at p in
        if ty =? MPPROC then
          let i := if ncpu i <? NCPU
                   then i <| apicids ::= (fun l => l ++ [byte_at (p + 1)]) |> <| ncpu := ncpu i + 1 |>
                   else i in
          entries_loop n (p + sizeof_mpproc) e i
        else if ty =? MPIOAPIC then
          entries_loop n (p + sizeof_mpioapic) e (i <| ioapicid := byte_at (p + 1) |>)
        else if (ty =? MPBUS) || (ty =? MPIOINTR) || (ty =? MPLINTR) then entries_loop n (p + 8) e i
        else entries_loop n p e (i <| ismp := false |>)
      else Some i
  end.

(** mpinit; an entry takes eight bytes at least. *)
Definition mpinit : mpresult :=
  match mpconfig with
  | None => MpPanic "Expect to run on an SMP"
  | Some (mp, conf) =>
      let len := short_at (conf + 4) in
      match entries_loop (S (Z.to_nat (len / 8))) (conf + sizeof_mpconf) (conf + len)
              (mkMp 0 [] 0 (word_at (conf + 36)) true) with
      | None => MpLoops
      | Some i =>
          if negb (ismp i) then MpPanic "Didn't find a suitable machine"
          else MpDone i (negb (byte_at (mp + 12) =? 0))
      end
  end.

(** ** The table *)

(** The entries of a table: a processor with its APIC id, an I/O APIC with its id, others. *)
Inductive entry := EProc (apicid : Z) | EIoapic (apicno : Z) | EOther (ty : Z).

Definition entry_size (x : entry) : Z :=
  match x with EProc _ => sizeof_mpproc | EIoapic _ => sizeof_mpioapic | EOther _ => 8 end.

(** The entry [x] lies at [p]. *)
Definition entry_at (p : Z) (x : entry) : Prop :=
  match x with
  | EProc a => byte_at p = MPPROC /\ byte_at (p + 1) = a
  | EIoapic a => byte_at p = MPIOAPIC /\ byte_at (p + 1) = a
  | EOther ty => byte_at p = ty /\ (ty = MPBUS \/ ty = MPIOINTR \/ ty = MPLINTR)
  end.

(** The entries [xs] fill the memory from [p] to [e]. *)
Fixpoint entries_at (p : Z) (xs : list entry) (e : Z) : Prop :=
  match xs with
  | [] => p = e
  | x :: xs => entry_at p x /\ entries_at (p + entry_size x) xs e
  end.

Definition procs_of (xs : list entry) : list Z :=
  omap (fun x => match x with EProc a => Some a | _ => None end) xs.
Definition ioapics_of (xs : list entry) : list Z :=
  omap (fun x => match x with EIoapic a => Some a | _ => None end) xs.

(** The number of processors is the number of ids kept, and at most NCPU. *)
Definition counted (i : mpinfo) : Prop := ncpu i = Z.of_nat (length (apicids i)) /\ 0 <= ncpu i <= NCPU.

Lemma entries_at_le p xs e : entries_at p xs e -> p + 8 * Z.of_nat (length xs) <= e.
Proof.
  revert p. induction xs as [|x xs IH]; intros p; cbn; [lia|]. intros [_ H]. specialize (IH _ H).
  assert (8 <= entry_size x) by (destruct x; cbn; unfold sizeof_mpproc, sizeof_mpioapic; lia). lia.
Qed.

(** One known entry. *)
Definition note (x : entry) (i : mpinfo) : mpinfo :=
  match x with
  | EProc a => if ncpu i <? NCPU then i <| apicids ::= (fun l => l ++ [a]) |> <| ncpu := ncpu i + 1 |> else i
  | EIoapic a => i <| ioapicid := a |>
  | EOther _ => i
  end.

Lemma entries_loop_step n p e x i :
  p < e -> entry_at p x -> entries_loop (S n) p e i = entries_loop n (p + entry_size x) e (note x i).
Proof.
  intros Hp Hx. cbn [entries_loop]. replace (p <? e) with true by lia.
  destruct x as [a|a|ty]; destruct Hx as [Hty Ha]; rewrite Hty.
  - by rewrite Ha.
  - by rewrite Ha.
  - by destruct Ha as [->|[->| ->]].
Qed.

Lemma note_counted x i : counted i -> counted (note x i).
Proof.
  intros [Hc Hle]. destruct x; cbn; [|done..]. destruct (Z.ltb_spec (ncpu i) NCPU); [|done].
  split; cbn; [rewrite length_app; cbn; lia|lia].
Qed.

(** On a table of known entries the walk ends after them, and finds the first NCPU processors
    and the last I/O APIC. *)
Definition found (xs : list entry) (i : mpinfo) : mpinfo :=
  let ids := take (Z.to_nat NCPU) (apicids i ++ procs_of xs) in
  mkMp (Z.of_nat (length ids)) ids (default (ioapicid i) (last (ioapics_of xs))) (lapic i) (ismp i).

Lemma found_cons x xs i : counted i -> found (x :: xs) i = found xs (note x i).
Proof.
  intros [Hc Hle]. destruct x as [a|a|ty]; unfold found; cbn [note apicids ioapicid lapic ismp upd].
  - change (procs_of (EProc a :: xs)) with (a :: procs_of xs).
    change (ioapics_of (EProc a :: xs)) with (ioapics_of xs).
    destruct (Z.ltb_spec (ncpu i) NCPU); cbn [apicids ioapicid lapic ismp upd].
    + by rewrite <-app_assoc.
    + by rewrite !take_app_le by lia.
  - change (procs_of (EIoapic a :: xs)) with (procs_of xs).
    change (ioapics_of (EIoapic a :: xs)) with (a :: ioapics_of xs).
    rewrite last_cons. by destruct (last (ioapics_of xs)).
  - done.
Qed.

Lemma entries_loop_table n p xs e i :
  entries_at p xs e -> (length xs < n)%nat -> counted i -> entries_loop n p e i = Some (found xs i).
Proof.
  revert n p i. induction xs as [|x xs IH]; intros n p i He Hn Hi;
    (destruct n as [|n]; [cbn in Hn; lia|]).
  - cbn in He. subst e. cbn [entries_loop]. rewrite Z.ltb_irrefl. f_equal.
    destruct Hi as [Hc Hle]. unfold found. cbn. rewrite app_nil_r, take_ge by lia.
    rewrite <-Hc. by destruct i.
  - pose proof (entries_at_le _ _ _ He) as Hlt. destruct He as [Hx He]. cbn [length] in *.
    rewrite (entries_loop_step n p e x i) by (done || lia).
    rewrite found_cons by done. apply IH; [done|lia|by apply note_counted].
Qed.

(** An entry of another type stops the walk for ever: the pointer is not advanced. *)
Lemma entries_loop_stuck n p e i :
  p < e -> byte_at p ∉ [MPPROC; MPBUS; MPIOAPIC; MPIOINTR; MPLINTR] -> entries_loop n p e i = None.
Proof.
  intros Hp Hty. revert i. induction n as [|n IH]; intros i; [done|]. cbn [entries_loop].
  replace (p <? e) with true by lia.
  assert (forall ty, ty ∈ [MPPROC; MPBUS; MPIOAPIC; MPIOINTR; MPLINTR] -> (byte_at p =? ty) = false) as Hne.
  { intros ty Hin. apply Z.eqb_neq. congruence. }
  rewrite !Hne by set_solver. apply IH.
Qed.

Lemma entries_loop_unknown n p xs q e i :
  entries_at p xs q -> q < e -> byte_at q ∉ [MPPROC; MPBUS; MPIOAPIC; MPIOINTR; MPLINTR] ->
  entries_loop n p e i = None.
Proof.
  intros He Hq Hty. revert n p i He. induction xs as [|x xs IH]; intros n p i He; cbn in He.
  - subst q. by apply entries_loop_stuck.
  - destruct n as [|n]; [done|]. pose proof (entries_at_le _ (x :: xs) _ He) as Hlt.
    destruct He as [Hx He]. rewrite (entries_loop_step n p e x i) by (done || (cbn in Hlt; lia)). auto.
Qed.

(** The search returns the first structure on a 16-byte boundary of the range. *)
Lemma mpsearch_loop_first n p e r :
  mpsearch_loop n p e = Some r ->
  exists k, r = p + sizeof_mp * Z.of_nat k /\ r < e /\ is_mp r = true /\
    forall j, (j < k)%nat -> is_mp (p + sizeof_mp * Z.of_nat j) = false.
Proof.
  revert p. induction n as [|n IH]; intros p; cbn; [done|]. destruct (Z.ltb_spec p e); [|done].
  destruct (is_mp p) eqn:Hm.
  - intros [= <-]. exists 0%nat. rewrite Z.mul_0_r, Z.add_0_r. split_and!; [done|done|done|lia].
  - intros Hr. destruct (IH _ Hr) as (k & -> & Hlt & Hk & Hj). exists (S k).
    replace (p + sizeof_mp * Z.of_nat (S k)) with (p + sizeof_mp + sizeof_mp * Z.of_nat k) by lia.
    split_and!; [done|done|done|]. intros [|j] Hjk; [by rewrite Z.mul_0_r, Z.add_0_r|].
    replace (p + sizeof_mp * Z.of_nat (S j)) with (p + sizeof_mp + sizeof_mp * Z.of_nat j) by lia.
    apply Hj. lia.
Qed.

(** mpinit on a machine whose configuration table is [conf]. *)
Lemma mpinit_table mp conf xs :
  mpconfig = Some (mp, conf) ->
  entries_at (conf + sizeof_mpconf) xs (conf + short_at (conf + 4)) ->
  mpinit = MpDone (found xs (mkMp 0 [] 0 (word_at (conf + 36)) true)) (negb (byte_at (mp + 12) =? 0)).
Proof.
  intros Hc He. unfold mpinit. rewrite Hc. pose proof (entries_at_le _ _ _ He) as Hle.
  rewrite (entries_loop_table _ _ xs); [done|done| |].
  - assert (Z.of_nat (length xs) <= short_at (conf + 4) / 8); [|lia].
    apply Z.div_le_lower_bound; unfold sizeof_mpconf in Hle; lia.
  - unfold counted. cbn. unfold NCPU. lia.
Qed.

Lemma mpinit_unknown mp conf xs q :
  mpconfig = Some (mp, conf) ->
  entries_at (conf + sizeof_mpconf) xs q -> q < conf + short_at (conf + 4) ->
  byte_at q ∉ [MPPROC; MPBUS; MPIOAPIC; MPIOINTR; MPLINTR] ->
  mpinit = MpLoops /\
  forall n i, entries_loop n (conf + sizeof_mpconf) (conf + short_at (conf + 4)) i = None.
Proof.
  intros Hc He Hq Hty. split; [|intros n i; by eapply entries_loop_unknown].
  unfold mpinit. rewrite Hc. by rewrite (entries_loop_unknown _ _ xs q).
Qed.

End mp.
