(* ===== verification/Devices.v ===== *)
(** * Interrupt controllers, serial port and clock: lapic.c, ioapic.c, picirq.c, uart.c

    The registers that the kernel programs are a record: the local APIC, the redirection table of
    the I/O APIC, and the bytes sent to I/O ports in order.  What the kernel reads from a device is
    an argument.  The wait for a delivered interrupt command has no effect on the registers. *)

From stdpp Require Import base list gmap strings fin_maps.
From S2P Require Import Prelude State Monad Console Trap Mp.
Open Scope Z_scope.

Record devices := mkDev {
  lapic_reg : gmap Z Z;            (* lapic[index] *)
  io_reg : gmap Z Z;               (* registers behind ioapic->reg and ioapic->data *)
  out_ports : list (Z * Z);        (* outb(port, data), in order *)
  low_mem : gmap Z Z               (* 16-bit words of the BIOS data area *)
}.
#[export] Instance eta_devices : Eta devices :=
  fun d => mkDev (lapic_reg d) (io_reg d) (out_ports d) (low_mem d).

Definition outb (port data : Z) (d : devices) : devices :=
  d <| out_ports ::= (fun l => l ++ [(port, u8 data)]) |>.

(** ** The local APIC *)

Definition ID : Z := 0x0020 / 4.
Definition VER : Z := 0x0030 / 4.
Definition TPR : Z := 0x0080 / 4.
Definition EOI : Z := 0x00B0 / 4.
Definition SVR : Z := 0x00F0 / 4.
Definition ENABLE : Z := 0x00000100.
Definition ESR : Z := 0x0280 / 4.
Definition ICRLO : Z := 0x0300 / 4.
Definition INIT : Z := 0x00000500.
Definition STARTUP : Z := 0x00000600.
Definition DELIVS : Z := 0x00001000.
Definition ASSERT : Z := 0x00004000.
Definition LEVEL : Z := 0x00008000.
Definition BCAST : Z := 0x00080000.
Definition ICRHI : Z := 0x0310 / 4.
Definition TIMER : Z := 0x0320 / 4.
Definition X1 : Z := 0x0000000B.
Definition PERIODIC : Z := 0x00020000.
Definition PCINT : Z := 0x0340 / 4.
Definition LINT0 : Z := 0x0350 / 4.
Definition LINT1 : Z := 0x0360 / 4.
Definition ERROR : Z := 0x0370 / 4.
Definition MASKED : Z := 0x00010000.
Definition TICR : Z := 0x0380 / 4.
Definition TDCR : Z := 0x03E0 / 4.
Definition IRQ_ERROR : Z := 19.

Definition lapicr (index : Z) (d : devices) : Z := default 0 (lapic_reg d !! index).
Definition lapicw (index value : Z) (d : devices) : devices :=
  d <| lapic_reg ::= <[index := u32 value]> |>.

(** [lapic] is the pointer set by mpinit. *)
Definition lapicinit (lapic : Z) (d : devices) : devices :=
  if lapic =? 0 then d else
  let d := lapicw SVR (Z.lor ENABLE (T_IRQ0 + IRQ_SPURIOUS)) d in
  let d := lapicw TDCR X1 d in
  let d := lapicw TIMER (Z.lor PERIODIC (T_IRQ0 + IRQ_TIMER)) d in
  let d := lapicw TICR 10000000 d in
  let d := lapicw LINT0 MASKED d in
  let d := lapicw LINT1 MASKED d in
  let d := if 4 <=? Z.land (Z.shiftr (lapicr VER d) 16) 0xFF then lapicw PCINT MASKED d else d in
  let d := lapicw ERROR (T_IRQ0 + IRQ_ERROR) d in
  let d := lapicw ESR 0 d in
  let d := lapicw ESR 0 d in
  let d := lapicw EOI 0 d in
  let d := lapicw ICRHI 0 d in
  let d := lapicw ICRLO (Z.lor (Z.lor BCAST INIT) LEVEL) d in
  lapicw TPR 0 d.

Definition lapicid (lapic : Z) (d : devices) : Z :=
  if lapic =? 0 then 0 else Z.shiftr (lapicr ID d) 24.

Definition lapiceoi (lapic : Z) (d : devices) : devices := if lapic =? 0 then d else lapicw EOI 0 d.

Definition CMOS_PORT : Z := 0x70.

Definition lapicstartap (apicid addr : Z) (d : devices) : devices :=
  let d := outb CMOS_PORT 0xF d in
  let d := outb (CMOS_PORT + 1) 0x0A d in
  let wrv := P2V (Z.lor (Z.shiftl 0x40 4) 0x67) in
  let d := d <| low_mem ::= <[wrv := 0]> |> in
  let d := d <| low_mem ::= <[wrv + 2 := u16 (Z.shiftr addr 4)]> |> in
  let d := lapicw ICRHI (Z.shiftl apicid 24) d in
  let d := lapicw ICRLO (Z.lor (Z.lor INIT LEVEL) ASSERT) d in
  let d := lapicw ICRLO (Z.lor INIT LEVEL) d in
  let d := lapicw ICRLO (Z.lor STARTUP (Z.shiftr addr 12)) (lapicw ICRHI (Z.shiftl apicid 24) d) in
  lapicw ICRLO (Z.lor STARTUP (Z.shiftr addr 12)) (lapicw ICRHI (Z.shiftl apicid 24) d).

(** ** The I/O APIC *)

Definition REG_ID : Z := 0x00.
Definition REG_VER : Z := 0x01.
Definition REG_TABLE : Z := 0x10.
Definition INT_DISABLED : Z := 0x00010000.

Definition ioapicread (reg : Z) (d : devices) : Z := default 0 (io_reg d !! reg).
Definition ioapicwrite (reg data : Z) (d : devices) : devices := d <| io_reg ::= <[reg := u32 data]> |>.

(** One turn of the loop over the interrupts. *)
Definition ioapic_mask (i : Z) (d : devices) : devices :=
  ioapicwrite (REG_TABLE + 2 * i + 1) 0 (ioapicwrite (REG_TABLE + 2 * i) (Z.lor INT_DISABLED (T_IRQ0 + i)) d).

(** The registers, and whether the message about the id is printed. *)
Definition ioapicinit (ioapicid : Z) (d : devices) : devices * bool :=
  let maxintr := Z.land (Z.shiftr (ioapicread REG_VER d) 16) 0xFF in
  let id := Z.shiftr (ioapicread REG_ID d) 24 in
  (foldl (fun d i => ioapic_mask i d) d (range 0 (maxintr + 1)), negb (id =? ioapicid)).

Definition ioapicenable (irq cpunum : Z) (d : devices) : devices :=
  ioapicwrite (REG_TABLE + 2 * irq + 1) (Z.shiftl cpunum 24)
    (ioapicwrite (REG_TABLE + 2 * irq) (T_IRQ0 + irq) d).

(** ** The 8259A controllers and the serial port *)

Definition IO_PIC1 : Z := 0x20.
Definition IO_PIC2 : Z := 0xA0.

Definition picinit (d : devices) : devices := outb (IO_PIC2 + 1) 0xFF (outb (IO_PIC1 + 1) 0xFF d).

Definition COM1 : Z := 0x3f8.

(** [status] is what inb(COM1+5) returns; the second component is the variable uart. *)
Definition uartinit (status : Z) (d : devices) : devices * bool :=
  let d := outb (COM1 + 2) 0 d in
  let d := outb (COM1 + 3) 0x80 d in
  let d := outb (COM1 + 0) (115200 / 9600) d in
  let d := outb (COM1 + 1) 0 d in
  let d := outb (COM1 + 3) 0x03 d in
  let d := outb (COM1 + 4) 0 d in
  let d := outb (COM1 + 1) 0x01 d in
  if status =? 0xFF then (d, false) else
  let d := ioapicenable IRQ_COM1 0 d in
  (foldl (fun d c => outb (COM1 + 0) c d) d (str "xv6..." ++ [10]), true).

(** -1 is None. *)
Definition uartgetc (uart : bool) (status data : Z) : option Z :=
  if negb uart then None else if Z.land status 0x01 =? 0 then None else Some data.

(** ** The clock *)

Record rtcdate := mkDate { second : Z; minute : Z; hour : Z; day : Z; month : Z; year : Z }.
#[export] Instance rtcdate_eq_dec : EqDecision rtcdate.
Proof. solve_decision. Defined.

Definition CMOS_STATA : Z := 0x0a.
Definition CMOS_STATB : Z := 0x0b.
Definition CMOS_UIP : Z := Z.shiftl 1 7.
Definition SECS : Z := 0x00.
Definition MINS : Z := 0x02.
Definition HOURS : Z := 0x04.
Definition DAY : Z := 0x07.
Definition MONTH : Z := 0x08.
Definition YEAR : Z := 0x09.

Section clock.
(** The registers of the clock at the time of the [n]-th read. *)
Context (rtc : nat -> Z -> Z).

Definition cmos_read (n : nat) (reg : Z) : Z := u8 (rtc n reg).

(** Six reads, from the [n]-th on. *)
Definition fill_rtcdate (n : nat) : rtcdate :=
  mkDate (cmos_read n SECS) (cmos_read (n + 1) MINS) (cmos_read (n + 2) HOURS)
    (cmos_read (n + 3) DAY) (cmos_read (n + 4) MONTH) (cmos_read (n + 5) YEAR).

(** The loop, at most [fuel] turns, from the [n]-th read on. *)
Fixpoint cmos_loop (fuel n : nat) : option rtcdate :=
  match fuel with
  | O => None
  | S fuel =>
      let t1 := fill_rtcdate n in
      if negb (Z.land (cmos_read (n + 6) CMOS_STATA) CMOS_UIP =? 0) then cmos_loop fuel (n + 7)
      else if bool_decide (t1 = fill_rtcdate (n + 7)) then Some t1
      else cmos_loop fuel (n + 13)
  end.

Definition CONV (x : Z) : Z := u32 (Z.shiftr x 4 * 10 + Z.land x 0xf).

Definition cmostime (fuel : nat) : option rtcdate :=
  let sb := cmos_read 0 CMOS_STATB in
  let bcd := Z.land sb (Z.shiftl 1 2) =? 0 in
  match cmos_loop fuel 1 with
  | None => None
  | Some t =>
      let t := if bcd then mkDate (CONV (second t)) (CONV (minute t)) (CONV (hour t))
                             (CONV (day t)) (CONV (month t)) (CONV (year t)) else t in
      Some (mkDate (second t) (minute t) (hour t) (day t) (month t) (u32 (year t + 2000)))
  end.

End clock.

(** ** What the programming achieves *)

(** The vector an entry of the redirection table delivers, and whether it is masked. *)
Definition vector (low : Z) : Z := Z.land low 0xFF.
Definition masked (low : Z) : bool := Z.testbit low 16.

Lemma ioapic_mask_other i j d : i <> j ->
  io_reg (ioapic_mask i d) !! (REG_TABLE + 2 * j) = io_reg d !! (REG_TABLE + 2 * j).
Proof. intros H. unfold ioapic_mask, ioapicwrite. cbn. by rewrite !lookup_insert_ne by (unfold REG_TABLE; lia). Qed.

Lemma ioapic_mask_loop l j d :
  j ∈ l \/ io_reg d !! (REG_TABLE + 2 * j) = Some (u32 (Z.lor INT_DISABLED (T_IRQ0 + j))) ->
  io_reg (foldl (fun d i => ioapic_mask i d) d l) !! (REG_TABLE + 2 * j) =
  Some (u32 (Z.lor INT_DISABLED (T_IRQ0 + j))).
Proof.
  revert d. induction l as [|i l IH]; intros d Hj; cbn.
  { by destruct Hj as [?%elem_of_nil|]. }
  apply IH. destruct (decide (i = j)) as [->|Hij].
  - right. unfold ioapic_mask, ioapicwrite. cbn. rewrite lookup_insert_ne by lia. apply lookup_insert_eq.
  - rewrite ioapic_mask_other by done. destruct Hj as [[?|?]%elem_of_cons|?]; [congruence|by left|by right].
Qed.

(** After ioapicinit every interrupt of the controller is masked. *)
Lemma ioapicinit_masks id d irq :
  0 <= irq <= Z.land (Z.shiftr (ioapicread REG_VER d) 16) 0xFF ->
  masked (ioapicread (REG_TABLE + 2 * irq) (ioapicinit id d).1) = true.
Proof.
  intros Hi. unfold ioapicinit, ioapicread at 1. cbn [fst].
  rewrite ioapic_mask_loop.
  2: { left. unfold range. apply elem_of_seqZ. lia. }
  cbn [default from_option]. unfold masked, Datatypes.id, INT_DISABLED, T_IRQ0, u32.
  rewrite Z.mod_pow2_bits_low by lia. rewrite Z.lor_spec. done.
Qed.

(** ioapicenable lets [irq] through to the processor with the vector that trap() expects, and
    changes no other interrupt. *)
Lemma ioapicenable_routes irq cpu d :
  0 <= irq < 224 -> 0 <= cpu < 256 ->
  let d' := ioapicenable irq cpu d in
  vector (ioapicread (REG_TABLE + 2 * irq) d') = T_IRQ0 + irq /\
  masked (ioapicread (REG_TABLE + 2 * irq) d') = false /\
  Z.shiftr (ioapicread (REG_TABLE + 2 * irq + 1) d') 24 = cpu /\
  forall j, j <> irq -> ioapicread (REG_TABLE + 2 * j) d' = ioapicread (REG_TABLE + 2 * j) d /\
                        ioapicread (REG_TABLE + 2 * j + 1) d' = ioapicread (REG_TABLE + 2 * j + 1) d.
Proof.
  intros Hi Hc d'. assert (ioapicread (REG_TABLE + 2 * irq) d' = T_IRQ0 + irq) as E.
  { unfold d', ioapicenable, ioapicwrite, ioapicread. cbn. rewrite lookup_insert_ne by (unfold REG_TABLE; lia).
    rewrite lookup_insert_eq. cbn. apply u32_small. unfold is_u32, T_IRQ0. lia. }
  rewrite E. unfold T_IRQ0. split; [|split; [|split]].
  - unfold vector. change 0xFF with (Z.ones 8). rewrite Z.land_ones by lia. apply Z.mod_small. lia.
  - unfold masked. apply Z.bits_above_log2; [lia|]. apply Z.log2_lt_pow2; lia.
  - unfold d', ioapicenable, ioapicwrite, ioapicread. cbn. rewrite lookup_insert_eq. cbn.
    rewrite u32_small; [by rewrite Z.shiftr_shiftl_l, Z.shiftl_0_r by lia|].
    rewrite Z.shiftl_mul_pow2 by lia. unfold is_u32. lia.
  - intros j Hj. unfold d', ioapicenable, ioapicwrite, ioapicread. cbn.
    by rewrite !lookup_insert_ne by (unfold REG_TABLE; lia).
Qed.

(** The timer interrupts with the vector that trap() takes for a clock tick. *)
Lemma lapicinit_timer lapic d :
  lapic <> 0 -> lapicr TIMER (lapicinit lapic d) = Z.lor PERIODIC (T_IRQ0 + IRQ_TIMER) /\
    vector (lapicr TIMER (lapicinit lapic d)) = T_IRQ0 + IRQ_TIMER /\ lapicr TPR (lapicinit lapic d) = 0.
Proof.
  intros Hl. unfold lapicinit. destruct (Z.eqb_spec lapic 0); [done|].
  unfold lapicr, lapicw. destruct (4 <=? _); cbn [lapic_reg upd]; simpl_map; split_and!; reflexivity.
Qed.

(** Binary coded decimal: the conversion reads every two-digit number. *)
Lemma CONV_bcd v : 0 <= v < 100 -> CONV (16 * (v / 10) + v mod 10) = v.
Proof.
  intros Hv. unfold CONV. change 0xf with (Z.ones 4). rewrite Z.land_ones, Z.shiftr_div_pow2 by lia.
  change (2 ^ 4) with 16. unfold u32. change (2 ^ 32) with 4294967296.
  Z.div_mod_to_equations. lia.
Qed.
