(* ===== verification/Bootmain.v ===== *)
(** * The boot loader: bootmain.c

    The loader reads the kernel from the disk, an ELF file that starts at sector 1, and copies its
    segments to the physical addresses they ask for.  Memory is any [ByteMem], addressed
    physically; the disk gives the 512 bytes of each sector. *)

From stdpp Require Import base list gmap strings fin_maps sorting.
From S2P Require Import Prelude State Monad Kalloc Str Mp Exec.
Open Scope Z_scope.

Definition SECTSIZE : Z := 512.

(** The program header fields the loader uses. *)
Record seg := mkSeg { s_off : Z; s_paddr : Z; s_filesz : Z; s_memsz : Z }.

Section boot.
Context {T : Type} `{!ByteMem T} (disk : Z -> list Z).
Implicit Types (t : T).

Fixpoint store_bytes t (dst : Z) (l : list Z) : T :=
  match l with
  | [] => t
  | b :: l => store_bytes (stb t (u32 dst) b) (dst + 1) l
  end.

(** The command as the controller's ports get it. *)
Definition sect_command (offset : Z) : list (Z * Z) :=
  [(0x1F2, 1); (0x1F3, u8 offset); (0x1F4, u8 (Z.shiftr offset 8)); (0x1F5, u8 (Z.shiftr offset 16));
   (0x1F6, u8 (Z.lor (Z.shiftr offset 24) 0xE0)); (0x1F7, 0x20)].

(** The controller delivers the sector with the 28-bit number that its registers give. *)
Definition lba (cmd : list (Z * Z)) : Z :=
  match cmd with
  | [_; (_, b0); (_, b1); (_, b2); (_, b3); _] =>
      b0 + Z.shiftl b1 8 + Z.shiftl b2 16 + Z.shiftl (Z.land b3 0x0F) 24
  | _ => 0
  end.

Definition readsect t (dst offset : Z) : T := store_bytes t dst (disk (lba (sect_command offset))).

(** [for(; pa < epa; pa += SECTSIZE, offset++) readsect(pa, offset);] at most [n] times. *)
Fixpoint readseg_loop (n : nat) t (pa epa offset : Z) : T :=
  match n with
  | O => t
  | S n => if pa <? epa then readseg_loop n (readsect t pa offset) (u32 (pa + SECTSIZE)) epa (u32 (offset + 1))
           else t
  end.

(** A segment of [count] bytes takes count / SECTSIZE + 2 sectors at most. *)
Definition readseg t (pa count offset : Z) : T :=
  readseg_loop (Z.to_nat (count / SECTSIZE + 2)) t (u32 (pa - offset mod SECTSIZE)) (u32 (pa + count))
    (u32 (offset / SECTSIZE + 1)).

(** The program header at [ph]. *)
Definition seg_at t (ph : Z) : seg :=
  mkSeg (word_at t (ph + 4)) (word_at t (ph + 12)) (word_at t (ph + 16)) (word_at t (ph + 20)).

Definition load_seg t (s : seg) : T :=
  let t := readseg t (s_paddr s) (s_filesz s) (s_off s) in
  if s_filesz s <? s_memsz s
  then stosb t (u32 (s_paddr s + s_filesz s)) 0 (Z.to_nat (s_memsz s - s_filesz s))
  else t.

(** The loop over [n] program headers from [ph] on, each read when its turn comes. *)
Fixpoint load_loop (n : nat) t (ph : Z) : T :=
  match n with
  | O => t
  | S n => load_loop n (load_seg t (seg_at t ph)) (ph + 32)
  end.

Definition scratch : Z := 0x10000.

(** The entry point that is called, and the memory; None when bootmain returns. *)
Definition bootmain t : option (Z * T) :=
  let t := readseg t scratch 4096 0 in
  if negb (word_at t scratch =? ELF_MAGIC) then None else
  let t' := load_loop (Z.to_nat (short_at t (scratch + 44))) t (scratch + word_at t (scratch + 28)) in
  Some (word_at t' (scratch + 24), t').

(** ** Loading a segment *)

(** The byte of the kernel file at offset [k]. *)
Definition kbyte (k : Z) : Z := u8 (nthz 0 (disk (k / SECTSIZE + 1)) (k mod SECTSIZE)).

Lemma lba_command offset : 0 <= offset < 2 ^ 28 -> lba (sect_command offset) = offset.
Proof.
  intros Ho. cbn [lba sect_command]. unfold u8. rewrite !Z.shiftr_div_pow2, !Z.shiftl_mul_pow2 by lia.
  rewrite <-(Z.land_ones (Z.lor _ _)), <-Z.land_assoc, Z.land_lor_distr_l by lia.
  change (Z.land (Z.ones 8) 15) with (Z.ones 4). change (Z.land 224 (Z.ones 4)) with 0.
  rewrite Z.lor_0_r, Z.land_ones by lia. cbn. Z.to_euclidean_division_equations. lia.
Qed.

Context (Hdisk : forall n, length (disk n) = 512%nat).

Lemma store_bytes_spec t dst l a :
  block dst (Z.of_nat (length l)) -> is_addr a ->
  ldb (store_bytes t dst l) a =
  if within dst (Z.of_nat (length l)) a then u8 (nthz 0 l (a - dst)) else ldb t a.
Proof.
  unfold block, is_addr. revert t dst. induction l as [|b l IH]; intros t dst Hb Ha; cbn [store_bytes length] in *.
  { unfold within. by bool_arith; try lia. }
  rewrite IH, u32_small, ldb_stb by (unfold is_u32, is_addr; lia). unfold within, nthz.
  bool_arith; try lia; try done; try (subst a; by rewrite Z.sub_diag).
  replace (Z.to_nat (a - dst)) with (S (Z.to_nat (a - (dst + 1)))) by lia. done.
Qed.

Lemma kbyte_sector n i : 0 <= i < 512 -> kbyte (512 * (n - 1) + i) = u8 (nthz 0 (disk n) i).
Proof.
  intros Hi. unfold kbyte, SECTSIZE.
  rewrite (Z.mul_comm 512), Z.div_add_l, (Z.add_comm _ i), Z.mod_add, Z.div_small, Z.mod_small by lia.
  do 3 f_equal. lia.
Qed.

(** [j] sectors: the memory holds the file from the start of the first sector on. *)
Lemma readseg_loop_spec n t pa epa offset (j : Z) a :
  0 <= j <= Z.of_nat n -> 0 <= pa -> pa + 512 * j < 2 ^ 32 -> 0 < offset -> offset + j < 2 ^ 28 ->
  (forall i, 0 <= i < j -> pa + 512 * i < epa) -> epa <= pa + 512 * j -> is_addr a ->
  ldb (readseg_loop n t pa epa offset) a =
  if within pa (512 * j) a then kbyte (512 * (offset - 1) + (a - pa)) else ldb t a.
Proof.
  revert t pa offset j. induction n as [|n IH]; intros t pa offset j Hj Hpa Hfit Ho Hof Hlt Hend Ha;
    cbn [readseg_loop].
  { unfold within. by bool_arith; try lia. }
  destruct (decide (j = 0)) as [->|Hj0].
  { unfold within. by bool_arith; try lia. }
  specialize (Hlt 0) as Hlt0. destruct (Z.ltb_spec pa epa) as [_|]; [|lia].
  rewrite !u32_small by (unfold is_u32, SECTSIZE; lia). unfold SECTSIZE.
  rewrite (IH _ _ _ (j - 1)); [|try lia..|done].
  2: { intros i Hi. specialize (Hlt (i + 1)). lia. }
  unfold readsect. rewrite lba_command by lia. rewrite store_bytes_spec, Hdisk by (rewrite ?Hdisk; unfold block; try done; lia).
  unfold within. bool_arith; try lia; try done; try (by rewrite kbyte_sector by lia); f_equal; lia.
Qed.


(** The sectors that a segment of [count] bytes at [offset] spans. *)
Definition sectors (count offset : Z) : Z := (offset mod 512 + count + 511) / 512.

Lemma sectors_bounds count offset :
  0 <= count -> offset mod 512 + count <= 512 * sectors count offset < offset mod 512 + count + 512.
Proof. intros Hc. unfold sectors. pose proof (Z.div_mod (offset mod 512 + count + 511) 512). 
  pose proof (Z.mod_pos_bound (offset mod 512 + count + 511) 512). lia. Qed.

(** readseg fills whole sectors from the sector boundary below pa on, and nothing else. *)
Lemma readseg_spec t pa count offset a :
  0 <= offset < 2 ^ 32 -> 0 <= count -> offset mod 512 <= pa -> pa + count + 512 < 2 ^ 32 -> is_addr a ->
  ldb (readseg t pa count offset) a =
  if within (pa - offset mod 512) (512 * sectors count offset) a then kbyte (offset + (a - pa)) else ldb t a.
Proof.
  intros Ho Hc Hpa Hfit Ha. pose proof (sectors_bounds count offset Hc) as Hs.
  pose proof (Z.mod_pos_bound offset 512) as Hm. pose proof (Z.div_mod offset 512) as Hd.
  pose proof (Z.div_mod count 512) as Hcd. pose proof (Z.mod_pos_bound count 512) as Hcm.
  unfold readseg. change SECTSIZE with 512. rewrite !u32_small by (unfold is_u32; lia).
  rewrite (readseg_loop_spec _ _ _ _ _ (sectors count offset)); try done; try lia.
  unfold within. bool_arith; try lia; try done. f_equal. lia.
Qed.

(** ** The whole kernel *)

(** Words and program headers of the file. *)
Definition fshort (k : Z) : Z := kbyte k + 256 * kbyte (k + 1).
Definition fword (k : Z) : Z := fshort k + 65536 * fshort (k + 2).
Definition file_seg (k : Z) : seg := mkSeg (fword (k + 4)) (fword (k + 12)) (fword (k + 16)) (fword (k + 20)).

Fixpoint file_segs (n : nat) (k : Z) : list seg :=
  match n with O => [] | S n => file_seg k :: file_segs n (k + 32) end.

(** Where the loading of a segment starts writing, and where its contents end. *)
Definition low (s : seg) : Z := s_paddr s - s_off s mod 512.
Definition high (s : seg) : Z := s_paddr s + Z.max (s_filesz s) (s_memsz s).

(** A segment the loader can take: above its scratch page, and not at the very top. *)
Definition seg_ok (s : seg) : Prop := scratch + 4096 <= low s /\ high s + 512 < 2 ^ 32.

(** The loader goes up: the sectors of a later segment start above an earlier segment. *)
Definition before (s s' : seg) : Prop := high s <= low s'.

Definition loaded t (s : seg) : Prop :=
  (forall i, 0 <= i < s_filesz s -> ldb t (s_paddr s + i) = kbyte (s_off s + i)) /\
  (forall i, s_filesz s <= i < s_memsz s -> ldb t (s_paddr s + i) = 0).

(** The scratch page holds the start of the file. *)
Definition header t : Prop := forall k, 0 <= k < 4096 -> ldb t (scratch + k) = kbyte k.

Lemma kbyte_range k : 0 <= kbyte k < 256.
Proof. apply u8_range. Qed.

Lemma fword_range k : is_u32 (fword k).
Proof.
  unfold is_u32, fword, fshort. pose proof (kbyte_range k). pose proof (kbyte_range (k + 1)).
  pose proof (kbyte_range (k + 2)). pose proof (kbyte_range (k + 2 + 1)). lia.
Qed.

Lemma header_word t k : header t -> 0 <= k -> k + 4 <= 4096 -> word_at t (scratch + k) = fword k.
Proof.
  intros Hh Hk Hk'. unfold word_at, short_at, byte_at, fword, fshort.
  rewrite <-!Z.add_assoc, !Hh by lia. done.
Qed.

Lemma header_seg t k : header t -> 0 <= k -> k + 32 <= 4096 -> seg_at t (scratch + k) = file_seg k.
Proof.
  intros Hh Hk Hk'. unfold seg_at, file_seg. by rewrite <-!Z.add_assoc, !header_word by (done || lia).
Qed.

Lemma load_seg_spec t k (s := file_seg k) :
  seg_ok s -> loaded (load_seg t s) s /\ (forall a, 0 <= a < low s -> ldb (load_seg t s) a = ldb t a).
Proof.
  intros [Hlo Hhi]. pose proof (fword_range (k + 4)) as Ho. pose proof (fword_range (k + 16)) as Hf.
  pose proof (fword_range (k + 12)) as Hp. pose proof (fword_range (k + 20)) as Hm.
  change (fword (k + 4)) with (s_off s) in Ho. change (fword (k + 16)) with (s_filesz s) in Hf.
  change (fword (k + 12)) with (s_paddr s) in Hp. change (fword (k + 20)) with (s_memsz s) in Hm.
  clearbody s. unfold low, high, scratch, is_u32 in *.
  pose proof (Z.mod_pos_bound (s_off s) 512) as Hmod. pose proof (sectors_bounds (s_filesz s) (s_off s)) as Hs.
  assert (forall a, is_addr a -> ldb (load_seg t s) a =
    if within (s_paddr s + s_filesz s) (Z.max 0 (s_memsz s - s_filesz s)) a then 0 else
    if within (s_paddr s - s_off s mod 512) (512 * sectors (s_filesz s) (s_off s)) a
    then kbyte (s_off s + (a - s_paddr s)) else ldb t a) as Hload.
  { intros a Ha. unfold load_seg. rewrite <-(readseg_spec t) by (done || lia).
    destruct (Z.ltb_spec (s_filesz s) (s_memsz s)) as [Hlt|Hge].
    - rewrite stosb_spec by (done || unfold block; lia). rewrite Z2Nat.id, Z.max_r by lia. done.
    - rewrite Z.max_l by lia. unfold within. by bool_arith; try lia. }
  split; [split|]; intros i Hi; rewrite Hload by (unfold is_addr; lia); unfold within; bool_arith; try lia; try done.
  f_equal. lia.
Qed.

(** Loading the segments from the one at offset [k] of the file on. *)
Lemma load_loop_spec n : forall t k,
  header t -> 0 <= k -> k + 32 * Z.of_nat n <= 4096 ->
  Forall seg_ok (file_segs n k) -> StronglySorted before (file_segs n k) ->
  let t' := load_loop n t (scratch + k) in
  header t' /\ Forall (loaded t') (file_segs n k) /\
  (forall a, 0 <= a -> Forall (fun s => a < low s) (file_segs n k) -> ldb t' a = ldb t a).
Proof.
  induction n as [|n IH]; intros t k Hh Hk Hk' Hok Hsorted; cbn [file_segs load_loop] in *; [done|].
  apply Forall_cons in Hok as [Hs Hok]. apply StronglySorted_inv in Hsorted as [Hsorted Hbefore].
  rewrite header_seg by (done || lia). destruct (load_seg_spec t k Hs) as [Hl Hsame].
  set (t1 := load_seg t (file_seg k)) in *. rewrite <-Z.add_assoc.
  destruct (IH t1 (k + 32)) as (Hh' & Hl' & Hsame'); try done; try lia.
  { intros i Hi. rewrite Hsame; [by apply Hh|]. destruct Hs. unfold scratch in *. lia. }
  split; [done|]. split; [constructor; [|done]|].
  - destruct Hl as [Hfile Hbss]. pose proof (fword_range (k + 12)) as Hp.
    assert (forall i, 0 <= i -> s_paddr (file_seg k) + i < high (file_seg k) ->
      ldb (load_loop n t1 (scratch + (k + 32))) (s_paddr (file_seg k) + i) = ldb t1 (s_paddr (file_seg k) + i)) as E.
    { intros i Hi Hlt. apply Hsame'; [destruct Hp; cbn; lia|].
      eapply Forall_impl; [exact Hbefore|]. intros s' Hs'. unfold before in Hs'. cbn beta. lia. }
    pose proof (fword_range (k + 16)) as Hf. unfold is_u32 in Hf. change (fword (k + 16)) with (s_filesz (file_seg k)) in Hf.
    split; intros i Hi; rewrite E by (unfold high; lia); [by apply Hfile|by apply Hbss].
  - intros a Ha Hall. apply Forall_cons in Hall as [Hlow Hall]. rewrite Hsame' by done. by apply Hsame.
Qed.

Lemma header_readseg t : header (readseg t scratch 4096 0).
Proof.
  intros k Hk. unfold scratch. pose proof (eq_refl : 0 mod 512 = 0) as E.
  rewrite readseg_spec by (unfold is_addr; rewrite ?E; lia). rewrite E. unfold within. change (sectors 4096 0) with 8. bool_arith; try lia. f_equal. lia.
Qed.

Lemma bootmain_spec t (n := Z.to_nat (fshort 44)) (segs := file_segs n (fword 28)) :
  fword 0 = ELF_MAGIC -> fword 28 + 32 * fshort 44 <= 4096 -> Forall seg_ok segs -> StronglySorted before segs ->
  exists t', bootmain t = Some (fword 24, t') /\ Forall (loaded t') segs.
Proof.
  intros Hmagic Hfit Hok Hsorted. pose proof (header_readseg t) as Hh. unfold bootmain.
  change (word_at (readseg t scratch 4096 0) scratch) with (word_at (readseg t scratch 4096 0) (scratch + 0)).
  rewrite (header_word _ 0), (header_word _ 28), Hmagic by (done || lia). cbn [negb].
  assert (0 <= fshort 44) as Hn.
  { unfold fshort. pose proof (kbyte_range 44). pose proof (kbyte_range (44 + 1)). lia. }
  replace (short_at (readseg t scratch 4096 0) (scratch + 44)) with (fshort 44).
  2: { unfold short_at, byte_at, fshort. by rewrite <-!Z.add_assoc, !Hh by lia. }
  destruct (fword_range 28) as [Hk _]. fold n.
  destruct (load_loop_spec n (readseg t scratch 4096 0) (fword 28)) as (Hh' & Hl & _); try done; try lia.
  rewrite Z.eqb_refl. eexists. split; [|exact Hl]. by rewrite header_word by (done || lia).
Qed.

Lemma bootmain_not_elf t : fword 0 <> ELF_MAGIC -> bootmain t = None.
Proof.
  intros Hne. unfold bootmain. rewrite <-(Z.add_0_r scratch) at 2.
  rewrite header_word by (apply header_readseg || lia). by apply Z.eqb_neq in Hne as ->.
Qed.

End boot.
