(* ===== verification/Ulib.v ===== *)
(** * The user library: ulib.c and printf.c

    User programs see their memory as arrays of bytes.  A string is given by the bytes from its
    pointer on; a NUL, or the end of the list for a literal, ends it.  Input is the sequence of
    pieces that successive calls of read can return at most, which is how a console, a pipe or a
    file delivers it; output is the list of bytes written. *)

From stdpp Require Import base list gmap strings fin_maps.
From S2P Require Import Prelude State Monad Console.
Open Scope Z_scope.
Local Open Scope stdpp_scope.

(** ** Strings *)

Fixpoint strlen (s : list Z) : nat :=
  match s with
  | [] => 0
  | c :: s => if c =? 0 then 0 else S (strlen s)
  end.

(** The characters of a string. *)
Definition chars (s : list Z) : list Z := take (strlen s) s.

(** The index of the first occurrence of [c], None for the null pointer. *)
Fixpoint strchr (s : list Z) (c : Z) : option nat :=
  match s with
  | [] => None
  | x :: s => if x =? 0 then None else if x =? c then Some 0%nat else S <$> strchr s c
  end.

(** The two loops step through both strings together. *)
Fixpoint strcmp (p q : list Z) : Z :=
  match p with
  | [] => 0 - default 0 (head q)
  | c :: p' =>
      if negb (c =? 0) && (c =? default 0 (head q)) then strcmp p' (tail q)
      else c - default 0 (head q)
  end.

(** The array [s] after [t] was copied to it, NUL included. *)
Fixpoint strcpy (s t : list Z) : list Z :=
  match t with
  | [] => 0 :: tail s
  | c :: t => if c =? 0 then 0 :: tail s else c :: strcpy (tail s) t
  end.

Definition memset (dst : list Z) (c : Z) (n : nat) : list Z := replicate n (u8 c) ++ drop n dst.

(** [while(n-- > 0) *dst++ = *src++] within one array: always upwards. *)
Fixpoint memmove (a : list Z) (dst src n : nat) : list Z :=
  match n with
  | O => a
  | S n => memmove (<[dst := default 0 (a !! src)]> a) (S dst) (S src) n
  end.

Fixpoint atoi_loop (s : list Z) (n : Z) : Z :=
  match s with
  | [] => n
  | c :: s => if (48 <=? c) && (c <=? 57) then atoi_loop s (s32 (n * 10 + c - 48)) else n
  end.

Definition atoi (s : list Z) : Z := atoi_loop s 0.

(** ** Input *)

(** read of at most [n] bytes: what is available, up to [n]; nothing at the end of the input. *)
Definition read (n : nat) (inp : list (list Z)) : list Z * list (list Z) :=
  match inp with
  | [] => ([], [])
  | c :: inp' => if decide (length c <= n)%nat then (c, inp') else (take n c, drop n c :: inp')
  end.

(** The loop of gets, [room] characters before the buffer is full: the characters read. *)
Fixpoint gets_loop (room : nat) (inp : list (list Z)) : list Z * list (list Z) :=
  match room with
  | O => ([], inp)
  | S room =>
      match read 1 inp with
      | ([], inp) => ([], inp)
      | (c :: _, inp) =>
          if (c =? 10) || (c =? 13) then ([c], inp)
          else let '(l, inp) := gets_loop room inp in (c :: l, inp)
      end
  end.

(** The contents of the array [buf] of [max] bytes, and the rest of the input. *)
Definition gets (buf : list Z) (max : nat) (inp : list (list Z)) : list Z * list (list Z) :=
  let '(l, inp) := gets_loop (max - 1) inp in (l ++ 0 :: drop (length l + 1) buf, inp).

(** ** Formatted output *)

Definition digits : list Z := str "0123456789ABCDEF".

Fixpoint digit_loop (fuel : nat) (x base : Z) : option (list Z) :=
  match fuel with
  | O => None
  | S fuel =>
      let d := nthz 0 digits (x mod base) in
      if x / base =? 0 then Some [d] else (d ::.) <$> digit_loop fuel (x / base) base
  end.

(** The bytes written; None when the local array [char buf[16]] overflows. *)
Definition printint (xx base : Z) (sgn : bool) : option (list Z) :=
  let neg := sgn && (s32 xx <? 0) in
  let x := if neg then u32 (- s32 xx) else u32 xx in
  ds ← digit_loop 16 x base;
  let b := if neg then ds ++ [45] else ds in
  if 16 <? Z.of_nat (length b) then None else Some (reverse b).

(** The text of one conversion [%c], and the arguments left; None for an argument of the wrong
    kind or missing. *)
Definition convert (c : Z) (ap : list arg) : option (list Z * list arg) :=
  if c =? 100 then                                            (* 'd' *)
    match ap with AInt z :: ap => (., ap) <$> printint z 10 true | _ => None end
  else if (c =? 120) || (c =? 112) then                       (* 'x', 'p' *)
    match ap with AInt z :: ap => (., ap) <$> printint z 16 false | _ => None end
  else if c =? 115 then                                       (* 's' *)
    match ap with
    | AStr s :: ap => Some (chars s, ap)
    | AInt z :: ap => if z =? 0 then Some (str "(null)", ap) else None
    | [] => None
    end
  else if c =? 99 then                                        (* 'c' *)
    match ap with AInt z :: ap => Some ([u8 z], ap) | _ => None end
  else if c =? 37 then Some ([c], ap)
  else Some ([37; c], ap).

(** The loop over the format; [state] tells whether the last character was a percent sign. *)
Fixpoint printf_loop (state : bool) (fmt : list Z) (ap : list arg) : option (list Z) :=
  match fmt with
  | [] => Some []
  | c :: fmt =>
      if state then
        '(t, ap) ← convert c ap; (t ++.) <$> printf_loop false fmt ap
      else if c =? 37 then printf_loop true fmt ap
      else (c ::.) <$> printf_loop false fmt ap
  end.

Definition printf (fmt : string) (ap : list arg) : option (list Z) :=
  printf_loop false (str fmt) ap.
