(* ===== verification/Grep.v ===== *)
(** * grep.c

    The regular-expression matcher works on strings given by their characters.  The loop over
    the input is given the pieces that read delivers and returns what is written to the
    standard output. *)

From stdpp Require Import base list gmap fin_maps.
From S2P Require Import Prelude State Monad Console Ulib.
Open Scope Z_scope.

(** ** The matcher *)

(** matchstar, with the search for the rest of the pattern as a parameter. *)
Fixpoint matchstar (here : list Z -> bool) (c : Z) (text : list Z) : bool :=
  if here text then true
  else match text with
       | [] => false
       | t :: text => if (t =? c) || (c =? 46) then matchstar here c text else false
       end.

Fixpoint matchhere (re text : list Z) : bool :=
  match re with
  | [] => true
  | c :: re1 =>
      match re1 with
      | 42 :: re2 => matchstar (matchhere re2) c text
      | _ =>
          if (c =? 36) && bool_decide (re1 = []) then bool_decide (text = [])
          else match text with
               | [] => false
               | t :: text => if (c =? 46) || (c =? t) then matchhere re1 text else false
               end
      end
  end.

(** [do { if(matchhere(re, text)) return 1; } while( *text++ != 0);] *)
Fixpoint search (re text : list Z) : bool :=
  if matchhere re text then true
  else match text with [] => false | _ :: text => search re text end.

Definition re_match (re text : list Z) : bool :=
  match re with
  | 94 :: re => matchhere re text
  | _ => search re text
  end.

(** ** The lines of the input *)

Definition BUFSZ : nat := 1024.

(** The loop over the lines in the buffer from [p] on, at most [n] turns: the text written, and
    the start of the last, unfinished line. *)
Fixpoint lines_loop (n : nat) (re data : list Z) (p : nat) : list Z * nat :=
  match n with
  | O => ([], p)
  | S n =>
      match strchr (drop p data) 10 with
      | None => ([], p)
      | Some i =>
          let line := take i (drop p data) in
          let '(out, p') := lines_loop n re data (p + i + 1) in
          ((if re_match re line then line ++ [10] else []) ++ out, p')
      end
  end.

(** [left] are the [m] bytes at the start of the buffer. *)
Fixpoint grep_loop (n : nat) (re left : list Z) (inp : list (list Z)) : option (list Z) :=
  match n with
  | O => None
  | S n =>
      match read (BUFSZ - length left - 1) inp with
      | ([], _) => Some []
      | (chunk, inp) =>
          let data := left ++ chunk in
          let '(out, p) := lines_loop (length data) re data 0 in
          let left := if (p =? 0)%nat then [] else drop p data in
          (out ++.) <$> grep_loop n re left inp
      end
  end.

(** Each turn takes a byte of the input. *)
Definition grep (re : list Z) (inp : list (list Z)) : option (list Z) :=
  grep_loop (S (length inp + length (mjoin inp))) re [] inp.
