(* ===== verification/GrepProofs.v ===== *)
(** * What grep matches and prints

    [lang] is the usual language of a sequence of characters, wildcards and their repetitions; the
    matcher of grep finds a string of the language in the text, at an end of the text when the
    pattern is anchored.  [grep_lines] is what grep prints for a file. *)

From stdpp Require Import base list gmap fin_maps.
From S2P Require Import Prelude State Monad Console Ulib Grep.
Open Scope Z_scope.

(** ** Patterns and their languages *)

Inductive atom := Any | Lit (c : Z).
Inductive item := One (a : atom) | Star (a : atom).

Definition atom_of (c : Z) : atom := if c =? 46 then Any else Lit c.
Definition accepts (a : atom) (t : Z) : bool := match a with Any => true | Lit c => c =? t end.

(** The items of a pattern without leading ^, and whether it ends in $. *)
Fixpoint items (re : list Z) : list item * bool :=
  match re with
  | [] => ([], false)
  | c :: re1 =>
      match re1 with
      | 42 :: re2 => let '(its, e) := items re2 in (Star (atom_of c) :: its, e)
      | _ =>
          if (c =? 36) && bool_decide (re1 = []) then ([], true)
          else let '(its, e) := items re1 in (One (atom_of c) :: its, e)
      end
  end.

(** The strings of a sequence of items. *)
Fixpoint lang (its : list item) (s : list Z) : Prop :=
  match its with
  | [] => s = []
  | One a :: its => exists t s', s = t :: s' /\ accepts a t = true /\ lang its s'
  | Star a :: its => exists r s', s = r ++ s' /\ Forall (fun t => accepts a t = true) r /\ lang its s'
  end.

Lemma accepts_atom c t : accepts (atom_of c) t = (c =? 46) || (c =? t).
Proof. unfold atom_of. by destruct (c =? 46). Qed.

(** A string of the language is at the front of the text, up to its end if [e]. *)
Definition front (its : list item) (e : bool) (text : list Z) : Prop :=
  exists s post, text = s ++ post /\ lang its s /\ (e = true -> post = []).

Lemma matchstar_front (here : list Z -> bool) c its e text :
  (forall t, here t = true <-> front its e t) ->
  matchstar here c text = true <-> front (Star (atom_of c) :: its) e text.
Proof.
  intros Hh. induction text as [|t text IH]; cbn [matchstar].
  - destruct (here []) eqn:E.
    + split; [intros _|done]. apply Hh in E as (s & post & Ht & Hl & He).
      exists s, post. split; [done|]. split; [|done]. by exists [], s.
    + split; [done|]. intros (s & post & Ht & (r & s' & -> & _ & Hl) & He).
      symmetry in Ht. apply app_eq_nil in Ht as [[_ ->]%app_eq_nil ->].
      assert (here [] = true); [|congruence]. apply Hh. by exists [], [].
  - destruct (here (t :: text)) eqn:E.
    + split; [intros _|done]. apply Hh in E as (s & post & Ht & Hl & He).
      exists s, post. split; [done|]. split; [|done]. by exists [], s.
    + assert (((t =? c) || (c =? 46)) = accepts (atom_of c) t) as ->.
      { rewrite accepts_atom, orb_comm. f_equal. apply Z.eqb_sym. }
      split.
      * destruct (accepts (atom_of c) t) eqn:Ha; [|done]. rewrite IH.
        intros (s & post & -> & (r & s' & -> & Hr & Hl) & He).
        exists (t :: r ++ s'), post. split; [done|]. split; [|done].
        exists (t :: r), s'. split; [done|]. split; [by constructor|done].
      * intros (s & post & Ht & (r & s' & -> & Hr & Hl) & He). destruct Hr as [|t' r Ha Hr].
        { assert (here (t :: text) = true); [|congruence]. apply Hh. by exists s', post. }
        cbn in Ht. injection Ht as <- ->. rewrite Ha, IH. exists (r ++ s'), post.
        split; [done|]. split; [|done]. by exists r, s'.
Qed.

(** The test for a star behind the first character. *)
Lemma star_case {A} (re1 : list Z) (f : list Z -> A) (b : A) :
  head re1 <> Some 42 -> match re1 with 42 :: re2 => f re2 | _ => b end = b.
Proof.
  destruct re1 as [|d re1]; [done|]. cbn. intros Hd.
  destruct d as [|q|q]; try done. do 6 (destruct q as [q|q|]; try done).
Qed.

Lemma matchhere_front re text :
  matchhere re text = true <-> front (items re).1 (items re).2 text.
Proof.
  revert text. cut (forall n re text, (length re <= n)%nat ->
    matchhere re text = true <-> front (items re).1 (items re).2 text).
  { intros H text. by apply (H (length re)). }
  clear re. intros n. induction n as [|n IH]; intros [|c re1] text Hn; cbn [length] in Hn; try lia.
  1, 2: split; [intros _; exists [], text; by split_and!|done].
  destruct (decide (head re1 = Some 42)) as [Hst|Hst].
  { destruct re1 as [|d re2]; [done|]. injection Hst as ->. cbn [matchhere items].
    destruct (items re2) as [its e] eqn:E. cbn [fst snd].
    apply matchstar_front. intros t. rewrite IH, E; [done|]. cbn in Hn. lia. }
  cbn [matchhere items]. rewrite !star_case by done.
  destruct ((c =? 36) && bool_decide (re1 = [])) eqn:Hend; cbn [fst snd].
  { rewrite bool_decide_eq_true. split.
    - intros ->. by exists [], [].
    - intros (s & post & -> & -> & He). by rewrite He. }
  specialize (IH re1). destruct (items re1) as [its e]. cbn [fst snd] in *. split.
  - destruct text as [|t text]; [done|]. rewrite <-accepts_atom.
    destruct (accepts (atom_of c) t) eqn:Ha; [|done]. rewrite IH by lia.
    intros (s & post & -> & Hl & He). exists (t :: s), post. split; [done|]. split; [|done].
    by exists t, s.
  - intros (s & post & -> & (t & s' & -> & Ha & Hl) & He). cbn. rewrite <-accepts_atom, Ha.
    apply IH; [lia|]. by exists s', post.
Qed.

Lemma search_front re text :
  search re text = true <-> exists pre rest, text = pre ++ rest /\ matchhere re rest = true.
Proof.
  induction text as [|t text IH]; cbn [search].
  - destruct (matchhere re []) eqn:E.
    + split; [intros _; by exists [], []|done].
    + split; [done|]. intros (pre & rest & Ht & Hm). symmetry in Ht.
      apply app_eq_nil in Ht as [-> ->]. congruence.
  - destruct (matchhere re (t :: text)) eqn:E.
    + split; [intros _; by exists [], (t :: text)|done].
    + rewrite IH. split.
      * intros (pre & rest & -> & Hm). by exists (t :: pre), rest.
      * intros (pre & rest & Ht & Hm). destruct pre as [|t' pre]; cbn in Ht; [subst; congruence|].
        injection Ht as <- ->. by exists pre, rest.
Qed.

(** The items of a whole pattern: anchored at the start, its items, anchored at the end. *)
Definition pattern (re : list Z) : bool * list item * bool :=
  match re with
  | 94 :: re => (true, (items re).1, (items re).2)
  | _ => (false, (items re).1, (items re).2)
  end.

(** A string of the language lies in the text. *)
Definition occurs (p : bool * list item * bool) (text : list Z) : Prop :=
  let '(bol, its, eol) := p in
  exists pre s post, text = pre ++ s ++ post /\ lang its s /\
    (bol = true -> pre = []) /\ (eol = true -> post = []).

Lemma re_match_occurs re text : re_match re text = true <-> occurs (pattern re) text.
Proof.
  assert (forall re, search re text = true <-> occurs (false, (items re).1, (items re).2) text) as Hs.
  { intros re'. rewrite search_front. split.
    - intros (pre & rest & -> & (s & post & -> & Hl & He)%matchhere_front). by exists pre, s, post.
    - intros (pre & s & post & -> & Hl & _ & He). exists pre, (s ++ post). split; [done|].
      apply matchhere_front. by exists s, post. }
  destruct (decide (head re = Some 94)) as [H94|H94].
  - destruct re as [|d re]; [done|]. injection H94 as ->. cbn [re_match pattern].
    rewrite matchhere_front. split.
    + intros (s & post & -> & Hl & He). by exists [], s, post.
    + intros (pre & s & post & -> & Hl & Hp & He). rewrite Hp by done. by exists s, post.
  - assert (re_match re text = search re text /\
            pattern re = (false, (items re).1, (items re).2)) as [-> ->]; [|apply Hs].
    destruct re as [|d re]; [done|]. cbn in H94.
    destruct d as [|q|q]; try done. do 7 (destruct q as [q|q|]; try done).
Qed.

(** ** The lines of a file *)

Definition flat (ls : list (list Z)) : list Z := ls ≫= (fun x => x ++ [10]).
Definition clean (l : list Z) : Prop := Forall (fun c => c <> 10 /\ c <> 0) l.

(** The lines that match, in order. *)
Definition grep_lines (re : list Z) (ls : list (list Z)) : list Z :=
  flat (filter (fun x => re_match re x = true) ls).

Lemma flat_cons x ls : flat (x :: ls) = x ++ 10 :: flat ls.
Proof. unfold flat. cbn. by rewrite <-app_assoc. Qed.
Lemma flat_app ls ls' : flat (ls ++ ls') = flat ls ++ flat ls'.
Proof. apply bind_app. Qed.

Lemma strchr_line x rest : clean x -> strchr (x ++ 10 :: rest) 10 = Some (length x).
Proof.
  induction 1 as [|c x [Hc Hc0] _ IH]; cbn; [done|].
  destruct (Z.eqb_spec c 0); [done|]. destruct (Z.eqb_spec c 10); [done|]. by rewrite IH.
Qed.
Lemma strchr_clean x : clean x -> strchr x 10 = None.
Proof.
  induction 1 as [|c x [Hc Hc0] _ IH]; cbn; [done|].
  destruct (Z.eqb_spec c 0); [done|]. destruct (Z.eqb_spec c 10); [done|]. by rewrite IH.
Qed.

Lemma lines_loop_run re d0 ls r n :
  Forall clean ls -> clean r -> (length ls <= n)%nat ->
  lines_loop n re (d0 ++ flat ls ++ r) (length d0) =
  (grep_lines re ls, (length d0 + length (flat ls))%nat).
Proof.
  intros Hls Hr. revert d0 n. induction Hls as [|x ls Hx _ IH]; intros d0 n Hn.
  { replace (length d0 + length (flat []))%nat with (length d0) by (cbn; lia).
    destruct n as [|n]; [done|]. cbn [lines_loop]. rewrite drop_app_length.
    change (flat [] ++ r) with r. by rewrite strchr_clean. }
  destruct n as [|n]; [cbn in Hn; lia|]. cbn [lines_loop]. rewrite drop_app_length.
  rewrite flat_cons, <-app_assoc. cbn [app]. rewrite strchr_line by done. rewrite take_app_length.
  replace (d0 ++ x ++ 10 :: flat ls ++ r) with ((d0 ++ x ++ [10]) ++ flat ls ++ r)
    by by rewrite <-!app_assoc.
  replace (length d0 + length x + 1)%nat with (length (d0 ++ x ++ [10]))
    by (rewrite !length_app; cbn; lia).
  rewrite IH by (cbn in Hn; lia). f_equal.
  - unfold grep_lines. rewrite filter_cons. destruct (re_match re x); [|done].
    rewrite decide_True by done. by rewrite flat_cons, <-app_assoc.
  - rewrite !length_app. cbn. lia.
Qed.

(** What fits into the buffer: whole lines, and a part of the next. *)
Lemma take_lines k ls r :
  Forall clean ls -> clean r ->
  exists ls1 ls2 r1, ls = ls1 ++ ls2 /\ take k (flat ls ++ r) = flat ls1 ++ r1 /\ clean r1 /\
    (ls1 = [] -> match ls with [] => True | x :: _ => (k <= length x)%nat end).
Proof.
  intros Hls Hr. revert k. induction Hls as [|x ls Hx Hls IH]; intros k.
  { exists [], [], (take k r). split_and!; try done. by apply Forall_take. }
  destruct (decide (k <= length x)%nat) as [Hk|Hk].
  - exists [], (x :: ls), (take k x). split_and!; [done| |by apply Forall_take|done].
    rewrite flat_cons, <-app_assoc, take_app_le by done. done.
  - destruct (IH (k - S (length x))%nat) as (ls1 & ls2 & r1 & -> & Ht & Hr1 & _).
    exists (x :: ls1), ls2, r1. split_and!; [done| |done|done].
    rewrite flat_cons, <-app_assoc. cbn [app].
    replace (x ++ 10 :: flat (ls1 ++ ls2) ++ r) with ((x ++ [10]) ++ flat (ls1 ++ ls2) ++ r)
      by by rewrite <-app_assoc.
    rewrite take_app_ge by (rewrite length_app; cbn; lia). rewrite length_app. cbn [length].
    replace (k - (length x + 1))%nat with (k - S (length x))%nat by lia. rewrite Ht.
    by rewrite flat_cons, <-!app_assoc.
Qed.

Lemma flat_length ls : (length ls <= length (flat ls))%nat.
Proof. induction ls as [|x ls IH]; [done|]. rewrite flat_cons, length_app. cbn. lia. Qed.

Lemma flat_clean ls r : clean (flat ls ++ r) -> ls = [].
Proof.
  destruct ls as [|x ls]; [done|]. rewrite flat_cons, <-app_assoc.
  intros [_ H]%Forall_app. by apply Forall_cons in H as [[? _] _].
Qed.

(** One turn: the data in the buffer are whole lines and the part of a line. *)
Lemma grep_loop_step re n left chunk inp inp' ls1 r1 :
  read (BUFSZ - length left - 1) inp = (chunk, inp') -> chunk <> [] ->
  left ++ chunk = flat ls1 ++ r1 -> Forall clean ls1 -> clean r1 ->
  grep_loop (S n) re left inp =
  (grep_lines re ls1 ++.) <$> grep_loop n re (if decide (ls1 = []) then [] else r1) inp'.
Proof.
  intros Hread Hne Hd Hls Hr. cbn [grep_loop]. rewrite Hread. destruct chunk as [|t chunk]; [done|].
  pose proof (flat_length ls1). pose proof (lines_loop_run re [] ls1 r1 (length (flat ls1 ++ r1)) Hls Hr) as Hrun.
  rewrite Hd. cbn [length app Nat.add] in Hrun. rewrite Hrun by (rewrite length_app; lia). clear Hrun.
  destruct (decide (ls1 = [])) as [->|Hne1]; [done|].
  destruct (Nat.eqb_spec (length (flat ls1)) 0) as [E|_].
  { destruct ls1; [done|]. rewrite flat_cons, length_app in E. cbn in E. lia. }
  by rewrite drop_app_length.
Qed.

Lemma grep_loop_end re n left : grep_loop (S n) re left [] = Some [].
Proof. done. Qed.

Lemma grep_loop_run re n left c ls r :
  left ++ c = flat ls ++ r -> clean left -> Forall clean ls -> clean r ->
  Forall (fun x => (length x < BUFSZ - 1)%nat) ls -> (length left < BUFSZ - 1)%nat ->
  (length c + 1 < n)%nat ->
  grep_loop n re left [c] = Some (grep_lines re ls).
Proof.
  revert left c ls r. induction n as [|n IH]; intros left c ls r Hd Hcl Hls Hr Hlen Hleft Hn; [lia|].
  destruct (decide (c = [])) as [->|Hc].
  { rewrite app_nil_r in Hd. rewrite Hd in Hcl. by rewrite (flat_clean _ _ Hcl). }
  destruct (take_lines (BUFSZ - 1) ls r Hls Hr) as (ls1 & ls2 & r1 & -> & Ht & Hr1 & Hfirst).
  rewrite <-Hd, take_app_ge in Ht by lia.
  apply Forall_app in Hls as [Hls1 Hls2]. apply Forall_app in Hlen as [Hlen1 Hlen2].
  assert (ls1 = [] -> ls2 = []) as Hnil.
  { intros ->. specialize (Hfirst eq_refl). destruct ls2 as [|x ls2]; [done|].
    apply Forall_cons in Hlen2 as [? _]. cbn [app] in Hfirst. lia. }
  assert (length (flat ls1 ++ r1) <= BUFSZ - 1)%nat as Hr1len.
  { rewrite <-Ht, length_app, length_take. lia. }
  set (k := (BUFSZ - 1 - length left)%nat) in *. assert (0 < k)%nat as Hk by (unfold k; lia).
  assert (flat ls1 ++ r1 ++ drop k c = flat ls1 ++ flat ls2 ++ r) as Hrest.
  { rewrite (app_assoc (flat ls1) r1), <-Ht, <-app_assoc, take_drop, Hd, flat_app. by rewrite <-app_assoc. }
  apply app_inv_head in Hrest.
  assert (take k c <> []) as Hne by (destruct c; [done|]; destruct k; [lia|done]).
  assert (grep_lines re (ls1 ++ ls2) = grep_lines re ls1 ++ grep_lines re ls2) as ->.
  { unfold grep_lines. by rewrite filter_app, flat_app. }
  destruct (decide (length c <= k)%nat) as [Hck|Hck].
  - rewrite take_ge in Ht by done. rewrite drop_ge, app_nil_r in Hrest by done.
    rewrite (grep_loop_step re n left c [c] [] ls1 r1); [|..|done|done|done|done].
    2: { replace (BUFSZ - length left - 1)%nat with k by (unfold k; lia). unfold read. by rewrite decide_True. }
    destruct n as [|n]; [lia|]. rewrite grep_loop_end. cbn.
    rewrite Hrest in Hr1. by rewrite (flat_clean _ _ Hr1).
  - rewrite (grep_loop_step re n left (take k c) [c] [drop k c] ls1 r1); [|..|done|done|done|done].
    2: { replace (BUFSZ - length left - 1)%nat with k by (unfold k; lia). unfold read. by rewrite decide_False. }
    rewrite length_app in Hr1len.
    destruct (decide (ls1 = [])) as [->|Hne1].
    + rewrite (Hnil eq_refl) in *. cbn in Hrest.
      rewrite (IH [] (drop k c) [] (drop k c)); [done|done|constructor|constructor| |constructor|cbn; lia|].
      * cbn in Hrest. rewrite <-Hrest in Hr. by apply Forall_app in Hr as [_ ?].
      * rewrite length_drop. destruct c; [done|]. cbn [length] in *. lia.
    + rewrite (IH r1 (drop k c) ls2 r); [done|done..| |].
      * destruct ls1 as [|x ls1]; [done|]. rewrite flat_cons, length_app in Hr1len. cbn [length] in Hr1len. lia.
      * rewrite length_drop. destruct c; [done|]. cbn [length] in *. lia.
Qed.
