(* ===== verification/Umalloc.v ===== *)
(** * The user memory allocator: umalloc.c

    The free list is a circular list of headers, sorted by address, that lies in the memory of
    the process, given as a map of 32-bit words.  A header is two words: the next free block and
    the size of this one in units of a header.  [base] is the address of the static header the
    list starts from; [grow b n] tells whether the kernel lets the process grow from size [b] by
    [n] bytes. *)

From stdpp Require Import base list gmap fin_maps.
From S2P Require Import Prelude State.
Open Scope Z_scope.
Local Open Scope stdpp_scope.

Record heap := mkHeap { umem : gmap Z Z; freep : Z; brk : Z }.
#[export] Instance eta_heap : Eta heap := fun h => mkHeap (umem h) (freep h) (brk h).

(** p->s.ptr and p->s.size. *)
Definition hptr (m : gmap Z Z) (p : Z) : Z := default 0 (m !! p).
Definition hsize (m : gmap Z Z) (p : Z) : Z := default 0 (m !! (p + 4)).
Definition set_ptr (p v : Z) (h : heap) : heap := h <| umem ::= <[p := v]> |>.
Definition set_size (p v : Z) (h : heap) : heap := h <| umem ::= <[p + 4 := v]> |>.

(** Header* arithmetic. *)
Definition hadd (p n : Z) : Z := u32 (p + 8 * n).

Section umalloc.
Context (base : Z) (grow : Z -> Z -> bool).

(** The search of free for the header before [bp], at most [n] steps. *)
Fixpoint free_loop (n : nat) (m : gmap Z Z) (bp p : Z) : option Z :=
  match n with
  | O => None
  | S n =>
      let q := hptr m p in
      if (p <? bp) && (bp <? q) then Some p
      else if (q <=? p) && ((p <? bp) || (bp <? q)) then Some p
      else free_loop n m bp q
  end.

(** A free block takes at least one byte of the process, and the search goes around once. *)
Definition turns (h : heap) : nat := 2 * Z.to_nat (brk h) + 2.

(** The block [bp] is linked to the successor of [p], or joined with it when they touch. *)
Definition join_next (bp p : Z) (h : heap) : heap :=
  if hadd bp (hsize (umem h) bp) =? hptr (umem h) p then
    let h := set_size bp (u32 (hsize (umem h) bp + hsize (umem h) (hptr (umem h) p))) h in
    set_ptr bp (hptr (umem h) (hptr (umem h) p)) h
  else set_ptr bp (hptr (umem h) p) h.

(** [p] is linked to the block [bp], or joined with it. *)
Definition join_prev (bp p : Z) (h : heap) : heap :=
  if hadd p (hsize (umem h) p) =? bp then
    let h := set_size p (u32 (hsize (umem h) p + hsize (umem h) bp)) h in
    set_ptr p (hptr (umem h) bp) h
  else set_ptr p bp h.

Definition free (ap : Z) (h : heap) : option heap :=
  let bp := u32 (ap - 8) in
  p ← free_loop (turns h) (umem h) bp (freep h);
  Some ((join_prev bp p (join_next bp p h)) <| freep := p |>).

(** sbrk: the old size of the process, or None for -1. *)
Definition sbrk (n : Z) (h : heap) : option (Z * heap) :=
  if grow (brk h) n then Some (brk h, h <| brk := brk h + n |>) else None.

(** The value returned (0 for failure) and the heap. *)
Definition morecore (nu : Z) (h : heap) : option (Z * heap) :=
  let nu := if nu <? 4096 then 4096 else nu in
  match sbrk (s32 (u32 (nu * 8))) h with
  | None => Some (0, h)
  | Some (hp, h) =>
      h ← free (hadd hp 1) (set_size hp nu h);
      Some (freep h, h)
  end.

(** Takes [nunits] units from the free block [p], the successor of [prevp]. *)
Definition take_block (nunits prevp p : Z) (h : heap) : Z * heap :=
  let s := hsize (umem h) p in
  let '(p, h) :=
    if s =? nunits then (p, set_ptr prevp (hptr (umem h) p) h)
    else let h := set_size p (u32 (s - nunits)) h in
         let p := hadd p (hsize (umem h) p) in
         (p, set_size p nunits h) in
  (hadd p 1, h <| freep := prevp |>).

(** The loop of malloc, at most [n] steps. *)
Fixpoint malloc_loop (n : nat) (nunits prevp p : Z) (h : heap) : option (Z * heap) :=
  match n with
  | O => None
  | S n =>
      if nunits <=? hsize (umem h) p then Some (take_block nunits prevp p h)
      else if p =? freep h then
        '(p, h) ← morecore nunits h;
        if p =? 0 then Some (0, h) else malloc_loop n nunits p (hptr (umem h) p) h
      else malloc_loop n nunits p (hptr (umem h) p) h
  end.

Definition units (nbytes : Z) : Z := u32 (nbytes + 8 - 1) / 8 + 1.

(** The search goes around once, and once more after the heap has grown. *)
Definition malloc (nbytes : Z) (h : heap) : option (Z * heap) :=
  let nunits := units nbytes in
  let h := if freep h =? 0
           then set_size base 0 (set_ptr base base h <| freep := base |>) else h in
  let prevp := freep h in
  malloc_loop (2 * turns h + 16 * Z.to_nat (nunits + 4096)) nunits prevp (hptr (umem h) prevp) h.

End umalloc.
