(* ===== verification/UmallocProofs.v ===== *)
(** * The heap of a process

    The heap is described by the list of its blocks in the order of their addresses, each free or
    in use.  The free ones form the circular list of headers; malloc and free keep this
    description true and change it as an allocator should. *)

From stdpp Require Import base list gmap fin_maps.
From S2P Require Import Prelude State Umalloc.
Open Scope Z_scope.

(** ** Blocks *)

(** A block: its address, its size in units, and whether it is free. *)
Notation blk := (Z * Z * bool)%type.

(** The blocks lie in order and without overlap between [lo] and [hi]. *)
Fixpoint layout (lo : Z) (bs : list blk) (hi : Z) : Prop :=
  match bs with
  | [] => lo <= hi
  | (a, s, _) :: bs => lo <= a /\ 0 < s /\ layout (a + 8 * s) bs hi
  end.

Definition pick (want : bool) (b : blk) : option (Z * Z) :=
  if bool_decide (b.2 = want) then Some b.1 else None.
Notation frees := (omap (pick true)).
Notation live := (omap (pick false)).

Lemma layout_app lo bs1 bs2 hi :
  layout lo (bs1 ++ bs2) hi <-> exists mid, layout lo bs1 mid /\ layout mid bs2 hi.
Proof.
  revert lo. induction bs1 as [|[[a s] f] bs1 IH]; intros lo; cbn.
  - split; [|intros (mid & Hle & H)].
    + intros H. by exists lo.
    + destruct bs2 as [|[[a s] f] bs2]; cbn in *; [lia|]. naive_solver lia.
  - rewrite IH. naive_solver.
Qed.

Lemma layout_le lo bs hi : layout lo bs hi -> lo <= hi.
Proof.
  revert lo. induction bs as [|[[a s] f] bs IH]; intros lo; cbn; [done|].
  intros (? & ? & H). specialize (IH _ H). lia.
Qed.

Lemma layout_weaken lo bs hi lo' hi' : layout lo bs hi -> lo' <= lo -> hi <= hi' -> layout lo' bs hi'.
Proof.
  revert lo lo'. induction bs as [|[[a s] f] bs IH]; intros lo lo'; cbn; [lia|].
  intros (? & ? & H) ? ?. split_and!; [lia|done|]. by eapply IH; [done|lia|].
Qed.

Lemma layout_in lo bs hi a s f :
  layout lo bs hi -> (a, s, f) ∈ bs -> lo <= a /\ 0 < s /\ a + 8 * s <= hi.
Proof.
  intros H (b1 & b2 & ->)%list_elem_of_split. apply layout_app in H as (mid & H1 & H2 & Hs & H3).
  apply layout_le in H1, H3. lia.
Qed.

Lemma elem_of_pick want (bs : list blk) a s : (a, s) ∈ omap (pick want) bs <-> (a, s, want) ∈ bs.
Proof.
  rewrite list_elem_of_omap. unfold pick. split.
  - intros ([[a' s'] f] & Hin & H). cbn in H. case_bool_decide; naive_solver.
  - intros Hin. exists (a, s, want). split; [done|]. by rewrite bool_decide_eq_true_2.
Qed.

(** Two blocks in use do not overlap. *)
Lemma layout_apart lo bs hi a s f a' s' f' :
  layout lo bs hi -> (a, s, f) ∈ bs -> (a', s', f') ∈ bs ->
  (a, s, f) = (a', s', f') \/ a + 8 * s <= a' \/ a' + 8 * s' <= a.
Proof.
  intros H (b1 & b2 & ->)%list_elem_of_split Hin.
  apply layout_app in H as (mid & H1 & H2 & Hs & H3).
  apply elem_of_app in Hin as [Hin|[Hin|Hin]%elem_of_cons].
  - apply (layout_in _ _ _ _ _ _ H1) in Hin. lia.
  - by left.
  - apply (layout_in _ _ _ _ _ _ H3) in Hin. lia.
Qed.

Lemma layout_nodup lo bs hi : layout lo bs hi -> NoDup (live bs).
Proof.
  revert lo. induction bs as [|[[a s] f] bs IH]; intros lo; cbn; [constructor|].
  intros (_ & Hs & H). unfold pick at 1. cbn. case_bool_decide; [|by eapply IH].
  apply NoDup_cons. split; [|by eapply IH]. intros Hin%elem_of_pick.
  apply (layout_in _ _ _ _ _ _ H) in Hin. lia.
Qed.

Lemma frees_split (bs : list blk) F1 a s F2 :
  frees bs = F1 ++ (a, s) :: F2 ->
  exists bs1 bs2, bs = bs1 ++ (a, s, true) :: bs2 /\ frees bs1 = F1 /\ frees bs2 = F2.
Proof.
  revert F1. induction bs as [|[[a' s'] f] bs IH]; intros F1; cbn; [by destruct F1|].
  unfold pick at 1. cbn. case_bool_decide as Hf; cbn.
  - subst f. destruct F1 as [|x F1]; cbn; intros [= -> ->] || intros [= <- H].
    + by exists [], bs.
    + destruct (IH F1 H) as (b1 & b2 & -> & <- & <-).
      exists ((a', s', true) :: b1), b2. by split_and!.
  - intros H. destruct (IH F1 H) as (b1 & b2 & -> & <- & <-).
    exists ((a', s', f) :: b1), b2. split_and!; [done| |done].
    cbn. unfold pick at 1. cbn. by rewrite bool_decide_eq_false_2.
Qed.

(** ** Linked headers *)

(** The last header of the list [F] that follows [x]. *)
Fixpoint endp (x : Z) (F : list (Z * Z)) : Z :=
  match F with [] => x | (a, _) :: F => endp a F end.

(** The headers before the last. *)
Fixpoint pre (x : Z) (F : list (Z * Z)) : list Z :=
  match F with [] => [] | (a, _) :: F => x :: pre a F end.

Definition headz (F : list (Z * Z)) (z : Z) : Z :=
  match F with [] => z | (a, _) :: _ => a end.

(** The headers at [x] and in [F] are linked in this order, and hold their sizes. *)
Fixpoint links (m : gmap Z Z) (x : Z) (F : list (Z * Z)) : Prop :=
  match F with
  | [] => True
  | (a, s) :: F => hptr m x = a /\ hsize m a = s /\ links m a F
  end.

Fixpoint asc (x : Z) (F : list (Z * Z)) : Prop :=
  match F with [] => True | (a, _) :: F => x + 8 <= a /\ asc a F end.

Lemma endp_app x F G : endp x (F ++ G) = endp (endp x F) G.
Proof. revert x. induction F as [|[a s] F IH]; intros x; cbn; [done|apply IH]. Qed.

Lemma links_app m x F G : links m x (F ++ G) <-> links m x F /\ links m (endp x F) G.
Proof. revert x. induction F as [|[a s] F IH]; intros x; cbn; [tauto|]. rewrite IH. tauto. Qed.

Lemma asc_app x F G : asc x (F ++ G) <-> asc x F /\ asc (endp x F) G.
Proof. revert x. induction F as [|[a s] F IH]; intros x; cbn; [tauto|]. rewrite IH. tauto. Qed.

Lemma links_ext m m' x F :
  (forall y, y ∈ pre x F -> hptr m' y = hptr m y) ->
  (forall a, a ∈ F.*1 -> hsize m' a = hsize m a) -> links m x F -> links m' x F.
Proof.
  revert x. induction F as [|[a s] F IH]; intros x Hp Hs; cbn; [done|].
  intros (H1 & H2 & H3). split_and!.
  - rewrite Hp; [done|]. cbn. by left.
  - rewrite Hs; [done|]. cbn. by left.
  - apply IH; [..|done]; intros y Hy; [apply Hp|apply Hs]; cbn; by right.
Qed.

Lemma links_head m x F z : links m x F -> hptr m (endp x F) = z -> hptr m x = headz F z.
Proof. destruct F as [|[a s] F]; cbn; naive_solver. Qed.

Lemma endp_in x F : endp x F ∈ x :: F.*1.
Proof.
  revert x. induction F as [|[a s] F IH]; intros x; cbn; [by left|]. right. apply IH.
Qed.

Lemma pre_node x F y : y ∈ pre x F -> y ∈ x :: F.*1.
Proof.
  revert x. induction F as [|[a s] F IH]; intros x; cbn; [by intros ?%elem_of_nil|].
  intros [->|H]%elem_of_cons; [by left|right; by apply IH].
Qed.

Lemma node_split x F y : y ∈ x :: F.*1 -> exists F1 F2, F = F1 ++ F2 /\ y = endp x F1.
Proof.
  revert x. induction F as [|[a s] F IH]; intros x; cbn.
  - intros [->|[]%elem_of_nil]%elem_of_cons. by exists [], [].
  - intros [->|Hy]%elem_of_cons; [by exists [], ((a, s) :: F)|].
    destruct (IH a Hy) as (F1 & F2 & -> & ->). by exists ((a, s) :: F1), F2.
Qed.

Lemma asc_le x F : asc x F -> x <= endp x F.
Proof.
  revert x. induction F as [|[a s] F IH]; intros x; cbn; [lia|]. intros [? H]. specialize (IH _ H). lia.
Qed.

Lemma pre_below x F y : asc x F -> y ∈ pre x F -> x <= y /\ y + 8 <= endp x F.
Proof.
  revert x. induction F as [|[a s] F IH]; intros x; cbn; [by intros _ ?%elem_of_nil|].
  intros [Hx HF] [->|Hy]%elem_of_cons.
  - pose proof (asc_le a F HF). lia.
  - specialize (IH a HF Hy). lia.
Qed.

Lemma node_above x F y : asc x F -> y ∈ x :: F.*1 -> x <= y <= endp x F.
Proof.
  revert x. induction F as [|[a s] F IH]; intros x HF; cbn in *.
  - intros [->|[]%elem_of_nil]%elem_of_cons. lia.
  - destruct HF as [Hx HF]. intros [->|Hy]%elem_of_cons; [|specialize (IH a HF Hy); lia].
    pose proof (asc_le a F HF). lia.
Qed.

Lemma node_below x F y : asc x F -> y ∈ x :: F.*1 -> y = endp x F \/ y + 8 <= endp x F.
Proof.
  revert x. induction F as [|[a s] F IH]; intros x HF; cbn in *.
  - intros [->|[]%elem_of_nil]%elem_of_cons. by left.
  - destruct HF as [Hx HF]. intros [->|Hy]%elem_of_cons; [|by apply IH].
    pose proof (asc_le a F HF). right. lia.
Qed.

Lemma asc_notin x F : asc x F -> x ∉ F.*1.
Proof.
  intros HF Hin. destruct F as [|[a s] F]; [by apply elem_of_nil in Hin|]. cbn in *.
  destruct HF as [Hx HF]. pose proof (node_above a F x HF Hin). lia.
Qed.

Lemma asc_length x F : asc x F -> x + Z.of_nat (length F) <= endp x F.
Proof.
  revert x. induction F as [|[a s] F IH]; intros x; cbn; [lia|]. intros [? H]. specialize (IH _ H). lia.
Qed.

Lemma layout_asc x lo bs hi : layout lo bs hi -> x + 8 <= lo -> asc x (frees bs).
Proof.
  revert x lo. induction bs as [|[[a s] f] bs IH]; intros x lo; cbn; [done|].
  intros (Hlo & Hs & H) Hx. unfold pick at 1. cbn. case_bool_decide; cbn.
  - split; [lia|]. eapply IH; [done|lia].
  - eapply IH; [done|lia].
Qed.

(** Headers of free blocks below [hi] end below [hi]. *)
Lemma node_fits x lo bs hi y : layout lo bs hi -> x + 8 <= lo -> y ∈ x :: (frees bs).*1 -> x <= y /\ y + 8 <= hi.
Proof.
  intros H Hx [->|Hy]%elem_of_cons.
  - apply layout_le in H. lia.
  - apply list_elem_of_fmap in Hy as ([a s] & -> & Hin%elem_of_pick).
    apply (layout_in _ _ _ _ _ _ H) in Hin. cbn. lia.
Qed.

(** ** The search of free *)

Lemma search_low m bp x F n :
  links m x F -> asc x F -> endp x F < bp ->
  free_loop (length F + n) m bp x = free_loop n m bp (endp x F).
Proof.
  revert x. induction F as [|[a s] F IH]; intros x; cbn [links asc endp length Nat.add]; [done|].
  intros (Hp & _ & HF) [Hx Ha] He. cbn [free_loop]. rewrite Hp.
  pose proof (asc_le a F Ha). replace (bp <? a) with false by lia. rewrite andb_false_r.
  replace (a <=? x) with false by lia. cbn [andb]. auto.
Qed.

Lemma search_high m bp x F n :
  links m x F -> asc x F -> bp < x ->
  free_loop (length F + n) m bp x = free_loop n m bp (endp x F).
Proof.
  revert x. induction F as [|[a s] F IH]; intros x; cbn [links asc endp length Nat.add]; [done|].
  intros (Hp & _ & HF) [Hx Ha] He. cbn [free_loop]. rewrite Hp.
  replace (x <? bp) with false by lia. replace (a <=? x) with false by lia. cbn [andb].
  apply IH; [done..|lia].
Qed.

Lemma search_stop m base bp F1 F2 n :
  links m base (F1 ++ F2) -> hptr m (endp base (F1 ++ F2)) = base ->
  asc base F1 -> endp base F1 < bp -> (forall a, a ∈ F2.*1 -> bp < a) ->
  free_loop (S n) m bp (endp base F1) = Some (endp base F1).
Proof.
  intros [_ Hl]%links_app Hz Ha Hp H2. rewrite endp_app in Hz.
  pose proof (links_head m _ F2 base Hl Hz) as Hh. cbn [free_loop]. rewrite Hh.
  destruct F2 as [|[a s] F2]; cbn [headz].
  - pose proof (asc_le base F1 Ha). replace (endp base F1 <? bp) with true by lia.
    replace (bp <? base) with false by lia. replace (base <=? endp base F1) with true by lia. done.
  - assert (bp < a) by (apply H2; cbn; by left).
    replace (endp base F1 <? bp) with true by lia. by replace (bp <? a) with true by lia.
Qed.

Lemma free_search m base bp F1 F2 f n :
  links m base (F1 ++ F2) -> hptr m (endp base (F1 ++ F2)) = base ->
  asc base (F1 ++ F2) -> endp base F1 < bp -> base < bp -> (forall a, a ∈ F2.*1 -> bp < a) ->
  f ∈ base :: (F1 ++ F2).*1 -> (2 * length (F1 ++ F2) + 2 <= n)%nat ->
  free_loop n m bp f = Some (endp base F1).
Proof.
  intros Hl Hz Ha Hp Hb H2 Hf Hn. pose proof Ha as [Ha1 Ha2]%asc_app. pose proof Hl as [Hl1 Hl2]%links_app.
  destruct (node_split _ _ _ Hf) as (G1 & G2 & HG & ->).
  apply app_eq_inv in HG as [(K & -> & ->)|(K & -> & ->)].
  - apply links_app in Hl1 as [_ HlK]. apply asc_app in Ha1 as [HaG HaK].
    rewrite endp_app in Hp. rewrite !length_app in Hn.
    replace n with (length K + S (n - S (length K)))%nat by lia.
    rewrite search_low by done. rewrite <-endp_app.
    eapply search_stop; [exact Hl|exact Hz|by apply asc_app|by rewrite endp_app|done].
  - destruct K as [|[k s] K].
    { rewrite app_nil_r in *. destruct n as [|n]; [lia|]. by eapply search_stop. }
    rewrite endp_app. set (f := endp (endp base F1) ((k, s) :: K)).
    assert (bp < f) as Hbf.
    { apply H2. rewrite fmap_app. apply elem_of_app. left. exact (endp_in k K). }
    apply links_app in Hl2 as [_ HlG]. apply asc_app in Ha2 as [_ HaG]. fold f in HlG, HaG.
    rewrite !length_app in Hn. cbn [length] in Hn.
    replace n with (length G2 + S (length F1 + S (n - length G2 - length F1 - 2)))%nat by lia.
    rewrite search_high by done.
    assert (endp f G2 = endp base (F1 ++ ((k, s) :: K) ++ G2)) as ->.
    { rewrite !endp_app. done. }
    set (e := endp base (F1 ++ ((k, s) :: K) ++ G2)) in *.
    assert (bp < e) as Hbe.
    { unfold e. rewrite !endp_app. fold f. pose proof (asc_le f G2 HaG). lia. }
    cbn [free_loop]. rewrite Hz. replace (e <? bp) with false by lia.
    replace (bp <? base) with false by lia. cbn [andb orb]. rewrite andb_false_r.
    rewrite search_low by done. by eapply search_stop.
Qed.

(** ** The invariant of the heap *)

Section heap.
Context (base : Z) (Hbase : 0 < base).

Record hinv (h : heap) (bs : list blk) : Prop := {
  hi_lay : layout (base + 8) bs (brk h);
  hi_top : brk h <= KERNBASE;
  hi_links : links (umem h) base (frees bs);
  hi_close : hptr (umem h) (endp base (frees bs)) = base;
  hi_base : hsize (umem h) base = 0;
  hi_live : forall a s, (a, s) ∈ live bs -> hsize (umem h) a = s;
  hi_freep : freep h ∈ base :: (frees bs).*1
}.

(** The words of the blocks in use are unchanged. *)
Definition kept (bs : list blk) (h h' : heap) : Prop :=
  forall a s k, (a, s) ∈ live bs -> a <= k < a + 8 * s -> umem h' !! k = umem h !! k.

(** The block [bp] is linked to the free blocks behind it, and not yet to those before. *)
Record floating (h : heap) (bs1 : list blk) (bp s : Z) (bs2 : list blk) : Prop := {
  fl_lay : layout (base + 8) (bs1 ++ (bp, s, false) :: bs2) (brk h);
  fl_top : brk h <= KERNBASE;
  fl_low : links (umem h) base (frees bs1);
  fl_high : links (umem h) bp (frees bs2);
  fl_close : hptr (umem h) (endp bp (frees bs2)) = base;
  fl_size : hsize (umem h) bp = s;
  fl_base : hsize (umem h) base = 0;
  fl_live : forall a s, (a, s) ∈ live bs1 ++ live bs2 -> hsize (umem h) a = s
}.

Lemma hadd_small p n : 0 <= p + 8 * n <= KERNBASE -> hadd p n = p + 8 * n.
Proof. intros H. unfold hadd. apply u32_small. unfold is_u32, KERNBASE in *. lia. Qed.

Lemma hptr_ne m k v p : p <> k -> hptr (<[k := v]> m) p = hptr m p.
Proof. intros. unfold hptr. by rewrite lookup_insert_ne by congruence. Qed.
Lemma hptr_eq m v p : hptr (<[p := v]> m) p = v.
Proof. unfold hptr. by rewrite lookup_insert_eq. Qed.
Lemma hsize_ne m k v p : p + 4 <> k -> hsize (<[k := v]> m) p = hsize m p.
Proof. intros. unfold hsize. by rewrite lookup_insert_ne by congruence. Qed.
Lemma hsize_eq m v p : hsize (<[p + 4 := v]> m) p = v.
Proof. unfold hsize. by rewrite lookup_insert_eq. Qed.

(** Links are not affected by writes to the header [p] when all their headers are elsewhere. *)
Lemma links_avoid m x F p m' :
  (forall y, y ∈ x :: F.*1 -> y + 8 <= p \/ p + 8 <= y) ->
  (forall k, k <> p -> k <> p + 4 -> m' !! k = m !! k) -> links m x F -> links m' x F.
Proof.
  intros Hav Hm. apply links_ext.
  - intros y Hy. unfold hptr. assert (y ∈ x :: F.*1) as Hin.
    { by apply pre_node. }
    specialize (Hav y Hin). rewrite Hm by lia. done.
  - intros a Ha. unfold hsize. assert (a ∈ x :: F.*1) as Hin by by right.
    specialize (Hav a Hin). rewrite Hm by lia. done.
Qed.

(** The block in the middle of a layout. *)
Lemma layout_mid bs1 a s f bs2 hi :
  layout (base + 8) (bs1 ++ (a, s, f) :: bs2) hi ->
  layout (base + 8) bs1 a /\ 0 < s /\ base + 8 <= a /\ a + 8 * s <= hi /\ layout (a + 8 * s) bs2 hi.
Proof.
  intros (mid & H1 & H2 & Hs & H3)%layout_app. pose proof (layout_le _ _ _ H1).
  pose proof (layout_le _ _ _ H3). split_and!; try lia; [|done]. eapply layout_weaken; [done|lia..].
Qed.

(** The free block that starts where another ends is the next in the layout. *)
Lemma next_adjacent lo bs hi q sq F :
  layout lo bs hi -> frees bs = (q, sq) :: F -> q = lo ->
  exists bs', bs = (q, sq, true) :: bs' /\ frees bs' = F.
Proof.
  intros Hl HF ->. destruct (frees_split bs [] _ _ F HF) as (b1 & b2 & -> & _ & <-).
  destruct b1 as [|[[a s] f] b1]; [by exists b2|]. exfalso. cbn in Hl.
  destruct Hl as (? & ? & Hl). apply layout_app in Hl as (mid & H1 & H2 & _).
  apply layout_le in H1. lia.
Qed.

Lemma prev_adjacent lo bs hi p sp F :
  layout lo bs hi -> frees bs = F ++ [(p, sp)] -> p + 8 * sp = hi ->
  exists bs', bs = bs' ++ [(p, sp, true)] /\ frees bs' = F.
Proof.
  intros Hl HF Hp. destruct (frees_split bs F p sp [] HF) as (b1 & b2 & -> & <- & _).
  destruct b2 as [|[[a s] f] b2]; [by exists b1|]. exfalso.
  apply layout_app in Hl as (mid & _ & H2). cbn in H2. destruct H2 as (? & ? & ? & ? & H2).
  apply layout_le in H2. lia.
Qed.

(** Writes to one header. *)
Definition touches (p : Z) (h h' : heap) : Prop :=
  brk h' = brk h /\ forall k, k <> p -> k <> p + 4 -> umem h' !! k = umem h !! k.

Lemma touches_ptr p v h : touches p h (set_ptr p v h).
Proof. split; [done|]. intros k Hk _. cbn. by rewrite lookup_insert_ne. Qed.
Lemma touches_size p v h : touches p h (set_size p v h).
Proof. split; [done|]. intros k _ Hk. cbn. by rewrite lookup_insert_ne. Qed.
Lemma touches_trans p h h1 h2 : touches p h h1 -> touches p h1 h2 -> touches p h h2.
Proof. intros [B1 H1] [B2 H2]. split; [congruence|]. intros k ? ?. by rewrite H2, H1. Qed.

Lemma touches_size_ne p h h' a : touches p h h' -> a + 8 <= p \/ p + 8 <= a -> hsize (umem h') a = hsize (umem h) a.
Proof. intros [_ H] Ha. unfold hsize. by rewrite H by lia. Qed.
Lemma touches_ptr_ne p h h' a : touches p h h' -> a + 8 <= p \/ p + 8 <= a -> hptr (umem h') a = hptr (umem h) a.
Proof. intros [_ H] Ha. unfold hptr. by rewrite H by lia. Qed.

Lemma join_next_touches bp p h : touches bp h (join_next bp p h).
Proof.
  unfold join_next. destruct (_ =? _); [|apply touches_ptr].
  eapply touches_trans; [apply touches_size|apply touches_ptr].
Qed.
Lemma join_prev_touches bp p h : touches p h (join_prev bp p h).
Proof.
  unfold join_prev. destruct (_ =? _); [|apply touches_ptr].
  eapply touches_trans; [apply touches_size|apply touches_ptr].
Qed.

(** A header of a block other than [bp] does not overlap the header of [bp]. *)
Lemma header_apart lo bs1 bp s f bs2 hi a s' f' :
  layout lo (bs1 ++ (bp, s, f) :: bs2) hi -> (a, s', f') ∈ bs1 ++ bs2 ->
  a + 8 * s' <= bp \/ bp + 8 * s <= a.
Proof.
  intros (mid & H1 & H2 & Hs & H3)%layout_app [Hin|Hin]%elem_of_app.
  - apply (layout_in _ _ _ _ _ _ H1) in Hin. lia.
  - apply (layout_in _ _ _ _ _ _ H3) in Hin. lia.
Qed.

(** The list that follows [x] can be made to follow [x']. *)
Lemma links_move p h h' x x' F z :
  touches p h h' -> (forall y, y ∈ F.*1 -> y + 8 <= p \/ p + 8 <= y) ->
  hptr (umem h') x' = hptr (umem h) x -> links (umem h) x F -> hptr (umem h) (endp x F) = z ->
  links (umem h') x' F /\ hptr (umem h') (endp x' F) = z.
Proof.
  intros Ht Hav Hx Hl Hz. destruct F as [|[a s] F]; cbn in *; [split; [done|congruence]|].
  destruct Hl as (Ha & Hs & Hl).
  assert (forall y, y ∈ a :: F.*1 -> y + 8 <= p \/ p + 8 <= y) as Hav' by done.
  split; [split_and!|].
  - congruence.
  - rewrite (touches_size_ne p h h'); [done|done|]. apply Hav'. by left.
  - eapply links_avoid; [exact Hav'|by apply Ht|done].
  - rewrite (touches_ptr_ne p h h'); [done|done|]. apply Hav', endp_in.
Qed.

(** Headers of free blocks around the block [bp]. *)
Lemma free_header_below bs1 bp y :
  layout (base + 8) bs1 bp -> y ∈ base :: (frees bs1).*1 -> base <= y /\ y + 8 <= bp.
Proof. intros H Hy. eapply node_fits; [done|lia|done]. Qed.

Lemma free_header_above lo bs2 hi y : layout lo bs2 hi -> y ∈ (frees bs2).*1 -> lo <= y /\ y + 8 <= hi.
Proof.
  intros H ([a s] & -> & Hin%elem_of_pick)%list_elem_of_fmap.
  apply (layout_in _ _ _ _ _ _ H) in Hin. cbn. lia.
Qed.

Lemma frees_used bs1 a s bs2 : frees (bs1 ++ (a, s, false) :: bs2) = frees bs1 ++ frees bs2.
Proof. by rewrite omap_app. Qed.
Lemma frees_free bs1 a s bs2 : frees (bs1 ++ (a, s, true) :: bs2) = frees bs1 ++ (a, s) :: frees bs2.
Proof. by rewrite omap_app. Qed.
Lemma live_used bs1 a s bs2 : live (bs1 ++ (a, s, false) :: bs2) = live bs1 ++ (a, s) :: live bs2.
Proof. by rewrite omap_app. Qed.
Lemma live_free bs1 a s bs2 : live (bs1 ++ (a, s, true) :: bs2) = live bs1 ++ live bs2.
Proof. by rewrite omap_app. Qed.

Lemma live_apart bs1 bp s f bs2 hi a s' :
  layout (base + 8) (bs1 ++ (bp, s, f) :: bs2) hi -> (a, s') ∈ live bs1 ++ live bs2 ->
  base + 8 <= a /\ 0 < s' /\ (a + 8 * s' <= bp \/ bp + 8 * s <= a).
Proof.
  intros H Hin. assert ((a, s', false) ∈ bs1 ++ bs2) as Hb.
  { apply elem_of_app. apply elem_of_app in Hin as [Hin|Hin]; apply elem_of_pick in Hin; auto. }
  split_and!; [..|by eapply header_apart].
  all: assert ((a, s', false) ∈ bs1 ++ (bp, s, f) :: bs2) as Hb' by
    (apply elem_of_app; apply elem_of_app in Hb as [?|?]; [by left|right; by right]).
  all: apply (layout_in _ _ _ _ _ _ H) in Hb'; lia.
Qed.

Lemma floats h h1 bs1 bp s bs2 s' bs2' x :
  hinv h (bs1 ++ (bp, s, false) :: bs2) -> touches bp h h1 ->
  layout (base + 8) (bs1 ++ (bp, s', false) :: bs2') (brk h) -> live bs2' = live bs2 ->
  links (umem h) x (frees bs2') -> hptr (umem h) (endp x (frees bs2')) = base ->
  hptr (umem h1) bp = hptr (umem h) x -> hsize (umem h1) bp = s' ->
  floating h1 bs1 bp s' bs2'.
Proof using Hbase.
  intros [Hlay Htop Hlinks _ Hb0 Hlive _] Ht Hlay' HL Hx Hz Hp Hs.
  pose proof (layout_mid _ _ _ _ _ _ Hlay) as (H1 & Hs0 & Hbp & Hend & H2).
  pose proof (layout_mid _ _ _ _ _ _ Hlay') as (_ & Hs1 & _ & _ & H2').
  rewrite frees_used in Hlinks. rewrite live_used in Hlive.
  apply links_app in Hlinks as [Hl1 _].
  destruct (links_move bp h h1 x bp (frees bs2') base) as [Hhigh Hclose]; [done| |done..|].
  { intros y Hy%(free_header_above _ _ _ _ H2'). lia. }
  destruct Ht as [Hbrk Ht0]. pose proof (conj Hbrk Ht0 : touches bp h h1) as Ht.
  split; try done; [congruence|congruence|..].
  - eapply links_avoid; [|exact Ht0|done]. intros y Hy%(free_header_below _ _ _ H1). lia.
  - by rewrite (touches_size_ne bp h h1 base Ht) by lia.
  - rewrite HL. intros a s'' Hin. rewrite (touches_size_ne bp h h1 a Ht).
    + apply Hlive, elem_of_app. apply elem_of_app in Hin as [?|?]; [by left|right; by right].
    + apply (live_apart _ _ _ _ _ _ _ _ Hlay) in Hin. lia.
Qed.

Lemma join_next_floats h bs1 bp s bs2 :
  hinv h (bs1 ++ (bp, s, false) :: bs2) ->
  exists s' bs2', floating (join_next bp (endp base (frees bs1)) h) bs1 bp s' bs2' /\
    s <= s' /\ live bs2' = live bs2.
Proof using Hbase.
  intros Hinv. pose proof Hinv as [Hlay Htop Hlinks Hclose Hb0 Hlive _].
  pose proof (layout_mid _ _ _ _ _ _ Hlay) as (H1 & Hs & Hbp & Hend & H2).
  set (p := endp base (frees bs1)). pose proof (join_next_touches bp p h) as Ht.
  pose proof (free_header_below _ _ _ H1 (endp_in base (frees bs1))) as Hp. fold p in Hp.
  rewrite frees_used in Hlinks, Hclose. rewrite live_used in Hlive.
  apply links_app in Hlinks as [Hl1 Hl2]. rewrite endp_app in Hclose. fold p in Hl2, Hclose.
  assert (hsize (umem h) bp = s) as Hsz by (apply Hlive, elem_of_app; right; by left).
  pose proof (links_head _ _ _ _ Hl2 Hclose) as Hhd.
  unfold join_next in *. rewrite Hsz in *. rewrite hadd_small in * by (unfold KERNBASE in *; lia).
  destruct (Z.eqb_spec (bp + 8 * s) (hptr (umem h) p)) as [Heq|Hne].
  - rewrite Hhd in Heq. destruct (frees bs2) as [|[q sq] F2] eqn:EF; cbn [headz] in Heq; [lia|].
    destruct (next_adjacent _ _ _ _ _ _ H2 EF (eq_sym Heq)) as (bs2' & -> & <-).
    cbn in H2, Hl2, Hclose, Hhd. destruct H2 as (_ & Hsq & H2). destruct Hl2 as (_ & Hq & Hl2).
    pose proof (layout_le _ _ _ H2). exists (s + sq), bs2'. split; [|split; [lia|done]].
    eapply (floats h _ bs1 bp s ((q, sq, true) :: bs2') _ bs2' q); [done|done| |done..| |].
    + apply layout_app. exists bp. split; [done|]. cbn. split_and!; [lia..|].
      by replace (bp + 8 * (s + sq)) with (q + 8 * sq) by lia.
    + cbn. rewrite hptr_eq, (hptr_ne _ _ _ p) by lia. rewrite Hhd. by rewrite hptr_ne by lia.
    + cbn. rewrite hsize_ne, hsize_eq by lia. rewrite Hhd, Hq. apply u32_small.
      unfold is_u32, KERNBASE in *. lia.
  - exists s, bs2. split; [|split; [lia|done]].
    eapply (floats h _ bs1 bp s bs2 _ bs2 p); [done..| |].
    + cbn. by rewrite hptr_eq.
    + cbn. by rewrite hsize_ne by lia.
Qed.

(** What free does to the list of blocks. *)
Definition freed (h h' : heap) (bs1 : list blk) (s : Z) (bs2 bs' : list blk) : Prop :=
  hinv h' bs' /\ live bs' = live bs1 ++ live bs2 /\ brk h' = brk h /\
  exists a s', (a, s') ∈ frees bs' /\ s <= s'.

(** A header of the free list lies outside the blocks in use. *)
Lemma live_vs_header bs hi p a s :
  layout (base + 8) bs hi -> p ∈ base :: (frees bs).*1 -> (a, s) ∈ live bs ->
  a + 8 * s <= p \/ p + 8 <= a.
Proof.
  intros Hlay Hp Hin%elem_of_pick. destruct (layout_in _ _ _ _ _ _ Hlay Hin) as (Ha & Hs & _).
  apply elem_of_cons in Hp as [->|Hp]; [lia|].
  apply list_elem_of_fmap in Hp as ([p' sp] & -> & Hp%elem_of_pick). cbn [fst].
  destruct (layout_in _ _ _ _ _ _ Hlay Hp) as (_ & Hsp & _).
  destruct (layout_apart _ _ _ _ _ _ _ _ _ Hlay Hin Hp) as [?|Hd]; [done|lia].
Qed.

(** The same around the block [bp]. *)
Lemma live_vs_low bs1 bp s f bs2 hi p a s' :
  layout (base + 8) (bs1 ++ (bp, s, f) :: bs2) hi -> p ∈ base :: (frees bs1).*1 ->
  (a, s') ∈ live bs1 ++ live bs2 -> a + 8 * s' <= p \/ p + 8 <= a.
Proof.
  intros Hlay Hp Hin. eapply (live_vs_header (bs1 ++ (bp, s, f) :: bs2)); [done|..].
  - destruct f; rewrite ?frees_free, ?frees_used, fmap_app; set_solver.
  - destruct f; rewrite ?live_free, ?live_used; set_solver.
Qed.

(** A block in use overlaps none of the others. *)
Lemma live_disjoint bs hi b n used :
  layout (base + 8) bs hi -> live bs ≡ₚ (b, n) :: used ->
  forall a s, (a, s) ∈ used -> b + 8 * n <= a \/ a + 8 * s <= b.
Proof.
  intros Hlay HL a s Ha. assert (NoDup ((b, n) :: used)) as Hnd by (rewrite <-HL; by eapply layout_nodup).
  apply NoDup_cons in Hnd as [Hnot _].
  assert ((b, n, false) ∈ bs) as Hb by (apply elem_of_pick; rewrite HL; by left).
  assert ((a, s, false) ∈ bs) as Ha' by (apply elem_of_pick; rewrite HL; by right).
  destruct (layout_apart _ _ _ _ _ _ _ _ _ Hlay Hb Ha') as [[= -> ->]|?]; [done|lia].
Qed.

(** The last header of a part of the list can be linked elsewhere. *)
Lemma links_retarget bs1 hi v m :
  layout (base + 8) bs1 hi -> links m base (frees bs1) ->
  links (<[endp base (frees bs1) := v]> m) base (frees bs1) /\
  hsize (<[endp base (frees bs1) := v]> m) base = hsize m base.
Proof using Hbase.
  intros H1 Hl. pose proof (layout_asc base _ _ _ H1 ltac:(lia)) as Hasc.
  assert (forall y, y ∈ base :: (frees bs1).*1 -> y + 4 <> endp base (frees bs1)) as Hne.
  { intros y Hy. destruct (node_below base (frees bs1) y Hasc Hy) as [E|E]; lia. }
  split.
  - eapply links_ext; [..|exact Hl]; intros y Hy.
    + apply (pre_below base _ y Hasc) in Hy. by rewrite hptr_ne by lia.
    + apply hsize_ne, Hne. by right.
  - apply hsize_ne, Hne. by left.
Qed.

Lemma join_prev_link h bs1 bp s bs2 h1 :
  let p := endp base (frees bs1) in
  floating h bs1 bp s bs2 -> h1 = set_ptr p bp h ->
  hinv (h1 <| freep := p |>) (bs1 ++ (bp, s, true) :: bs2).
Proof using Hbase.
  intros p [Hlay Htop Hlow Hhigh Hclose Hsz Hb0 Hlive] ->.
  pose proof (layout_mid _ _ _ _ _ _ Hlay) as (H1 & Hs & Hbp & Hend & H2).
  pose proof (free_header_below _ _ _ H1 (endp_in base (frees bs1))) as Hp. fold p in Hp.
  destruct (links_retarget bs1 bp bp (umem h) H1 Hlow) as [Hlow' Hb0']. fold p in Hlow', Hb0'.
  assert (forall y, y ∈ bp :: (frees bs2).*1 -> p + 8 <= y) as Habove.
  { intros y [->|Hy]%elem_of_cons; [lia|]. apply (free_header_above _ _ _ _ H2) in Hy. lia. }
  split; rewrite ?frees_free, ?live_free; cbn [umem brk freep upd set_ptr]; try done.
  - apply layout_app. exists bp. split; [done|]. cbn. split_and!; [lia|done|done].
  - apply links_app. fold p. split; [done|cbn; split_and!].
    + apply hptr_eq.
    + by rewrite hsize_ne by lia.
    + eapply links_avoid; [|by apply (touches_ptr p bp h)|done]. intros y Hy%Habove. by right.
  - rewrite endp_app. cbn. rewrite hptr_ne; [done|]. pose proof (Habove _ (endp_in bp (frees bs2))). lia.
  - by rewrite Hb0'.
  - intros a s' Hin. rewrite hsize_ne; [by apply Hlive|].
    pose proof (live_vs_low _ _ _ _ _ _ p _ _ Hlay (endp_in _ _) Hin).
    apply (live_apart _ _ _ _ _ _ _ _ Hlay) in Hin. lia.
  - rewrite fmap_app. pose proof (endp_in base (frees bs1)) as Hin. fold p in Hin. set_solver.
Qed.

Lemma join_prev_merge h bs1 bp s bs2 p sp h1 :
  floating h (bs1 ++ [(p, sp, true)]) bp s bs2 -> p + 8 * sp = bp ->
  touches p h h1 -> hsize (umem h1) p = sp + s -> hptr (umem h1) p = hptr (umem h) bp ->
  hinv (h1 <| freep := p |>) (bs1 ++ (p, sp + s, true) :: bs2).
Proof using Hbase.
  intros Hfl Hadj Ht Hs1 Hp1.
  assert (frees (bs1 ++ [(p, sp, true)]) = frees bs1 ++ [(p, sp)]) as HF by by rewrite omap_app.
  assert (live (bs1 ++ [(p, sp, true)]) = live bs1) as HL by (rewrite omap_app; apply app_nil_r).
  destruct Hfl as [Hlay Htop Hlow Hhigh Hclose Hsz Hb0 Hlive]. rewrite HF in Hlow.
  apply links_app in Hlow as [Hlow (Hpp & Hps & _)].
  pose proof (layout_mid _ _ _ _ _ _ Hlay) as (H1 & Hs & Hbp & Hend & H2).
  apply layout_mid in H1 as (H1 & Hsp & Hbase' & _).
  assert (forall y, y ∈ base :: (frees bs1).*1 -> y + 8 <= p) as Hbelow.
  { intros y Hy%(free_header_below _ _ _ H1). lia. }
  destruct (links_move p h h1 bp p (frees bs2) base Ht) as [Hhigh' Hclose']; [|done..|].
  { intros y Hy%(free_header_above _ _ _ _ H2). lia. }
  destruct Ht as [Hbrk Ht0]. pose proof (conj Hbrk Ht0 : touches p h h1) as Ht.
  split; rewrite ?frees_free, ?live_free; cbn [umem brk freep upd]; rewrite ?Hbrk; try done.
  - apply layout_app. exists p. split; [done|]. cbn. split_and!; [lia|lia|].
    by replace (p + 8 * (sp + s)) with (bp + 8 * s) by lia.
  - apply links_app. split; [|cbn; split_and!; [|done|done]].
    + eapply links_avoid; [|exact Ht0|done]. intros y Hy%Hbelow. by left.
    + rewrite (touches_ptr_ne p h h1 _ Ht); [done|]. left. apply Hbelow, endp_in.
  - rewrite endp_app. exact Hclose'.
  - rewrite (touches_size_ne p h h1 _ Ht); [done|]. left. apply Hbelow. by left.
  - intros a s' Hin. rewrite (touches_size_ne p h h1 a Ht).
    + apply Hlive. by rewrite HL.
    + assert (p ∈ base :: (frees (bs1 ++ [(p, sp, true)])).*1) as Hpin
        by (rewrite HF, fmap_app; cbn; set_solver).
      rewrite <-HL in Hin. pose proof (live_vs_low _ _ _ _ _ _ _ _ _ Hlay Hpin Hin).
      apply (live_apart _ _ _ _ _ _ _ _ Hlay) in Hin. lia.
  - rewrite fmap_app. cbn. set_solver.
Qed.

Lemma join_prev_inv h bs1 bp s bs2 :
  floating h bs1 bp s bs2 ->
  exists bs', freed h ((join_prev bp (endp base (frees bs1)) h) <| freep := endp base (frees bs1) |>)
                bs1 s bs2 bs'.
Proof using Hbase.
  intros Hfl. pose proof Hfl as [Hlay Htop Hlow Hhigh Hclose Hsz Hb0 _].
  pose proof (layout_mid _ _ _ _ _ _ Hlay) as (H1 & Hs & Hbp & Hend & H2).
  pose proof (free_header_below _ _ _ H1 (endp_in base (frees bs1))) as Hp.
  unfold freed, join_prev. set (p := endp base (frees bs1)) in *.
  destruct (Z.eqb_spec (hadd p (hsize (umem h) p)) bp) as [Heq|Hne].
  2: { exists (bs1 ++ (bp, s, true) :: bs2). split_and!; [by eapply join_prev_link|by rewrite live_free|done|].
       exists bp, s. split; [|lia]. rewrite frees_free. set_solver. }
  assert (frees bs1 <> []) as HneF.
  { intros E. unfold p in Heq. rewrite E in Heq. cbn in Heq. rewrite Hb0, hadd_small in Heq; [lia|].
    unfold KERNBASE in *. lia. }
  destruct (frees bs1) as [|x F] eqn:EF using rev_ind; [done|]. clear IHF. destruct x as [p' sp].
  assert (p = p') as E by (unfold p; by rewrite endp_app). clearbody p. subst p'.
  apply links_app in Hlow as [Hlow (Hpp & Hps & _)].
  destruct (frees_split bs1 F p sp [] EF) as (b1 & b2 & Eb & _ & _).
  assert (p + 8 * sp <= bp /\ 0 < sp) as [Hle Hsp].
  { rewrite Eb in H1. apply layout_mid in H1 as (_ & ? & _ & ? & _). lia. }
  rewrite Hps, hadd_small in Heq by (unfold KERNBASE in *; lia).
  destruct (prev_adjacent _ _ _ p sp F H1 EF Heq) as (bs1' & -> & HF').
  exists (bs1' ++ (p, sp + s, true) :: bs2). split_and!.
  - eapply (join_prev_merge h bs1' bp s bs2 p sp); [done|done|..].
    + eapply touches_trans; [apply touches_size|apply touches_ptr].
    + cbn. rewrite hsize_ne, hsize_eq, Hps, Hsz by lia. apply u32_small. unfold is_u32, KERNBASE in *. lia.
    + cbn. by rewrite hptr_eq, hptr_ne by lia.
  - rewrite live_free, omap_app. cbn. by rewrite app_nil_r.
  - done.
  - exists p, (sp + s). split; [|lia]. rewrite frees_free. set_solver.
Qed.

Lemma live_split (bs : list blk) a s :
  (a, s) ∈ live bs -> exists bs1 bs2, bs = bs1 ++ (a, s, false) :: bs2.
Proof. intros Hin%elem_of_pick. by apply list_elem_of_split in Hin. Qed.

(** The number of free blocks is bounded by the size of the process. *)
Lemma frees_length bs hi : layout (base + 8) bs hi -> (length (frees bs) <= Z.to_nat hi)%nat.
Proof using Hbase.
  intros H. pose proof (layout_asc base _ _ _ H ltac:(lia)) as Ha.
  pose proof (asc_length _ _ Ha). pose proof (free_header_below _ _ _ H (endp_in base (frees bs))). lia.
Qed.

Lemma free_inv h bs1 bp s bs2 :
  hinv h (bs1 ++ (bp, s, false) :: bs2) ->
  exists h' bs', free (bp + 8) h = Some h' /\ freed h h' bs1 s bs2 bs' /\ kept bs' h h'.
Proof using Hbase.
  intros Hinv. pose proof Hinv as [Hlay Htop Hlinks Hclose _ _ Hfp].
  pose proof (layout_mid _ _ _ _ _ _ Hlay) as (H1 & Hs & Hbp & Hend & H2).
  pose proof (free_header_below _ _ _ H1 (endp_in base (frees bs1))) as Hp.
  unfold free. replace (u32 (bp + 8 - 8)) with bp.
  2: { replace (bp + 8 - 8) with bp by lia. symmetry. apply u32_small. unfold is_u32, KERNBASE in *. lia. }
  pose proof (frees_length _ _ Hlay) as Hlen.
  pose proof (layout_asc base _ _ _ Hlay ltac:(lia)) as Hasc.
  rewrite frees_used in Hlinks, Hclose, Hfp, Hasc, Hlen.
  rewrite (free_search _ base bp (frees bs1) (frees bs2)); [|done..|lia|lia| |done|].
  2: { intros a Ha%(free_header_above _ _ _ _ H2). lia. }
  2: { unfold turns. lia. }
  cbn [mbind option_bind]. set (p := endp base (frees bs1)) in *.
  destruct (join_next_floats _ _ _ _ _ Hinv) as (s' & bs2' & Hfl & Hss & HL). fold p in Hfl.
  destruct (join_prev_inv _ _ _ _ _ Hfl) as (bs' & Hinv' & HL' & Hbrk & a & sa & Ha & Hsa). fold p in Hinv', HL', Hbrk.
  pose proof (join_next_touches bp p h) as [Hb1 Ht1]. eexists _, bs'. split; [done|]. split.
  - unfold freed. rewrite HL', HL, Hbrk, Hb1. split_and!; [done..|]. exists a, sa. split; [done|lia].
  - intros b sb k Hin Hk. rewrite HL', HL in Hin.
    pose proof (live_apart _ _ _ _ _ _ _ _ Hlay Hin) as (Hb & Hsb & Hap).
    pose proof (join_prev_touches bp p (join_next bp p h)) as [_ Ht2]. cbn [umem upd].
    assert (k <> p /\ k <> p + 4) as [Hk1 Hk2].
    { pose proof (live_vs_low _ _ _ _ _ _ p _ _ Hlay (endp_in _ _) Hin). lia. }
    rewrite Ht2, Ht1 by lia. done.
Qed.

(** ** Taking a block *)

(** What malloc does to the blocks in use: the block [b] of [n] units is added. *)
Definition allocated (h h' : heap) (bs bs' : list blk) (b n : Z) : Prop :=
  hinv h' bs' /\ live bs' ≡ₚ (b, n) :: live bs /\ kept bs h h'.

(** The block fits exactly: it leaves the list. *)
Lemma take_all h bs1 a s bs2 :
  let p := endp base (frees bs1) in
  hinv h (bs1 ++ (a, s, true) :: bs2) ->
  allocated h ((set_ptr p (hptr (umem h) a) h) <| freep := p |>)
    (bs1 ++ (a, s, true) :: bs2) (bs1 ++ (a, s, false) :: bs2) a s.
Proof using Hbase.
  intros p [Hlay Htop Hlinks Hclose Hb0 Hlive _].
  pose proof (layout_mid _ _ _ _ _ _ Hlay) as (H1 & Hs & Ha & Hend & H2).
  pose proof (layout_asc base _ _ _ H1 ltac:(lia)) as Hasc.
  pose proof (free_header_below _ _ _ H1 (endp_in base (frees bs1))) as Hp. fold p in Hp.
  rewrite frees_free in Hlinks, Hclose. rewrite live_free in Hlive.
  apply links_app in Hlinks as [Hl1 (Hpa & Hsa & Hl2)]. fold p in Hpa. rewrite endp_app in Hclose. cbn in Hclose.
  destruct (links_retarget bs1 a (hptr (umem h) a) (umem h) H1 Hl1) as [Hl1' Hb0']. fold p in Hl1', Hb0'.
  assert (forall y, y ∈ a :: (frees bs2).*1 -> p + 8 <= y) as Habove.
  { intros y [->|Hy]%elem_of_cons; [lia|]. apply (free_header_above _ _ _ _ H2) in Hy. lia. }
  destruct (links_move p h (set_ptr p (hptr (umem h) a) h) a p (frees bs2) base) as [Hl2' Hc'];
    [apply touches_ptr| |by cbn; rewrite hptr_eq|done|done|].
  { intros y Hy. right. apply Habove. by right. }
  cbn [umem upd set_ptr] in Hl2', Hc'. split; [|split].
  - split; rewrite ?frees_used, ?live_used; cbn [umem brk freep upd set_ptr]; try done.
    + apply layout_app. exists a. split; [done|]. cbn. split_and!; [lia|done|done].
    + apply links_app. by fold p.
    + by rewrite endp_app.
    + by rewrite Hb0'.
    + intros b sb. rewrite elem_of_app, elem_of_cons. intros Hin.
      destruct (decide ((b, sb) = (a, s))) as [[= -> ->]|Hne]; [by rewrite hsize_ne by lia|].
      assert ((b, sb) ∈ live bs1 ++ live bs2) as Hin' by (apply elem_of_app; naive_solver).
      rewrite hsize_ne; [by apply Hlive|].
      pose proof (live_vs_low _ _ _ _ _ _ p _ _ Hlay (endp_in _ _) Hin').
      apply (live_apart _ _ _ _ _ _ _ _ Hlay) in Hin'. lia.
    + rewrite fmap_app. pose proof (endp_in base (frees bs1)) as Hin. fold p in Hin. set_solver.
  - rewrite live_used, live_free. by rewrite Permutation_middle.
  - intros b sb k Hin Hk. rewrite live_free in Hin.
    pose proof (live_vs_low _ _ _ _ _ _ p _ _ Hlay (endp_in _ _) Hin).
    cbn. by rewrite lookup_insert_ne by lia.
Qed.


(** The block is larger: its tail is handed out. *)
Lemma take_tail h bs1 a s bs2 n :
  let p := endp base (frees bs1) in let b := a + 8 * (s - n) in
  hinv h (bs1 ++ (a, s, true) :: bs2) -> 0 < n < s ->
  allocated h ((set_size b n (set_size a (s - n) h)) <| freep := p |>)
    (bs1 ++ (a, s, true) :: bs2) (bs1 ++ (a, s - n, true) :: (b, n, false) :: bs2) b n.
Proof using Hbase.
  intros p b [Hlay Htop Hlinks Hclose Hb0 Hlive _] Hn.
  pose proof (layout_mid _ _ _ _ _ _ Hlay) as (H1 & Hs & Ha & Hend & H2).
  rewrite frees_free in Hlinks, Hclose. rewrite live_free in Hlive.
  apply links_app in Hlinks as [Hl1 (Hpa & Hsa & Hl2)]. fold p in Hpa. rewrite endp_app in Hclose. cbn in Hclose.
  set (m' := <[b + 4 := n]> (<[a + 4 := s - n]> (umem h))).
  assert (forall k, k <> b + 4 -> k <> a + 4 -> m' !! k = umem h !! k) as Hm.
  { intros k ? ?. unfold m'. by rewrite !lookup_insert_ne. }
  assert (forall y, y ∈ base :: (frees bs1).*1 -> y + 8 <= a) as Hbelow.
  { intros y Hy%(free_header_below _ _ _ H1). lia. }
  assert (forall y, y ∈ (frees bs2).*1 -> b + 8 <= y) as Habove.
  { intros y Hy%(free_header_above _ _ _ _ H2). unfold b. lia. }
  assert (forall y, y <> b + 4 -> y <> a + 4 -> hptr m' y = hptr (umem h) y) as Hptr.
  { intros y ? ?. unfold hptr. by rewrite Hm. }
  assert (forall y, y <> b -> y <> a -> hsize m' y = hsize (umem h) y) as Hsize.
  { intros y ? ?. unfold hsize. by rewrite Hm by lia. }
  assert (forall y, y ∈ a :: (frees bs2).*1 -> hptr m' y = hptr (umem h) y) as Hptr_above.
  { intros y [->|Hy]%elem_of_cons; [|apply Habove in Hy]; apply Hptr; unfold b in *; lia. }
  split; [|split].
  - split; rewrite ?frees_free, ?live_free, ?frees_used; cbn [umem brk freep upd set_size]; fold m'; try done.
    + apply layout_app. exists a. split; [done|]. cbn. unfold b. split_and!; try lia.
      by replace (a + 8 * (s - n) + 8 * n) with (a + 8 * s) by lia.
    + apply links_app. fold p. split; [|cbn; split_and!].
      * eapply links_ext; [..|exact Hl1]; intros y Hy.
        -- apply pre_node, Hbelow in Hy. apply Hptr; unfold b; lia.
        -- assert (y + 8 <= a) by (apply Hbelow; by right). apply Hsize; unfold b; lia.
      * pose proof (Hbelow _ (endp_in base (frees bs1))) as Hpl. fold p in Hpl.
        rewrite Hptr; [done|unfold b; lia..].
      * unfold m'. rewrite hsize_ne by (unfold b; lia). apply hsize_eq.
      * eapply links_ext; [..|exact Hl2]; intros y Hy.
        -- apply Hptr_above. by apply pre_node.
        -- apply Habove in Hy. apply Hsize; unfold b in *; lia.
    + rewrite endp_app. cbn. rewrite Hptr_above; [done|apply endp_in].
    + pose proof (Hbelow base ltac:(by left)). rewrite Hsize; [done|unfold b; lia..].
    + change (live ((b, n, false) :: bs2)) with ((b, n) :: live bs2).
      intros c sc. rewrite elem_of_app, elem_of_cons. intros Hin.
      destruct (decide ((c, sc) = (b, n))) as [[= -> ->]|Hne]; [unfold m'; apply hsize_eq|].
      assert ((c, sc) ∈ live bs1 ++ live bs2) as Hin' by (apply elem_of_app; naive_solver).
      rewrite Hsize; [by apply Hlive|..]; apply (live_apart _ _ _ _ _ _ _ _ Hlay) in Hin'; unfold b; lia.
    + rewrite fmap_app. pose proof (endp_in base (frees bs1)) as Hin. fold p in Hin. set_solver.
  - rewrite !live_free. change (live ((b, n, false) :: bs2)) with ((b, n) :: live bs2).
    by rewrite Permutation_middle.
  - intros c sc k Hin Hk. rewrite live_free in Hin. apply (live_apart _ _ _ _ _ _ _ _ Hlay) in Hin.
    apply Hm; unfold b; lia.
Qed.

Lemma take_block_inv n h bs F1 a s F2 :
  hinv h bs -> frees bs = F1 ++ (a, s) :: F2 -> 0 < n <= s ->
  exists b h' bs', take_block n (endp base F1) a h = (b + 8, h') /\ allocated h h' bs bs' b n.
Proof using Hbase.
  intros Hinv HF Hn. destruct (frees_split bs F1 a s F2 HF) as (bs1 & bs2 & -> & <- & <-).
  pose proof Hinv as [Hlay Htop Hlinks _ _ _ _].
  pose proof (layout_mid _ _ _ _ _ _ Hlay) as (H1 & Hs & Ha & Hend & H2).
  rewrite frees_free in Hlinks. apply links_app in Hlinks as [_ (_ & Hsa & _)].
  unfold take_block. rewrite Hsa. destruct (Z.eqb_spec s n) as [<-|Hne].
  - eexists a, _, _. rewrite hadd_small by (unfold KERNBASE in *; lia).
    split; [f_equal; lia|]. by apply take_all.
  - cbn [umem set_size upd]. rewrite hsize_eq. rewrite (u32_small (s - n)) by (unfold is_u32, KERNBASE in *; lia).
    rewrite (hadd_small a) by (unfold KERNBASE in *; lia). rewrite hadd_small by (unfold KERNBASE in *; lia).
    eexists (a + 8 * (s - n)), _, _. split; [f_equal; lia|]. apply take_tail; [done|lia].
Qed.

(** ** The search of malloc *)

Section malloc.
Context (grow : Z -> Z -> bool).

(** Going through free blocks none of which is freep: one that fits is taken, or all are too
    small. *)
Lemma malloc_walk n x G k h :
  links (umem h) x G -> freep h ∉ G.*1 ->
  (exists G1 a s G2, G = G1 ++ (a, s) :: G2 /\ n <= s /\
     forall z, malloc_loop grow (length G + k) n x (headz G z) h = Some (take_block n (endp x G1) a h)) \/
  (forall a s, (a, s) ∈ G -> s < n) /\
  forall z, hptr (umem h) (endp x G) = z ->
    malloc_loop grow (length G + k) n x (headz G z) h = malloc_loop grow k n (endp x G) z h.
Proof.
  revert x. induction G as [|[a s] G IH]; intros x; cbn [links fmap list_fmap].
  { right. split; [by intros ? ? ?%elem_of_nil|done]. }
  intros (Hx & Hs & Hl) Hf. cbn [length Nat.add headz malloc_loop endp]. rewrite Hs.
  destruct (Z.leb_spec n s) as [Hle|Hlt].
  { left. exists [], a, s, G. done. }
  apply not_elem_of_cons in Hf as [Hf1 Hf2]. cbn in Hf1.
  replace (a =? freep h) with false by (symmetry; apply Z.eqb_neq; congruence).
  destruct (IH a Hl Hf2) as [(G1 & b & sb & G2 & -> & Hn & Hrun)|[Hall Hrun]].
  - left. exists ((a, s) :: G1), b, sb, G2. split_and!; [done|done|]. intros z.
    rewrite (links_head _ _ _ _ Hl eq_refl). apply Hrun.
  - right. split.
    + intros b sb [[= -> ->]|Hin]%elem_of_cons; [done|by eapply Hall].
    + intros z Hz. rewrite <-(Hrun z Hz). f_equal. by apply links_head.
Qed.

(** One round of the list: a block that fits is taken, or the heap has to grow. *)
Lemma malloc_round n fuel h bs :
  hinv h bs -> 0 < n -> (length (frees bs) + 2 <= fuel)%nat ->
  (exists F1 a s F2, frees bs = F1 ++ (a, s) :: F2 /\ n <= s /\
     malloc_loop grow fuel n (freep h) (hptr (umem h) (freep h)) h =
     Some (take_block n (endp base F1) a h)) \/
  (forall a s, (a, s) ∈ frees bs -> s < n) /\
  exists k, (fuel <= k + length (frees bs) + 2)%nat /\
    malloc_loop grow fuel n (freep h) (hptr (umem h) (freep h)) h =
    match morecore grow n h with
    | None => None
    | Some (p, h') => if p =? 0 then Some (0, h')
                      else malloc_loop grow k n p (hptr (umem h') p) h'
    end.
Proof using Hbase.
  intros [Hlay Htop Hlinks Hclose Hb0 _ Hfp] Hn Hfuel.
  pose proof (layout_asc base _ _ _ Hlay ltac:(lia)) as Hasc.
  destruct (node_split _ _ _ Hfp) as (F1 & F2 & HF & Hf). rewrite HF in *. rewrite length_app in Hfuel.
  apply links_app in Hlinks as [Hl1 Hl2]. rewrite endp_app, <-Hf in Hclose. rewrite <-Hf in Hl2.
  apply asc_app in Hasc as [Ha1 Ha2]. rewrite <-Hf in Ha2.
  set (f := freep h) in *. rewrite (links_head _ _ _ _ Hl2 Hclose).
  replace fuel with (length F2 + S (fuel - length F2 - 1))%nat by lia.
  destruct (malloc_walk n f F2 (S (fuel - length F2 - 1)) h Hl2) as [Hw|[Hall Hrun]].
  { fold f. by apply asc_notin. }
  { destruct Hw as (G1 & a & s & G2 & -> & Hle & Hrun). left. exists (F1 ++ G1), a, s, G2.
    rewrite app_assoc, endp_app, <-Hf. auto. }
  rewrite (Hrun base Hclose). cbn [malloc_loop]. rewrite Hb0. replace (n <=? 0) with false by lia.
  destruct (Z.eqb_spec base (freep h)) as [Hbf|Hbf].
  { right. assert (F1 = []) as ->.
    { destruct F1 as [|[a s] F1]; [done|]. cbn in Hf, Ha1. destruct Ha1 as [? Ha1].
      pose proof (asc_le _ _ Ha1). fold f in Hbf. lia. }
    split; [done|]. eexists. split; [|done]. cbn. lia. }
  destruct F1 as [|[f' sf] F0 _] using rev_ind; [cbn in Hf; unfold f in Hf; congruence|].
  rewrite endp_app in Hf. cbn in Hf. subst f'. rewrite length_app in *. cbn [length] in *.
  apply links_app in Hl1 as [Hl0 (Hp0 & Hsf & _)]. apply asc_app in Ha1 as [Ha0 [Ha0' _]].
  rewrite (links_head _ _ _ _ Hl0 Hp0).
  replace (fuel - length F2 - 1)%nat with (length F0 + S (fuel - length F2 - length F0 - 2))%nat by lia.
  destruct (malloc_walk n base F0 (S (fuel - length F2 - length F0 - 2)) h Hl0) as [Hw|[Hall0 Hrun0]].
  { intros Hin. pose proof (node_above base F0 _ Ha0 (proj2 (elem_of_cons _ _ _) (or_intror Hin))). unfold f in *. lia. }
  { destruct Hw as (G1 & a & s & G2 & -> & Hle & Hrun0). left.
    exists G1, a, s, (G2 ++ [(f, sf)] ++ F2). rewrite <-!app_assoc. cbn. auto. }
  rewrite (Hrun0 f Hp0). cbn [malloc_loop]. rewrite Hsf.
  destruct (Z.leb_spec n sf).
  { left. exists F0, f, sf, F2. rewrite <-app_assoc. auto. }
  right. rewrite Z.eqb_refl. split.
  { intros a s. rewrite !elem_of_app, elem_of_cons, elem_of_nil. intros [[?|[[= -> ->]|[]]]|?]; eauto. }
  eexists. split; [|done]. rewrite length_app. cbn. lia.
Qed.

Context (Hgrow : forall b n, grow b n = true -> b + n <= KERNBASE).

(** The units morecore asks for. *)
Definition core (nu : Z) : Z := if nu <? 4096 then 4096 else nu.

(** The heap before the new core is freed: one more block in use. *)
Lemma grown_inv h bs nu :
  hinv h bs -> 0 < nu -> brk h + 8 * nu <= KERNBASE ->
  hinv (set_size (brk h) nu (h <| brk := brk h + 8 * nu |>)) (bs ++ (brk h, nu, false) :: []).
Proof using Hbase.
  intros [Hlay Htop Hlinks Hclose Hb0 Hlive Hfp] Hnu Hk.
  assert (forall y, y ∈ base :: (frees bs).*1 -> y + 8 <= brk h) as Hbelow.
  { intros y Hy%(free_header_below _ _ _ Hlay). lia. }
  split; rewrite ?frees_used, ?live_used, ?app_nil_r; cbn [umem brk freep upd set_size]; try done.
  - apply layout_app. exists (brk h). split; [done|]. cbn. lia.
  - eapply (links_avoid _ _ _ (brk h)); [|intros k ? ?; by rewrite lookup_insert_ne|done].
    intros y Hy%Hbelow. by left.
  - rewrite hptr_ne; [done|]. pose proof (Hbelow _ (endp_in base (frees bs))). lia.
  - rewrite hsize_ne; [done|]. pose proof (Hbelow base ltac:(by left)). lia.
  - intros a s. rewrite elem_of_app, elem_of_cons. intros [Hin|[[= -> ->]|[]%elem_of_nil]].
    + rewrite hsize_ne; [by apply Hlive|]. apply elem_of_pick in Hin.
      apply (layout_in _ _ _ _ _ _ Hlay) in Hin. lia.
    + apply hsize_eq.
Qed.

Lemma morecore_inv nu h bs :
  hinv h bs -> 0 < nu < 2 ^ 28 ->
  (grow (brk h) (8 * core nu) = false /\ morecore grow nu h = Some (0, h)) \/
  exists h' bs', morecore grow nu h = Some (freep h', h') /\ hinv h' bs' /\ live bs' = live bs /\
    kept bs h h' /\ brk h' = brk h + 8 * core nu /\ exists a s, (a, s) ∈ frees bs' /\ nu <= s.
Proof using Hbase Hgrow.
  intros Hinv Hnu. unfold morecore. fold (core nu).
  assert (nu <= core nu < 2 ^ 28) as Hc by (unfold core; destruct (Z.ltb_spec nu 4096); lia).
  replace (s32 (u32 (core nu * 8))) with (8 * core nu).
  2: { rewrite s32_u32. rewrite s32_small; [lia|]. unfold is_s32. lia. }
  unfold sbrk. destruct (grow (brk h) (8 * core nu)) eqn:Hg; [right|by left].
  pose proof (Hgrow _ _ Hg) as Hk. pose proof Hinv as [Hlay _ _ _ _ _ _]. pose proof (layout_le _ _ _ Hlay).
  rewrite hadd_small by (unfold KERNBASE in *; lia). cbn [brk umem].
  pose proof (grown_inv h bs (core nu) Hinv ltac:(lia) Hk) as Hinv1.
  destruct (free_inv _ _ _ _ _ Hinv1) as (h' & bs' & Hfree & (Hinv' & HL & Hb & a & s & Hin & Hs) & Hkept).
  rewrite Z.mul_1_r, Hfree. cbn [mbind option_bind]. exists h', bs'. cbn in HL. rewrite app_nil_r in HL.
  split_and!; [done|done|done| |done|].
  - intros b sb k Hb' Hk'. rewrite (Hkept b sb k) by (rewrite ?HL; done). cbn.
    apply elem_of_pick in Hb'. apply (layout_in _ _ _ _ _ _ Hlay) in Hb'. by rewrite lookup_insert_ne by lia.
  - exists a, s. split; [done|lia].
Qed.

(** The state before the first call has an empty list still to be made. *)
Definition usable (h : heap) (bs : list blk) : Prop :=
  hinv h bs \/ freep h = 0 /\ bs = [] /\ base + 8 <= brk h <= KERNBASE.

Definition start (h : heap) : heap :=
  if freep h =? 0 then set_size base 0 (set_ptr base base h <| freep := base |>) else h.

Lemma start_inv h bs : usable h bs -> hinv (start h) bs /\ kept bs h (start h) /\ brk (start h) = brk h.
Proof using Hbase.
  unfold start. intros [Hinv|(-> & -> & Hb)].
  - destruct (Z.eqb_spec (freep h) 0) as [E|_]; [|done]. exfalso.
    pose proof Hinv as [Hlay _ _ _ _ _ Hfp]. apply (free_header_below _ _ _ Hlay) in Hfp. lia.
  - cbn [Z.eqb]. split; [|by split; [intros ? ? ? ?%elem_of_nil|]].
    split; cbn; try lia; try done.
    + by rewrite hptr_ne, hptr_eq by lia.
    + apply hsize_eq.
    + by intros ? ? ?%elem_of_nil.
    + by left.
Qed.

Lemma units_range nbytes : 0 <= nbytes <= 2 ^ 31 - 64 ->
  0 < units nbytes < 2 ^ 28 /\ nbytes <= 8 * (units nbytes - 1).
Proof.
  intros H. unfold units. rewrite u32_small by (unfold is_u32; lia).
  change (2 ^ 31) with 2147483648 in *. change (2 ^ 28) with 268435456. Z.div_mod_to_equations. lia.
Qed.

Lemma malloc_inv nbytes h bs :
  usable h bs -> 0 <= nbytes <= 2 ^ 31 - 64 ->
  exists r h', malloc base grow nbytes h = Some (r, h') /\
    (r = 0 /\ hinv h' bs /\ kept bs h h' /\ grow (brk h) (8 * core (units nbytes)) = false /\
       (forall a s, (a, s) ∈ frees bs -> s < units nbytes) \/
     exists b bs', r = b + 8 /\ allocated h h' bs bs' b (units nbytes)).
Proof using Hbase Hgrow.
  intros Hready Hn. destruct (units_range nbytes Hn) as [Hu _]. set (n := units nbytes) in *.
  destruct (start_inv h bs Hready) as (Hinv & Hk & Hbrk). unfold malloc. fold n (start h).
  set (h0 := start h) in *. pose proof Hinv as [Hlay _ _ _ _ _ _].
  pose proof (frees_length _ _ Hlay) as Hlen. unfold turns.
  destruct (malloc_round n (2 * (2 * Z.to_nat (brk h0) + 2) + 16 * Z.to_nat (n + 4096)) h0 bs)
    as [(F1 & a & s & F2 & HF & Hs & ->)|[Hall (k & Hfuel & ->)]]; [done|lia|lia|..].
  - destruct (take_block_inv n h0 bs F1 a s F2) as (b & h' & bs' & -> & Hi & HL & Hk'); [done|done|lia|].
    eexists _, h'. split; [done|]. right. exists b, bs'. split_and!; [done|split_and!; try done].
    intros c sc i Hc Hi'. by rewrite (Hk' c sc i), (Hk c sc i).
  - destruct (morecore_inv n h0 bs Hinv Hu) as [[Hg ->]|(h1 & bs1 & -> & Hinv1 & HL1 & Hk1 & Hb1 & a & s & Hin & Hs)].
    { eexists 0, h0. cbn. split; [done|]. left. rewrite <-Hbrk. auto. }
    pose proof Hinv1 as [Hlay1 _ _ _ _ _ Hfp1]. pose proof (free_header_below _ _ _ Hlay1 Hfp1) as Hpos.
    replace (freep h1 =? 0) with false by lia.
    pose proof (frees_length _ _ Hlay1) as Hlen1.
    assert (0 <= core n <= n + 4096) as Hcore by (unfold core; destruct (Z.ltb_spec n 4096); lia).
    destruct (malloc_round n k h1 bs1)
      as [(F1 & a' & s' & F2 & HF & Hs' & ->)|[Hall' _]]; [done|lia|lia|..].
    2: { specialize (Hall' a s Hin). lia. }
    destruct (take_block_inv n h1 bs1 F1 a' s' F2) as (b & h' & bs' & -> & Hi & HL & Hk'); [done|done|lia|].
    eexists _, h'. split; [done|]. right. exists b, bs'. split; [done|]. split; [done|].
    rewrite HL1 in HL. split; [done|]. intros c sc i Hc Hi'.
    rewrite (Hk' c sc i), (Hk1 c sc i), (Hk c sc i); try done. by rewrite HL1.
Qed.

(** ** Programs that use the heap *)

(** The calls of a program, and its writes to the blocks it holds; [used] are these blocks. *)
Inductive ustep : heap * list (Z * Z) -> heap * list (Z * Z) -> Prop :=
| step_malloc h used n r h' :
    0 <= n <= 2 ^ 31 - 64 -> malloc base grow n h = Some (r, h') ->
    ustep (h, used) (h', if r =? 0 then used else (r - 8, units n) :: used)
| step_free h used1 a s used2 h' :
    free (a + 8) h = Some h' -> ustep (h, used1 ++ (a, s) :: used2) (h', used1 ++ used2)
| step_write h used a s k v :
    (a, s) ∈ used -> a + 8 <= k < a + 8 * s -> (k - a) mod 4 = 0 ->
    ustep (h, used) (h <| umem ::= <[k := v]> |>, used).

Lemma write_inv h bs a s k v :
  usable h bs -> (a, s) ∈ live bs -> a + 8 <= k < a + 8 * s -> usable (h <| umem ::= <[k := v]> |>) bs.
Proof using Hbase.
  intros [[Hlay Htop Hlinks Hclose Hb0 Hlive Hfp]|(_ & -> & _)] Hin Hk; [left|by apply elem_of_nil in Hin].
  assert (forall p, p ∈ base :: (frees bs).*1 -> p <> k /\ p + 4 <> k) as Hav.
  { intros p Hp. pose proof (live_vs_header _ _ _ _ _ Hlay Hp Hin). lia. }
  split; cbn [umem brk freep upd]; try done.
  - eapply links_ext; [..|exact Hlinks]; intros y Hy; [apply hptr_ne|apply hsize_ne].
    + by apply Hav, pre_node.
    + apply Hav. by right.
  - rewrite hptr_ne; [done|]. apply Hav, endp_in.
  - rewrite hsize_ne; [done|]. apply Hav. by left.
  - intros b sb Hb. rewrite hsize_ne; [by apply Hlive|]. apply elem_of_pick in Hb, Hin.
    destruct (layout_in _ _ _ _ _ _ Hlay Hb) as (_ & Hsb & _).
    destruct (layout_apart _ _ _ _ _ _ _ _ _ Hlay Hb Hin) as [[= -> ->]|?]; lia.
Qed.

(** The blocks a program holds are the blocks in use of the heap. *)
Definition holds (x : heap * list (Z * Z)) : Prop := exists bs, usable x.1 bs /\ live bs ≡ₚ x.2.

Lemma free_usable h bs a s :
  usable h bs -> (a, s) ∈ live bs ->
  exists h' bs', free (a + 8) h = Some h' /\ usable h' bs' /\ live bs ≡ₚ (a, s) :: live bs' /\ kept bs' h h'.
Proof using Hbase.
  intros [Hinv|(_ & -> & _)] Hin; [|by apply elem_of_nil in Hin].
  destruct (live_split bs a s Hin) as (bs1 & bs2 & ->).
  destruct (free_inv h bs1 a s bs2 Hinv) as (h' & bs' & Hf & (Hi & HL & _) & Hk).
  exists h', bs'. split_and!; [done|by left| |done]. rewrite live_used, HL. by rewrite Permutation_middle.
Qed.

Lemma holds_step x y : ustep x y -> holds x -> holds y.
Proof using Hbase Hgrow.
  intros [h used n r h' Hn Hrun|h used1 a s used2 h' Hrun|h used a s k v Hin Hk _] (bs & Hr & HL); cbn [fst snd] in *.
  - destruct (malloc_inv n h bs Hr Hn) as (r' & h'' & Hrun' & Hcase).
    rewrite Hrun in Hrun'. injection Hrun' as <- <-.
    destruct Hcase as [(-> & Hi & _)|(b & bs' & -> & Hi & HL' & _)].
    + exists bs. split; [by left|done].
    + pose proof Hi as [Hlay _ _ _ _ _ _]. assert ((b, units n) ∈ live bs') as Hb by (rewrite HL'; by left).
      apply elem_of_pick in Hb. apply (layout_in _ _ _ _ _ _ Hlay) in Hb.
      replace (b + 8 =? 0) with false by lia. replace (b + 8 - 8) with b by lia.
      exists bs'. split; [by left|]. cbn. by rewrite HL', HL.
  - destruct (free_usable h bs a s Hr) as (h'' & bs' & Hrun' & Hr' & HL' & _).
    { rewrite HL. apply elem_of_app. right. by left. }
    rewrite Hrun in Hrun'. injection Hrun' as <-. exists bs'. split; [done|]. cbn.
    rewrite HL in HL'. rewrite <-Permutation_middle in HL'. by apply Permutation_cons_inv in HL'.
  - exists bs. split; [|done]. eapply write_inv; [done| |done]. by rewrite HL.
Qed.

End malloc.

End heap.
