(* ===== verification/Sh.v ===== *)
(** * The shell: sh.c

    The command line is the array of bytes [buf]; a pointer into it is an offset.  The parser
    reads it and builds a command tree whose strings are such offsets, then nulterminate writes
    the terminators of the strings into the array.  A parser function ends in
    - [Ok a]: it returns;
    - [Exits out]: the shell process prints [out] on descriptor 2 and exits;
    - [Bad]: it reads outside the array or indexes outside argv;
    - [NoTime]: a recursion or loop used up its bound.
    malloc is taken to succeed, as the code does.

    runcmd is the program of system calls [prog] that the shell process performs. *)

From stdpp Require Import base list gmap strings fin_maps.
From S2P Require Import Prelude State Monad Console Ulib Sysfile.
Open Scope Z_scope.

(** ** Commands *)

Definition MAXARGS : nat := 10.

Record execcmd := mkExec { argv : list (option nat); eargv : list (option nat) }.
#[export] Instance eta_execcmd : Eta execcmd := fun e => mkExec (argv e) (eargv e).

Inductive cmd :=
| EXEC (e : execcmd)
| REDIR (c : cmd) (file efile : nat) (mode fd : Z)
| PIPE (left right : cmd)
| LIST (left right : cmd)
| BACK (c : cmd).

(** The constructor functions allocate and clear a node; execcmd() has no argument yet. *)
Definition execcmd_ : cmd := EXEC (mkExec (replicate MAXARGS None) (replicate MAXARGS None)).

(** An assignment through the pointer [cmd] that parseexec keeps to its node while
    redirections are put around it. *)
Fixpoint in_exec (f : execcmd -> execcmd) (ret : cmd) : cmd :=
  match ret with
  | EXEC e => EXEC (f e)
  | REDIR c file efile mode fd => REDIR (in_exec f c) file efile mode fd
  | _ => ret
  end.

Inductive res (A : Type) : Type :=
| Ok (a : A)
| Exits (out : list Z)
| Bad
| NoTime.
Arguments Ok {A} _.
Arguments Exits {A} _.
Arguments Bad {A}.
Arguments NoTime {A}.

Definition rbind {A B} (m : res A) (f : A -> res B) : res B :=
  match m with Ok a => f a | Exits o => Exits o | Bad => Bad | NoTime => NoTime end.

Declare Scope sh_scope.
Delimit Scope sh_scope with sh.
Notation "x ← m ; k" := (rbind m (fun x => k))
  (at level 20, m at level 100, k at level 200) : sh_scope.
Notation "' p ← m ; k" := (rbind m (fun x => match x with p => k end))
  (at level 20, p pattern, m at level 100, k at level 200) : sh_scope.

Definition panic {A} (s : string) : res A := Exits (str s ++ [10]).

Section parser.
Local Open Scope sh_scope.

(** ** Tokens *)

Definition whitespace : list Z := [32; 9; 13; 10; 11].
Definition symbols : list Z := str "<|>&;()".

Definition in_set (l : list Z) (c : Z) : bool := bool_decide (is_Some (strchr l c)).

Variable buf : list Z.
Variable es : nat.

(** [*s] *)
Definition deref (s : nat) : res Z := match buf !! s with Some c => Ok c | None => Bad end.

(** [while(s < es && f( *s )) s++;], with [n] = es - s. *)
Fixpoint skip_loop (f : Z -> bool) (n s : nat) : nat :=
  match n with
  | O => s
  | S n => if f (default 0 (buf !! s)) then skip_loop f n (S s) else s
  end.
Definition skip (f : Z -> bool) (s : nat) : nat := skip_loop f (es - s) s.

Definition is_word (c : Z) : bool := negb (in_set whitespace c) && negb (in_set symbols c).

(** The token, its start and its end, and the new value of the pointer. *)
Definition gettoken (ps : nat) : res (Z * nat * nat * nat) :=
  let q := skip (in_set whitespace) ps in
  c ← deref q;
  '(tok, eq) ←
    (if c =? 0 then Ok (c, q)
     else if in_set (str "|();&<") c then Ok (c, S q)
     else if c =? 62 then
       d ← deref (S q);
       if d =? 62 then Ok (43, S (S q)) else Ok (c, S q)
     else Ok (97, skip is_word q));
  Ok (tok, q, eq, skip (in_set whitespace) eq).

Definition peek (ps : nat) (toks : list Z) : res (bool * nat) :=
  let s := skip (in_set whitespace) ps in
  c ← deref s;
  Ok (negb (c =? 0) && in_set toks c, s).

(** ** Grammar *)

(** [while(peek(ps, es, "<>"))], at most [n] times. *)
Fixpoint redirs_loop (n : nat) (c : cmd) (ps : nat) : res (cmd * nat) :=
  match n with
  | O => NoTime
  | S n =>
      '(b, ps) ← peek ps (str "<>");
      if b then
        '(tok, _, _, ps) ← gettoken ps;
        '(a, q, eq, ps) ← gettoken ps;
        if negb (a =? 97) then panic "missing file for redirection" else
        let c := if tok =? 60 then REDIR c q eq O_RDONLY 0
                 else if tok =? 62 then REDIR c q eq (Z.lor O_WRONLY O_CREATE) 1
                 else if tok =? 43 then REDIR c q eq (Z.lor O_WRONLY O_CREATE) 1
                 else c in
        redirs_loop n c ps
      else Ok (c, ps)
  end.

(** Each turn consumes a character. *)
Definition parseredirs (c : cmd) (ps : nat) : res (cmd * nat) := redirs_loop (S (es - ps)) c ps.

(** The loop of parseexec over the arguments, at most [n] times. *)
Fixpoint args_loop (n : nat) (argc : nat) (ret : cmd) (ps : nat) : res (nat * cmd * nat) :=
  match n with
  | O => NoTime
  | S n =>
      '(b, ps) ← peek ps (str "|)&;");
      if b then Ok (argc, ret, ps) else
      '(tok, q, eq, ps) ← gettoken ps;
      if tok =? 0 then Ok (argc, ret, ps) else
      if negb (tok =? 97) then panic "syntax" else
      if decide (MAXARGS <= argc)%nat then Bad else
      let ret := in_exec (fun e => mkExec (<[argc := Some q]> (argv e))
                                          (<[argc := Some eq]> (eargv e))) ret in
      let argc := S argc in
      if decide (MAXARGS <= argc)%nat then panic "too many args" else
      '(ret, ps) ← parseredirs ret ps;
      args_loop n argc ret ps
  end.

(** parseexec when there is no parenthesis. *)
Definition parseargs (ps0 : nat) : res (cmd * nat) :=
  '(ret, ps) ← parseredirs execcmd_ ps0;
  '(argc, ret, ps) ← args_loop (S (es - ps0)) 0 ret ps;
  if decide (MAXARGS <= argc)%nat then Bad else
  Ok (in_exec (fun e => mkExec (<[argc := None]> (argv e)) (<[argc := None]> (eargv e))) ret, ps).

(** [while(peek(ps, es, "&"))], at most [n] times. *)
Fixpoint back_loop (n : nat) (c : cmd) (ps : nat) : res (cmd * nat) :=
  match n with
  | O => NoTime
  | S n =>
      '(b, ps) ← peek ps (str "&");
      if b then '(_, _, _, ps) ← gettoken ps; back_loop n (BACK c) ps
      else Ok (c, ps)
  end.

(** The mutual recursion, [n] calls deep. *)
Fixpoint parseline (n : nat) (ps : nat) : res (cmd * nat) :=
  match n with
  | O => NoTime
  | S n =>
      '(c, ps) ← parsepipe n ps;
      '(c, ps) ← back_loop (S (es - ps)) c ps;
      '(b, ps) ← peek ps (str ";");
      if b then
        '(_, _, _, ps) ← gettoken ps;
        '(r, ps) ← parseline n ps;
        Ok (LIST c r, ps)
      else Ok (c, ps)
  end
with parsepipe (n : nat) (ps : nat) : res (cmd * nat) :=
  match n with
  | O => NoTime
  | S n =>
      '(c, ps) ← parseexec n ps;
      '(b, ps) ← peek ps (str "|");
      if b then
        '(_, _, _, ps) ← gettoken ps;
        '(r, ps) ← parsepipe n ps;
        Ok (PIPE c r, ps)
      else Ok (c, ps)
  end
with parseexec (n : nat) (ps : nat) : res (cmd * nat) :=
  match n with
  | O => NoTime
  | S n =>
      '(b, ps) ← peek ps (str "(");
      if b then parseblock n ps else parseargs ps
  end
with parseblock (n : nat) (ps : nat) : res (cmd * nat) :=
  match n with
  | O => NoTime
  | S n =>
      '(b, ps) ← peek ps (str "(");
      if negb b then panic "parseblock" else
      '(_, _, _, ps) ← gettoken ps;
      '(c, ps) ← parseline n ps;
      '(b, ps) ← peek ps (str ")");
      if negb b then panic "syntax - missing )" else
      '(_, _, _, ps) ← gettoken ps;
      parseredirs c ps
  end.

(** Four calls consume a character at least. *)
Definition depth : nat := 4 * S es.

End parser.

(** ** Termination of the strings *)

Section command.
Local Open Scope sh_scope.

(** [*p = 0] *)
Definition nul (p : nat) (buf : list Z) : res (list Z) :=
  if decide (p < length buf)%nat then Ok (<[p := 0]> buf) else Bad.

(** [for(i=0; ecmd->argv[i]; i++) *ecmd->eargv[i] = 0;] *)
Fixpoint nul_args (av ev : list (option nat)) (buf : list Z) : res (list Z) :=
  match av, ev with
  | None :: _, _ => Ok buf
  | Some _ :: av, Some e :: ev => buf ← nul e buf; nul_args av ev buf
  | _, _ => Bad
  end.

Fixpoint nulterminate (c : cmd) (buf : list Z) : res (list Z) :=
  match c with
  | EXEC e => nul_args (argv e) (eargv e) buf
  | REDIR c _ efile _ _ => buf ← nulterminate c buf; nul efile buf
  | PIPE l r | LIST l r => buf ← nulterminate l buf; nulterminate r buf
  | BACK c => nulterminate c buf
  end.

(** The command, and the array its strings lie in. *)
Definition parsecmd (buf : list Z) : res (cmd * list Z) :=
  let es := strlen buf in
  '(c, ps) ← parseline buf es (depth es) 0;
  '(_, ps) ← peek buf es ps [];
  if negb (ps =? es)%nat
  then Exits (str "leftovers: " ++ chars (drop ps buf) ++ [10] ++ str "syntax" ++ [10])
  else buf ← nulterminate c buf; Ok (c, buf).
End command.

(** ** Strings of a parsed command *)

Definition cstring (buf : list Z) (q : nat) : list Z := chars (drop q buf).

(** The vector that exec is given: the strings up to the null pointer. *)
Fixpoint arguments (buf : list Z) (av : list (option nat)) : list (list Z) :=
  match av with Some q :: av => cstring buf q :: arguments buf av | _ => [] end.

(** ** Running a command *)

(** A process as the system calls it makes, each with what the process does next.  exec goes on
    only when it fails; fork returns 0 in the child, the process number in the parent, -1 when it
    fails; read returns the bytes read. *)
Inductive prog :=
| SysExit
| SysClose (fd : Z) (k : prog)
| SysOpen (path : list Z) (mode : Z) (k : Z -> prog)
| SysDup (fd : Z) (k : prog)
| SysPipe (k : option (Z * Z) -> prog)
| SysFork (k : Z -> prog)
| SysWait (k : prog)
| SysExec (path : list Z) (av : list (list Z)) (k : prog)
| SysWrite (fd : Z) (text : list Z) (k : prog)
| SysRead (fd : Z) (n : nat) (k : list Z -> prog)
| SysChdir (path : list Z) (k : Z -> prog)
| Stuck.

(** printf(fd, fmt, ap) *)
Definition print (fd : Z) (fmt : string) (ap : list arg) (k : prog) : prog :=
  match printf fmt ap with Some t => SysWrite fd t k | None => Stuck end.

Definition shpanic (s : string) : prog := print 2 "%s
" [AStr (str s)] SysExit.

Definition fork1 (k : Z -> prog) : prog :=
  SysFork (fun pid => if pid =? -1 then shpanic "fork" else k pid).

Fixpoint runcmd (buf : list Z) (c : cmd) : prog :=
  match c with
  | EXEC e =>
      match argv e with
      | Some q :: _ =>
          SysExec (cstring buf q) (arguments buf (argv e))
            (print 2 "exec %s failed
" [AStr (cstring buf q)] SysExit)
      | _ => SysExit
      end
  | REDIR c file _ mode fd =>
      SysClose fd (SysOpen (cstring buf file) mode (fun r =>
      if r <? 0 then print 2 "open %s failed
" [AStr (cstring buf file)] SysExit
      else runcmd buf c))
  | LIST l r => fork1 (fun pid => if pid =? 0 then runcmd buf l else SysWait (runcmd buf r))
  | PIPE l r =>
      SysPipe (fun p =>
      match p with
      | None => shpanic "pipe"
      | Some (p0, p1) =>
          fork1 (fun pid =>
          if pid =? 0 then
            SysClose 1 (SysDup p1 (SysClose p0 (SysClose p1 (runcmd buf l))))
          else
          fork1 (fun pid =>
          if pid =? 0 then
            SysClose 0 (SysDup p0 (SysClose p0 (SysClose p1 (runcmd buf r))))
          else
          SysClose p0 (SysClose p1 (SysWait (SysWait SysExit)))))
      end)
  | BACK c => fork1 (fun pid => if pid =? 0 then runcmd buf c else SysExit)
  end.

(** ** The main loop *)

(** gets over the console, [room] characters before the buffer is full. *)
Fixpoint gets_prog (room : nat) (l : list Z) (k : list Z -> prog) : prog :=
  match room with
  | O => k l
  | S room =>
      SysRead 0 1 (fun r =>
      match r with
      | [] => k l
      | c :: _ => if (c =? 10) || (c =? 13) then k (l ++ [c]) else gets_prog room (l ++ [c]) k
      end)
  end.

(** The buffer of [nbuf] bytes is cleared and filled; None at the end of the input. *)
Definition getcmd (nbuf : nat) (k : option (list Z) -> prog) : prog :=
  print 2 "$ " [] (gets_prog (nbuf - 1) [] (fun l =>
  let buf := l ++ replicate (nbuf - length l) 0 in
  k (if hd 0 buf =? 0 then None else Some buf))).

(** The child that parses and runs the line. *)
Definition child (buf : list Z) : prog :=
  match parsecmd buf with
  | Ok (c, buf) => runcmd buf c
  | Exits out => SysWrite 2 out SysExit
  | _ => Stuck
  end.

(** At most [n] lines. *)
Fixpoint main_loop (n : nat) : prog :=
  match n with
  | O => Stuck
  | S n =>
      getcmd 100 (fun o =>
      match o with
      | None => SysExit
      | Some buf =>
          if bool_decide (take 3 buf = str "cd ") then
            let buf := <[(strlen buf - 1)%nat := 0]> buf in
            SysChdir (cstring buf 3) (fun r =>
            if r <? 0 then print 2 "cannot cd %s
" [AStr (cstring buf 3)] (main_loop n)
            else main_loop n)
          else fork1 (fun pid => if pid =? 0 then child buf else SysWait (main_loop n))
      end)
  end.

(** [while((fd = open("console", O_RDWR)) >= 0)], at most [n] times. *)
Fixpoint open_console (n : nat) (k : prog) : prog :=
  match n with
  | O => Stuck
  | S n =>
      SysOpen (str "console") O_RDWR (fun fd =>
      if fd <? 0 then k else if 3 <=? fd then SysClose fd k else open_console n k)
  end.

(** The descriptors grow with each turn of the first loop, the fourth ends it. *)
Definition main (n : nat) : prog := open_console 4 (main_loop n).
