(* ===== verification/ShProofs.v ===== *)
(** * The parser of the shell

    The parser is described on the text that is left to parse: a pointer into the line is the
    suffix it points to.  [good] is the common part of the totality and typing results: a parser
    function returns a well-formed command and moves forward, or the shell exits. *)

From stdpp Require Import base list gmap strings fin_maps.
From S2P Require Import Prelude State Monad Console Ulib Sysfile Sh.
Open Scope Z_scope.

(** ** Dropping a run of characters *)

Fixpoint dropw (f : Z -> bool) (l : list Z) : list Z :=
  match l with
  | [] => []
  | c :: l' => if f c then dropw f l' else l
  end.
Notation trim := (dropw (in_set whitespace)).

Definition hd0 (l : list Z) : Z := default 0 (head l).

Lemma dropw_suffix f l : dropw f l `suffix_of` l.
Proof.
  induction l as [|c l IH]; cbn; [done|]. destruct (f c); [|done].
  etrans; [exact IH|]. by exists [c].
Qed.

Lemma dropw_run f l : exists r, l = r ++ dropw f l /\ Forall (fun c => f c = true) r.
Proof.
  induction l as [|c l (r & Hr & Hf)]; cbn; [by exists []|]. destruct (f c) eqn:E.
  - exists (c :: r). split; [cbn; congruence|by constructor].
  - by exists [].
Qed.

Lemma dropw_stop f l c l' : dropw f l = c :: l' -> f c = false.
Proof.
  induction l as [|x l IH]; cbn; [done|]. destruct (f x) eqn:E; [done|]. by intros [= <- <-].
Qed.

Lemma dropw_app f r l : Forall (fun c => f c = true) r -> dropw f (r ++ l) = dropw f l.
Proof. induction 1 as [|c r Hc _ IH]; cbn; [done|]. by rewrite Hc. Qed.

Lemma dropw_app_suffix f r l : dropw f l `suffix_of` dropw f (r ++ l).
Proof.
  induction r as [|c r IH]; cbn; [done|]. destruct (f c); [done|].
  etrans; [apply dropw_suffix|]. by exists (c :: r).
Qed.

Lemma dropw_id f l : f (hd0 l) = false -> dropw f l = l.
Proof. destruct l as [|c l]; cbn; [done|]. by intros ->. Qed.

Lemma trim_trim l : trim (trim l) = trim l.
Proof.
  destruct (trim l) as [|c l'] eqn:E; [done|]. apply dropw_id. cbn. by apply dropw_stop in E.
Qed.

Lemma dropw_length f l : (length (dropw f l) <= length l)%nat.
Proof. apply suffix_length, dropw_suffix. Qed.

Lemma in_set_0 l : in_set l 0 = false.
Proof.
  unfold in_set. apply bool_decide_eq_false. intros [i Hi]. revert i Hi.
  induction l as [|x l IH]; cbn; [done|]. destruct (Z.eqb_spec x 0); [done|]. intros i.
  destruct (strchr l 0); [intros _; by eapply IH|done].
Qed.

Lemma in_set_elem l c : Forall (fun x => x <> 0) l -> in_set l c = bool_decide (c ∈ l).
Proof.
  intros Hl. unfold in_set. apply bool_decide_ext. induction Hl as [|x l Hx _ IH]; cbn.
  - split; [by intros [? ?]|by intros ?%elem_of_nil].
  - destruct (Z.eqb_spec x 0); [done|]. rewrite elem_of_cons, <-IH.
    destruct (Z.eqb_spec x c) as [->|]; [naive_solver|].
    rewrite fmap_is_Some. naive_solver.
Qed.

(** A character that starts no other token starts a word. *)
Lemma is_word_rest c :
  in_set whitespace c = false -> in_set (str "|();&<") c = false -> c <> 62 -> is_word c = true.
Proof.
  unfold is_word. intros -> Hs Hc. cbn. apply negb_true_iff.
  rewrite in_set_elem in Hs |- * by (repeat constructor; done).
  rewrite bool_decide_eq_false in *. intros Hin. apply Hs. cbn in *. set_solver.
Qed.

Lemma strlen_app l j : Forall (fun c => c <> 0) l -> strlen (l ++ 0 :: j) = length l.
Proof.
  induction 1 as [|c l Hc _ IH]; cbn; [done|]. destruct (Z.eqb_spec c 0); [done|]. by rewrite IH.
Qed.

(** ** Computations that do not go wrong *)

Definition good {A} (Q : A -> Prop) (m : res A) : Prop :=
  match m with Ok a => Q a | Exits _ => True | _ => False end.

Lemma good_bind {A B} (Q : A -> Prop) (R : B -> Prop) m f :
  good Q m -> (forall a, Q a -> good R (f a)) -> good R (rbind m f).
Proof. destruct m; cbn; auto. Qed.

Lemma good_impl {A} (Q R : A -> Prop) m : good Q m -> (forall a, Q a -> R a) -> good R m.
Proof. destruct m; cbn; auto. Qed.

Section line.
Context (line junk : list Z) (Hline : Forall (fun c => c <> 0) line).
Local Notation buf := (line ++ 0 :: junk).
Local Notation es := (length line).

(** The pointer to a suffix of the line. *)
Definition pos (X : list Z) : nat := es - length X.

Notation suf X := (X `suffix_of` line).

Lemma suf_length X : suf X -> (length X <= es)%nat.
Proof. apply suffix_length. Qed.

Lemma pos_lookup X : suf X -> buf !! pos X = Some (hd0 X).
Proof.
  intros [p Hp]. unfold pos. rewrite Hp, length_app, <-app_assoc.
  rewrite lookup_app_r by lia.
  replace (length p + length X - length X - length p)%nat with 0%nat by lia.
  by destruct X.
Qed.

Lemma pos_deref X : suf X -> deref buf (pos X) = Ok (hd0 X).
Proof. intros HX. unfold deref. by rewrite pos_lookup. Qed.

Lemma pos_cons c X : suf (c :: X) -> pos X = S (pos (c :: X)).
Proof. intros HX%suf_length. unfold pos. cbn in *. lia. Qed.

Lemma suf_cons c X : suf (c :: X) -> suf X.
Proof. intros. etrans; [|done]. by exists [c]. Qed.

Lemma suf_dropw f X : suf X -> suf (dropw f X).
Proof. intros. etrans; [apply dropw_suffix|done]. Qed.

Lemma suf_hd c X : suf (c :: X) -> c <> 0.
Proof using Hline.
  intros [p Hp]. rewrite Hp in Hline. apply Forall_app in Hline as [_ H].
  by apply Forall_cons in H as [H _].
Qed.

Lemma skip_pos f X : suf X -> skip buf es f (pos X) = pos (dropw f X).
Proof.
  intros HX. unfold skip. replace (es - pos X)%nat with (length X).
  2: { apply suf_length in HX. unfold pos. lia. }
  induction X as [|c X IH]; cbn; [done|]. rewrite pos_lookup by done. cbn.
  destruct (f c); [|done]. rewrite <-pos_cons by done. apply IH. by eapply suf_cons.
Qed.

(** ** Tokens of the remaining text *)

Lemma peek_pos X toks :
  suf X -> peek buf es (pos X) toks = Ok (in_set toks (hd0 (trim X)), pos (trim X)).
Proof.
  intros HX. unfold peek. rewrite skip_pos by done. rewrite pos_deref by by apply suf_dropw.
  cbn. repeat f_equal. destruct (Z.eqb_spec (hd0 (trim X)) 0) as [->|]; [|done].
  by rewrite in_set_0.
Qed.

(** The kind of the next token of the trimmed text [X], and the text behind it. *)
Definition next (X : list Z) : Z * list Z :=
  match X with
  | [] => (0, [])
  | c :: Y =>
      if in_set (str "|();&<") c then (c, Y)
      else if c =? 62 then if hd0 Y =? 62 then (43, tail Y) else (62, Y)
      else (97, dropw is_word X)
  end.

Lemma next_suffix X : (next X).2 `suffix_of` X.
Proof.
  destruct X as [|c Y]; cbn [next]; [done|]. destruct (in_set _ c); [by exists [c]|].
  destruct (c =? 62).
  - destruct (hd0 Y =? 62); cbn; [|by exists [c]]. destruct Y as [|d Y]; [by exists [c]|].
    by exists [c; d].
  - apply dropw_suffix.
Qed.

Lemma gettoken_pos X :
  suf X -> gettoken buf es (pos X) =
  Ok ((next (trim X)).1, pos (trim X), pos (next (trim X)).2, pos (trim (next (trim X)).2)).
Proof using Hline.
  intros HX. unfold gettoken. rewrite skip_pos by done.
  pose proof (suf_dropw (in_set whitespace) X HX) as HT. rewrite pos_deref by done. cbn [rbind].
  destruct (trim X) as [|c Y] eqn:E.
  { cbn. rewrite skip_pos by done. done. }
  change (hd0 (c :: Y)) with c.
  pose proof (suf_hd c Y HT) as Hc. pose proof (suf_cons c Y HT) as HY.
  destruct (Z.eqb_spec c 0); [done|]. cbn [next].
  destruct (in_set (str "|();&<") c).
  { cbn [rbind fst snd]. rewrite <-pos_cons by done. by rewrite skip_pos. }
  destruct (Z.eqb_spec c 62) as [->|].
  - rewrite <-pos_cons by done. rewrite pos_deref by done. cbn [rbind].
    destruct (Z.eqb_spec (hd0 Y) 62) as [Hd|].
    + destruct Y as [|d Y]; [done|]. cbn [rbind fst snd tail]. rewrite <-pos_cons by done.
      rewrite skip_pos; [done|]. by eapply suf_cons.
    + cbn [rbind fst snd]. by rewrite skip_pos.
  - cbn [rbind fst snd]. rewrite skip_pos by done. rewrite skip_pos; [done|].
    by apply suf_dropw.
Qed.

(** A word token: its text, and the text behind it. *)
Definition stop (X : list Z) : Prop := X = [] \/ is_word (hd0 X) = false.

Lemma next_word X Y :
  trim X = X -> next X = (97, Y) ->
  exists w, X = w ++ Y /\ w <> [] /\ Forall (fun c => is_word c = true) w /\ stop Y.
Proof.
  intros HX. destruct X as [|c X]; cbn [next]; [done|].
  assert (in_set whitespace c = false) as Hw by (eapply dropw_stop; exact HX).
  destruct (in_set (str "|();&<") c) eqn:Hs.
  { intros [= -> _]. by vm_compute in Hs. }
  destruct (Z.eqb_spec c 62) as [|Hc]; [by destruct (hd0 X =? 62)|]. intros [= HY].
  pose proof (is_word_rest c Hw Hs Hc) as Hword. rewrite Hword in HY.
  destruct (dropw_run is_word X) as (r & Hr & Hf). rewrite HY in Hr.
  exists (c :: r). split; [cbn; congruence|]. split; [done|]. split; [by constructor|].
  destruct Y as [|d Y]; [by left|]. right. by apply dropw_stop in HY.
Qed.

(** Every token but the end moves forward. *)
Lemma next_progress X : trim X = X -> X <> [] -> (length (next X).2 < length X)%nat.
Proof.
  intros HX Hne. destruct (next X) as [t Y] eqn:E. cbn.
  destruct (decide (t = 97)) as [->|Ht].
  { destruct (next_word X Y HX E) as (w & -> & Hw & _). rewrite length_app.
    destruct w; [done|]. cbn. lia. }
  destruct X as [|c X]; [done|]. cbn in E.
  destruct (in_set _ c); [injection E as <- <-; cbn; lia|].
  destruct (c =? 62); [|congruence].
  destruct (hd0 X =? 62); injection E as <- <-; cbn; [|lia]. destruct X; cbn; lia.
Qed.

Lemma next_end X : trim X = X -> (next X).1 = 0 -> suf X -> X = [].
Proof using Hline.
  intros HX Ht Hs. destruct X as [|c X]; [done|]. pose proof (suf_hd c X Hs).
  cbn in Ht. destruct (in_set _ c); [done|]. destruct (c =? 62); [by destruct (hd0 X =? 62)|done].
Qed.

(** ** Well-formed commands *)

Definition token (q eq : nat) : Prop :=
  exists w X, suf (w ++ X) /\ w <> [] /\ Forall (fun c => is_word c = true) w /\ stop X /\
    q = pos (w ++ X) /\ eq = pos X.

(** The argument vector holds [toks], and null pointers behind them. *)
Definition args (e : execcmd) (toks : list (nat * nat)) : Prop :=
  (length toks < MAXARGS)%nat /\ Forall (fun t => token t.1 t.2) toks /\
  argv e = (Some <$> toks.*1) ++ replicate (MAXARGS - length toks) None /\
  eargv e = (Some <$> toks.*2) ++ replicate (MAXARGS - length toks) None.

Definition io (mode fd : Z) : Prop :=
  mode = O_RDONLY /\ fd = 0 \/ mode = Z.lor O_WRONLY O_CREATE /\ fd = 1.

Fixpoint wf (c : cmd) : Prop :=
  match c with
  | EXEC e => exists toks, args e toks
  | REDIR c q eq mode fd => wf c /\ token q eq /\ io mode fd
  | PIPE l r | LIST l r => wf l /\ wf r
  | BACK c => wf c
  end.

(** A command parseexec is still adding arguments to, [k] of them so far. *)
Fixpoint simple (k : nat) (c : cmd) : Prop :=
  match c with
  | EXEC e => exists toks, length toks = k /\ args e toks
  | REDIR c q eq mode fd => simple k c /\ token q eq /\ io mode fd
  | _ => False
  end.

Lemma simple_wf k c : simple k c -> wf c.
Proof. induction c; cbn; naive_solver. Qed.

Lemma simple_start : simple 0 execcmd_.
Proof. cbn. exists []. split; [done|]. split_and!; try done. cbn. unfold MAXARGS. lia. Qed.

Lemma simple_in_exec (f : execcmd -> execcmd) k k' c :
  (forall e toks, length toks = k -> args e toks ->
     exists toks', length toks' = k' /\ args (f e) toks') ->
  simple k c -> simple k' (in_exec f c).
Proof. intros Hf. induction c; cbn; naive_solver. Qed.

Lemma insert_args {A} (l : list A) (x : option A) n k :
  length l = k -> (k < n)%nat ->
  <[k := x]> ((Some <$> l) ++ replicate (n - k) None) =
  (Some <$> l) ++ x :: replicate (n - S k) None.
Proof.
  intros <- Hl. replace (n - length l)%nat with (S (n - S (length l))) by lia.
  rewrite <-(length_fmap Some l) at 1. by rewrite insert_app_r_alt, Nat.sub_diag by lia.
Qed.

Definition push (k q eq : nat) (e : execcmd) : execcmd :=
  mkExec (<[k := Some q]> (argv e)) (<[k := Some eq]> (eargv e)).

Lemma args_push q eq e toks :
  (S (length toks) < MAXARGS)%nat -> token q eq -> args e toks ->
  args (push (length toks) q eq e) (toks ++ [(q, eq)]).
Proof.
  intros Hk Ht (_ & Hall & Ha & He). unfold args. cbn [argv eargv push].
  rewrite length_app, Nat.add_1_r. split; [done|].
  split; [apply Forall_app; split; [done|by constructor]|].
  rewrite Ha, He, !fmap_app, <-!app_assoc.
  split; (rewrite insert_args; [done|by rewrite length_fmap|lia]).
Qed.

Lemma simple_push k q eq c :
  (S k < MAXARGS)%nat -> token q eq -> simple k c -> simple (S k) (in_exec (push k q eq) c).
Proof.
  intros Hk Ht. apply simple_in_exec. intros e toks <- Ha. exists (toks ++ [(q, eq)]).
  split; [rewrite length_app; cbn; lia|]. by apply args_push.
Qed.

(** The terminator of the vector is there already. *)
Lemma simple_close k c :
  (k < MAXARGS)%nat -> simple k c ->
  in_exec (fun e => mkExec (<[k := None]> (argv e)) (<[k := None]> (eargv e))) c = c.
Proof.
  intros Hk. induction c as [e|c IH q eq m fd| | |]; try done; cbn [simple in_exec].
  2: { intros (Hc & _). by rewrite IH. }
  intros (toks & Hl & _ & _ & Ha & He). f_equal. destruct e as [av ev]. cbn [argv eargv] in *.
  assert (replicate (MAXARGS - k) None = @None nat :: replicate (MAXARGS - S k) None) as Hr.
  { by replace (MAXARGS - k)%nat with (S (MAXARGS - S k)) by lia. }
  rewrite Hl in Ha, He. subst av ev.
  rewrite !insert_args by (rewrite ?length_fmap; done). by rewrite Hr.
Qed.

(** ** Every parser function is total and typed *)

Definition moves (Q : cmd -> Prop) (X : list Z) (a : cmd * nat) : Prop :=
  exists X', X' `suffix_of` X /\ a.2 = pos X' /\ Q a.1.

Lemma moves_trans Q R X Y a :
  Y `suffix_of` X -> (Q a.1 -> R a.1) -> moves Q Y a -> moves R X a.
Proof. intros HY HQ (X' & HX' & Ha & Hc). exists X'. split; [by etrans|]. auto. Qed.

Lemma good_step {B} Q (R : B -> Prop) X m f :
  good (moves Q X) m ->
  (forall c X', X' `suffix_of` X -> Q c -> good R (f (c, pos X'))) -> good R (rbind m f).
Proof.
  intros Hm Hf. eapply good_bind; [exact Hm|]. intros [c ps] (X' & HX' & Hps & Hc).
  cbn in Hps, Hc. subst ps. auto.
Qed.

Lemma word_token X Y : suf X -> trim X = X -> next X = (97, Y) -> token (pos X) (pos Y).
Proof.
  intros HX Ht HY. destruct (next_word X Y Ht HY) as (w & -> & Hne & Hw & Hst).
  by exists w, Y.
Qed.

Lemma left_length X : suf X -> (es - pos X)%nat = length X.
Proof. intros HX%suf_length. unfold pos. lia. Qed.

(** The text behind the next token, trimmed. *)
Definition after (X : list Z) : list Z := trim (next (trim X)).2.

Lemma after_suffix X : after X `suffix_of` X.
Proof.
  unfold after. etrans; [apply dropw_suffix|]. etrans; [apply next_suffix|apply dropw_suffix].
Qed.

Lemma after_progress X : trim X <> [] -> (length (after X) < length X)%nat.
Proof.
  intros Hne. unfold after. pose proof (dropw_length (in_set whitespace) (next (trim X)).2).
  pose proof (next_progress (trim X) (trim_trim X) Hne).
  pose proof (dropw_length (in_set whitespace) X). lia.
Qed.

Lemma peeked l X : in_set l (hd0 (trim X)) = true -> trim X <> [].
Proof. intros H E. rewrite E in H. cbn in H. by rewrite in_set_0 in H. Qed.

Lemma after_trim X : after (trim X) = after X.
Proof. unfold after. by rewrite trim_trim. Qed.

Lemma redirs_good Q n c X :
  (forall c q eq m fd, Q c -> token q eq -> io m fd -> Q (REDIR c q eq m fd)) ->
  Q c -> suf X -> (length X < n)%nat ->
  good (moves Q X) (redirs_loop buf es n c (pos X)).
Proof using Hline.
  intros HQ. revert c X. induction n as [|n IH]; intros c X Hc HX Hn; [lia|]. cbn [redirs_loop].
  rewrite peek_pos by done. cbn [rbind]. pose proof (suf_dropw (in_set whitespace) X HX) as HT.
  destruct (in_set (str "<>") (hd0 (trim X))) eqn:Hp.
  2: { cbn. exists (trim X). split; [apply dropw_suffix|done]. }
  rewrite gettoken_pos by done. cbn [rbind]. rewrite trim_trim. fold (after X).
  assert (suf (after X)) as HA by (etrans; [apply after_suffix|done]).
  rewrite gettoken_pos by done. cbn [rbind]. fold (after (after X)).
  assert (trim (after X) = after X) as Htr by apply trim_trim. rewrite Htr.
  destruct (Z.eqb_spec (next (after X)).1 97) as [Ha|]; cbn [negb]; [|done].
  destruct (next (after X)) as [t Y] eqn:E. cbn in Ha. subst t. cbn [snd].
  pose proof (word_token _ _ HA Htr E) as Htok.
  assert (after (after X) `suffix_of` X) as HS by (etrans; apply after_suffix).
  eapply good_impl; [apply IH|].
  - destruct (_ =? 60); [apply HQ; [done..|by left]|].
    destruct (_ =? 62); [apply HQ; [done..|by right]|].
    destruct (_ =? 43); [apply HQ; [done..|by right]|done].
  - by etrans.
  - pose proof (after_progress X (peeked _ _ Hp)). apply suffix_length in HS.
    pose proof (suffix_length _ _ (after_suffix (after X))). lia.
  - intros a. by apply moves_trans.
Qed.

Lemma parseredirs_good Q c X :
  (forall c q eq m fd, Q c -> token q eq -> io m fd -> Q (REDIR c q eq m fd)) ->
  Q c -> suf X -> good (moves Q X) (parseredirs buf es c (pos X)).
Proof using Hline.
  intros HQ Hc HX. unfold parseredirs. rewrite left_length by done. apply redirs_good; auto.
Qed.

Lemma args_good n k c X :
  (k < MAXARGS)%nat -> simple k c -> suf X -> (length X < n)%nat ->
  good (fun '(argc, ret, ps) => (argc < MAXARGS)%nat /\ moves (simple argc) X (ret, ps))
    (args_loop buf es n k c (pos X)).
Proof using Hline.
  revert k c X. induction n as [|n IH]; intros k c X Hk Hc HX Hn; [lia|]. cbn [args_loop].
  rewrite peek_pos by done. cbn [rbind]. pose proof (suf_dropw (in_set whitespace) X HX) as HT.
  destruct (in_set (str "|)&;") (hd0 (trim X))).
  { split; [done|]. exists (trim X). split; [apply dropw_suffix|done]. }
  rewrite gettoken_pos by done. cbn [rbind]. rewrite trim_trim. fold (after X).
  assert (suf (after X)) as HA by (etrans; [apply after_suffix|done]).
  destruct (Z.eqb_spec (next (trim X)).1 0) as [H0|H0].
  { split; [done|]. exists (after X). split; [apply after_suffix|done]. }
  destruct (Z.eqb_spec (next (trim X)).1 97) as [Ha|]; cbn [negb]; [|done].
  destruct (decide _) as [|_]; [lia|]. destruct (decide _) as [|Hk']; [done|].
  eapply good_step.
  { apply (parseredirs_good (simple (S k))); [done| |done]. apply simple_push; [lia| |done].
    apply word_token; [done|apply trim_trim|]. by destruct (next (trim X)); cbn in Ha; subst. }
  intros c' X' HX' Hc'. cbn beta iota.
  assert (trim X <> []) as Hne by (intros E; by rewrite E in H0).
  pose proof (after_progress X Hne). pose proof (suffix_length _ _ HX').
  eapply good_impl; [apply IH|]; [lia|done|by etrans|lia|].
  intros [[argc ret] ps] [Hl Hm]. split; [done|]. eapply moves_trans; [|done|exact Hm].
  etrans; [done|apply after_suffix].
Qed.

Lemma parseargs_good X : suf X -> good (moves wf X) (parseargs buf es (pos X)).
Proof using Hline.
  intros HX. unfold parseargs. eapply good_step.
  { apply (parseredirs_good (simple 0)); [done|apply simple_start|done]. }
  intros c X' HX' Hc. cbn beta iota.
  assert (suf X') as HS by by etrans. rewrite left_length by done. eapply good_bind.
  { apply args_good; [unfold MAXARGS; lia|done..|]. apply suffix_length in HX'. lia. }
  intros [[argc ret] ps] (Hl & X2 & HX2 & Hps & Hr). cbn in Hps, Hr. subst ps.
  destruct (decide _); [lia|]. exists X2. split; [by etrans|]. split; [done|].
  cbn. rewrite simple_close by done. by eapply simple_wf.
Qed.

Lemma back_good n c X :
  wf c -> suf X -> (length X < n)%nat -> good (moves wf X) (back_loop buf es n c (pos X)).
Proof using Hline.
  revert c X. induction n as [|n IH]; intros c X Hc HX Hn; [lia|]. cbn [back_loop].
  rewrite peek_pos by done. cbn [rbind]. pose proof (suf_dropw (in_set whitespace) X HX) as HT.
  destruct (in_set (str "&") (hd0 (trim X))) eqn:Hp.
  2: { cbn. exists (trim X). split; [apply dropw_suffix|done]. }
  rewrite gettoken_pos by done. cbn [rbind]. rewrite trim_trim. fold (after X).
  pose proof (after_progress X (peeked _ _ Hp)).
  eapply good_impl; [apply IH|]; [done|etrans; [apply after_suffix|done]|lia|].
  intros a. apply moves_trans; [apply after_suffix|done].
Qed.

(** An optional second operand behind the symbol [c]. *)
Lemma infix_good (f : nat -> res (cmd * nat)) (mk : cmd -> cmd -> cmd) toks c X :
  (forall l r, wf l -> wf r -> wf (mk l r)) -> wf c -> suf X ->
  (forall Y, suf Y -> (length Y < length X)%nat -> good (moves wf Y) (f (pos Y))) ->
  good (moves wf X)
    ('(b, ps) ← peek buf es (pos X) toks;
     if b then '(_, _, _, ps) ← gettoken buf es ps; '(r, ps) ← f ps; Ok (mk c r, ps)
     else Ok (c, ps))%sh.
Proof using Hline.
  intros Hmk Hc HX Hf. rewrite peek_pos by done. cbn [rbind].
  pose proof (suf_dropw (in_set whitespace) X HX) as HT.
  destruct (in_set toks (hd0 (trim X))) eqn:Hp.
  2: { cbn. exists (trim X). split; [apply dropw_suffix|done]. }
  rewrite gettoken_pos by done. cbn [rbind]. rewrite trim_trim. fold (after X).
  eapply good_step.
  { apply Hf; [etrans; [apply after_suffix|done]|]. exact (after_progress X (peeked _ _ Hp)). }
  intros r X' HX' Hr. exists X'. cbn.
  split; [etrans; [done|apply after_suffix]|]. auto.
Qed.

(** The equations of the mutual recursion. *)
Lemma parseline_S n ps : parseline buf es (S n) ps =
  ('(c, ps) ← parsepipe buf es n ps;
   '(c, ps) ← back_loop buf es (S (es - ps)) c ps;
   '(b, ps) ← peek buf es ps (str ";");
   if b then
     '(_, _, _, ps) ← gettoken buf es ps; '(r, ps) ← parseline buf es n ps; Ok (LIST c r, ps)
   else Ok (c, ps))%sh.
Proof. reflexivity. Qed.

Lemma parsepipe_S n ps : parsepipe buf es (S n) ps =
  ('(c, ps) ← parseexec buf es n ps;
   '(b, ps) ← peek buf es ps (str "|");
   if b then
     '(_, _, _, ps) ← gettoken buf es ps; '(r, ps) ← parsepipe buf es n ps; Ok (PIPE c r, ps)
   else Ok (c, ps))%sh.
Proof. reflexivity. Qed.

Lemma parseexec_S n ps : parseexec buf es (S n) ps =
  ('(b, ps) ← peek buf es ps (str "(");
   if b then parseblock buf es n ps else parseargs buf es ps)%sh.
Proof. reflexivity. Qed.

Lemma parseblock_S n ps : parseblock buf es (S n) ps =
  ('(b, ps) ← peek buf es ps (str "(");
   if negb b then panic "parseblock" else
   '(_, _, _, ps) ← gettoken buf es ps;
   '(c, ps) ← parseline buf es n ps;
   '(b, ps) ← peek buf es ps (str ")");
   if negb b then panic "syntax - missing )" else
   '(_, _, _, ps) ← gettoken buf es ps;
   parseredirs buf es c ps)%sh.
Proof. reflexivity. Qed.

Lemma parse_good n X :
  suf X ->
  ((4 * length X + 4 <= n)%nat -> good (moves wf X) (parseline buf es n (pos X))) /\
  ((4 * length X + 3 <= n)%nat -> good (moves wf X) (parsepipe buf es n (pos X))) /\
  ((4 * length X + 2 <= n)%nat -> good (moves wf X) (parseexec buf es n (pos X))) /\
  ((4 * length X + 1 <= n)%nat -> good (moves wf X) (parseblock buf es n (pos X))).
Proof using Hline.
  revert X. induction n as [|n IH]; intros X HX; [split_and!; lia|].
  split_and!; intros Hn; rewrite ?parseline_S, ?parsepipe_S, ?parseexec_S, ?parseblock_S.
  - eapply good_step; [apply IH; [done|lia]|]. intros c X1 HX1 Hc. cbn beta iota.
    assert (suf X1) as HS1 by by etrans. rewrite left_length by done.
    eapply good_step; [apply back_good; [done..|lia]|]. intros c2 X2 HX2 Hc2. cbn beta iota.
    assert (X2 `suffix_of` X) as HS by by etrans. pose proof (suffix_length _ _ HS).
    eapply good_impl; [apply infix_good; [by split|done|by etrans|]|].
    { intros Y HY Hlt. apply IH; [done|lia]. }
    intros a. by apply moves_trans.
  - eapply good_step; [apply IH; [done|lia]|]. intros c X1 HX1 Hc. cbn beta iota.
    pose proof (suffix_length _ _ HX1).
    eapply good_impl; [apply infix_good; [by split|done|by etrans|]|].
    { intros Y HY Hlt. apply IH; [done|lia]. }
    intros a. by apply moves_trans.
  - rewrite peek_pos by done. cbn [rbind]. pose proof (suf_dropw (in_set whitespace) X HX) as HT.
    pose proof (dropw_length (in_set whitespace) X).
    apply (good_impl (moves wf (trim X))).
    2: { intros a. apply moves_trans; [apply dropw_suffix|done]. }
    destruct (in_set _ _).
    + apply IH; [done|lia].
    + by apply parseargs_good.
  - rewrite peek_pos by done. cbn [rbind]. pose proof (suf_dropw (in_set whitespace) X HX) as HT.
    destruct (in_set _ (hd0 (trim X))) eqn:Hp; cbn [negb]; [|done].
    rewrite gettoken_pos by done. cbn [rbind]. rewrite trim_trim. fold (after X).
    pose proof (after_progress X (peeked _ _ Hp)).
    eapply good_step; [apply IH; [etrans; [apply after_suffix|done]|lia]|].
    intros c X1 HX1 Hc. cbn beta iota.
    assert (X1 `suffix_of` X) as HS1 by (etrans; [done|apply after_suffix]).
    assert (suf X1) as HS by by etrans.
    rewrite peek_pos by done. cbn [rbind]. destruct (in_set _ (hd0 (trim X1))); cbn [negb]; [|done].
    rewrite gettoken_pos by by apply suf_dropw. cbn [rbind]. rewrite trim_trim. fold (after X1).
    eapply good_impl; [apply (parseredirs_good wf); [done|done|etrans; [apply after_suffix|done]]|].
    intros a. apply moves_trans; [etrans; [apply after_suffix|done]|done].
Qed.

(** ** The strings of a command *)

(** The start and the end of each argument of the vector. *)
Definition argtoks (e : execcmd) : list (nat * nat) :=
  omap (fun t => match t with (Some q, Some eq) => Some (q, eq) | _ => None end) (zip (argv e) (eargv e)).

Fixpoint tokens (c : cmd) : list (nat * nat) :=
  match c with
  | EXEC e => argtoks e
  | REDIR c q eq _ _ => tokens c ++ [(q, eq)]
  | PIPE l r | LIST l r => tokens l ++ tokens r
  | BACK c => tokens c
  end.

Lemma argtoks_args e toks : args e toks -> argtoks e = toks.
Proof.
  intros (_ & _ & Ha & He). unfold argtoks. rewrite Ha, He. clear Ha He. generalize MAXARGS.
  intros n. generalize (n - length toks)%nat. intros k.
  induction toks as [|[q eq] toks IH]; cbn; [by induction k|]. by rewrite IH.
Qed.

Lemma wf_tokens c : wf c -> Forall (fun t => token t.1 t.2) (tokens c).
Proof.
  induction c; cbn; rewrite ?Forall_app.
  - intros [toks Ht]. rewrite (argtoks_args _ _ Ht). by destruct Ht as (_ & ? & _).
  - intros (? & ? & _). split; [auto|by constructor].
  - naive_solver.
  - naive_solver.
  - auto.
Qed.

(** The array [b] still holds the words of the line. *)
Definition cut (b : list Z) : Prop :=
  length b = length buf /\
  forall i c, line !! i = Some c -> is_word c = true -> b !! i = Some c.

Definition zeros (b b' : list Z) : Prop := forall i, b !! i = Some 0 -> b' !! i = Some 0.

Lemma nul_cut q eq b :
  token q eq -> cut b ->
  exists b', nul eq b = Ok b' /\ cut b' /\ zeros b b' /\ b' !! eq = Some 0.
Proof.
  intros (w & X & HX & _ & _ & Hst & _ & ->) [Hl Hw].
  assert (pos X < length b)%nat as Hp.
  { rewrite Hl, length_app. unfold pos. cbn. lia. }
  exists (<[pos X := 0]> b). unfold nul. rewrite decide_True by done. split; [done|].
  split; [split|split].
  - by rewrite length_insert.
  - intros i c Hc Hword. rewrite list_lookup_insert_ne; [by apply Hw|]. intros <-.
    assert (suf X) as HS by (etrans; [by exists w|done]).
    pose proof (lookup_lt_Some _ _ _ Hc). pose proof (pos_lookup X HS) as Hlook.
    rewrite lookup_app_l in Hlook by done. rewrite Hlook in Hc. injection Hc as <-.
    destruct Hst as [->|]; [unfold pos in *; cbn in *; lia|congruence].
  - intros i Hi. destruct (decide (pos X = i)) as [<-|].
    + by apply list_lookup_insert_eq.
    + by rewrite list_lookup_insert_ne.
  - by apply list_lookup_insert_eq.
Qed.

Lemma nul_args_cut toks n b :
  Forall (fun t => token t.1 t.2) toks -> cut b ->
  exists b', nul_args ((Some <$> toks.*1) ++ None :: replicate n None)
               ((Some <$> toks.*2) ++ None :: replicate n None) b = Ok b' /\
    cut b' /\ zeros b b' /\ Forall (fun t => b' !! t.2 = Some 0) toks.
Proof.
  intros Ht. revert b. induction Ht as [|[q eq] toks Htok _ IH]; intros b Hb; cbn.
  { exists b. split_and!; [done|done|by intros i|constructor]. }
  destruct (nul_cut q eq b Htok Hb) as (b1 & -> & Hb1 & Hz1 & He). cbn.
  destruct (IH b1 Hb1) as (b2 & -> & Hb2 & Hz2 & Ha). exists b2. split_and!; [done|done|..].
  - intros i Hi. auto.
  - constructor; auto.
Qed.

Lemma nulterminate_cut c b :
  wf c -> cut b ->
  exists b', nulterminate c b = Ok b' /\ cut b' /\ zeros b b' /\
    Forall (fun t => b' !! t.2 = Some 0) (tokens c).
Proof.
  revert b. induction c as [e|c IH q eq m fd|l IHl r IHr|l IHl r IHr|c IH]; cbn; intros b Hwf Hb.
  3, 4: destruct Hwf as [Hl Hr]; destruct (IHl b Hl Hb) as (b1 & -> & Hb1 & Hz1 & Ha); cbn;
    destruct (IHr b1 Hr Hb1) as (b2 & -> & Hb2 & Hz2 & Ha2); exists b2;
    (split_and!; [done|done|intros i Hi; auto|]); apply Forall_app; (split; [|done]);
    eapply Forall_impl; [exact Ha|]; intros t; apply Hz2.
  - destruct Hwf as [toks Ht]. rewrite (argtoks_args _ _ Ht).
    destruct Ht as (Hl & Hall & -> & ->).
    replace (MAXARGS - length toks)%nat with (S (MAXARGS - S (length toks))) by lia.
    by apply nul_args_cut.
  - destruct Hwf as (Hc & Ht & _). destruct (IH b Hc Hb) as (b1 & -> & Hb1 & Hz1 & Ha). cbn.
    destruct (nul_cut q eq b1 Ht Hb1) as (b2 & -> & Hb2 & Hz2 & He). exists b2.
    split_and!; [done|done|intros i Hi; auto|]. apply Forall_app. split; [|by constructor].
    eapply Forall_impl; [exact Ha|]. intros t. apply Hz2.
  - auto.
Qed.

(** The string at the start of a token is the text of the token. *)
Definition slice (q eq : nat) : list Z := take (eq - q) (drop q line).

Lemma token_string q eq b :
  token q eq -> cut b -> b !! eq = Some 0 -> chars (drop q b) = slice q eq.
Proof using Hline.
  intros (w & X & HX & _ & Hw & _ & -> & ->) [Hl Hcut] Hz.
  pose proof HX as [p Hp]. pose proof Hline as Hn. rewrite Hp, !Forall_app in Hn.
  destruct Hn as (_ & Hnz & _).
  assert (pos (w ++ X) = length p /\ pos X = length p + length w)%nat as [-> E].
  { unfold pos. rewrite Hp, !length_app. lia. }
  rewrite E in *. unfold slice. rewrite Hp, drop_app_length.
  replace (length p + length w - length p)%nat with (length w) by lia. rewrite take_app_length.
  assert (exists r, drop (length p) b = w ++ 0 :: r) as [r ->].
  { exists (drop (S (length p + length w)) b). rewrite <-(drop_S b 0) by done.
    rewrite <-(take_drop (length w) (drop (length p) b)). rewrite drop_drop. f_equal.
    apply list_eq. intros i. destruct (decide (i < length w)%nat) as [Hi|Hi].
    - rewrite lookup_take_lt, lookup_drop by done. apply lookup_lt_is_Some in Hi as [c Hc].
      rewrite Hc. apply Hcut; [|by eapply Forall_lookup_1 in Hw].
      rewrite Hp, lookup_app_r by lia. rewrite lookup_app_l by (apply lookup_lt_Some in Hc; lia).
      by replace (length p + i - length p)%nat with i by lia.
    - rewrite lookup_take_ge by lia. symmetry. apply lookup_ge_None. lia. }
  unfold chars. rewrite strlen_app by done. by rewrite take_app_length.
Qed.

End line.

(** ** The command line of a buffer *)

Lemma buf_split b :
  0 ∈ b -> exists junk, b = chars b ++ 0 :: junk /\ Forall (fun c => c <> 0) (chars b).
Proof.
  induction b as [|c b IH]; [by intros ?%elem_of_nil|]. unfold chars. cbn.
  destruct (Z.eqb_spec c 0) as [->|Hc]; cbn; [intros _; by exists b|].
  intros [?|Hb]%elem_of_cons; [congruence|]. destruct (IH Hb) as (junk & Hj & Hn).
  exists junk. split; [unfold chars in Hj; congruence|by constructor].
Qed.

Lemma chars_length b : length (chars b) = strlen b.
Proof.
  unfold chars. rewrite length_take. apply Nat.min_l.
  induction b as [|c b IH]; cbn; [lia|]. destruct (c =? 0); lia.
Qed.

Lemma buf_tail b junk : b = chars b ++ 0 :: junk -> drop (S (strlen b)) b = junk.
Proof.
  intros Hb. rewrite Hb at 2. rewrite <-chars_length, drop_app_ge by lia.
  by replace (S (length (chars b)) - length (chars b))%nat with 1%nat by lia.
Qed.

(** What parsecmd returns: a well-formed command whose strings are terminated. *)
Definition parsed (b : list Z) (a : cmd * list Z) : Prop :=
  wf (chars b) a.1 /\ cut (chars b) (drop (S (strlen b)) b) a.2 /\
  Forall (fun t => a.2 !! t.2 = Some 0) (tokens a.1).

Lemma parsecmd_good b : 0 ∈ b -> good (parsed b) (parsecmd b).
Proof.
  intros H0. destruct (buf_split b H0) as (junk & Hb & Hn).
  pose proof (buf_tail b junk Hb) as Hj.
  unfold parsed. rewrite Hj. unfold parsecmd. rewrite <-chars_length.
  set (line := chars b) in *. clearbody line. clear H0 Hj. subst b.
  assert (0%nat = pos line line) as Hpos by (unfold pos; lia). rewrite Hpos.
  eapply good_step; [apply (parse_good line junk Hn); [done|unfold depth; lia]|].
  intros c X HX Hc. cbn beta iota. rewrite (peek_pos line junk) by done. cbn [rbind].
  destruct (pos line (trim X) =? length line)%nat; cbn [negb]; [|done].
  destruct (nulterminate_cut line junk c (line ++ 0 :: junk) Hc) as (b' & Hr & Hcut & _ & Hz).
  { split; [done|]. intros i x Hx _. rewrite lookup_app_l; [done|]. by eapply lookup_lt_Some. }
  rewrite Hr. cbn. auto.
Qed.

Lemma token_text line q eq :
  token line q eq ->
  (q < eq <= length line)%nat /\ Forall (fun c => is_word c = true) (slice line q eq).
Proof.
  intros (w & X & HX & Hne & Hw & _ & -> & ->). pose proof (suf_length _ _ HX) as Hl.
  rewrite length_app in Hl. unfold pos. rewrite length_app. destruct w as [|c w]; [done|].
  cbn [length] in *. split; [lia|]. destruct HX as [p ->]. unfold slice. rewrite !length_app.
  cbn [length].
  replace (length p + (S (length w) + length X) - (S (length w) + length X))%nat
    with (length p) by lia.
  replace (length p + (S (length w) + length X) - length X - length p)%nat
    with (length (c :: w)) by (cbn; lia).
  by rewrite drop_app_length, take_app_length.
Qed.

Lemma slice_chars b q eq :
  (q < eq <= strlen b)%nat -> slice (chars b) q eq = take (eq - q) (drop q b).
Proof.
  intros H. unfold slice, chars. rewrite skipn_firstn_comm, take_take.
  by replace ((eq - q) `min` (strlen b - q))%nat with (eq - q)%nat by lia.
Qed.
