(* ===== verification/ShPrint.v ===== *)
(** * Command lines and command trees

    [tree] is the abstract syntax of commands, [line_of] writes a tree as a command line, with
    parentheses only where the grammar needs them, and [view] reads a parsed command back as a
    tree.  The parser inverts the printer. *)

From stdpp Require Import base list gmap strings fin_maps.
From S2P Require Import Prelude State Monad Console Ulib Sysfile Sh ShProofs.
Open Scope Z_scope.

Inductive tree :=
| TExec (args : list (list Z))
| TRedir (t : tree) (file : list Z) (mode fd : Z)
| TPipe (l r : tree)
| TList (l r : tree)
| TBack (t : tree).

Fixpoint view (b : list Z) (c : cmd) : tree :=
  match c with
  | EXEC e => TExec (arguments b (argv e))
  | REDIR c q _ m fd => TRedir (view b c) (cstring b q) m fd
  | PIPE l r => TPipe (view b l) (view b r)
  | LIST l r => TList (view b l) (view b r)
  | BACK c => TBack (view b c)
  end.

(** ** The printer *)

Definition level (t : tree) : nat :=
  match t with TExec _ | TRedir _ _ _ _ => 0 | TPipe _ _ => 1 | TBack _ => 2 | TList _ _ => 3 end.

Definition paren (s : list Z) : list Z := 40 :: s ++ [41].

Definition word_text (w : list Z) : list Z := 32 :: w.
Definition redir_text (r : list Z * Z * Z) : list Z :=
  32 :: (if r.2 =? 0 then 60 else 62) :: r.1.1.

Fixpoint line_of (t : tree) : list Z :=
  let at_ k t := if (level t <=? k)%nat then line_of t else paren (line_of t) in
  match t with
  | TExec args => args ≫= word_text
  | TRedir t w m fd => at_ 0%nat t ++ redir_text (w, m, fd)
  | TPipe l r => at_ 0%nat l ++ [124] ++ at_ 1%nat r
  | TList l r => at_ 2%nat l ++ [59] ++ line_of r
  | TBack t => at_ 2%nat t ++ [38]
  end.

(** A tree where the grammar allows level [k] at most. *)
Definition text (k : nat) (t : tree) : list Z :=
  if (level t <=? k)%nat then line_of t else paren (line_of t).

Definition word (w : list Z) : Prop := w <> [] /\ Forall (fun c => c <> 0 /\ is_word c = true) w.

Fixpoint printable (t : tree) : Prop :=
  match t with
  | TExec args => (length args < MAXARGS)%nat /\ Forall word args
  | TRedir t w m fd => printable t /\ word w /\ io m fd
  | TPipe l r | TList l r => printable l /\ printable r
  | TBack t => printable t
  end.

(** ** Reading the text of words and redirections *)

Lemma word_head c w : word (c :: w) -> c <> 0 /\ is_word c = true.
Proof. intros [_ H]. by apply Forall_cons in H as [H _]. Qed.

Lemma is_word_not c : is_word c = true -> in_set whitespace c = false /\ in_set symbols c = false.
Proof. unfold is_word. by intros [?%negb_true_iff ?%negb_true_iff]%andb_prop. Qed.

Lemma not_symbol c l :
  is_word c = true -> l ⊆ symbols -> Forall (fun x => x <> 0) l -> in_set l c = false.
Proof.
  intros [_ Hs]%is_word_not Hl Hn. rewrite in_set_elem in * by (repeat constructor; done) || done.
  rewrite bool_decide_eq_false in *. set_solver.
Qed.

Lemma next_of_word w X :
  word w -> stop X -> trim (w ++ X) = w ++ X /\ next (w ++ X) = (97, X).
Proof.
  intros Hw HX. pose proof Hw as [Hne Hall]. destruct w as [|c w]; [done|].
  destruct (word_head c w Hw) as [Hc Hword]. split.
  { apply dropw_id. by apply is_word_not. }
  cbn [app next]. rewrite (not_symbol c (str "|();&<")) by (done || (cbn; set_solver) || (repeat constructor; done)).
  destruct (Z.eqb_spec c 62) as [->|]; [by vm_compute in Hword|]. f_equal.
  change (c :: w ++ X) with ((c :: w) ++ X). rewrite dropw_app.
  2: { eapply Forall_impl; [exact Hall|]. by intros x [_ ?]. }
  destruct HX as [->|HX]; [done|]. by apply dropw_id.
Qed.

Section parse.
Context (line junk : list Z) (Hline : Forall (fun c => c <> 0) line).
Local Notation buf := (line ++ 0 :: junk).
Local Notation es := (length line).
Local Notation suf X := (X `suffix_of` line).
Local Notation pos := (pos line).
Local Notation slice := (slice line).

(** The tree of a command whose strings are not terminated yet. *)
Fixpoint sview (c : cmd) : tree :=
  match c with
  | EXEC e => TExec ((fun t => slice t.1 t.2) <$> argtoks e)
  | REDIR c q eq m fd => TRedir (sview c) (slice q eq) m fd
  | PIPE l r => TPipe (sview l) (sview r)
  | LIST l r => TList (sview l) (sview r)
  | BACK c => TBack (sview c)
  end.

Lemma slice_pos w X : suf (w ++ X) -> slice (pos (w ++ X)) (pos X) = w.
Proof.
  intros [p ->]. unfold ShProofs.slice, ShProofs.pos. rewrite !length_app.
  replace (length p + (length w + length X) - (length w + length X))%nat with (length p) by lia.
  replace (length p + (length w + length X) - length X - length p)%nat with (length w) by lia.
  by rewrite drop_app_length, take_app_length.
Qed.

(** What can follow a simple command. *)
Definition follow (l : list Z) : Prop := l = [] \/ in_set (str "|)&;") (hd0 l) = true.

Lemma follow_cases l : follow l -> l = [] \/ exists c l', l = c :: l' /\ c ∈ [124; 41; 38; 59].
Proof.
  intros [->|H]; [by left|]. right. destruct l as [|c l]; [by vm_compute in H|].
  exists c, l. split; [done|]. rewrite in_set_elem in H by (repeat constructor; done).
  by apply bool_decide_eq_true in H.
Qed.

(** Settles a question about the first character of a text that can follow a command. *)
Ltac first_char H :=
  let c := fresh in let l := fresh in
  apply follow_cases in H as [->|(c & l & -> & H)];
  [|rewrite !elem_of_cons, elem_of_nil in H; repeat (destruct H as [->|H])]; try done.

Lemma follow_trim l : follow l -> trim l = l.
Proof. intros H. by first_char H. Qed.

Lemma follow_stop l : follow l -> stop l.
Proof. intros H. first_char H; (by left) || (by right). Qed.

Lemma follow_not l (x : Z) : follow l -> x ∉ [124; 41; 38; 59] -> x <> 0 -> hd0 l <> x.
Proof.
  intros H Hx H0 E. apply follow_cases in H as [->|(c & l' & -> & H)]; cbn in E; [congruence|].
  congruence.
Qed.

Definition redirs (t : tree) (rs : list (list Z * Z * Z)) : tree :=
  foldl (fun t '(w, m, fd) => TRedir t w m fd) t rs.

Definition redir_ok (r : list Z * Z * Z) : Prop := word r.1.1 /\ io r.1.2 r.2.

(** A redirection sign is one token. *)
Lemma next_of_sign fd w X :
  word w -> let s := if fd =? 0 then 60 else 62 in
  trim (s :: w ++ X) = s :: w ++ X /\ next (s :: w ++ X) = (s, w ++ X) /\
  in_set (str "<>") s = true.
Proof.
  intros Hw. destruct (fd =? 0); cbn zeta; [done|]. split_and!; [done| |done].
  cbn. destruct w as [|c w]; [by destruct Hw|]. cbn. destruct (word_head c w Hw) as [_ Hc].
  destruct (Z.eqb_spec c 62) as [->|]; [by vm_compute in Hc|done].
Qed.

Lemma redirs_read rs n c l :
  Forall redir_ok rs -> suf (trim ((rs ≫= redir_text) ++ l)) -> stop l ->
  in_set (str "<>") (hd0 (trim l)) = false -> (length (trim ((rs ≫= redir_text) ++ l)) < n)%nat ->
  exists c', redirs_loop buf es n c (pos (trim ((rs ≫= redir_text) ++ l))) = Ok (c', pos (trim l)) /\
    sview c' = redirs (sview c) rs /\ (forall k, simple line k c -> simple line k c').
Proof using Hline.
  intros Hrs. revert n c. induction Hrs as [|[[w m] fd] rs [Hw Hio] Hrs IH];
    intros n c HS Hst Hl Hn; (destruct n as [|n]; [lia|]); cbn [redirs_loop].
  { cbn [mbind list_bind app] in *. rewrite (peek_pos line junk) by done. cbn [rbind].
    rewrite trim_trim, Hl. by exists c. }
  cbn [mbind list_bind] in *. rewrite <-!app_assoc in *. cbn in Hw, Hio.
  set (Y := (rs ≫= redir_text) ++ l) in *.
  assert (stop Y) as HstY. { unfold Y. destruct rs as [|r rs]; [done|]. by right. }
  destruct (next_of_sign fd w Y Hw) as (Htr & Hnext & Hin). set (s := if fd =? 0 then 60 else 62) in *.
  change (redir_text (w, m, fd) ++ Y) with (32 :: s :: w ++ Y) in *.
  change (trim (32 :: s :: w ++ Y)) with (trim (s :: w ++ Y)) in *. rewrite Htr in *.
  rewrite (peek_pos line junk) by done. cbn [rbind]. rewrite Htr. change (hd0 (s :: w ++ Y)) with s.
  rewrite Hin. rewrite (gettoken_pos line junk Hline) by done. cbn [rbind]. rewrite Htr, Hnext.
  cbn [fst snd]. destruct (next_of_word w Y Hw HstY) as [Htw Hnw]. rewrite Htw.
  assert (suf (w ++ Y)) as HSw by by eapply suf_cons.
  rewrite (gettoken_pos line junk Hline) by done. cbn [rbind]. rewrite Htw, Hnw. cbn [fst snd].
  change (negb (97 =? 97)) with false. cbn iota.
  assert (suf (trim Y)) as HSY.
  { apply suf_dropw. etrans; [|exact HSw]. by exists w. }
  edestruct (IH n (REDIR c (pos (w ++ Y)) (pos Y) m fd)) as (c' & Hr & Hv & Hs);
    [done..| |].
  { fold Y. pose proof (dropw_length (in_set whitespace) Y). cbn in Hn. rewrite length_app in Hn. lia. }
  exists c'. split; [|split].
  - rewrite <-Hr. f_equal. unfold s. destruct Hio as [[-> ->]|[-> ->]]; done.
  - rewrite Hv. cbn [sview]. by rewrite slice_pos.
  - intros k Hk. apply Hs. cbn. split; [done|]. split; [|done].
    exists w, Y. destruct Hw as [? Hw]. split_and!; try done.
    eapply Forall_impl; [exact Hw|]. by intros x [_ ?].
Qed.

Lemma parseredirs_read rs c l :
  Forall redir_ok rs -> suf (trim ((rs ≫= redir_text) ++ l)) -> stop l ->
  in_set (str "<>") (hd0 (trim l)) = false ->
  exists c', parseredirs buf es c (pos (trim ((rs ≫= redir_text) ++ l))) = Ok (c', pos (trim l)) /\
    sview c' = redirs (sview c) rs /\ (forall k, simple line k c -> simple line k c').
Proof using Hline.
  intros Hrs HS Hst Hl. unfold parseredirs. rewrite left_length by done.
  apply redirs_read; auto.
Qed.

Lemma parseredirs_none c X :
  suf X -> in_set (str "<>") (hd0 (trim X)) = false ->
  parseredirs buf es c (pos X) = Ok (c, pos (trim X)).
Proof.
  intros HX Hh. unfold parseredirs. cbn [redirs_loop]. rewrite (peek_pos line junk) by done.
  cbn [rbind]. by rewrite Hh.
Qed.

Lemma words_trim w X : word w -> trim (word_text w ++ X) = w ++ X.
Proof.
  intros [Hne Hw]. destruct w as [|c w]; [done|]. apply Forall_cons in Hw as [[_ Hc] _].
  cbn. change (trim (c :: w ++ X) = c :: w ++ X). apply dropw_id. by apply is_word_not.
Qed.

(** One argument. *)
Lemma args_step w Y e k n :
  word w -> stop Y -> suf (w ++ Y) -> (S k < MAXARGS)%nat ->
  ('(ret, ps) ← parseredirs buf es (EXEC e) (pos (w ++ Y));
   args_loop buf es (S n) k ret ps)%sh =
  ('(ret, ps) ← parseredirs buf es (EXEC (push k (pos (w ++ Y)) (pos Y) e)) (pos (trim Y));
   args_loop buf es n (S k) ret ps)%sh.
Proof using Hline.
  intros Hw HY HS Hk. pose proof Hw as [Hne Hall].
  destruct (next_of_word w Y Hw HY) as [Htr Hnext].
  assert (hd0 (w ++ Y) = hd0 w) as Hhd by by destruct w.
  assert (is_word (hd0 w) = true) as Hword.
  { destruct w as [|c w]; [done|]. by apply Forall_cons in Hall as [[_ ?] _]. }
  rewrite parseredirs_none; [|done|].
  2: { rewrite Htr, Hhd. apply not_symbol; [done|cbn; set_solver|repeat constructor; done]. }
  cbn [rbind args_loop]. rewrite Htr, (peek_pos line junk) by done. cbn [rbind].
  rewrite Htr, Hhd, not_symbol by (done || (cbn; set_solver) || (repeat constructor; done)).
  rewrite (gettoken_pos line junk Hline) by done. cbn [rbind]. rewrite Htr, Hnext. cbn [fst snd].
  change (97 =? 0) with false. change (negb (97 =? 97)) with false. cbn iota.
  destruct (decide _) as [|_]; [lia|]. destruct (decide _) as [|_]; [lia|]. done.
Qed.

(** Arguments, then redirections, then what follows. *)
Lemma args_read args rs toks e n l :
  let X := (args ≫= word_text) ++ (rs ≫= redir_text) ++ l in
  Forall word args -> Forall redir_ok rs -> (length toks + length args < MAXARGS)%nat ->
  ShProofs.args line e toks -> suf (trim X) -> follow l -> (length (trim X) < n)%nat ->
  exists c', ('(ret, ps) ← parseredirs buf es (EXEC e) (pos (trim X));
              args_loop buf es n (length toks) ret ps)%sh =
             Ok ((length toks + length args)%nat, c', pos l) /\
    sview c' = redirs (TExec (((fun t => slice t.1 t.2) <$> toks) ++ args)) rs /\
    simple line (length toks + length args) c'.
Proof using Hline.
  intros X Hargs Hrs. subst X. revert toks e n.
  induction Hargs as [|w args Hw Hargs IH]; intros toks e n Hlen He HS Hl Hn;
    (destruct n as [|n]; [lia|]).
  - change (([] ≫= word_text) ++ (rs ≫= redir_text) ++ l) with ((rs ≫= redir_text) ++ l) in *.
    destruct (parseredirs_read rs (EXEC e) l) as (c' & Hr & Hv & Hsim);
      [done|done|by apply follow_stop|rewrite follow_trim by done; by first_char Hl|].
    rewrite Hr. cbn [rbind args_loop]. rewrite (follow_trim l Hl).
    assert (suf l) as HSl.
    { etrans; [|exact HS]. rewrite <-(follow_trim l Hl) at 1. apply dropw_app_suffix. }
    rewrite (peek_pos line junk), (follow_trim l Hl) by done. cbn [rbind].
    exists c'. rewrite Nat.add_0_r, app_nil_r. split; [|split].
    + destruct Hl as [->|Hl]; [|by rewrite Hl].
      rewrite (gettoken_pos line junk Hline) by done. done.
    + rewrite Hv. cbn [sview]. by rewrite (argtoks_args _ _ _ He).
    + apply Hsim. by exists toks.
  - cbn [mbind list_bind] in *. rewrite <-!app_assoc in *.
    set (Y := (args ≫= word_text) ++ (rs ≫= redir_text) ++ l) in *.
    assert (stop Y) as HY.
    { unfold Y. destruct args; [|by right]. destruct rs; [|by right]. by apply follow_stop. }
    rewrite words_trim in * by done. pose proof Hw as [Hne _].
    destruct (next_of_word w Y Hw HY) as [Htr Hnext].
    cbn [length] in Hlen. rewrite args_step by (done || lia).
    assert (token line (pos (w ++ Y)) (pos Y)) as Htok by by apply word_token.
    assert (suf (trim Y)) as HSY.
    { apply suf_dropw. etrans; [|exact HS]. by exists w. }
    destruct (IH (toks ++ [(pos (w ++ Y), pos Y)]) (push (length toks) (pos (w ++ Y)) (pos Y) e) n)
      as (c' & Hr & Hv & Hsim).
    { rewrite length_app. cbn. lia. }
    { apply args_push; [lia|done|done]. }
    { done. } { done. }
    { pose proof (dropw_length (in_set whitespace) Y). rewrite length_app in Hn.
      destruct w; [done|]. cbn in Hn. fold Y. lia. }
    rewrite length_app in Hr, Hsim. cbn [length] in Hr, Hsim. rewrite Nat.add_1_r in Hr, Hsim.
    exists c'. cbn [length]. rewrite <-Nat.add_succ_comm. split; [exact Hr|]. split; [|done].
    rewrite Hv, fmap_app, <-app_assoc. cbn [fmap list_fmap app fst snd]. by rewrite slice_pos.
Qed.

(** ** The grammar *)

(** What each parser function does with the text of [t] at its level. *)
Definition reads_exec (t : tree) : Prop := forall rs l n,
  let X := text 0 t ++ (rs ≫= redir_text) ++ l in
  Forall redir_ok rs -> suf X -> follow l -> (4 * length X + 2 <= n)%nat ->
  exists c, parseexec buf es n (pos X) = Ok (c, pos l) /\ sview c = redirs t rs.

Definition reads_pipe (t : tree) : Prop := forall l n,
  let X := text 1 t ++ l in
  suf X -> follow l -> hd0 l <> 124 -> (4 * length X + 3 <= n)%nat ->
  exists c, parsepipe buf es n (pos X) = Ok (c, pos l) /\ sview c = t.

Definition reads_back (t : tree) : Prop := forall l n,
  let X := text 2 t ++ l in
  suf X -> follow l -> hd0 l <> 124 -> (4 * length X + 3 <= n)%nat ->
  exists c0 X0 c m, parsepipe buf es n (pos X) = Ok (c0, pos X0) /\ suf X0 /\
    (m + length l <= length X0)%nat /\
    (forall j, back_loop buf es (m + j) c0 (pos X0) = back_loop buf es j c (pos l)) /\
    sview c = t.

Definition reads_line (t : tree) : Prop := forall l n,
  let X := line_of t ++ l in
  suf X -> l = [] \/ hd0 l = 41 -> (4 * length X + 4 <= n)%nat ->
  exists c, parseline buf es n (pos X) = Ok (c, pos l) /\ sview c = t.

Lemma exec_reads args : printable (TExec args) -> reads_exec (TExec args).
Proof using Hline.
  intros [Hlen Hargs] rs l n X Hrs HX Hl Hn. subst X. cbn [text level line_of Nat.leb] in *.
  set (X := (args ≫= word_text) ++ (rs ≫= redir_text) ++ l) in *.
  destruct n as [|n]; [lia|]. rewrite parseexec_S, (peek_pos line junk) by done. cbn [rbind].
  pose proof (suf_dropw line (in_set whitespace) X HX) as HT.
  assert (in_set (str "(") (hd0 (trim X)) = false) as ->.
  { unfold X. destruct Hargs as [|w args Hw _].
    - destruct Hrs as [|r rs _ _]; cbn [mbind list_bind app].
      + rewrite follow_trim by done. by first_char Hl.
      + cbn. by destruct (r.2 =? 0).
    - cbn [mbind list_bind]. rewrite <-app_assoc, words_trim by done.
      destruct w as [|c w]; [by destruct Hw|]. destruct (word_head c w Hw) as [_ Hc].
      apply not_symbol; [done|cbn; set_solver|repeat constructor; done]. }
  destruct (args_read args rs [] (mkExec (replicate MAXARGS None) (replicate MAXARGS None))
              (S (length (trim X))) l) as (c & Hr & Hv & Hsim); try done; fold X; [|lia|].
  { split_and!; try done. unfold MAXARGS. cbn. lia. }
  exists c. fold X in Hr. change (length [] + length args)%nat with (length args) in *.
  split; [|done]. unfold parseargs. rewrite left_length by done.
  destruct (parseredirs buf es execcmd_ (pos (trim X))) as [[ret ps]| | |] eqn:E;
    unfold execcmd_ in E; rewrite E in Hr; try done. cbn [rbind] in Hr |- *.
  change (length []) with 0%nat in Hr. rewrite Hr. cbn [rbind].
  destruct (decide _); [lia|]. by rewrite (simple_close line) by done.
Qed.

Lemma redir_reads t w m fd :
  reads_exec t -> word w -> io m fd -> reads_exec (TRedir t w m fd).
Proof using Hline.
  intros Ht Hw Hio rs l n X Hrs HX Hl Hn. subst X.
  assert (text 0 (TRedir t w m fd) ++ (rs ≫= redir_text) ++ l =
          text 0 t ++ (((w, m, fd) :: rs) ≫= redir_text) ++ l) as E.
  { change (text 0 (TRedir t w m fd)) with (text 0 t ++ redir_text (w, m, fd)).
    cbn [mbind list_bind]. by rewrite <-!app_assoc. }
  rewrite E in *. apply (Ht ((w, m, fd) :: rs)); [by constructor|done..].
Qed.

(** The parser skips leading white space. *)
Lemma parseexec_trim n X : suf X -> parseexec buf es n (pos (trim X)) = parseexec buf es n (pos X).
Proof.
  intros HX. destruct n; [done|]. rewrite !parseexec_S, !(peek_pos line junk) by auto using suf_dropw.
  by rewrite trim_trim.
Qed.
Lemma parsepipe_trim n X : suf X -> parsepipe buf es n (pos (trim X)) = parsepipe buf es n (pos X).
Proof. intros HX. destruct n; [done|]. by rewrite !parsepipe_S, parseexec_trim. Qed.
Lemma parseline_trim n X : suf X -> parseline buf es n (pos (trim X)) = parseline buf es n (pos X).
Proof. intros HX. destruct n; [done|]. by rewrite !parseline_S, parsepipe_trim. Qed.

(** A symbol [c] at the front: peek finds it, gettoken consumes it. *)
Lemma symbol_read c toks X :
  c ∈ [124; 40; 41; 59; 38] -> in_set toks c = true -> suf (c :: X) ->
  peek buf es (pos (c :: X)) toks = Ok (true, pos (c :: X)) /\
  gettoken buf es (pos (c :: X)) = Ok (c, pos (c :: X), pos X, pos (trim X)).
Proof using Hline.
  intros Hc Ht HX. rewrite (peek_pos line junk), (gettoken_pos line junk Hline) by done.
  assert (trim (c :: X) = c :: X /\ next (c :: X) = (c, X)) as [-> ->].
  { rewrite !elem_of_cons, elem_of_nil in Hc. by repeat destruct Hc as [->|Hc]. }
  by cbn [hd0 head default from_option id fst snd]; rewrite Ht.
Qed.

Lemma peek_no c toks l :
  toks = [c] -> follow l -> suf l -> hd0 l <> c -> c <> 0 ->
  peek buf es (pos l) toks = Ok (false, pos l).
Proof.
  intros -> Hl HS Hne Hc. rewrite (peek_pos line junk), (follow_trim l Hl) by done. repeat f_equal.
  rewrite in_set_elem by by repeat constructor. apply bool_decide_eq_false. set_solver.
Qed.

Lemma paren_reads t : level t <> 0%nat -> reads_line t -> reads_exec t.
Proof using Hline.
  intros Hlv Ht rs l n X Hrs HX Hl Hn. subst X.
  assert (text 0 t ++ (rs ≫= redir_text) ++ l =
          40 :: line_of t ++ 41 :: (rs ≫= redir_text) ++ l) as E.
  { unfold text, paren. destruct (Nat.leb_spec (level t) 0); [lia|]. cbn. by rewrite <-app_assoc. }
  rewrite E in *. clear E. set (R := (rs ≫= redir_text) ++ l) in *.
  set (Y := line_of t ++ 41 :: R) in *. cbn [length] in Hn.
  destruct n as [|[|n]]; [lia..|]. rewrite parseexec_S.
  destruct (symbol_read 40 (str "(") Y) as [Hpk Hgt]; [set_solver|done|done|].
  rewrite Hpk. cbn [rbind]. rewrite parseblock_S, Hpk. cbn [rbind negb]. rewrite Hgt. cbn [rbind].
  assert (suf Y) as HY by by eapply suf_cons. rewrite parseline_trim by done.
  destruct (Ht (41 :: R) n) as (c & Hc & Hv); [done|by right|unfold Y in Hn; lia|].
  fold Y in Hc. rewrite Hc. cbn [rbind].
  assert (suf (41 :: R)) as HR by (etrans; [|exact HY]; by exists (line_of t)).
  destruct (symbol_read 41 (str ")") R) as [Hpk2 Hgt2]; [set_solver|done|done|].
  rewrite Hpk2. cbn [rbind negb]. rewrite Hgt2. cbn [rbind].
  destruct (parseredirs_read rs c l) as (c' & Hr & Hv' & _); [done|..].
  - apply suf_dropw. by eapply suf_cons.
  - by apply follow_stop.
  - rewrite follow_trim by done. by first_char Hl.
  - exists c'. fold R in Hr. rewrite Hr, follow_trim by done. split; [done|]. by rewrite Hv', Hv.
Qed.

Lemma suf_app_r A l : suf (A ++ l) -> suf l.
Proof. intros H. etrans; [|exact H]. by exists A. Qed.

Lemma pipe_reads t : level t <> 1%nat -> reads_exec t -> reads_pipe t.
Proof using Hline.
  intros Hlv Ht l n X HX Hl Hp Hn. subst X.
  assert (text 1 t = text 0 t) as E. { by destruct t. } rewrite E in *.
  destruct n as [|n]; [lia|]. rewrite parsepipe_S.
  destruct (Ht [] l n) as (c & Hc & Hv); [constructor|done|done|cbn; lia|].
  cbn [mbind list_bind app] in Hc. rewrite Hc. cbn [rbind].
  rewrite (peek_no 124) by (done || by eapply suf_app_r). by exists c.
Qed.

Lemma pipe_pipe_reads l r : reads_exec l -> reads_pipe r -> reads_pipe (TPipe l r).
Proof using Hline.
  intros Hl Hr rest n X HX Hrest Hp Hn. subst X.
  assert (text 1 (TPipe l r) ++ rest = text 0 l ++ 124 :: text 1 r ++ rest) as E.
  { change (text 1 (TPipe l r)) with (text 0 l ++ [124] ++ text 1 r). by rewrite <-!app_assoc. }
  rewrite E in *. clear E. rewrite length_app in Hn. cbn [length] in Hn.
  destruct n as [|n]; [lia|]. rewrite parsepipe_S.
  destruct (Hl [] (124 :: text 1 r ++ rest) n) as (c & Hc & Hv);
    [constructor|done|by right|cbn; rewrite length_app; cbn; lia|].
  cbn [mbind list_bind app] in Hc. rewrite Hc. cbn [rbind].
  assert (suf (124 :: text 1 r ++ rest)) as HS by by eapply suf_app_r.
  destruct (symbol_read 124 (str "|") (text 1 r ++ rest)) as [Hpk Hgt]; [set_solver|done|done|].
  rewrite Hpk. cbn [rbind]. rewrite Hgt. cbn [rbind]. apply suf_cons in HS. rewrite parsepipe_trim by done.
  destruct (Hr rest n) as (c2 & Hc2 & Hv2); [done..|lia|]. rewrite Hc2. cbn [rbind].
  exists (PIPE c c2). split; [done|]. cbn. by rewrite Hv, Hv2.
Qed.

Lemma back_reads t : level t <> 2%nat -> reads_pipe t -> reads_back t.
Proof using Hline.
  intros Hlv Ht l n X HX Hl Hp Hn. subst X.
  assert (text 2 t = text 1 t) as E. { by destruct t. } rewrite E in *.
  destruct (Ht l n) as (c & Hc & Hv); [done..|]. exists c, l, c, 0%nat.
  split_and!; try done. by eapply suf_app_r.
Qed.

Lemma back_back_reads t : reads_back t -> reads_back (TBack t).
Proof using Hline.
  intros Ht l n X HX Hl Hp Hn. subst X.
  assert (text 2 (TBack t) ++ l = text 2 t ++ 38 :: l) as E.
  { change (text 2 (TBack t)) with (text 2 t ++ [38]). by rewrite <-app_assoc. }
  rewrite E in *. destruct (Ht (38 :: l) n) as (c0 & X0 & c & m & Hc & HS & Hm & Hb & Hv);
    [done|by right|done|done|].
  exists c0, X0, (BACK c), (S m). cbn [length] in Hm. split_and!; [done|done|lia| |by cbn; rewrite Hv].
  intros j. rewrite Nat.add_succ_comm, Hb. cbn [back_loop].
  destruct (symbol_read 38 (str "&") l) as [Hpk Hgt]; [set_solver|done|by eapply suf_app_r|].
  rewrite Hpk. cbn [rbind]. rewrite Hgt. cbn [rbind]. by rewrite follow_trim.
Qed.

Lemma line_reads t : level t <> 3%nat -> reads_back t -> reads_line t.
Proof using Hline.
  intros Hlv Ht l n X HX Hl Hn. subst X.
  assert (line_of t = text 2 t) as E. { by destruct t. } rewrite E in *.
  assert (follow l) as Hf. { destruct Hl as [->|Hl]; [by left|]. right. by rewrite Hl. }
  assert (hd0 l <> 124 /\ hd0 l <> 38 /\ hd0 l <> 59) as (H1 & H2 & H3).
  { destruct Hl as [->|Hl]; [done|]. by rewrite Hl. }
  destruct n as [|n]; [lia|]. rewrite parseline_S.
  destruct (Ht l n) as (c0 & X0 & c & m & Hc & HS & Hm & Hb & Hv); [done..|lia|].
  rewrite Hc. cbn [rbind]. rewrite left_length by done.
  assert (suf l) as HSl by by eapply suf_app_r.
  replace (S (length X0)) with (m + S (length X0 - m))%nat by lia. rewrite Hb. cbn [back_loop].
  rewrite (peek_no 38) by done. cbn [rbind]. rewrite (peek_no 59) by done. cbn [rbind].
  by exists c.
Qed.

Lemma list_line_reads l r : reads_back l -> reads_line r -> reads_line (TList l r).
Proof using Hline.
  intros Hl Hr rest n X HX Hrest Hn. subst X.
  assert (line_of (TList l r) ++ rest = text 2 l ++ 59 :: line_of r ++ rest) as E.
  { change (line_of (TList l r)) with (text 2 l ++ [59] ++ line_of r). by rewrite <-!app_assoc. }
  rewrite E in *. clear E. set (Y := line_of r ++ rest) in *.
  rewrite length_app in Hn. cbn [length] in Hn.
  destruct n as [|n]; [lia|]. rewrite parseline_S.
  destruct (Hl (59 :: Y) n) as (c0 & X0 & c & m & Hc & HS & Hm & Hb & Hv);
    [done|by right|done|rewrite length_app; cbn; lia|].
  rewrite Hc. cbn [rbind]. rewrite left_length by done.
  assert (suf (59 :: Y)) as HSY by by eapply suf_app_r.
  replace (S (length X0)) with (m + S (length X0 - m))%nat by lia. rewrite Hb. cbn [back_loop].
  rewrite (peek_no 38) by (done || by right). cbn [rbind].
  destruct (symbol_read 59 (str ";") Y) as [Hpk Hgt]; [set_solver|done|done|].
  rewrite Hpk. cbn [rbind]. rewrite Hgt. cbn [rbind].
  apply suf_cons in HSY. rewrite parseline_trim by done.
  destruct (Hr rest n) as (c2 & Hc2 & Hv2); [done..|fold Y; lia|]. fold Y in Hc2.
  rewrite Hc2. cbn [rbind]. exists (LIST c c2). split; [done|]. cbn. by rewrite Hv, Hv2.
Qed.

Lemma tree_reads t : printable t -> reads_exec t /\ reads_pipe t /\ reads_back t /\ reads_line t.
Proof using Hline.
  induction t as [a|t IH w m fd|l IHl r IHr|l IHl r IHr|t IH]; intros Hp.
  - assert (reads_exec (TExec a)) by by apply exec_reads.
    auto 10 using pipe_reads, back_reads, line_reads.
  - destruct Hp as (Ht & Hw & Hio). destruct (IH Ht) as (He & _).
    assert (reads_exec (TRedir t w m fd)) by by apply redir_reads.
    auto 10 using pipe_reads, back_reads, line_reads.
  - destruct Hp as [Hl Hr]. destruct (IHl Hl) as (He & _), (IHr Hr) as (_ & Hpr & _).
    assert (reads_pipe (TPipe l r)) by by apply pipe_pipe_reads.
    auto 10 using back_reads, line_reads, paren_reads.
  - destruct Hp as [Hl Hr]. destruct (IHl Hl) as (_ & _ & Hb & _), (IHr Hr) as (_ & _ & _ & Hln).
    assert (reads_line (TList l r)) by by apply list_line_reads.
    auto 10 using pipe_reads, back_reads, paren_reads.
  - destruct (IH Hp) as (_ & _ & Hb & _).
    assert (reads_back (TBack t)) by by apply back_back_reads.
    auto 10 using pipe_reads, line_reads, paren_reads.
Qed.

(** ** Reading the terminated strings *)

Lemma arguments_args b e toks :
  args line e toks -> arguments b (argv e) = (fun t => cstring b t.1) <$> toks.
Proof.
  intros (_ & _ & -> & _). generalize MAXARGS. intros n. generalize (n - length toks)%nat. intros k.
  induction toks as [|[q eq] toks IH]; cbn; [by destruct k|]. by rewrite IH.
Qed.

Lemma view_sview b c :
  wf line c -> cut line junk b -> Forall (fun t => b !! t.2 = Some 0) (tokens c) ->
  view b c = sview c.
Proof using Hline.
  intros Hwf Hcut. assert (Forall (fun t => token line t.1 t.2) (tokens c)) as Ht by by apply wf_tokens.
  revert Hwf Ht. induction c as [e|c IH q eq m fd|l IHl r IHr|l IHl r IHr|c IH];
    cbn; rewrite ?Forall_app.
  - intros [toks Ha] Ht Hz. rewrite (argtoks_args _ _ _ Ha) in *. rewrite (arguments_args b e toks) by done.
    f_equal. apply list_fmap_ext. intros i t Hi.
    apply (token_string line junk Hline); [by eapply Forall_lookup_1 in Ht|done|].
    by eapply Forall_lookup_1 in Hz.
  - intros (Hc & Htok & _) [Ht _] [Hz Hz1]. rewrite IH by done. f_equal.
    apply (token_string line junk Hline); [done..|]. by apply Forall_cons in Hz1 as [? _].
  - intros [? ?] [? ?] [? ?]. by rewrite IHl, IHr.
  - intros [? ?] [? ?] [? ?]. by rewrite IHl, IHr.
  - intros. by rewrite IH.
Qed.

End parse.

Lemma word_nonzero w : word w -> Forall (fun c => c <> 0) w.
Proof. intros [_ H]. eapply Forall_impl; [exact H|]. by intros x [? _]. Qed.

Lemma line_nonzero t : printable t -> Forall (fun c => c <> 0) (line_of t).
Proof.
  assert (forall k t, Forall (fun c => c <> 0) (line_of t) -> Forall (fun c => c <> 0) (text k t)) as Htext.
  { intros k t' H. unfold text, paren. destruct (_ <=? _)%nat; [done|].
    constructor; [done|]. apply Forall_app. split; [done|by repeat constructor]. }
  induction t as [a|t IH w m fd|l IHl r IHr|l IHl r IHr|t IH]; cbn [printable].
  - intros [_ Ha]. cbn. induction Ha as [|w a Hw _ IH]; cbn; [constructor|].
    constructor; [done|]. apply Forall_app. split; [by apply word_nonzero|done].
  - intros (Ht & Hw & _). change (line_of (TRedir t w m fd)) with (text 0 t ++ redir_text (w, m, fd)).
    apply Forall_app. split; [auto|]. constructor; [done|]. cbn.
    constructor; [by destruct (fd =? 0)|]. by apply word_nonzero.
  - intros [Hl Hr]. change (line_of (TPipe l r)) with (text 0 l ++ [124] ++ text 1 r).
    rewrite !Forall_app. split_and!; [auto|by repeat constructor|auto].
  - intros [Hl Hr]. change (line_of (TList l r)) with (text 2 l ++ [59] ++ line_of r).
    rewrite !Forall_app. split_and!; [auto|by repeat constructor|auto].
  - intros Ht. change (line_of (TBack t)) with (text 2 t ++ [38]).
    rewrite Forall_app. split; [auto|by repeat constructor].
Qed.

(** The parser inverts the printer. *)
Lemma parse_line_of t junk :
  printable t ->
  exists c b, parsecmd (line_of t ++ 0 :: junk) = Ok (c, b) /\ view b c = t.
Proof.
  intros Hp. pose proof (line_nonzero t Hp) as Hn. set (line := line_of t) in *.
  destruct (tree_reads line junk Hn t Hp) as (_ & _ & _ & Hl).
  destruct (Hl [] (depth (length line))) as (c & Hc & Hv).
  { by rewrite app_nil_r. } { by left. } { rewrite app_nil_r. fold line. unfold depth. lia. }
  rewrite app_nil_r in Hc. fold line in Hc.
  destruct (parse_good line junk Hn (depth (length line)) line) as (Hgood & _); [done|].
  rewrite Hc in Hgood. destruct Hgood as (_ & _ & _ & Hwf); [unfold depth; lia|]. cbn in Hwf.
  destruct (nulterminate_cut line junk c (line ++ 0 :: junk) Hwf) as (b & Hb & Hcut & _ & Hz).
  { split; [done|]. intros i x Hx _. rewrite lookup_app_l; [done|]. by eapply lookup_lt_Some. }
  exists c, b. split; [|by rewrite (view_sview line junk Hn)].
  unfold parsecmd. rewrite strlen_app by done.
  assert (0%nat = pos line line) as Hpos by (unfold pos; lia). rewrite Hpos, Hc. cbn [rbind].
  rewrite (peek_pos line junk) by apply suffix_nil. cbn [rbind dropw].
  assert (pos line [] = length line) as -> by (unfold pos; cbn; lia).
  rewrite Nat.eqb_refl, Hb. done.
Qed.
