(* ===== verification/ShRun.v ===== *)
(** * The processes of a command

    [procs] runs the shell process on a descriptor table, with system calls that succeed, and
    records the tree of processes it creates, each with the descriptors its program starts with
    and the shell's own with those it has open whenever it waits for a child or exits.
    [plan] is what a command means: redirections replace a descriptor, a pipe connects the output
    of its left side with the input of its right side, and nothing else changes. *)

From stdpp Require Import base list gmap strings fin_maps.
From S2P Require Import Prelude State Monad Console Ulib Sysfile Sh ShProofs ShPrint.
Open Scope Z_scope.

(** What a descriptor refers to; a pipe is named by the place of its creation. *)
Inductive ofile :=
| Inherited (n : nat)
| Opened (path : list Z) (mode : Z)
| PipeRead (id : list bool)
| PipeWrite (id : list bool).

Notation fds := (list (option ofile)).

Inductive ptree :=
| NExit (t : fds)
| NRun (av : list (list Z)) (t : fds)
| NFork (child parent : ptree)
| NWait (t : fds) (k : ptree)
| NOther.

(** The lowest free descriptor, as fdalloc of sysfile.c gives it out. *)
Definition alloc (f : ofile) (t : fds) : option (nat * fds) :=
  match findi (fun o => bool_decide (o = None)) t with
  | Some i => Some (i, <[i := Some f]> t)
  | None => None
  end.

#[export] Instance ofile_eq_dec : EqDecision ofile.
Proof. solve_decision. Defined.

Fixpoint procs (p : prog) (id : list bool) (t : fds) : ptree :=
  match p with
  | SysExit => NExit t
  | SysClose fd k => procs k id (<[Z.to_nat fd := None]> t)
  | SysOpen path mode k =>
      match alloc (Opened path mode) t with
      | Some (i, t) => procs (k (Z.of_nat i)) id t
      | None => procs (k (-1)) id t
      end
  | SysDup fd k =>
      match mjoin (t !! Z.to_nat fd) with
      | Some f => match alloc f t with Some (_, t) => procs k id t | None => procs k id t end
      | None => procs k id t
      end
  | SysPipe k =>
      match alloc (PipeRead id) t with
      | Some (i, t1) =>
          match alloc (PipeWrite id) t1 with
          | Some (j, t2) => procs (k (Some (Z.of_nat i, Z.of_nat j))) id t2
          | None => procs (k None) id t
          end
      | None => procs (k None) id t
      end
  | SysFork k => NFork (procs (k 0) (id ++ [false]) t) (procs (k 1) (id ++ [true]) t)
  | SysWait k => NWait t (procs k id t)
  | SysExec _ av _ => NRun av t
  | SysWrite _ _ k => procs k id t
  | SysRead _ _ _ | SysChdir _ _ | Stuck => NOther
  end.

Fixpoint plan (c : tree) (id : list bool) (t : fds) : ptree :=
  match c with
  | TExec args => if decide (args = []) then NExit t else NRun args t
  | TRedir c file mode fd => plan c id (<[Z.to_nat fd := Some (Opened file mode)]> t)
  | TList l r => NFork (plan l (id ++ [false]) t) (NWait t (plan r (id ++ [true]) t))
  | TBack c => NFork (plan c (id ++ [false]) t) (NExit t)
  | TPipe l r =>
      NFork (plan l (id ++ [false]) (<[1%nat := Some (PipeWrite id)]> t))
        (NFork (plan r ((id ++ [true]) ++ [false]) (<[0%nat := Some (PipeRead id)]> t))
           (NWait t (NWait t (NExit t))))
  end.

(** Standard input and output are open. *)
Definition std (t : fds) : Prop := exists f0 f1 t', t = Some f0 :: Some f1 :: t'.

(** Standard input and output are open, and two more descriptors are free. *)
Definition ready (t : fds) : Prop :=
  exists f0 f1 t' i j, t = Some f0 :: Some f1 :: t' /\ t' !! i = Some None /\ t' !! j = Some None /\
    (i < j)%nat.

Lemma ready_0 t f : ready t -> ready (<[0%nat := Some f]> t).
Proof. intros (f0 & f1 & t' & i & j & -> & H). by exists f, f1, t', i, j. Qed.
Lemma ready_1 t f : ready t -> ready (<[1%nat := Some f]> t).
Proof. intros (f0 & f1 & t' & i & j & -> & H). by exists f0, f, t', i, j. Qed.

Lemma alloc_first f t i :
  t !! i = Some None -> (forall k, (k < i)%nat -> exists g, t !! k = Some (Some g)) ->
  alloc f t = Some (i, <[i := Some f]> t).
Proof.
  intros Hi Hlt. unfold alloc. replace (findi _ t) with (Some i); [done|]. symmetry.
  apply findi_Some. split.
  - exists None. split; [done|]. by apply bool_decide_eq_true.
  - intros k o Hk Ho. destruct (Hlt k Hk) as [g Hg]. rewrite Hg in Ho. injection Ho as <-. done.
Qed.

Lemma alloc_free f t k :
  t !! k = Some None -> exists i, alloc f t = Some (i, <[i := Some f]> t) /\ t !! i = Some None.
Proof.
  intros Hk. destruct (findi_is_Some (fun o : option ofile => bool_decide (o = None)) t k None)
    as [i Hi]; [done|by apply bool_decide_eq_true|].
  exists i. unfold alloc. rewrite Hi. split; [done|].
  apply findi_Some in Hi as [(o & Ho & Hb) _]. by apply bool_decide_eq_true in Hb as ->.
Qed.

(** A ready table gives out two descriptors beyond the standard ones. *)
Lemma alloc_two f g t :
  ready t -> exists i j, alloc f t = Some (i, <[i := Some f]> t) /\
    alloc g (<[i := Some f]> t) = Some (j, <[j := Some g]> (<[i := Some f]> t)) /\
    (2 <= i)%nat /\ (2 <= j)%nat /\ i <> j /\ t !! i = Some None /\ t !! j = Some None.
Proof.
  intros (f0 & f1 & t' & a & b & Ht & Ha & Hb & Hab).
  assert (forall k, t !! k = Some None -> 2 <= k)%nat as Hge.
  { intros [|[|k]]; rewrite Ht; [done..|lia]. }
  assert (t !! (2 + a)%nat = Some None /\ t !! (2 + b)%nat = Some None) as [Ha' Hb'] by by rewrite Ht.
  destruct (alloc_free f t (2 + a) Ha') as (i & Hi & Hti). exists i.
  assert (exists k, <[i := Some f]> t !! k = Some None) as [k Hk].
  { destruct (decide (i = 2 + a)%nat) as [->|Hne].
    - exists (2 + b)%nat. rewrite list_lookup_insert_ne by lia. done.
    - exists (2 + a)%nat. by rewrite list_lookup_insert_ne by done. }
  destruct (alloc_free g _ k Hk) as (j & Hj & Htj). exists j.
  assert (i <> j) as Hij.
  { intros <-. by rewrite list_lookup_insert_eq in Htj by by eapply lookup_lt_Some. }
  rewrite list_lookup_insert_ne in Htj by done. auto 10.
Qed.

(** close(fd) and open or dup put the new file at [fd], for a standard descriptor. *)
Lemma reuse_0 f t : std t -> alloc f (<[0%nat := None]> t) = Some (0%nat, <[0%nat := Some f]> t).
Proof. intros (f0 & f1 & t' & ->). rewrite (alloc_first f _ 0); [done|done|lia]. Qed.

Lemma reuse_1 f t : std t -> alloc f (<[1%nat := None]> t) = Some (1%nat, <[1%nat := Some f]> t).
Proof.
  intros (f0 & f1 & t' & ->). rewrite (alloc_first f _ 1); [done|done|].
  intros k Hk. replace k with 0%nat by lia. by exists f0.
Qed.

(** The two ends are closed again. *)
Lemma close_ends (t : fds) i j k x f g :
  i <> j -> (2 <= i)%nat -> (2 <= j)%nat -> (k < 2)%nat -> t !! i = Some None -> t !! j = Some None ->
  <[j := None]> (<[i := None]> (<[k := x]> (<[j := Some g]> (<[i := Some f]> t)))) = <[k := x]> t.
Proof.
  intros Hij Hi Hj Hk Hti Htj. apply list_eq. intros n.
  destruct (decide (n = j)) as [->|Hnj].
  { rewrite list_lookup_insert_eq, list_lookup_insert_ne by (rewrite ?length_insert; try lia; by eapply lookup_lt_Some).
    done. }
  rewrite list_lookup_insert_ne by done.
  destruct (decide (n = i)) as [->|Hni].
  { rewrite list_lookup_insert_eq, list_lookup_insert_ne by (rewrite ?length_insert; try lia; by eapply lookup_lt_Some).
    done. }
  rewrite list_lookup_insert_ne by done.
  destruct (decide (n = k)) as [->|Hnk].
  - destruct (decide (k < length t)%nat).
    + by rewrite !list_lookup_insert_eq by (rewrite ?length_insert; done).
    + rewrite !list_insert_ge by (rewrite ?length_insert; lia). done.
  - by rewrite !list_lookup_insert_ne.
Qed.

Lemma close_both (t : fds) i j f g :
  i <> j -> (2 <= i)%nat -> (2 <= j)%nat -> t !! i = Some None -> t !! j = Some None ->
  <[j := None]> (<[i := None]> (<[j := Some g]> (<[i := Some f]> t))) = t.
Proof.
  intros Hij Hi Hj Hti Htj. destruct t as [|x t]; [done|].
  rewrite <-(list_insert_id (x :: t) 0 x) at 2 by done.
  rewrite <-(close_ends (x :: t) i j 0 x f g) by (done || lia).
  rewrite (list_insert_id _ 0); [done|]. by rewrite !list_lookup_insert_ne by lia.
Qed.

Lemma ready_std t : ready t -> std t.
Proof. intros (f0 & f1 & t' & a & b & -> & _). by exists f0, f1, t'. Qed.

Lemma std_insert t i f : (2 <= i)%nat -> std t -> std (<[i := Some f]> t).
Proof.
  intros Hi (f0 & f1 & t' & ->). destruct i as [|[|i]]; [lia..|]. by exists f0, f1, (<[i := Some f]> t').
Qed.

(** One side of a pipe: the standard descriptor [k] becomes the end at [e], the ends are closed. *)
Lemma side (t : fds) (k e i j : nat) f g h p id :
  ready t -> (k < 2)%nat -> e = i \/ e = j -> i <> j -> (2 <= i)%nat -> (2 <= j)%nat ->
  t !! i = Some None -> t !! j = Some None ->
  <[j := Some g]> (<[i := Some f]> t) !! e = Some (Some h) ->
  procs (SysClose (Z.of_nat k) (SysDup (Z.of_nat e) (SysClose (Z.of_nat i) (SysClose (Z.of_nat j) p))))
    id (<[j := Some g]> (<[i := Some f]> t)) = procs p id (<[k := Some h]> t).
Proof.
  intros Hr Hk He Hij Hi Hj Hti Htj Hh. cbn [procs]. rewrite !Nat2Z.id.
  set (t2 := <[j := Some g]> (<[i := Some f]> t)) in *.
  assert (std t2) as Hstd by (unfold t2; auto using std_insert, ready_std).
  assert (k <> e) as Hke by (destruct He; lia). rewrite list_lookup_insert_ne, Hh by done. cbn [mjoin option_join].
  assert (alloc h (<[k := None]> t2) = Some (k, <[k := Some h]> t2)) as ->.
  { destruct k as [|[|k]]; [by apply reuse_0|by apply reuse_1|lia]. }
  unfold t2. by rewrite close_ends.
Qed.

Lemma procs_fork1 k id t :
  procs (fork1 k) id t = NFork (procs (k 0) (id ++ [false]) t) (procs (k 1) (id ++ [true]) t).
Proof. reflexivity. Qed.

(** The processes of a parsed command are those its tree stands for. *)
Lemma runcmd_plan b c id t :
  printable (view b c) -> ready t -> procs (runcmd b c) id t = plan (view b c) id t.
Proof.
  revert id t. induction c as [e|c IH q eq m fd|l IHl r IHr|l IHl r IHr|c IH]; intros id t; cbn [view printable].
  - intros _ _. cbn [runcmd plan]. destruct (argv e) as [|[q|] av]; done.
  - intros (Hc & _ & Hio) Hr. cbn [runcmd procs plan].
    assert (alloc (Opened (cstring b q) m) (<[Z.to_nat fd := None]> t) =
            Some (Z.to_nat fd, <[Z.to_nat fd := Some (Opened (cstring b q) m)]> t) /\
            ready (<[Z.to_nat fd := Some (Opened (cstring b q) m)]> t)) as [-> Hr'].
    { destruct Hio as [[_ ->]|[_ ->]]; auto using reuse_0, reuse_1, ready_0, ready_1, ready_std. }
    destruct (Z.ltb_spec (Z.of_nat (Z.to_nat fd)) 0); [lia|]. by apply IH.
  - intros [Hl Hr] Ht. cbn [runcmd plan]. cbn [procs].
    destruct (alloc_two (PipeRead id) (PipeWrite id) t Ht)
      as (i & j & -> & -> & Hi & Hj & Hij & Hti & Htj).
    assert (length t > i /\ length t > j)%nat as [Hli Hlj].
    { apply lookup_lt_Some in Hti, Htj. lia. }
    rewrite procs_fork1. cbn [Z.eqb]. rewrite procs_fork1. cbn [Z.eqb].
    f_equal; [|f_equal; [|cbn [procs]; by rewrite !Nat2Z.id, close_both]].
    + change 1 with (Z.of_nat 1). rewrite (side t 1 j i j (PipeRead id) (PipeWrite id) (PipeWrite id)); auto using ready_1.
      rewrite list_lookup_insert_eq by (rewrite length_insert; lia). done.
    + change 0 with (Z.of_nat 0). rewrite (side t 0 i i j (PipeRead id) (PipeWrite id) (PipeRead id)); auto using ready_0 with lia.
      rewrite list_lookup_insert_ne, list_lookup_insert_eq by (done || lia). done.
  - intros [Hl Hr] Ht. cbn [runcmd plan]. rewrite procs_fork1. cbn [Z.eqb procs].
    by rewrite IHl, IHr.
  - intros Hc Ht. cbn [runcmd plan]. rewrite procs_fork1. cbn [Z.eqb procs]. by rewrite IH.
Qed.
