(* ===== verification/PropUser.v ===== *)
(** * Properties of the shell and of the user library *)

From stdpp Require Import base list gmap strings fin_maps.
From S2P Require Import Prelude State Monad Console Ulib Sysfile Sh ShProofs ShPrint ShRun Umalloc UmallocProofs Grep GrepProofs.
Open Scope Z_scope.

(** ** The shell *)

(** The line "(ls; cat <in a) | wc >out &". *)
Definition ex_tree : tree :=
  TBack (TPipe (TList (TExec [str "ls"]) (TRedir (TExec [str "cat"; str "a"]) (str "in") O_RDONLY 0))
           (TRedir (TExec [str "wc"]) (str "out") (Z.lor O_WRONLY O_CREATE) 1)).

Lemma ex_tree_printable : printable ex_tree.
Proof.
  assert (forall s, forallb is_word (str s) = true -> str s <> [] ->
            forallb (fun c => negb (c =? 0)) (str s) = true -> word (str s)) as Hw.
  { intros s H1 H2 H3. split; [done|]. apply Forall_forall. intros c Hc%list_elem_of_In.
    rewrite forallb_forall in H1, H3. split; [|by apply H1].
    specialize (H3 c Hc). by destruct (Z.eqb_spec c 0). }
  cbn [ex_tree printable]. unfold MAXARGS. cbn [length].
  split_and!; try lia; try (by left); try (by right); rewrite ?Forall_cons, ?Forall_nil;
    split_and?; try done; by apply Hw.
Qed.

(** C10. The parser terminates.  On any buffer that holds a terminated line, however malformed,
    parsecmd returns a command or the shell process exits with a message: it does not loop and
    does not access memory outside the buffer or the argument vector. *)
Theorem parsecmd_total buf :
  0 ∈ buf ->
  (exists c b, parsecmd buf = Ok (c, b)) \/ (exists out, parsecmd buf = Exits out).
Proof.
  intros H0. pose proof (parsecmd_good buf H0) as Hg.
  destruct (parsecmd buf) as [[c b]|out| |]; cbn in Hg; [left; by exists c, b|right; by exists out|done..].
Qed.
Lemma parsecmd_total_witness :
  (exists c b, parsecmd (str "(echo hi; < (a" ++ [0]) = Ok (c, b)) \/
  (exists out, parsecmd (str "(echo hi; < (a" ++ [0]) = Exits out).
Proof. apply (parsecmd_total (str "(echo hi; < (a" ++ [0])). by apply (bool_decide_unpack _). Defined.

(** C15. A command that parsecmd returns is well formed.  Each argument vector holds at most nine
    arguments and null pointers behind them, each redirection has one of the two modes the code
    opens files with; and the string at every pointer of the command is the text of its token in
    the line, a nonempty word without white space or symbols: terminating one string never
    damages another. *)
Theorem parsecmd_typed buf c b :
  0 ∈ buf -> parsecmd buf = Ok (c, b) ->
  wf (chars buf) c /\ length b = length buf /\
  forall q eq, (q, eq) ∈ tokens c ->
    (q < eq <= strlen buf)%nat /\ cstring b q = take (eq - q) (drop q buf) /\
    Forall (fun ch => is_word ch = true) (cstring b q).
Proof.
  intros H0 Hp. pose proof (parsecmd_good buf H0) as Hg. rewrite Hp in Hg.
  destruct Hg as (Hwf & Hcut & Hz). cbn [fst snd] in *.
  destruct (buf_split buf H0) as (junk & Hb & Hn).
  split; [done|]. split.
  { destruct Hcut as [-> _]. by rewrite (buf_tail _ _ Hb), <-Hb. }
  intros q eq Hin. pose proof (wf_tokens _ _ Hwf) as Ht. rewrite Forall_forall in Ht, Hz.
  specialize (Ht _ Hin). specialize (Hz _ Hin). cbn in Ht, Hz.
  pose proof (token_string _ _ Hn q eq b Ht Hcut Hz) as Hs. unfold cstring. rewrite Hs.
  apply token_text in Ht as (Hq & Hw). rewrite chars_length in Hq. split; [done|].
  split; [|done]. apply slice_chars; lia.
Qed.
Lemma parsecmd_typed_witness :
  exists c b, parsecmd (line_of ex_tree ++ [0]) = Ok (c, b) /\ wf (chars (line_of ex_tree ++ [0])) c.
Proof.
  destruct (parsecmd (line_of ex_tree ++ [0])) as [[c b]| | |] eqn:E; [|by vm_compute in E..].
  exists c, b. split; [reflexivity|].
  apply (parsecmd_typed (line_of ex_tree ++ [0]) c b); [by apply (bool_decide_unpack _)|exact E].
Defined.

(** The parser inverts the printer: every command tree of at most nine words per argument
    vector, written as a line with parentheses only where the precedence of | & and ; needs them,
    is read back as the same tree. *)
Theorem parsecmd_inverts t junk :
  printable t -> exists c b, parsecmd (line_of t ++ 0 :: junk) = Ok (c, b) /\ view b c = t.
Proof. apply parse_line_of. Qed.
Lemma parsecmd_inverts_witness :
  exists c b, parsecmd (line_of ex_tree ++ [0]) = Ok (c, b) /\ view b c = ex_tree.
Proof. apply (parsecmd_inverts ex_tree []). exact ex_tree_printable. Defined.


(** ** malloc and free *)

(** C9. The allocator of user programs never hands out memory that is in use.  However a program
    calls malloc, frees blocks it holds and writes to them, malloc returns 0 or the address of
    [n] bytes of the heap that overlap no block the program holds, free succeeds on every block
    it holds, and neither changes the contents of the other blocks. *)
Theorem malloc_no_alias base grow h0 h used n :
  0 < base -> (forall b k, grow b k = true -> b + k <= KERNBASE) ->
  freep h0 = 0 -> base + 8 <= brk h0 <= KERNBASE ->
  rtc (ustep base grow) (h0, []) (h, used) -> 0 <= n <= 2 ^ 31 - 64 ->
  (exists r h', malloc base grow n h = Some (r, h') /\
     (r = 0 \/ base + 16 <= r /\ r + n <= KERNBASE /\
        forall a s, (a, s) ∈ used -> r + n <= a \/ a + 8 * s <= r - 8) /\
     forall a s k, (a, s) ∈ used -> a <= k < a + 8 * s -> umem h' !! k = umem h !! k) /\
  forall used1 a s used2, used = used1 ++ (a, s) :: used2 ->
    exists h', free (a + 8) h = Some h' /\
      forall b t k, (b, t) ∈ used1 ++ used2 -> b <= k < b + 8 * t -> umem h' !! k = umem h !! k.
Proof.
  intros Hbase Hgrow Hf0 Hb0 Hsteps Hn.
  assert (holds base (h, used)) as (bs & Hr & HL).
  { revert Hsteps. apply rtc_ind_r; [exists []; split; [by right|done]|].
    intros y z _ Hyz Hy. by eapply holds_step. }
  cbn in Hr, HL. split.
  - destruct (malloc_inv base Hbase grow Hgrow n h bs Hr Hn) as (r & h' & Hrun & Hcase).
    exists r, h'. split; [done|].
    destruct Hcase as [(-> & _ & Hk & _)|(b & bs' & -> & Hi & HL' & Hk)].
    { split; [by left|]. intros a s k Ha. apply Hk. by rewrite HL. }
    split; [right|intros a s k Ha; apply Hk; by rewrite HL].
    destruct (units_range n Hn) as [_ Hu]. pose proof Hi as [Hlay Htop _ _ _ _ _].
    rewrite HL in HL'. assert ((b, units n, false) ∈ bs') as Hb by (apply elem_of_pick; rewrite HL'; by left).
    pose proof (layout_in _ _ _ _ _ _ Hlay Hb). split; [lia|]. split; [lia|]. intros a s Ha.
    pose proof (live_disjoint base bs' _ b (units n) used Hlay HL' a s Ha). lia.
  - intros used1 a s used2 ->. destruct (free_usable base Hbase h bs a s Hr) as (h' & bs' & Hrun & _ & HL' & Hk).
    { rewrite HL. set_solver. }
    exists h'. split; [done|]. intros b t k Hb. apply Hk.
    rewrite HL, <-Permutation_middle in HL'. apply Permutation_cons_inv in HL'. by rewrite <-HL'.
Qed.

Definition ex_grow (b k : Z) : bool := b + k <=? 0x10000.
Definition ex_heap0 : heap := mkHeap ∅ 0 0x400.
Definition ex_heap : heap := match malloc 0x100 ex_grow 100 ex_heap0 with Some (_, h) => h | None => ex_heap0 end.
Lemma malloc_no_alias_witness :
  exists r h', malloc 0x100 ex_grow 20 ex_heap = Some (r, h') /\
    (r = 0 \/ 0x110 <= r /\ r + 20 <= KERNBASE /\
       forall a s, (a, s) ∈ [(0x8390, 14)] -> r + 20 <= a \/ a + 8 * s <= r - 8) /\
    forall a s k, (a, s) ∈ [(0x8390, 14)] -> a <= k < a + 8 * s -> umem h' !! k = umem ex_heap !! k.
Proof.
  apply (malloc_no_alias 0x100 ex_grow ex_heap0 ex_heap [(0x8390, 14)] 20).
  - lia.
  - intros b k H. apply Z.leb_le in H. unfold KERNBASE. lia.
  - reflexivity.
  - cbn. unfold KERNBASE. lia.
  - apply rtc_once. apply (step_malloc 0x100 ex_grow ex_heap0 [] 100 0x8398 ex_heap); [lia|].
    by vm_compute.
  - lia.
Defined.

(** ** grep *)

(** C14. The matcher of grep decides the language of the pattern: it accepts a text exactly when
    a string of the pattern's language occurs in it, at the start of the text after ^ and at its
    end before $. *)
Theorem grep_matches re text : re_match re text = true <-> occurs (pattern re) text.
Proof. apply re_match_occurs. Qed.

(** C28. For a file whose lines fit into the buffer grep prints exactly the lines that match, in
    order; a last line without newline is not printed. *)
Theorem grep_prints re ls r :
  Forall clean ls -> clean r -> Forall (fun x => (length x < BUFSZ - 1)%nat) ls ->
  grep re [flat ls ++ r] = Some (grep_lines re ls).
Proof.
  intros Hls Hr Hlen. unfold grep. apply (grep_loop_run re _ [] (flat ls ++ r) ls r); try done.
  - constructor.
  - cbn. lia.
  - unfold mjoin. cbn. rewrite app_nil_r. lia.
Qed.
Lemma grep_prints_witness :
  grep (str "^a.*c$") [flat [str "abc"; str "xabc"; str "ac"] ++ str "abc"] =
  Some (grep_lines (str "^a.*c$") [str "abc"; str "xabc"; str "ac"]).
Proof.
  apply (grep_prints (str "^a.*c$") [str "abc"; str "xabc"; str "ac"] (str "abc")).
  - by apply (bool_decide_unpack _).
  - by apply (bool_decide_unpack _).
  - repeat constructor; cbn; lia.
Defined.

(** C36. grep loses the start of a line that arrives in two pieces: when a read ends inside the
    first line of the buffer, its bytes are dropped and only the rest of the line is searched. *)
Theorem grep_drops_piece re a b :
  clean a -> a <> [] -> clean b -> (length a < BUFSZ)%nat -> (length b < BUFSZ - 1)%nat ->
  grep re [a; b ++ [10]] = Some (grep_lines re [b]).
Proof.
  intros Ha Hne Hb Hla Hlb. unfold grep. cbn [length Nat.add].
  rewrite (grep_loop_step re _ [] a [a; b ++ [10]] [b ++ [10]] [] a); [..|constructor|done]; try done.
  - rewrite decide_True by done. change (grep_lines re []) with (@nil Z).
    rewrite (grep_loop_run re _ [] (b ++ [10]) [b] []); try done; try (by repeat constructor).
    + by rewrite flat_cons, app_nil_r.
    + by constructor.
    + unfold mjoin. cbn. rewrite !length_app. destruct a; [done|]. cbn. lia.
  - unfold read. rewrite decide_True; [done|]. cbn [length]. unfold BUFSZ in *. lia.
Qed.
Lemma grep_drops_piece_witness :
  grep (str "^b") [str "a"; str "b" ++ [10]] = Some (grep_lines (str "^b") [str "b"]).
Proof.
  apply (grep_drops_piece (str "^b") (str "a") (str "b")).
  - by apply (bool_decide_unpack _).
  - done.
  - by apply (bool_decide_unpack _).
  - cbn. unfold BUFSZ. lia.
  - cbn. unfold BUFSZ. lia.
Defined.
