(* ===== verification/PropBoot.v ===== *)
(** * Properties of the boot loader and of the multiprocessor tables *)

From stdpp Require Import base list gmap strings fin_maps sorting.
From S2P Require Import Prelude State Monad Console Kalloc Str Exec Mp Bootmain.
Open Scope Z_scope.

(** ** The boot loader *)

(** A kernel file: the ELF header, one program header at 52 and, from offset 84 on, a segment of
    four bytes that takes eight in memory from 1MB on; the entry point is 0x100002. *)
Definition le32 (z : Z) : list Z := (fun i => u8 (Z.shiftr z (8 * i))) <$> [0; 1; 2; 3].

Definition ex_kernel : list Z :=
  le32 ELF_MAGIC ++ replicate 20 0 ++ le32 0x100002 ++ le32 52 ++ replicate 12 0 ++ [1; 0] ++ replicate 6 0 ++
  le32 1 ++ le32 84 ++ le32 0x80100000 ++ le32 0x100000 ++ le32 4 ++ le32 8 ++ le32 5 ++ le32 4096 ++
  [0xFA; 0xF4; 0xEB; 0xFD].

Definition ex_disk (n : Z) : list Z :=
  if n =? 1 then ex_kernel ++ replicate (512 - length ex_kernel) 0 else replicate 512 0.

Lemma ex_disk_length n : length (ex_disk n) = 512%nat.
Proof. unfold ex_disk. by destruct (n =? 1). Qed.

Definition ex_seg : seg := mkSeg 84 0x100000 4 8.

Lemma ex_segs : file_segs ex_disk (Z.to_nat (fshort ex_disk 44)) (fword ex_disk 28) = [ex_seg].
Proof. by vm_compute. Qed.

(** C13. The boot loader loads the kernel.  Take a disk whose file from sector 1 on has the ELF
    magic number, its program headers inside the first 4096 bytes, and segments above the scratch
    page in increasing order, so that the sectors of one never reach back into the one before.
    Then bootmain calls the entry point of the header with every byte of every segment in memory
    where its program header asks for it, and with zeros from the end of a segment's bytes to the
    end of its memory, although whole sectors are copied and the headers are read while the
    segments are loaded. *)
Theorem bootmain_loads {T : Type} `{!ByteMem T} (disk : Z -> list Z) (t : T) :
  (forall n, length (disk n) = 512%nat) ->
  fword disk 0 = ELF_MAGIC -> fword disk 28 + 32 * fshort disk 44 <= 4096 ->
  Forall seg_ok (file_segs disk (Z.to_nat (fshort disk 44)) (fword disk 28)) ->
  StronglySorted before (file_segs disk (Z.to_nat (fshort disk 44)) (fword disk 28)) ->
  exists t', bootmain disk t = Some (fword disk 24, t') /\
    forall s, s ∈ file_segs disk (Z.to_nat (fshort disk 44)) (fword disk 28) ->
      (forall i, 0 <= i < s_filesz s -> ldb t' (s_paddr s + i) = kbyte disk (s_off s + i)) /\
      (forall i, s_filesz s <= i < s_memsz s -> ldb t' (s_paddr s + i) = 0).
Proof.
  intros Hdisk Hmagic Hfit Hok Hsorted.
  destruct (bootmain_spec disk Hdisk t Hmagic Hfit Hok Hsorted) as (t' & Hb & Hl).
  exists t'. split; [done|]. intros s Hs. rewrite Forall_forall in Hl. exact (Hl s Hs).
Qed.
Lemma bootmain_loads_witness :
  exists t', bootmain ex_disk (∅ : gmap Z Z) = Some (0x100002, t') /\
    ldb t' 0x100001 = 0xF4 /\ ldb t' 0x100004 = 0.
Proof.
  destruct (bootmain_loads ex_disk (∅ : gmap Z Z)) as (t' & Hb & Hl).
  - exact ex_disk_length.
  - by vm_compute.
  - by vm_compute.
  - rewrite ex_segs. repeat constructor; by vm_compute.
  - rewrite ex_segs. repeat constructor.
  - exists t'. split; [exact Hb|]. rewrite ex_segs in Hl.
    destruct (Hl ex_seg) as [Hf Hz]; [by constructor|].
    split; [|apply (Hz 4); cbn; lia].
    transitivity (kbyte ex_disk (84 + 1)); [apply (Hf 1); cbn; lia|by vm_compute].
Defined.

(** ** The multiprocessor tables *)

(** A machine whose BIOS data area puts the extended one at 0x9FC00, with the floating structure
    there and the configuration table at 0x9FD00: two processors and an I/O APIC, then the entries
    [rest]; [sum1] and [sum2] make the check sums right. *)
Definition put_bytes (m : gmap Z Z) (pa : Z) (l : list Z) : gmap Z Z := store_bytes m (P2V pa) l.

Definition ex_mpconf (rest : list Z) (sum2 : Z) : list Z :=
  str "PCMP" ++ le32 (44 + 20 + 20 + 8 + Z.of_nat (length rest) + 0x40000 + sum2 * 2 ^ 24) ++
  replicate 28 0 ++ le32 0xFEE00000 ++ replicate 4 0 ++
  ([0; 0] ++ replicate 18 0) ++ ([0; 1] ++ replicate 18 0) ++ [2; 2; 0; 0; 0; 0; 0; 0] ++ rest.

Definition ex_machine (rest : list Z) (sum1 sum2 : Z) : gmap Z Z :=
  let m := put_bytes ∅ 0x40E [0xC0; 0x9F] in
  let m := put_bytes m 0x9FC00 (str "_MP_" ++ le32 0x9FD00 ++ [1; 4; sum1] ++ replicate 5 0) in
  put_bytes m 0x9FD00 (ex_mpconf rest sum2).

(** C27. mpinit walks the configuration table.  When the tables are found and the entries [xs]
    fill the configuration table, mpinit records the APIC ids of the first NCPU processors, in
    order, the id of the last I/O APIC and the address of the local one.  When the table goes on
    with an entry of a type that the code does not know, the default case clears ismp but does
    not move the pointer: no number of turns ends the loop, and the panic that ismp is meant to
    cause is never reached. *)
Theorem mpinit_walks {T : Type} `{!ByteMem T} (t : T) mp conf xs q (e := conf + Mp.short_at t (conf + 4)) :
  mpconfig t = Some (mp, conf) -> entries_at t (conf + sizeof_mpconf) xs q ->
  (q = e ->
   exists i, mpinit t = MpDone i (negb (Mp.byte_at t (mp + 12) =? 0)) /\
     apicids i = take (Z.to_nat NCPU) (procs_of xs) /\ ncpu i = Z.of_nat (length (apicids i)) /\
     ioapicid i = default 0 (last (ioapics_of xs)) /\ lapic i = Mp.word_at t (conf + 36)) /\
  (q < e -> Mp.byte_at t q ∉ [MPPROC; MPBUS; MPIOAPIC; MPIOINTR; MPLINTR] ->
   mpinit t = MpLoops /\ forall n i, entries_loop t n (conf + sizeof_mpconf) e i = None).
Proof.
  intros Hc He. split.
  - intros ->. eexists. split; [by apply mpinit_table|done].
  - intros Hq Hty. by eapply mpinit_unknown.
Qed.
Lemma mpinit_walks_witness :
  (exists i, mpinit (ex_machine [] 154 141) = MpDone i false /\ apicids i = [0; 1] /\ ioapicid i = 2) /\
  mpinit (ex_machine [9; 0; 0; 0; 0; 0; 0; 0] 154 124) = MpLoops.
Proof.
  pose (xs := [EProc 0; EProc 1; EIoapic 2]). split.
  - destruct (mpinit_walks (ex_machine [] 154 141) (P2V 0x9FC00) (P2V 0x9FD00) xs (P2V 0x9FD00 + 92))
      as [H _]; [by vm_compute|by vm_compute|].
    destruct H as (i & Hi & Hids & _ & Hio & _); [by vm_compute|].
    exists i. split; [rewrite Hi; by vm_compute|]. split; [rewrite Hids|rewrite Hio]; by vm_compute.
  - destruct (mpinit_walks (ex_machine [9; 0; 0; 0; 0; 0; 0; 0] 154 124) (P2V 0x9FC00) (P2V 0x9FD00) xs
                (P2V 0x9FD00 + 92)) as [_ H]; [by vm_compute|by vm_compute|].
    apply H; [by vm_compute|]. replace (Mp.byte_at _ _) with 9 by (by vm_compute).
    by apply (bool_decide_unpack _).
Defined.
