(* ===== verification/Programs.v ===== *)
(** * The user programs

    A program is an interaction tree over the system calls: what it does between two calls, and
    what it does next for each answer; a program that loops for ever is such a tree too.  The
    arguments are argv, the name of the program first.  [Undefined] is the behaviour of a program
    that uses an argument it was not given.  usertests.c and testblock.c only exercise the kernel
    and are not here; add.c calls a function that exists nowhere. *)

From stdpp Require Import base list gmap strings fin_maps.
From S2P Require Import Prelude State Monad Console Inode Ulib Grep Sysfile.
From ITree Require Import Core.ITreeDefinition.
Open Scope Z_scope.

(** ** System calls *)

Record ustat := mkUstat { st_type : Z; st_dev : Z; st_ino : Z; st_nlink : Z; st_size : Z }.

Universe answer call.
Constraint answer < call.

(** The calls with the type of their answer; exec answers only when it fails, exit never does.
    read answers with the bytes, pipe with the descriptors, None for -1. *)
Inductive sysE : Type@{answer} -> Type@{call} :=
| Exit : sysE Empty_set
| Undefined : sysE Empty_set
| Read (fd : Z) (n : nat) : sysE (option (list Z))
| Write (fd : Z) (bytes : list Z) : sysE Z
| Open (path : list Z) (mode : Z) : sysE Z
| Close (fd : Z) : sysE Z
| Fstat (fd : Z) : sysE (option ustat)
| Dup (fd : Z) : sysE Z
| PipeFds : sysE (option (Z * Z))
| Chdir (path : list Z) : sysE Z
| Mknod (path : list Z) (major minor : Z) : sysE Z
| Link (old new : list Z) : sysE Z
| Unlink (path : list Z) : sysE Z
| Mkdir (path : list Z) : sysE Z
| Fork : sysE Z
| Wait : sysE Z
| Exec (path : list Z) (argv : list (list Z)) : sysE Z
| Kill (pid : Z) : sysE Z
| Getpid : sysE Z
| Sbrk (n : Z) : sysE Z
| Sleep (n : Z) : sysE Z
| Uptime : sysE Z
| Halt : sysE Z
| Toggle : sysE Z
| PrintCount : sysE Z
| Ps : sysE Z
| Send (from to : Z) (msg : list Z) : sysE Z
| Recv (msg : list Z) : sysE Z
| SendMulti (from : Z) (to : list Z) (msg : list Z) (len : Z) : sysE Z
| Store (a b : Z) : sysE Z
| SleepCustom (a : Z) : sysE Z
| WakeupCustom (a : Z) : sysE Z
| ReadMean : sysE (list Z)
| CreateContainer : sysE Z
| DestroyContainer (id : Z) : sysE Z
| JoinContainer (id : Z) : sysE Z
| LeaveContainer : sysE Z
| ContainerMalloc (n : Z) : sysE Z.

Declare Scope prog_scope.
Delimit Scope prog_scope with prog.
Notation "'do' x <- t ; k" := (ITree.bind t (fun x => k))
  (at level 200, x name, t at level 100, k at level 200, right associativity) : prog_scope.
Local Open Scope prog_scope.

Definition sys {X : Type} (e : sysE X) : itree sysE X := ITree.trigger e.

(** exit() does not return: it can stand where any result is expected. *)
Definition exit {R : Type} : itree sysE R := Vis Exit (fun x : Empty_set => match x with end).
Definition undefined {R : Type} : itree sysE R := Vis Undefined (fun x : Empty_set => match x with end).

(** putc writes one character at a time. *)
Fixpoint putcs (fd : Z) (l : list Z) : itree sysE unit :=
  match l with
  | [] => Ret tt
  | c :: l => do _ <- sys (Write fd [c]); putcs fd l
  end.

Definition print (fd : Z) (fmt : string) (ap : list arg) : itree sysE unit :=
  match printf fmt ap with Some t => putcs fd t | None => undefined end.

(** argv[i] *)
Definition arg (argv : list (list Z)) (i : nat) : itree sysE (list Z) :=
  match argv !! i with Some s => Ret s | None => undefined end.

Fixpoint each (f : list Z -> itree sysE unit) (l : list (list Z)) : itree sysE unit :=
  match l with [] => Ret tt | s :: l => do _ <- f s; each f l end.

(** ** cat, wc, echo *)

Definition cat (fd : Z) : itree sysE unit :=
  ITree.iter (fun _ =>
    do r <- sys (Read fd 512);
    match r with
    | None => do _ <- print 1 "cat: read error
" []; exit
    | Some [] => Ret (inr tt)
    | Some buf =>
        do w <- sys (Write 1 buf);
        if negb (w =? Z.of_nat (length buf)) then do _ <- print 1 "cat: write error
" []; exit
        else Ret (inl tt)
    end) tt.

Definition cat_file (name : list Z) : itree sysE unit :=
  do fd <- sys (Open name 0);
  if fd <? 0 then do _ <- print 1 "cat: cannot open %s
" [AStr name]; exit
  else do _ <- cat fd; do _ <- sys (Close fd); Ret tt.

Definition cat_main (argv : list (list Z)) : itree sysE Empty_set :=
  if Z.of_nat (length argv) <=? 1 then do _ <- cat 0; exit
  else do _ <- each cat_file (tail argv); exit.

Record counts := mkCounts { wl : Z; ww : Z; wchars : Z; inword : bool }.

Definition wc_char (s : counts) (c : Z) : counts :=
  let l := if c =? 10 then s32 (wl s + 1) else wl s in
  if bool_decide (strchr [32; 13; 9; 10; 11] c <> None) then mkCounts l (ww s) (s32 (wchars s + 1)) false
  else mkCounts l (if inword s then ww s else s32 (ww s + 1)) (s32 (wchars s + 1)) true.

Definition wc (fd : Z) (name : list Z) : itree sysE unit :=
  do s <- ITree.iter (fun s =>
    do r <- sys (Read fd 512);
    match r with
    | None => do _ <- print 1 "wc: read error
" []; exit
    | Some [] => Ret (inr s)
    | Some buf => Ret (inl (foldl wc_char s buf))
    end) (mkCounts 0 0 0 false);
  print 1 "%d %d %d %s
" [AInt (wl s); AInt (ww s); AInt (wchars s); AStr name].

Definition wc_file (name : list Z) : itree sysE unit :=
  do fd <- sys (Open name 0);
  if fd <? 0 then do _ <- print 1 "wc: cannot open %s
" [AStr name]; exit
  else do _ <- wc fd name; do _ <- sys (Close fd); Ret tt.

Definition wc_main (argv : list (list Z)) : itree sysE Empty_set :=
  if Z.of_nat (length argv) <=? 1 then do _ <- wc 0 []; exit
  else do _ <- each wc_file (tail argv); exit.

Fixpoint echo_loop (l : list (list Z)) : itree sysE unit :=
  match l with
  | [] => Ret tt
  | s :: l =>
      do _ <- print 1 "%s%s" [AStr s; AStr (if bool_decide (l = []) then [10] else [32])]; echo_loop l
  end.

Definition echo_main (argv : list (list Z)) : itree sysE Empty_set := do _ <- echo_loop (tail argv); exit.

(** ** grep *)

(** The loop of [Grep.grep_loop] with its calls; [left] are the bytes kept at the start of the
    buffer.  The matching lines of one turn are written together. *)
Definition grep_turn (pattern : list Z) (fd : Z) (left : list Z) : itree sysE (list Z + unit) :=
  do r <- sys (Read fd (BUFSZ - length left - 1));
  match r with
  | None | Some [] => Ret (inr tt)
  | Some chunk =>
      let data := left ++ chunk in
      let '(out, p) := lines_loop (length data) pattern data 0 in
      do _ <- sys (Write 1 out);
      Ret (inl (if (p =? 0)%nat then [] else drop p data))
  end.

Definition grep_fd (pattern : list Z) (fd : Z) : itree sysE unit := ITree.iter (grep_turn pattern fd) [].

Definition grep_file (pattern name : list Z) : itree sysE unit :=
  do fd <- sys (Open name 0);
  if fd <? 0 then do _ <- print 1 "grep: cannot open %s
" [AStr name]; exit
  else do _ <- grep_fd pattern fd; do _ <- sys (Close fd); Ret tt.

Definition grep_main (argv : list (list Z)) : itree sysE Empty_set :=
  match argv with
  | [] | [_] => do _ <- print 2 "usage: grep pattern [file ...]
" []; exit
  | [_; pattern] => do _ <- grep_fd pattern 0; exit
  | _ :: pattern :: names => do _ <- each (grep_file pattern) names; exit
  end.

(** ** kill, ln, mkdir, rm, zombie *)

Definition kill_main (argv : list (list Z)) : itree sysE Empty_set :=
  if Z.of_nat (length argv) <? 2 then do _ <- print 2 "usage: kill pid...
" []; exit
  else do _ <- each (fun s => do _ <- sys (Kill (atoi s)); Ret tt) (tail argv); exit.

Definition ln_main (argv : list (list Z)) : itree sysE Empty_set :=
  match argv with
  | [_; old; new] =>
      do r <- sys (Link old new);
      if r <? 0 then do _ <- print 2 "link %s %s: failed
" [AStr old; AStr new]; exit else exit
  | _ => do _ <- print 2 "Usage: ln old new
" []; exit
  end.

Fixpoint mkdir_loop (l : list (list Z)) : itree sysE unit :=
  match l with
  | [] => Ret tt
  | s :: l =>
      do r <- sys (Mkdir s);
      if r <? 0 then print 2 "mkdir: %s failed to create
" [AStr s] else mkdir_loop l
  end.

Definition mkdir_main (argv : list (list Z)) : itree sysE Empty_set :=
  if Z.of_nat (length argv) <? 2 then do _ <- print 2 "Usage: mkdir files...
" []; exit
  else do _ <- mkdir_loop (tail argv); exit.

Fixpoint rm_loop (l : list (list Z)) : itree sysE unit :=
  match l with
  | [] => Ret tt
  | s :: l =>
      do r <- sys (Unlink s);
      if r <? 0 then print 2 "rm: %s failed to delete
" [AStr s] else rm_loop l
  end.

Definition rm_main (argv : list (list Z)) : itree sysE Empty_set :=
  if Z.of_nat (length argv) <? 2 then do _ <- print 2 "Usage: rm files...
" []; exit
  else do _ <- rm_loop (tail argv); exit.

Definition zombie_main : itree sysE Empty_set :=
  do r <- sys Fork;
  if 0 <? r then do _ <- sys (Sleep 5); exit else exit.

(** ** ls *)

(** What follows the last slash of [path]. *)
Fixpoint base (path : list Z) : list Z :=
  match path with
  | [] => []
  | c :: p => if (c =? 47) || bool_decide (47 ∈ p) then base p else path
  end.

(** The name, filled with blanks to DIRSIZ characters when it is shorter. *)
Definition fmtname (path : list Z) : list Z :=
  let p := base path in
  if DIRSIZ <=? Z.of_nat (length p) then p
  else p ++ replicate (Z.to_nat DIRSIZ - length p) 32.

(** stat(), from ulib.c *)
Definition stat (path : list Z) : itree sysE (option ustat) :=
  do fd <- sys (Open path O_RDONLY);
  if fd <? 0 then Ret None
  else do r <- sys (Fstat fd); do _ <- sys (Close fd); Ret r.

Definition ls_line (name : list Z) (st : ustat) : itree sysE unit :=
  print 1 "%s %d %d %d
" [AStr (fmtname name); AInt (st_type st); AInt (st_ino st); AInt (st_size st)].

(** One turn of the loop over the entries [de] of the directory [path]. *)
Definition ls_entry (path de : list Z) : itree sysE unit :=
  if nthz 0 de 0 + 256 * nthz 0 de 1 =? 0 then Ret tt
  else
    let buf := path ++ [47] ++ chars (take (Z.to_nat DIRSIZ) (drop 2 de)) in
    do st <- stat buf;
    match st with
    | None => print 1 "ls: cannot stat %s
" [AStr buf]
    | Some st => ls_line buf st
    end.

Definition ls (path : list Z) : itree sysE unit :=
  do fd <- sys (Open path 0);
  if fd <? 0 then print 2 "ls: cannot open %s
" [AStr path]
  else
    do r <- sys (Fstat fd);
    match r with
    | None => do _ <- print 2 "ls: cannot stat %s
" [AStr path]; do _ <- sys (Close fd); Ret tt
    | Some st =>
        do _ <- (if st_type st =? T_FILE then ls_line path st
                 else if st_type st =? T_DIR then
                   if 512 <? Z.of_nat (length path) + 1 + DIRSIZ + 1 then print 1 "ls: path too long
" []
                   else ITree.iter (fun _ =>
                     do r <- sys (Read fd 16);
                     match r with
                     | Some de => if bool_decide (length de = 16%nat) then do _ <- ls_entry path de; Ret (inl tt)
                                  else Ret (inr tt)
                     | None => Ret (inr tt)
                     end) tt
                 else Ret tt);
        do _ <- sys (Close fd); Ret tt
    end.

Definition ls_main (argv : list (list Z)) : itree sysE Empty_set :=
  if Z.of_nat (length argv) <? 2 then do _ <- ls [46]; exit
  else do _ <- each ls (tail argv); exit.

(** ** init *)

(** while((wpid=wait()) >= 0 && wpid != pid) printf(1, "zombie!\n"); *)
Definition reap (pid : Z) : itree sysE unit :=
  ITree.iter (fun _ =>
    do wpid <- sys Wait;
    if (0 <=? wpid) && negb (wpid =? pid) then do _ <- print 1 "zombie!
" []; Ret (inl tt)
    else Ret (inr tt)) tt.

(** for(;;) *)
Definition init_loop : itree sysE Empty_set :=
  ITree.iter (fun _ =>
    do _ <- print 1 "init: starting sh
" [];
    do pid <- sys Fork;
    if pid <? 0 then do _ <- print 1 "init: fork failed
" []; exit
    else if pid =? 0 then
      do _ <- sys (Exec (str "sh") [str "sh"]);
      do _ <- print 1 "init: exec sh failed
" []; exit
    else do _ <- reap pid; Ret (inl tt)) tt.

Definition init_main : itree sysE Empty_set :=
  do fd <- sys (Open (str "console") O_RDWR);
  do _ <- (if fd <? 0 then do _ <- sys (Mknod (str "console") 1 1);
                           do _ <- sys (Open (str "console") O_RDWR); Ret tt
           else Ret tt);
  do _ <- sys (Dup 0);
  do _ <- sys (Dup 0);
  init_loop.

(** ** The programs of the added system calls *)

Definition create_container_main : itree sysE Empty_set := do _ <- sys CreateContainer; exit.

Definition destroy_container_main (argv : list (list Z)) : itree sysE Empty_set :=
  do a <- arg argv 1; do _ <- sys (DestroyContainer (atoi a)); exit.

Definition join_container_main (argv : list (list Z)) : itree sysE Empty_set :=
  do a <- arg argv 1;
  do _ <- sys (JoinContainer (atoi a));
  do _ <- sys Ps;
  do _ <- print 1 "done
" [];
  exit.

Definition leave_container_main : itree sysE Empty_set := do _ <- sys LeaveContainer; exit.

Definition container_malloc_main : itree sysE Empty_set :=
  do b <- sys (ContainerMalloc 1);
  do _ <- print 1 "pointer is: %d and error: %d
" [AInt b; AInt 0];
  exit.

Definition print_count_main : itree sysE Empty_set := do _ <- sys PrintCount; exit.
Definition ps_main : itree sysE Empty_set := do _ <- sys Ps; exit.
Definition shutdown_main : itree sysE Empty_set := do _ <- sys Halt; exit.
Definition toggle_main : itree sysE Empty_set := do _ <- sys Toggle; exit.

(** The block of malloc is dropped: the messages are the string literals. *)
Definition recv_main : itree sysE Empty_set := do _ <- sys (Recv (str "R")); exit.

Definition send_main (argv : list (list Z)) : itree sysE Empty_set :=
  do a <- arg argv 1; do b <- arg argv 2; do _ <- sys (Send (atoi a) (atoi b) (str "S")); exit.

Definition send_multi_main (argv : list (list Z)) : itree sysE Empty_set :=
  do r0 <- arg argv 2; do r1 <- arg argv 3; do a <- arg argv 1;
  do _ <- sys (SendMulti (atoi a) [atoi r0; atoi r1] (str "S") 2); exit.

(** ** forktest *)

Definition fork_tests : nat := 1000.

(** [todo] turns are left of the first loop; [n] children run. *)
Fixpoint fork_loop (todo n : nat) : itree sysE nat :=
  match todo with
  | O => Ret n
  | S todo =>
      do pid <- sys Fork;
      if pid <? 0 then Ret n else if pid =? 0 then exit else fork_loop todo (S n)
  end.

Fixpoint wait_all (n : nat) : itree sysE unit :=
  match n with
  | O => Ret tt
  | S n =>
      do r <- sys Wait;
      if r <? 0 then do _ <- sys (Write 1 (str "wait stopped early
")); exit else wait_all n
  end.

Definition forktest : itree sysE unit :=
  do _ <- sys (Write 1 (str "fork test
"));
  do n <- fork_loop fork_tests 0;
  if bool_decide (n = fork_tests) then do _ <- sys (Write 1 (str "fork claimed to work N times!
")); exit
  else
    do _ <- wait_all n;
    do r <- sys Wait;
    if negb (r =? -1) then do _ <- sys (Write 1 (str "wait got too many
")); exit
    else do _ <- sys (Write 1 (str "fork test OK
")); Ret tt.

Definition forktest_main : itree sysE Empty_set := do _ <- forktest; exit.

(** ** stressfs *)

(** for(i = 0; i < 4; i++) if(fork() > 0) break; *)
Fixpoint stress_forks (todo : nat) (i : Z) : itree sysE Z :=
  match todo with
  | O => Ret i
  | S todo => do r <- sys Fork; if 0 <? r then Ret i else stress_forks todo (i + 1)
  end.

Fixpoint repeat_call {X : Type} (n : nat) (e : sysE X) : itree sysE unit :=
  match n with O => Ret tt | S n => do _ <- sys e; repeat_call n e end.

Definition stressfs_main : itree sysE Empty_set :=
  do _ <- print 1 "stressfs starting
" [];
  do i <- stress_forks 4 0;
  do _ <- print 1 "write %d
" [AInt i];
  let path := str "stressfs" ++ [48 + i] in
  do fd <- sys (Open path (Z.lor O_CREATE O_RDWR));
  do _ <- repeat_call 20 (Write fd (replicate 512 97));
  do _ <- sys (Close fd);
  do _ <- print 1 "read
" [];
  do fd <- sys (Open path O_RDONLY);
  do _ <- repeat_call 20 (Read fd 512);
  do _ <- sys (Close fd);
  do _ <- sys Wait;
  exit.
