(* ===== verification/ProgramsProofs.v ===== *)
(** * What the user programs do

    A program runs against a kernel, given by its answers to the system calls.  [run] executes a
    tree for a number of steps; [runs] says that some number is enough, so it includes termination.
    The kernel of the theorems has files, open files and the two output descriptors. *)

From stdpp Require Import base list gmap strings fin_maps.
From S2P Require Import Prelude State Monad Console Inode Ulib Grep Sysfile Programs.
From ITree Require Import Core.ITreeDefinition.
Open Scope Z_scope.

Inductive ending (S R : Type) := Returned (r : R) (s : S) | Exited (s : S).
Arguments Returned {S R}.
Arguments Exited {S R}.

Section run.
Context {S : Type} (h : forall X, sysE X -> S -> option (X * S)).

(** An answer None means that the process is gone. *)
Fixpoint run {R : Type} (n : nat) (t : itree sysE R) (s : S) : option (ending S R) :=
  match n with
  | O => None
  | Datatypes.S n =>
      match observe t with
      | RetF r => Some (Returned r s)
      | TauF t => run n t s
      | VisF e k => match h _ e s with Some (x, s) => run n (k x) s | None => Some (Exited s) end
      end
  end.

Definition runs {R : Type} (t : itree sysE R) (s : S) (o : ending S R) : Prop := exists n, run n t s = Some o.

Lemma run_mono {R} n m (t : itree sysE R) s o : run n t s = Some o -> (n <= m)%nat -> run m t s = Some o.
Proof.
  revert m t s. induction n as [|n IH]; intros m t s; [done|]. destruct m as [|m]; [lia|]. cbn. intros H Hle.
  destruct (observe t) as [r|t'|X e k]; [done|apply IH; [done|lia]|].
  destruct (h X e s) as [[x s']|]; [apply IH; [done|lia]|done].
Qed.

Lemma runs_det {R} (t : itree sysE R) s o o' : runs t s o -> runs t s o' -> o = o'.
Proof.
  intros [n Hn] [m Hm]. apply (run_mono _ (n + m)) in Hn, Hm; try lia. congruence.
Qed.

Lemma runs_ret {R} (r : R) s : runs (Ret r) s (Returned r s).
Proof. by exists 1%nat. Qed.

Lemma runs_tau {R} (t : itree sysE R) s o : runs t s o -> runs (Tau t) s o.
Proof. intros [n H]. by exists (Datatypes.S n). Qed.

Lemma runs_vis {R X} (e : sysE X) (k : X -> itree sysE R) s x s' o :
  h X e s = Some (x, s') -> runs (k x) s' o -> runs (Vis e k) s o.
Proof. intros He [n H]. exists (Datatypes.S n). cbn. by rewrite He. Qed.

Lemma runs_gone {R X} (e : sysE X) (k : X -> itree sysE R) s : h X e s = None -> runs (Vis e k) s (Exited s).
Proof. intros He. exists 1%nat. cbn. by rewrite He. Qed.

(** What a sequence does. *)
Definition continue {R Q} (o : ending S R) (k : R -> itree sysE Q) (o' : ending S Q) : Prop :=
  match o with
  | Returned r s => runs (k r) s o'
  | Exited s => o' = Exited s
  end.

Lemma runs_bind {R Q} (t : itree sysE R) (k : R -> itree sysE Q) s o o' :
  runs t s o -> continue o k o' -> runs (ITree.bind t k) s o'.
Proof.
  intros [n Hn]. revert t s Hn. induction n as [|n IH]; intros t s Hn Hc; [done|]. cbn in Hn.
  assert (observe (ITree.bind t k) = observe (match observe t with
    | RetF r => k r | TauF t => Tau (ITree.bind t k) | VisF e f => Vis e (fun x => ITree.bind (f x) k) end)) as E by done.
  destruct (observe t) as [r|t'|X e f].
  - injection Hn as <-. destruct Hc as [m Hm]. exists m. destruct m; [done|]. cbn in *. by rewrite E.
  - destruct (IH _ _ Hn Hc) as [m Hm]. exists (Datatypes.S m). cbn. by rewrite E.
  - destruct (h X e s) as [[x s']|] eqn:He.
    + destruct (IH _ _ Hn Hc) as [m Hm]. exists (Datatypes.S m). cbn. rewrite E. cbn. by rewrite He.
    + injection Hn as <-. cbn in Hc. subst o'. exists 1%nat. cbn. rewrite E. cbn. by rewrite He.
Qed.

Lemma runs_sys {X Q} (e : sysE X) (k : X -> itree sysE Q) s x s' o :
  h X e s = Some (x, s') -> runs (k x) s' o -> runs (ITree.bind (sys e) k) s o.
Proof.
  intros He Hk. eapply (runs_bind _ _ _ (Returned x s')); [|exact Hk]. eapply runs_vis; [exact He|]. apply runs_ret.
Qed.

Lemma runs_iter_more {I R} (f : I -> itree sysE (I + R)) i s i' s' o :
  runs (f i) s (Returned (inl i') s') -> runs (ITree.iter f i') s' o -> runs (ITree.iter f i) s o.
Proof.
  intros Hf [n Hn].
  destruct (runs_bind (f i) (fun lr => match lr with inl l => Tau (ITree.iter f l) | inr r => Ret r end) s
    _ o Hf) as [m Hm]; [cbn; by apply runs_tau; exists n|].
  exists m. destruct m; [done|]. exact Hm.
Qed.

Lemma runs_iter_done {I R} (f : I -> itree sysE (I + R)) i s r s' :
  runs (f i) s (Returned (inr r) s') -> runs (ITree.iter f i) s (Returned r s').
Proof.
  intros Hf.
  destruct (runs_bind (f i) (fun lr => match lr with inl l => Tau (ITree.iter f l) | inr r => Ret r end) s
    _ (Returned r s') Hf) as [m Hm]; [cbn; apply runs_ret|].
  exists m. destruct m; [done|]. exact Hm.
Qed.

End run.

(** ** A kernel *)

(** The contents of a file is the sequence of pieces that read can return at most. *)
Record kst := mkKst { kfiles : gmap (list Z) (list (list Z)); kfds : gmap Z (list (list Z)); kout : list Z; kerr : list Z }.
#[export] Instance eta_kst : Eta kst := fun s => mkKst (kfiles s) (kfds s) (kout s) (kerr s).

Definition free_fd (s : kst) : option Z := head (filter (fun fd => kfds s !! fd = None) (seqZ 0 16)).

Definition emit (fd : Z) (b : list Z) (s : kst) : kst :=
  if fd =? 1 then mkKst (kfiles s) (kfds s) (kout s ++ b) (kerr s)
  else mkKst (kfiles s) (kfds s) (kout s) (kerr s ++ b).

(** The other calls fail. *)
Definition kernel (X : Type) (e : sysE X) (s : kst) : option (X * kst) :=
  match e in sysE X return option (X * kst) with
  | Exit | Undefined => None
  | Read fd n =>
      match kfds s !! fd with
      | Some inp => let '(b, inp) := read n inp in Some (Some b, s <| kfds ::= <[fd := inp]> |>)
      | None => Some (None, s)
      end
  | Write fd b =>
      if (fd =? 1) || (fd =? 2) then Some (Z.of_nat (length b), emit fd b s) else Some (-1, s)
  | Open path _ =>
      match kfiles s !! path, free_fd s with
      | Some inp, Some fd => Some (fd, s <| kfds ::= <[fd := inp]> |>)
      | _, _ => Some (-1, s)
      end
  | Close fd => Some (if decide (kfds s !! fd = None) then -1 else 0, s <| kfds ::= delete fd |>)
  | Unlink path =>
      match kfiles s !! path with
      | Some _ => Some (0, s <| kfiles ::= delete path |>)
      | None => Some (-1, s)
      end
  | Mkdir path =>
      match kfiles s !! path with
      | Some _ => Some (-1, s)
      | None => Some (0, s <| kfiles ::= <[path := []]> |>)
      end
  | Fstat _ => Some (None, s)
  | PipeFds => Some (None, s)
  | ReadMean => Some ([], s)
  | _ => Some (-1, s)
  end.

(** A file whose pieces are [l]: no piece is empty, since an empty answer of read ends the file. *)
Definition pieces (l : list (list Z)) : Prop := Forall (fun c => c <> []) l.

Lemma read_pieces n inp b inp' :
  (0 < n)%nat -> pieces inp -> read n inp = (b, inp') ->
  pieces inp' /\ concat inp = b ++ concat inp' /\ (b = [] -> inp = []).
Proof.
  intros Hn Hp. unfold read. destruct inp as [|c inp]; [intros [= <- <-]; done|].
  apply Forall_cons in Hp as [Hc Hp]. destruct (decide (length c <= n)%nat) as [Hle|Hgt]; intros [= <- <-].
  - split_and!; [done|done|done].
  - split_and!.
    + apply Forall_cons. split; [|done]. intros E. apply (f_equal length) in E. rewrite length_drop in E. cbn in E. lia.
    + cbn. by rewrite app_assoc, take_drop.
    + intros E. apply (f_equal length) in E. rewrite length_take in E. cbn in E. destruct c; [done|cbn in *; lia].
Qed.

Notation kruns := (runs kernel).

Lemma emit_nil fd s : emit fd [] s = s.
Proof. unfold emit. destruct s. cbn. rewrite !app_nil_r. by destruct (fd =? 1). Qed.

Lemma emit_app fd a b s : emit fd b (emit fd a s) = emit fd (a ++ b) s.
Proof. unfold emit. destruct (fd =? 1); cbn; by rewrite app_assoc. Qed.

Lemma write_runs {R} fd b (k : Z -> itree sysE R) s o :
  fd = 1 \/ fd = 2 -> kruns (k (Z.of_nat (length b))) (emit fd b s) o -> kruns (ITree.bind (sys (Write fd b)) k) s o.
Proof. intros Hfd. eapply runs_sys. by destruct Hfd as [-> | ->]. Qed.

Lemma putcs_runs fd l s : fd = 1 \/ fd = 2 -> kruns (putcs fd l) s (Returned tt (emit fd l s)).
Proof.
  intros Hfd. revert s. induction l as [|c l IH]; intros s; cbn [putcs].
  - rewrite emit_nil. apply runs_ret.
  - apply write_runs; [done|]. change (c :: l) with ([c] ++ l). rewrite <-emit_app. apply IH.
Qed.

Lemma print_runs fd fmt ap l s :
  fd = 1 \/ fd = 2 -> printf fmt ap = Some l -> kruns (print fd fmt ap) s (Returned tt (emit fd l s)).
Proof. intros Hfd Hl. unfold print. rewrite Hl. by apply putcs_runs. Qed.

Lemma exit_runs {R} s : kruns (exit : itree sysE R) s (Exited s).
Proof. by apply runs_gone. Qed.

(** ** cat *)

(** The state after the input of [fd] was read to its end. *)
Definition drained (fd : Z) (s : kst) : kst := mkKst (kfiles s) (<[fd := []]> (kfds s)) (kout s) (kerr s).

Lemma cat_runs fd inp s :
  kfds s !! fd = Some inp -> pieces inp -> kruns (cat fd) s (Returned tt (emit 1 (concat inp) (drained fd s))).
Proof.
  revert inp s. induction inp as [inp IH] using (induction_ltof1 _ (fun l => length (concat l))). unfold ltof in IH.
  intros s Hfd Hp. destruct (read 512 inp) as [b inp'] eqn:Hr.
  destruct (read_pieces 512 inp b inp' ltac:(lia) Hp Hr) as (Hp' & Hcat & Hnil).
  assert (kernel _ (Read fd 512) s = Some (Some b, mkKst (kfiles s) (<[fd := inp']> (kfds s)) (kout s) (kerr s))) as Hk.
  { cbn. by rewrite Hfd, Hr. }
  destruct b as [|c b].
  - rewrite Hnil in * by done. injection Hr as <-. cbn [concat]. rewrite emit_nil.
    apply runs_iter_done. eapply runs_sys; [exact Hk|]. apply runs_ret.
  - eapply runs_iter_more.
    + eapply runs_sys; [exact Hk|]. cbn beta iota. apply write_runs; [by left|].
      rewrite Z.eqb_refl. apply runs_ret.
    + assert (emit 1 (concat inp) (drained fd s) = emit 1 (concat inp') (drained fd
        (emit 1 (c :: b) (mkKst (kfiles s) (<[fd := inp']> (kfds s)) (kout s) (kerr s))))) as ->.
      { rewrite Hcat. unfold emit, drained. cbn. rewrite insert_insert_eq. by rewrite <-app_assoc. }
      apply IH; [rewrite Hcat, length_app; cbn; lia|cbn; apply lookup_insert_eq|done].
Qed.

(** A descriptor is free, and the text names a file with these pieces. *)
Definition opens (s : kst) (name : list Z) (inp : list (list Z)) : Prop :=
  kfiles s !! name = Some inp /\ pieces inp.

Lemma free_fd_spec s fd : free_fd s = Some fd -> 0 <= fd /\ kfds s !! fd = None.
Proof.
  unfold free_fd. intros H%head_Some_elem_of. apply list_elem_of_filter in H as [H Hin].
  apply elem_of_seqZ in Hin. split; [lia|done].
Qed.

Lemma open_runs {R} name inp mode fd s (k : Z -> itree sysE R) o :
  kfiles s !! name = Some inp -> free_fd s = Some fd ->
  kruns (k fd) (mkKst (kfiles s) (<[fd := inp]> (kfds s)) (kout s) (kerr s)) o ->
  kruns (ITree.bind (sys (Open name mode)) k) s o.
Proof. intros Hf Hfree. eapply runs_sys. cbn. by rewrite Hf, Hfree. Qed.

Lemma open_fails {R} name mode s (k : Z -> itree sysE R) o :
  kfiles s !! name = None -> kruns (k (-1)) s o -> kruns (ITree.bind (sys (Open name mode)) k) s o.
Proof. intros Hf. eapply runs_sys. cbn. by rewrite Hf. Qed.

Lemma close_runs {R} fd s (k : Z -> itree sysE R) o z :
  (forall r, kruns (k r) (mkKst (kfiles s) (delete fd (kfds s)) (kout s) (kerr s)) o) -> z = fd ->
  kruns (ITree.bind (sys (Close z)) k) s o.
Proof. intros Hk ->. eapply runs_sys; [done|]. apply Hk. Qed.

Lemma cat_file_runs name inp s :
  opens s name inp -> free_fd s <> None -> kruns (cat_file name) s (Returned tt (emit 1 (concat inp) s)).
Proof.
  intros [Hf Hp] Hfree. destruct (free_fd s) as [fd|] eqn:Hfd; [|done]. destruct (free_fd_spec _ _ Hfd) as [Hpos Hnone].
  eapply open_runs; [done..|]. replace (fd <? 0) with false by lia.
  eapply runs_bind; [apply cat_runs; [apply lookup_insert_eq|done]|]. cbn [continue].
  eapply close_runs; [|done]. intros _. unfold emit, drained. cbn.
  rewrite insert_insert_eq, delete_insert_id by done. apply runs_ret.
Qed.

Lemma each_runs f (out : list Z -> list Z) names rest s o :
  (forall s', kfiles s' = kfiles s -> kfds s' = kfds s ->
     Forall (fun n => kruns (f n) s' (Returned tt (emit 1 (out n) s'))) names) ->
  kruns (each f rest) (emit 1 (concat (out <$> names)) s) o -> kruns (each f (names ++ rest)) s o.
Proof.
  revert s. induction names as [|n names IH]; intros s Hf Ho; cbn [each fmap list_fmap concat app] in *.
  - by rewrite emit_nil in Ho.
  - pose proof (Hf s eq_refl eq_refl) as H0. apply Forall_cons in H0 as [H0 _].
    eapply runs_bind; [exact H0|]. cbn [continue]. rewrite <-emit_app in Ho. apply IH; [|done].
    intros s' E1 E2. specialize (Hf s' E1 E2). by apply Forall_cons in Hf as [_ Hf].
Qed.

Lemma cat_files names rest (cont : list Z -> list (list Z)) s o :
  Forall (fun n => opens s n (cont n)) names -> free_fd s <> None ->
  kruns (each cat_file rest) (emit 1 (concat ((fun n => concat (cont n)) <$> names)) s) o ->
  kruns (each cat_file (names ++ rest)) s o.
Proof.
  intros Hall Hfree. apply each_runs. intros s' E1 E2. eapply Forall_impl; [exact Hall|]. intros n Hn.
  apply cat_file_runs.
  - unfold opens in *. by rewrite E1.
  - unfold free_fd in *. by rewrite E2.
Qed.

(** cat copies its files to the output, one after the other. *)
Lemma cat_main_runs prog name names (cont : list Z -> list (list Z)) s :
  Forall (fun n => opens s n (cont n)) (name :: names) -> free_fd s <> None ->
  kruns (cat_main (prog :: name :: names)) s
    (Exited (emit 1 (concat ((fun n => concat (cont n)) <$> name :: names)) s)).
Proof.
  intros Hall Hfree. unfold cat_main. destruct (Z.leb_spec (Z.of_nat (length (prog :: name :: names))) 1) as [Hle|_].
  { cbn [length] in Hle. lia. }
  cbn [tail]. rewrite <-(app_nil_r (name :: names)) at 1.
  eapply runs_bind; [apply (cat_files _ [] cont); [done..|apply runs_ret]|apply exit_runs].
Qed.

(** A string without NUL is its characters. *)
Lemma chars_all l : Forall (fun c => c <> 0) l -> chars l = l.
Proof.
  unfold chars. induction l as [|c l IH]; intros H; [done|]. apply Forall_cons in H as [Hc H].
  cbn. destruct (Z.eqb_spec c 0); [done|]. cbn. by rewrite IH.
Qed.

Lemma printf_cannot name :
  Forall (fun c => c <> 0) name ->
  printf "cat: cannot open %s
" [AStr name] = Some (str "cat: cannot open " ++ name ++ [10]).
Proof. intros H. by rewrite <-(chars_all name H) at 2. Qed.

(** A name that cannot be opened ends the run, after the files before it. *)
Lemma cat_missing prog before name after (cont : list Z -> list (list Z)) s :
  Forall (fun n => opens s n (cont n)) before -> free_fd s <> None ->
  kfiles s !! name = None -> Forall (fun c => c <> 0) name ->
  kruns (cat_main (prog :: before ++ name :: after)) s
    (Exited (emit 1 (concat ((fun n => concat (cont n)) <$> before) ++ str "cat: cannot open " ++ name ++ [10]) s)).
Proof.
  intros Hall Hfree Hnone Hname. unfold cat_main.
  destruct (Z.leb_spec (Z.of_nat (length (prog :: before ++ name :: after))) 1) as [Hle|_].
  { cbn [length] in Hle. rewrite length_app in Hle. cbn [length] in Hle. lia. }
  cbn [tail]. eapply (runs_bind _ _ _ _ (Exited _)); [|reflexivity].
  apply (cat_files before (name :: after) cont); [done..|]. cbn [each].
  eapply (runs_bind _ _ _ _ (Exited _)); [|reflexivity].
  apply open_fails; [done|]. cbn [Z.ltb Z.compare].
  eapply runs_bind; [apply print_runs; [by left|by apply printf_cannot]|]. cbn [continue].
  rewrite emit_app. apply exit_runs.
Qed.

(** ** grep *)

(** grep writes what [Grep.grep] computes from the input of the descriptor. *)
Lemma grep_loop_runs n pattern fd : forall left inp out s,
  kfds s !! fd = Some inp -> grep_loop n pattern left inp = Some out ->
  exists inp', kruns (ITree.iter (grep_turn pattern fd) left) s
    (Returned tt (emit 1 out (mkKst (kfiles s) (<[fd := inp']> (kfds s)) (kout s) (kerr s)))).
Proof.
  induction n as [|n IH]; intros left inp out s Hfd Hg; [done|]. cbn [grep_loop] in Hg.
  destruct (read (BUFSZ - length left - 1) inp) as [chunk inp'] eqn:Hr.
  set (s1 := mkKst (kfiles s) (<[fd := inp']> (kfds s)) (kout s) (kerr s)).
  assert (kernel _ (Read fd (BUFSZ - length left - 1)) s = Some (Some chunk, s1)) as Hk.
  { cbn [kernel]. by rewrite Hfd, Hr. }
  destruct chunk as [|c chunk].
  - injection Hg as <-. exists inp'. rewrite emit_nil. apply runs_iter_done. eapply runs_sys; [exact Hk|]. apply runs_ret.
  - destruct (lines_loop (length (left ++ c :: chunk)) pattern (left ++ c :: chunk) 0) as [o p] eqn:Hl.
    apply fmap_Some in Hg as (out' & Hg & ->).
    destruct (IH (if (p =? 0)%nat then [] else drop p (left ++ c :: chunk)) inp' out' (emit 1 o s1)) as [inp2 H2];
      [cbn; apply lookup_insert_eq|exact Hg|].
    exists inp2. eapply runs_iter_more.
    { eapply runs_sys; [exact Hk|]. cbv beta iota zeta. rewrite Hl. apply write_runs; [by left|]. apply runs_ret. }
    rewrite <-emit_app. revert H2. unfold emit. cbn. by rewrite insert_insert_eq.
Qed.

Lemma grep_fd_runs pattern fd inp out s :
  kfds s !! fd = Some inp -> grep pattern inp = Some out ->
  exists inp', kruns (grep_fd pattern fd) s
    (Returned tt (emit 1 out (mkKst (kfiles s) (<[fd := inp']> (kfds s)) (kout s) (kerr s)))).
Proof. apply grep_loop_runs. Qed.

(** ** wc *)

Definition blank (c : Z) : bool := bool_decide (strchr [32; 13; 9; 10; 11] c <> None).

(** The pieces between blanks, and the words: those that are not empty. *)
Definition add_char (c : Z) (ws : list (list Z)) : list (list Z) :=
  if blank c then [] :: ws else match ws with [] => [[c]] | w :: ws => (c :: w) :: ws end.
Definition fields (l : list Z) : list (list Z) := foldr add_char [[]] l.
Definition words (l : list Z) : nat := length (filter (fun w => w <> []) (fields l)).
Definition newlines (l : list Z) : nat := length (filter (fun c => c = 10) l).

Lemma fields_cons l : exists w ws, fields l = w :: ws.
Proof.
  induction l as [|c l (w & ws & E)]; [by exists [], []|]. change (fields (c :: l)) with (add_char c (fields l)).
  unfold add_char. rewrite E. destruct (blank c); eauto.
Qed.

(** The text starts inside a word. *)
Definition in_head (l : list Z) : bool := match l with c :: _ => negb (blank c) | [] => false end.

Lemma words_cons c l :
  words (c :: l) = (words l + (if negb (blank c) && negb (in_head l) then 1 else 0))%nat.
Proof.
  unfold words. change (fields (c :: l)) with (add_char c (fields l)). unfold add_char.
  destruct (fields_cons l) as (w & ws & E). destruct (blank c); cbn [negb andb].
  { rewrite filter_cons_False by auto. lia. }
  rewrite E. rewrite filter_cons_True by done. cbn [length].
  destruct l as [|d l]; cbn [in_head negb].
  { injection E as <- <-. done. }
  change (fields (d :: l)) with (add_char d (fields l)) in E. destruct (fields_cons l) as (w' & ws' & E').
  unfold add_char in E. destruct (blank d); cbn [negb].
  - injection E as <- <-. rewrite filter_cons_False by auto. lia.
  - rewrite E' in E. injection E as <- <-. rewrite filter_cons_True by done. cbn [length]. lia.
Qed.

Lemma newlines_cons c l : newlines (c :: l) = ((if (c =? 10)%Z then 1 else 0) + newlines l)%nat.
Proof.
  unfold newlines. destruct (Z.eqb_spec c 10); [by rewrite filter_cons_True|by rewrite filter_cons_False].
Qed.

(** The loop counts, as long as the counters do not overflow. *)
Lemma wc_count l s :
  0 <= wl s -> 0 <= ww s -> 0 <= wchars s ->
  wl s + Z.of_nat (length l) < 2 ^ 31 -> ww s + Z.of_nat (length l) < 2 ^ 31 -> wchars s + Z.of_nat (length l) < 2 ^ 31 ->
  let s' := foldl wc_char s l in
  wl s' = wl s + Z.of_nat (newlines l) /\ wchars s' = wchars s + Z.of_nat (length l) /\
  ww s' = ww s + Z.of_nat (words l) - (if inword s && in_head l then 1 else 0).
Proof.
  revert s. induction l as [|c l IH]; intros s H1 H2 H3 B1 B2 B3; cbn [foldl length] in *.
  { change (words []) with 0%nat. cbn. rewrite andb_false_r. lia. }
  rewrite words_cons, newlines_cons. 
  assert (forall z, 0 <= z -> z + 1 < 2 ^ 31 -> s32 (z + 1) = z + 1) as Hs by (intros; apply s32_small; unfold is_s32; lia).
  assert (wc_char s c = mkCounts (wl s + if c =? 10 then 1 else 0)
    (ww s + if negb (blank c) && negb (inword s) then 1 else 0) (wchars s + 1) (negb (blank c))) as ->.
  { unfold wc_char. fold (blank c). rewrite !Hs by lia.
    destruct (c =? 10), (blank c), (inword s); cbn; rewrite ?Z.add_0_r; done. }
  match goal with |- context [foldl wc_char ?w l] => destruct (IH w) as (E1 & E2 & E3) end; cycle 6.
  { rewrite E1, E2, E3. cbn [wl ww wchars inword in_head].
    destruct (c =? 10), (blank c), (inword s), (in_head l); cbn [negb andb]; lia. }
  all: cbn [wl ww wchars]; destruct (c =? 10), (negb (blank c) && negb (inword s)); lia.
Qed.

(** ** Decimal numbers fit the buffer of printf *)

Lemma digit_loop_total n fuel x :
  0 <= x < 10 ^ Z.of_nat n -> (0 < n <= fuel)%nat -> exists ds, digit_loop fuel x 10 = Some ds /\ (length ds <= n)%nat.
Proof.
  revert fuel x. induction n as [|n IH]; intros fuel x Hx Hn; [lia|]. destruct fuel as [|fuel]; [lia|].
  cbn [digit_loop]. destruct (Z.eqb_spec (x / 10) 0) as [_|Hne]; [eexists; split; [done|cbn; lia]|].
  rewrite Nat2Z.inj_succ, Z.pow_succ_r in Hx by lia.
  assert (0 <= x / 10 < 10 ^ Z.of_nat n) as Hd by (split; [apply Z.div_pos|apply Z.div_lt_upper_bound]; lia).
  destruct n as [|n]; [cbn in Hd; lia|].
  destruct (IH fuel (x / 10) Hd ltac:(lia)) as (ds & -> & Hl). eexists. split; [done|cbn; lia].
Qed.

Lemma printint_decimal z : exists t, printint z 10 true = Some t.
Proof.
  unfold printint. cbn [andb].
  assert (exists ds, digit_loop 16 (if s32 z <? 0 then u32 (- s32 z) else u32 z) 10 = Some ds /\ (length ds <= 10)%nat) as (ds & -> & Hl).
  { apply digit_loop_total; [|lia]. pose proof (u32_range (- s32 z)) as H1. pose proof (u32_range z) as H2.
    unfold is_u32 in *. cbn. destruct (s32 z <? 0); lia. }
  cbn. destruct (Z.ltb_spec 16 (Z.of_nat (length (if s32 z <? 0 then ds ++ [45] else ds)))) as [Hlt|_]; [|eauto].
  destruct (s32 z <? 0); rewrite ?length_app in Hlt; cbn in Hlt; lia.
Qed.

(** The line that wc prints for a text [l]. *)
Definition wc_line (l name : list Z) : option (list Z) :=
  printf "%d %d %d %s
" [AInt (Z.of_nat (newlines l)); AInt (Z.of_nat (words l)); AInt (Z.of_nat (length l)); AStr name].

Lemma printf_d z ap fmt t :
  printint z 10 true = Some t ->
  printf_loop false (37 :: 100 :: 32 :: fmt) (AInt z :: ap) = (fun r => t ++ 32 :: r) <$> printf_loop false fmt ap.
Proof. intros Ht. cbn -[printint]. rewrite Ht. cbn. by destruct (printf_loop false fmt ap). Qed.

Lemma wc_line_some l name : exists t, wc_line l name = Some t.
Proof.
  unfold wc_line. destruct (printint_decimal (Z.of_nat (newlines l))) as [a Ha].
  destruct (printint_decimal (Z.of_nat (words l))) as [b Hb]. destruct (printint_decimal (Z.of_nat (length l))) as [c Hc].
  unfold printf. change (str _) with [37; 100; 32; 37; 100; 32; 37; 100; 32; 37; 115; 10].
  rewrite (printf_d _ _ _ _ Ha), (printf_d _ _ _ _ Hb), (printf_d _ _ _ _ Hc). by eexists.
Qed.

(** The counting loop is the same however read cuts the text. *)
Lemma wc_runs fd inp name s t :
  kfds s !! fd = Some inp -> pieces inp -> Z.of_nat (length (concat inp)) < 2 ^ 31 ->
  wc_line (concat inp) name = Some t ->
  kruns (wc fd name) s (Returned tt (emit 1 t (drained fd s))).
Proof.
  intros Hfd Hp Hlen Ht. unfold wc. eapply (runs_bind _ _ _ _ (Returned (foldl wc_char (mkCounts 0 0 0 false) (concat inp)) (drained fd s))).
  - clear Hlen Ht. generalize (mkCounts 0 0 0 false). revert inp s Hfd Hp.
    induction inp as [inp IH] using (induction_ltof1 _ (fun l => length (concat l))). unfold ltof in IH.
    intros s Hfd Hp w. destruct (read 512 inp) as [b inp'] eqn:Hr.
    destruct (read_pieces 512 inp b inp' ltac:(lia) Hp Hr) as (Hp' & Hcat & Hnil).
    assert (kernel _ (Read fd 512) s = Some (Some b, mkKst (kfiles s) (<[fd := inp']> (kfds s)) (kout s) (kerr s))) as Hk.
    { cbn. by rewrite Hfd, Hr. }
    destruct b as [|c b].
    + rewrite Hnil in * by done. injection Hr as <-. apply runs_iter_done. eapply runs_sys; [exact Hk|]. apply runs_ret.
    + eapply runs_iter_more; [eapply runs_sys; [exact Hk|]; cbn beta iota; apply runs_ret|].
      rewrite Hcat, foldl_app.
      replace (drained fd s) with (drained fd (mkKst (kfiles s) (<[fd := inp']> (kfds s)) (kout s) (kerr s)))
        by (unfold drained; cbn; by rewrite insert_insert_eq).
      apply IH; [rewrite Hcat, length_app; cbn; lia|cbn; apply lookup_insert_eq|done].
  - cbn [continue]. apply print_runs; [by left|]. rewrite <-Ht. unfold wc_line.
    destruct (wc_count (concat inp) (mkCounts 0 0 0 false)) as (E1 & E2 & E3); cbn [wl ww wchars inword andb] in *; try lia.
    by rewrite E1, E2, E3, !Z.add_0_l, Z.sub_0_r.
Qed.

(** ** rm and ls *)

Definition removed (names : list (list Z)) (s : kst) : kst :=
  mkKst (foldl (fun m n => delete n m) (kfiles s) names) (kfds s) (kout s) (kerr s).

(** rm removes the names before the first that does not exist, and reports that one. *)
Lemma rm_loop_runs names rest s o :
  NoDup names -> Forall (fun n => is_Some (kfiles s !! n)) names ->
  kruns (rm_loop rest) (removed names s) o -> kruns (rm_loop (names ++ rest)) s o.
Proof.
  revert s. induction names as [|n names IH]; intros s Hnd Hall Ho; cbn [rm_loop app].
  - by destruct s.
  - apply NoDup_cons in Hnd as [Hn Hnd]. apply Forall_cons in Hall as [[x Hx] Hall].
    eapply runs_sys; [cbn; by rewrite Hx|]. cbn [Z.ltb Z.compare]. apply IH; [done| |exact Ho].
    apply Forall_forall. intros m Hm. rewrite Forall_forall in Hall. cbn.
    rewrite lookup_delete_ne by set_solver. auto.
Qed.

Lemma rm_stops names bad rest s :
  NoDup names -> Forall (fun n => is_Some (kfiles s !! n)) names -> kfiles s !! bad = None ->
  Forall (fun c => c <> 0) bad ->
  kruns (rm_loop (names ++ bad :: rest)) s
    (Returned tt (emit 2 (str "rm: " ++ bad ++ str " failed to delete
") (removed names s))).
Proof.
  intros Hnd Hall Hbad Hz. apply rm_loop_runs; [done..|]. cbn [rm_loop].
  assert (kfiles (removed names s) !! bad = None) as Hn.
  { cbn. revert Hbad. generalize (kfiles s). clear. induction names as [|n names IH]; intros m Hm; [done|].
    cbn. apply IH. destruct (decide (n = bad)) as [-> |]; [apply lookup_delete_eq|by rewrite lookup_delete_ne]. }
  eapply (runs_sys _ _ _ _ (-1) (removed names s)); [cbn in *; by rewrite Hn|]. cbn [Z.ltb Z.compare].
  apply print_runs; [by right|]. by rewrite <-(chars_all bad Hz) at 2.
Qed.

(** ls shows the last element of a path, in at least DIRSIZ columns. *)
Lemma base_dir dir name : 47 ∉ name -> base (dir ++ 47 :: name) = name.
Proof.
  intros Hn. assert (base name = name) as Hb.
  { destruct name as [|c name]; [done|]. cbn. apply not_elem_of_cons in Hn as [Hc Hn].
    replace (c =? 47) with false by lia. by rewrite bool_decide_false. }
  induction dir as [|c dir IH]; cbn; [done|]. rewrite bool_decide_true by set_solver. by rewrite orb_true_r.
Qed.

Lemma fmtname_length path : Z.of_nat (length (fmtname path)) = Z.max DIRSIZ (Z.of_nat (length (base path))).
Proof.
  unfold fmtname. destruct (Z.leb_spec DIRSIZ (Z.of_nat (length (base path)))) as [H|H]; [lia|].
  rewrite length_app, length_replicate. unfold DIRSIZ in *. lia.
Qed.

(** ** init *)

Section persist.
Context {S : Type} (h : forall X, sysE X -> S -> option (X * S)).

(** The program never exits. *)
Definition persists {R : Type} (t : itree sysE R) : Prop := forall n s s', run h n t s <> Some (Exited s').

Lemma run_bind_inv {R Q} n (t : itree sysE R) (k : R -> itree sysE Q) s o :
  run h n (ITree.bind t k) s = Some o ->
  (exists s', run h n t s = Some (Exited s')) \/
  exists r s' m, run h n t s = Some (Returned r s') /\ (m <= n)%nat /\ run h m (k r) s' = Some o.
Proof.
  revert t s. induction n as [|n IH]; intros t s; [done|]. cbn.
  assert (observe (ITree.bind t k) = observe (match observe t with
    | RetF r => k r | TauF t => Tau (ITree.bind t k) | VisF e f => Vis e (fun x => ITree.bind (f x) k) end)) as -> by done.
  destruct (observe t) as [r|t'|X e f]; cbn.
  - intros H. right. exists r, s, (Datatypes.S n). done.
  - intros H. destruct (IH _ _ H) as [?|(r & s' & m & H1 & H2 & H3)]; [by left|]. right. exists r, s', m. split_and!; [done|lia|done].
  - destruct (h X e s) as [[x s1]|]; [|eauto]. intros H.
    destruct (IH _ _ H) as [?|(r & s' & m & H1 & H2 & H3)]; [by left|]. right. exists r, s', m. split_and!; [done|lia|done].
Qed.

Lemma persists_ret {R} (r : R) : persists (Ret r).
Proof. intros [|n] s s'; done. Qed.

Lemma persists_bind {R Q} (t : itree sysE R) (k : R -> itree sysE Q) :
  persists t -> (forall r, persists (k r)) -> persists (ITree.bind t k).
Proof.
  intros Ht Hk n s s' H. destruct (run_bind_inv _ _ _ _ _ H) as [[s1 H1]|(r & s1 & m & _ & _ & H1)].
  - by eapply Ht.
  - by eapply Hk.
Qed.

(** A call that is answered, with an answer that satisfies [P]. *)
Lemma persists_sys {X Q} (e : sysE X) (P : X -> Prop) (k : X -> itree sysE Q) :
  (forall s, exists x s', h X e s = Some (x, s') /\ P x) -> (forall x, P x -> persists (k x)) ->
  persists (ITree.bind (sys e) k).
Proof.
  intros He Hk n s s' H. destruct (run_bind_inv _ _ _ _ _ H) as [[s1 H1]|(r & s1 & m & H0 & _ & H1)].
  - destruct n as [|n]; [done|]. cbn in H1. destruct (He s) as (x & s2 & E & _). rewrite E in H1. by destruct n.
  - destruct n as [|n]; [done|]. cbn in H0. destruct (He s) as (x & s2 & E & Hx). rewrite E in H0.
    destruct n as [|n]; [done|]. injection H0 as <- <-. by eapply Hk.
Qed.

Lemma persists_iter {I R} (f : I -> itree sysE (I + R)) i : (forall i, persists (f i)) -> persists (ITree.iter f i).
Proof.
  intros Hf n. revert i. induction n as [n IH] using lt_wf_ind. intros i s s' H. destruct n as [|n]; [done|].
  change (run h (Datatypes.S n) (ITree.bind (f i) (fun lr => match lr with inl l => Tau (ITree.iter f l) | inr r => Ret r end)) s
          = Some (Exited s')) in H.
  destruct (run_bind_inv _ _ _ _ _ H) as [[s1 H1]|(r & s1 & m & _ & Hm & H1)]; [by eapply Hf|].
  destruct m as [|m]; [done|]. destruct r as [i'|r]; [|done]. cbn in H1. eapply (IH m); [lia|exact H1].
Qed.

(** The kernel answers every call but exit, and fork succeeds in the parent. *)
Context (Hwrite : forall fd b s, exists x s', h _ (Write fd b) s = Some (x, s'))
        (Hwait : forall s, exists x s', h _ Wait s = Some (x, s'))
        (Hopen : forall p m s, exists x s', h _ (Open p m) s = Some (x, s'))
        (Hmknod : forall p a b s, exists x s', h _ (Mknod p a b) s = Some (x, s'))
        (Hdup : forall fd s, exists x s', h _ (Dup fd) s = Some (x, s'))
        (Hfork : forall s, exists x s', h _ Fork s = Some (x, s') /\ 0 < x).

Lemma persists_answered {X Q} (e : sysE X) (k : X -> itree sysE Q) :
  (forall s, exists x s', h X e s = Some (x, s')) -> (forall x, persists (k x)) -> persists (ITree.bind (sys e) k).
Proof. intros He Hk. apply (persists_sys e (fun _ => True)); [|auto]. intros s. destruct (He s) as (x & s' & ->). eauto. Qed.

Lemma persists_putcs fd l : persists (putcs fd l).
Proof. induction l as [|c l IH]; [apply persists_ret|]. by apply persists_answered. Qed.

Lemma persists_reap pid : persists (reap pid).
Proof.
  apply persists_iter. intros _. apply persists_answered; [done|]. intros w. destruct (_ && _).
  - apply persists_bind; [apply persists_putcs|intros; apply persists_ret].
  - apply persists_ret.
Qed.

Lemma persists_init_loop : persists init_loop.
Proof.
  apply persists_iter. intros _. apply persists_bind; [apply persists_putcs|]. intros _.
  apply (persists_sys Fork (fun pid => 0 < pid)); [done|]. intros pid Hpid.
  replace (pid <? 0) with false by lia. replace (pid =? 0) with false by lia.
  apply persists_bind; [apply persists_reap|intros; apply persists_ret].
Qed.

(** init runs for ever: no number of steps ends it. *)
Lemma init_for_ever n s : run h n init_main s = None.
Proof.
  destruct (run h n init_main s) as [o|] eqn:H; [|done]. exfalso. destruct o as [[]|s']. revert H.
  apply persists_answered; [done|]. intros fd. apply persists_bind.
  - destruct (fd <? 0); [|apply persists_ret]. apply persists_answered; [done|]. intros _.
    apply persists_answered; [done|]. intros _. apply persists_ret.
  - intros _. apply persists_answered; [done|]. intros _. apply persists_answered; [done|]. intros _.
    apply persists_init_loop.
Qed.

End persist.
