(* ===== verification/Main.v ===== *)
(** * Starting the kernel: main.c

    The devices are a state of their own beside the kernel's: a function that programs them takes
    and returns it.  What the other processors do while this one waits is a step of the
    environment.  The image of entryother.S and the addresses of mpenter and entrypgdir are given by
    the link; [imcr_port] is what inb(0x23) returns. *)

From stdpp Require Import base list gmap strings fin_maps.
From S2P Require Import Prelude State Monad Spinlock Console Kalloc Str Vm Sched Disk Bio Inode ConsoleDev File Proc Trap Mp Devices Bootmain.
Open Scope Z_scope.

(** ** The boot page directory *)

Definition PTE_PS : Z := 0x080.

Definition entrypgdir : list Z :=
  <[Z.to_nat (Z.shiftr KERNBASE PDXSHIFT) := Z.lor (Z.lor (Z.lor 0 PTE_P) PTE_W) PTE_PS]>
    (<[0%nat := Z.lor (Z.lor (Z.lor 0 PTE_P) PTE_W) PTE_PS]> (replicate (Z.to_nat NPDENTRIES) 0)).

(** The hardware walk through 4MB pages. *)
Definition big_xlate (dir : list Z) (va : Z) : option Z :=
  let d := nthz 0 dir (PDX va) in
  if has d PTE_P && has d PTE_PS then Some (Z.land d 0xFFC00000 + va mod 2 ^ 22) else None.

Lemma entrypgdir_nth i : 0 <= i < NPDENTRIES -> nthz 0 entrypgdir i = if (i =? 0) || (i =? 512) then 0x83 else 0.
Proof.
  unfold NPDENTRIES. intros Hi. unfold nthz, entrypgdir. replace (i <? 0) with false by lia.
  change (Z.to_nat (Z.shiftr KERNBASE PDXSHIFT)) with 512%nat.
  destruct (Z.eqb_spec i 512) as [->|Hne].
  { change (Z.to_nat 512) with 512%nat. rewrite list_lookup_insert_eq; [done|].
    rewrite length_insert, length_replicate. unfold NPDENTRIES. lia. }
  rewrite list_lookup_insert_ne by lia. destruct (Z.eqb_spec i 0) as [->|Hne0]; [done|].
  rewrite list_lookup_insert_ne by lia. rewrite lookup_replicate_2 by (unfold NPDENTRIES; lia). done.
Qed.

(** Low memory and its kernel addresses, and nothing else, are mapped while the kernel starts. *)
Lemma entrypgdir_maps va :
  is_u32 va ->
  big_xlate entrypgdir va =
    if va <? 2 ^ 22 then Some va
    else if (KERNBASE <=? va) && (va <? KERNBASE + 2 ^ 22) then Some (V2P va) else None.
Proof.
  intros Hva. unfold is_u32 in Hva.
  assert (0 <= va / 2 ^ 22 < 1024) as Hr by (split; [apply Z.div_pos|apply Z.div_lt_upper_bound]; lia).
  assert (PDX va = va / 2 ^ 22) as E.
  { unfold PDX, PDXSHIFT. rewrite Z.shiftr_div_pow2 by lia. change 0x3FF with (Z.ones 10). rewrite Z.land_ones by lia.
    by apply Z.mod_small. }
  unfold big_xlate. rewrite E, entrypgdir_nth by done.
  pose proof (Z.div_mod va (2 ^ 22)) as Hd. pose proof (Z.mod_pos_bound va (2 ^ 22)) as Hm.
  destruct (Z.eqb_spec (va / 2 ^ 22) 0) as [H0|H0]; [|destruct (Z.eqb_spec (va / 2 ^ 22) 512) as [H1|H1]]; cbn [orb].
  - change (Z.land 131 4290772992) with 0. replace (va <? 2 ^ 22) with true by lia. cbn. f_equal. lia.
  - change (Z.land 131 4290772992) with 0. unfold V2P, KERNBASE. rewrite u32_small by (unfold is_u32; lia).
    bool_arith; try lia. f_equal. lia.
  - cbn [has]. unfold KERNBASE. bool_arith; done || lia.
Qed.

Section main.
Context `{BlockDriver} (entryother : list Z) (mpenter_addr entrypgdir_addr imcr_port : Z).

(** ** mpinit and the devices on the kernel state *)

(** [cpus[ncpu].apicid = proc->apicid; ncpu++;] for the processors found. *)
Definition record_cpus (i : mpinfo) (sy : ksync) : ksync :=
  sy <| State.ncpu := Mp.ncpu i |>
     <| cpus ::= imap (fun k c => match apicids i !! k with Some a => c <| apicid := a |> | None => c end) |>.

Definition run_mpinit (d : devices) : M (mpinfo * devices) :=
  r ← gets (fun s => Mp.mpinit (mem (vm s))) ;
  match r with
  | MpPanic msg => panic msg
  | MpLoops => hang
  | MpDone i imcr =>
      modify (fun s => s <| sync ::= record_cpus i |>) ;;
      ret (i, if imcr then outb 0x23 (Z.lor imcr_port 1) (outb 0x22 0x70 d) else d)
  end.

(** ** startothers *)

Definition code : Z := P2V 0x7000.

(** [while(c->started == 0) ;] *)
Fixpoint await_started (n : nat) (i : nat) : M unit :=
  match n with
  | O => nofuel
  | S n =>
      c ← get_cpu i ;
      if started c =? 0 then switch ;; await_started n i else ret tt
  end.

(** The body of the loop for the processor [i], which is not this one. *)
Definition start_ap (n i : nat) (d : devices) : M devices :=
  stack ← kalloc ;
  kstore (code - 4) (u32 (stack + KSTACKSIZE)) ;;
  kstore (code - 8) mpenter_addr ;;
  kstore (code - 12) (V2P entrypgdir_addr) ;;
  c ← get_cpu i ;
  let d := lapicstartap (apicid c) (V2P code) d in
  await_started n i ;;
  ret d.

Fixpoint start_loop (n : nat) (l : list nat) (d : devices) : M devices :=
  match l with
  | [] => ret d
  | i :: l =>
      me ← mycpu ;
      if bool_decide (i = me) then start_loop n l d
      else d ← start_ap n i d ; start_loop n l d
  end.

Definition startothers (n : nat) (d : devices) : M devices :=
  set_vm (fun w => w <| mem ::= fun m => store_bytes m code entryother |>) ;;
  k ← gets (fun s => State.ncpu (sync s)) ;
  start_loop n (seq 0 (Z.to_nat k)) d.

(** ** mpmain, mpenter, main *)

(** idtinit loads the address of idt, which tvinit has built; the scheduler makes [passes] passes. *)
Definition mpmain (passes : nat) : M unit :=
  a ← cpuid ;
  b ← cpuid ;
  cprintf "cpu%d: starting %d
" [AInt a; AInt b] ;;
  i ← mycpu ;
  set_cpu i (fun c => c <| started := 1 |>) ;;
  scheduler passes.

Definition mpenter (lapic : Z) (passes : nat) (d : devices) : M devices :=
  switchkvm ;;
  seginit ;;
  let d := lapicinit lapic d in
  mpmain passes ;;
  ret d.

(** [status] is the line status of the serial port, [name] the path buffer of userinit's namei. *)
Definition main (status : Z) (name : list Z) (n passes : nat) (d : devices) : M devices :=
  lk ← gets link ;
  kinit1 (l_end lk) (P2V (4 * 1024 * 1024)) ;;
  kvmalloc ;;
  r ← run_mpinit d ;
  let '(i, d) := r in
  let d := lapicinit (lapic i) d in
  seginit ;;
  let d := picinit d in
  let '(d, wrong_id) := ioapicinit (ioapicid i) d in
  when wrong_id (cprintf "ioapicinit: id isn't equal to ioapicid; not a MP
" []) ;;
  consoleinit ;;
  let d := ioapicenable IRQ_KBD 0 d in
  let '(d, uart) := uartinit status d in
  pinit ;;
  tvinit ;;
  binit ;;
  fileinit ;;
  ideinit ;;
  let d := ioapicenable IRQ_IDE (Mp.ncpu i - 1) d in
  d ← startothers n d ;
  kinit2 (P2V (4 * 1024 * 1024)) (P2V PHYSTOP) ;;
  userinit name ;;
  mpmain passes ;;
  ret d.

(** ** Starting a processor *)

(** The words below the code, which entryother.S reads. *)
Definition trampoline (m : gmap Z Z) : Z * Z * Z :=
  (Kalloc.word_at m (0x7000 - 4), Kalloc.word_at m (0x7000 - 8), Kalloc.word_at m (0x7000 - 12)).

Lemma tramp_word_store m a w b : a mod 4 = 0 -> b mod 4 = 0 ->
  Kalloc.word_at (<[a / 4 := w]> m) b = if a =? b then w else Kalloc.word_at m b.
Proof.
  intros Ha Hb. unfold Kalloc.word_at. destruct (Z.eqb_spec a b) as [->|Hne]; [by rewrite lookup_insert_eq|].
  rewrite lookup_insert_ne; [done|]. intros E. apply Hne.
  rewrite (Z.div_mod a 4), (Z.div_mod b 4) by lia. lia.
Qed.

(** The memory when the processor starts: a page off the free list as its stack. *)
Definition ap_vm (v : Z) (w : vmst) : vmst :=
  w <| freelist := Kalloc.word_at (mem w) (V2P v) |>
    <| mem ::= <[V2P (code - 4) / 4 := u32 (u32 (v + KSTACKSIZE))]> |>
    <| mem ::= <[V2P (code - 8) / 4 := u32 mpenter_addr]> |>
    <| mem ::= <[V2P (code - 12) / 4 := u32 (V2P entrypgdir_addr)]> |>.

Lemma ap_vm_mem v w a :
  a mod 4 = 0 -> Kalloc.word_at (mem (ap_vm v w)) a =
    if 0x7000 - 12 =? a then u32 (V2P entrypgdir_addr) else
    if 0x7000 - 8 =? a then u32 mpenter_addr else
    if 0x7000 - 4 =? a then u32 (u32 (v + KSTACKSIZE)) else Kalloc.word_at (mem w) a.
Proof. intros Ha. unfold ap_vm. cbn [mem upd eta_vmst]. by rewrite !tramp_word_store. Qed.

Lemma ap_vm_trampoline v w :
  is_u32 (v + KSTACKSIZE) -> is_u32 mpenter_addr ->
  trampoline (mem (ap_vm v w)) = (v + KSTACKSIZE, mpenter_addr, V2P entrypgdir_addr).
Proof.
  intros Hv Hm. unfold trampoline. rewrite !ap_vm_mem by done.
  by rewrite !u32_small by (done || apply u32_range).
Qed.

Lemma ap_vm_inv v s pages :
  kmem_inv s (v :: pages) -> KERNBASE + 0x7000 <= l_end (link s) -> kmem_inv (s <| vm ::= ap_vm v |>) pages.
Proof.
  intros (Hen & Hfl & Hnd & Hpg) Hend. apply NoDup_cons in Hnd as [Hni Hnd]. apply Forall_cons in Hpg as [Hp Hpg].
  split; [done|]. split; [|done]. inversion Hfl as [|v' l' Hv Hl]; subst.
  apply (flist_frame _ _ _ _ Hl). intros v' Hv'. rewrite Forall_forall in Hpg. specialize (Hpg v' Hv').
  cbn [vm upd]. pose proof (V2P_aligned _ _ Hen Hpg) as Hal.
  rewrite ap_vm_mem by (unfold PGSIZE in Hal; Z.div_mod_to_equations; lia).
  rewrite (V2P_page (l_end (link s))) by done. unfold is_page in Hpg. bool_arith; done || lia.
Qed.

Lemma start_ap_run i d f e s v pages c c' (s1 := s <| vm ::= ap_vm v |>) :
  kmem_inv s (v :: pages) -> use_lock (vm s) = 0 ->
  cpus (sync s) !! i = Some c -> started c = 0 ->
  cpus (sync (f s1)) !! i = Some c' -> started c' <> 0 ->
  start_ap 2 i d (f :: e) s = Ret (lapicstartap (apicid c) 0x7000 d) e (f s1).
Proof.
  intros (Hen & Hfl & _ & Hpg) Hul Hc Hst Hc' Hst'. unfold start_ap.
  erewrite bind_Ret by (apply kalloc_run; by left). unfold kmem_sync. rewrite Hul. cbn [Z.eqb].
  inversion Hfl as [|v' l' Hv Hl]; subst. apply Z.eqb_neq in Hv.
  do 3 erewrite bind_Ret by reflexivity.
  match goal with |- _ _ ?st = _ => replace st with s1 end.
  2: { unfold s1, ap_vm, upd. cbn. rewrite Hv. by destruct s. }
  change (cpus (sync s)) with (cpus (sync s1)) in Hc. unfold get_cpu. prim. rewrite Hc. prim.
  cbn [await_started]. unfold get_cpu. prim. rewrite Hc. prim. rewrite Hst. cbn [Z.eqb]. prim.
  rewrite Hc'. prim. destruct (Z.eqb_spec (started c') 0); [done|]. by prim.
Qed.

End main.
